(** * Garden Wars realtime battle server: cost system, combat system, battle room

    A shallow embedding of [ServerCostSystem.ts], [ServerCombatSystem.ts] and
    [BattleRoom.ts].  JavaScript numbers are read as exact rationals ([Q]);
    counters that the code only ever sets to an integer and steps by one
    ([costLevel], [countdown], kill counts, timestamps) are integers ([Z]).
    A JavaScript [Map] / [MapSchema] is an insertion-ordered association list
    with string keys: the order is what assigns the sides and fixes the
    iteration order of the unit loop.  Objects held in a map are mutated
    through their key, so that every alias of an object sees the mutation. *)

From Stdlib Require Import List String ZArith QArith Qround DecimalString Bool Lia Lqa.
Import ListNotations.

Set Implicit Arguments.

Open Scope string_scope.
Open Scope Q_scope.

(* ================================================================== *)
(** ** JavaScript numbers, arrays and maps                             *)
(* ================================================================== *)

Module Js.

(** Comparisons on numbers, as booleans. *)
Definition leb (a b : Q) : bool := Qle_bool a b.
Definition geb (a b : Q) : bool := Qle_bool b a.
Definition ltb (a b : Q) : bool := negb (Qle_bool b a).
Definition gtb (a b : Q) : bool := negb (Qle_bool a b).

(** [Math.min], [Math.max], [Math.abs]. *)
Definition min (a b : Q) : Q := if leb a b then a else b.
Definition max (a b : Q) : Q := if leb a b then b else a.
Definition abs (a : Q) : Q := if ltb a 0 then - a else a.

(** [arr[i]]: [undefined] (here [None]) outside the array. *)
Definition index {A} (arr : list A) (i : Z) : option A :=
  if (i <? 0)%Z then None else nth_error arr (Z.to_nat i).

(** Truthiness of a string: the empty string is falsy. *)
Definition truthy (s : string) : bool := negb (s =? "")%string.

(** Truthiness of an optional number: [undefined] and [0] are falsy. *)
Definition truthyNum (a : option Q) : bool :=
  match a with
  | Some v => negb (Qeq_bool v 0)
  | None => false
  end.

(** [a || b] on optional numbers, and with a number on the right. *)
Definition or (a b : option Q) : option Q := if truthyNum a then a else b.

Definition numOr (a : option Q) (b : Q) : Q :=
  match or a (Some b) with Some v => v | None => b end.

(** Truthiness of an optional boolean. *)
Definition flag (a : option bool) : bool :=
  match a with Some b => b | None => false end.

(** An insertion-ordered map with string keys. *)
Definition map (V : Type) : Type := list (string * V).

Fixpoint get {V} (k : string) (m : map V) : option V :=
  match m with
  | [] => None
  | (k', v) :: m' => if (k' =? k)%string then Some v else get k m'
  end.

Definition has {V} (k : string) (m : map V) : bool :=
  match get k m with Some _ => true | None => false end.

(** [m.set(k, v)]: an existing key keeps its place, a new key goes last. *)
Fixpoint set {V} (k : string) (v : V) (m : map V) : map V :=
  match m with
  | [] => [(k, v)]
  | (k', v') :: m' =>
      if (k' =? k)%string then (k, v) :: m' else (k', v') :: set k v m'
  end.

Fixpoint delete {V} (k : string) (m : map V) : map V :=
  match m with
  | [] => []
  | (k', v') :: m' =>
      if (k' =? k)%string then m' else (k', v') :: delete k m'
  end.

Definition keys {V} (m : map V) : list string := List.map fst m.
Definition values {V} (m : map V) : list V := List.map snd m.
Definition size {V} (m : map V) : Z := Z.of_nat (List.length m).

(** [arr.indexOf(k)], [-1] when absent. *)
Fixpoint indexOf (k : string) (arr : list string) : Z :=
  match arr with
  | [] => (-1)%Z
  | k' :: arr' =>
      if (k' =? k)%string then 0%Z
      else let i := indexOf k arr' in
           if (i <? 0)%Z then (-1)%Z else (i + 1)%Z
  end.

Definition includes (k : string) (arr : list string) : bool :=
  existsb (fun k' => (k' =? k)%string) arr.

End Js.

(* ================================================================== *)
(** ** schemas/BattleState.ts, data/types.ts                           *)
(* ================================================================== *)

Inductive Side : Type := player1 | player2.

Definition Side_eqb (a b : Side) : bool :=
  match a, b with
  | player1, player1 | player2, player2 => true
  | _, _ => false
  end.

Definition sideName (s : Side) : string :=
  match s with player1 => "player1" | player2 => "player2" end.

Inductive UnitState : Type :=
  SPAWN | WALK | ATTACK_WINDUP | ATTACK_COOLDOWN | HITSTUN | DIE.

Definition isDIE (s : UnitState) : bool :=
  match s with DIE => true | _ => false end.

(** The phases "waiting", "countdown", "playing" and "finished";
    [countdown_phase] leaves the name [countdown] to the field of the
    state. *)
Inductive Phase : Type := waiting | countdown_phase | playing | finished.

Definition Phase_eqb (a b : Phase) : bool :=
  match a, b with
  | waiting, waiting | countdown_phase, countdown_phase
  | playing, playing | finished, finished => true
  | _, _ => false
  end.

(** [UnitDefinition]: an entry of the unit catalog.  [scale] is not declared
    in the interface but is read by [spawnUnit] through a cast. *)
Module UnitDefinition.
Record t : Type := mk {
  id : string;
  name : string;
  rarity : string;
  cost : Q;
  maxHp : Q;
  speed : Q;
  attackDamage : Q;
  attackRange : Q;
  attackCooldownMs : Q;
  attackWindupMs : Q;
  spawnCooldownMs : option Q;
  knockback : Q;
  isBoss : option bool;
  isFlying : option bool;
  scale : option Q
}.
End UnitDefinition.

(** [PlayerSchema]. *)
Module PlayerSchema.
Record t : Type := mk {
  odeyoId : string;
  sessionId : string;
  displayName : string;
  cost : Q;
  maxCost : Q;
  costLevel : Z;
  castleHp : Q;
  maxCastleHp : Q;
  ready : bool;
  deck : list string
}.

Definition set_cost (v : Q) (p : t) : t :=
  mk (odeyoId p) (sessionId p) (displayName p) v (maxCost p) (costLevel p)
     (castleHp p) (maxCastleHp p) (ready p) (deck p).
Definition set_maxCost (v : Q) (p : t) : t :=
  mk (odeyoId p) (sessionId p) (displayName p) (cost p) v (costLevel p)
     (castleHp p) (maxCastleHp p) (ready p) (deck p).
Definition set_costLevel (v : Z) (p : t) : t :=
  mk (odeyoId p) (sessionId p) (displayName p) (cost p) (maxCost p) v
     (castleHp p) (maxCastleHp p) (ready p) (deck p).
Definition set_castleHp (v : Q) (p : t) : t :=
  mk (odeyoId p) (sessionId p) (displayName p) (cost p) (maxCost p)
     (costLevel p) v (maxCastleHp p) (ready p) (deck p).
Definition set_ready (v : bool) (p : t) : t :=
  mk (odeyoId p) (sessionId p) (displayName p) (cost p) (maxCost p)
     (costLevel p) (castleHp p) (maxCastleHp p) v (deck p).

(** [new PlayerSchema()]: the field initialisers of the class. *)
Definition fresh : t := mk "" "" "" 200 1000 1%Z 5000 5000 false [].
End PlayerSchema.

(** [ServerUnit]: the simulator's own record of a unit, with the [width]
    that [spawnUnit] stores in it. *)
Module ServerUnit.
Record t : Type := mk {
  instanceId : string;
  definitionId : string;
  definition : UnitDefinition.t;
  side : Side;
  x : Q;
  hp : Q;
  maxHp : Q;
  state : UnitState;
  stateTimer : Q;
  targetId : option string;
  damageAccumulated : Q;
  width : Q
}.

Definition set_x (v : Q) (u : t) : t :=
  mk (instanceId u) (definitionId u) (definition u) (side u) v (hp u)
     (maxHp u) (state u) (stateTimer u) (targetId u) (damageAccumulated u)
     (width u).
Definition set_hp (v : Q) (u : t) : t :=
  mk (instanceId u) (definitionId u) (definition u) (side u) (x u) v
     (maxHp u) (state u) (stateTimer u) (targetId u) (damageAccumulated u)
     (width u).
Definition set_state (v : UnitState) (u : t) : t :=
  mk (instanceId u) (definitionId u) (definition u) (side u) (x u) (hp u)
     (maxHp u) v (stateTimer u) (targetId u) (damageAccumulated u)
     (width u).
Definition set_stateTimer (v : Q) (u : t) : t :=
  mk (instanceId u) (definitionId u) (definition u) (side u) (x u) (hp u)
     (maxHp u) (state u) v (targetId u) (damageAccumulated u) (width u).
Definition set_targetId (v : option string) (u : t) : t :=
  mk (instanceId u) (definitionId u) (definition u) (side u) (x u) (hp u)
     (maxHp u) (state u) (stateTimer u) v (damageAccumulated u) (width u).
Definition set_damageAccumulated (v : Q) (u : t) : t :=
  mk (instanceId u) (definitionId u) (definition u) (side u) (x u) (hp u)
     (maxHp u) (state u) (stateTimer u) (targetId u) v (width u).
End ServerUnit.

(** [UnitSchema]: the replicated view of a unit, with the [width] that
    [spawnUnit] and [update] write to it.  [side] and [state] only ever
    receive the names of a side and of a unit state; the empty [targetId]
    stands for no target. *)
Module UnitSchema.
Record t : Type := mk {
  instanceId : string;
  definitionId : string;
  side : Side;
  x : Q;
  hp : Q;
  maxHp : Q;
  state : UnitState;
  stateTimer : Q;
  targetId : string;
  width : Q
}.
End UnitSchema.

(** [BattleState]: the replicated room state.  [gameSpeed] and [speedVotes]
    are the fields [BattleRoom.ts] reads and writes for the speed vote;
    BattleState.ts does not declare them. *)
Module BattleState.
Record t : Type := mk {
  phase : Phase;
  gameTime : Q;
  countdown : Z;
  stageLength : Q;
  players : Js.map PlayerSchema.t;
  units : Js.map UnitSchema.t;
  winnerId : string;
  winReason : string;
  gameSpeed : Z;
  speedVotes : Js.map bool
}.

Definition set_phase (v : Phase) (s : t) : t :=
  mk v (gameTime s) (countdown s) (stageLength s) (players s) (units s)
     (winnerId s) (winReason s) (gameSpeed s) (speedVotes s).
Definition set_gameTime (v : Q) (s : t) : t :=
  mk (phase s) v (countdown s) (stageLength s) (players s) (units s)
     (winnerId s) (winReason s) (gameSpeed s) (speedVotes s).
Definition set_countdown (v : Z) (s : t) : t :=
  mk (phase s) (gameTime s) v (stageLength s) (players s) (units s)
     (winnerId s) (winReason s) (gameSpeed s) (speedVotes s).
Definition set_stageLength (v : Q) (s : t) : t :=
  mk (phase s) (gameTime s) (countdown s) v (players s) (units s)
     (winnerId s) (winReason s) (gameSpeed s) (speedVotes s).
Definition set_players (v : Js.map PlayerSchema.t) (s : t) : t :=
  mk (phase s) (gameTime s) (countdown s) (stageLength s) v (units s)
     (winnerId s) (winReason s) (gameSpeed s) (speedVotes s).
Definition set_units (v : Js.map UnitSchema.t) (s : t) : t :=
  mk (phase s) (gameTime s) (countdown s) (stageLength s) (players s) v
     (winnerId s) (winReason s) (gameSpeed s) (speedVotes s).
Definition set_winnerId (v : string) (s : t) : t :=
  mk (phase s) (gameTime s) (countdown s) (stageLength s) (players s)
     (units s) v (winReason s) (gameSpeed s) (speedVotes s).
Definition set_winReason (v : string) (s : t) : t :=
  mk (phase s) (gameTime s) (countdown s) (stageLength s) (players s)
     (units s) (winnerId s) v (gameSpeed s) (speedVotes s).
Definition set_gameSpeed (v : Z) (s : t) : t :=
  mk (phase s) (gameTime s) (countdown s) (stageLength s) (players s)
     (units s) (winnerId s) (winReason s) v (speedVotes s).
Definition set_speedVotes (v : Js.map bool) (s : t) : t :=
  mk (phase s) (gameTime s) (countdown s) (stageLength s) (players s)
     (units s) (winnerId s) (winReason s) (gameSpeed s) v.

(** Modelled from the spec: the initial values of [gameSpeed] and
    [speedVotes], whose declarations are missing from BattleState.ts.  The
    agreed speed is 1 or 2 and is recomputed on every join, leave and vote:
    a new state has speed 1 and no votes.  The other fields are the
    initialisers of [new BattleState()]. *)
Definition fresh : t := mk waiting 0 3%Z 1200 [] [] "" "" 1%Z [].
End BattleState.

(* ================================================================== *)
(** ** systems/ServerCostSystem.ts                                     *)
(* ================================================================== *)

Module ServerCostSystem.

(** [COST_CONFIG] and [INITIAL_COST]. *)
Definition maxLevels : list Q :=
  [1000; 2500; 4500; 7000; 10000; 15000; 25000; 99999].
Definition upgradeCosts : list Q :=
  [500; 1200; 2500; 4500; 8000; 12000; 20000].
Definition regenRates : list Q :=
  [100; 150; 250; 400; 600; 900; 1500; 2500].
Definition INITIAL_COST : Q := 200.

Definition update (player : PlayerSchema.t) (deltaMs : Q) : PlayerSchema.t :=
  let levelIndex := (PlayerSchema.costLevel player - 1)%Z in
  let regenRate :=
    match Js.index regenRates levelIndex with
    | Some r => r
    | None => hd 0 regenRates
    end in
  let regen := regenRate * (deltaMs / 1000) in
  PlayerSchema.set_cost (Js.min (PlayerSchema.cost player + regen) (PlayerSchema.maxCost player))
                  player.

(** The boolean is the function's return value. *)
Definition spend (player : PlayerSchema.t) (amount : Q) : PlayerSchema.t * bool :=
  if Js.geb (PlayerSchema.cost player) amount
  then (PlayerSchema.set_cost (PlayerSchema.cost player - amount) player, true)
  else (player, false).

Definition canAfford (player : PlayerSchema.t) (amount : Q) : bool :=
  Js.geb (PlayerSchema.cost player) amount.

(** In [upgradeMax] the last read [maxLevels[costLevel - 1]] is in range
    whenever it is reached (lemma [upgradeMax_maxLevels_defined]); the
    [None] branch stands for JavaScript's [undefined] and leaves [maxCost]
    as it was. *)
Definition upgradeMax (player : PlayerSchema.t) : PlayerSchema.t * bool :=
  let levelIndex := (PlayerSchema.costLevel player - 1)%Z in
  if (levelIndex >=? Z.of_nat (List.length maxLevels) - 1)%Z then (player, false)
  else
    match Js.index upgradeCosts levelIndex with
    | None => (player, false)
    | Some upgradeCost =>
        if Js.ltb (PlayerSchema.cost player) upgradeCost then (player, false)
        else
          let player := PlayerSchema.set_cost (PlayerSchema.cost player - upgradeCost) player in
          let player := PlayerSchema.set_costLevel (PlayerSchema.costLevel player + 1)%Z player in
          let player :=
            match Js.index maxLevels (PlayerSchema.costLevel player - 1)%Z with
            | Some m => PlayerSchema.set_maxCost m player
            | None => player
            end in
          (player, true)
    end.

Definition canUpgrade (player : PlayerSchema.t) : bool :=
  let levelIndex := (PlayerSchema.costLevel player - 1)%Z in
  if (levelIndex >=? Z.of_nat (List.length maxLevels) - 1)%Z then false
  else
    match Js.index upgradeCosts levelIndex with
    | None => false
    | Some upgradeCost => Js.geb (PlayerSchema.cost player) upgradeCost
    end.

Definition getUpgradeCost (player : PlayerSchema.t) : option Q :=
  let levelIndex := (PlayerSchema.costLevel player - 1)%Z in
  if (levelIndex >=? Z.of_nat (List.length upgradeCosts))%Z then None
  else Js.index upgradeCosts levelIndex.

Definition initialize (player : PlayerSchema.t) : PlayerSchema.t :=
  let player := PlayerSchema.set_cost INITIAL_COST player in
  let player := PlayerSchema.set_maxCost (hd 0 maxLevels) player in
  PlayerSchema.set_costLevel 1%Z player.

(** The player invariant of the cost system. *)
Definition costInvariant (p : PlayerSchema.t) : Prop :=
  0 <= PlayerSchema.cost p /\ PlayerSchema.cost p <= PlayerSchema.maxCost p /\
  (1 <= PlayerSchema.costLevel p <= 8)%Z /\
  Js.index maxLevels (PlayerSchema.costLevel p - 1)%Z = Some (PlayerSchema.maxCost p).

End ServerCostSystem.

(* ================================================================== *)
(** ** data/units.ts                                                   *)
(* ================================================================== *)

(** The catalog [allies.json] is data outside the sources: the definitions
    below take it as [allies]. *)
Module Units.
Section Catalog.
Variable allies : list UnitDefinition.t.

Definition unitsMap : Js.map UnitDefinition.t :=
  fold_left (fun m unit => Js.set (UnitDefinition.id unit) unit m) allies [].

Definition getUnitDefinition (unitId : string) : option UnitDefinition.t :=
  Js.get unitId unitsMap.

Definition isValidUnit (unitId : string) : bool :=
  Js.has unitId unitsMap.
End Catalog.
End Units.

(* ================================================================== *)
(** ** systems/ServerCombatSystem.ts                                   *)
(* ================================================================== *)

Module ServerCombatSystem.

(** [CASTLE_POSITIONS], [DEFAULT_UNIT_WIDTH], [UNIT_MIN_DISTANCE]. *)
Definition CASTLE_POSITIONS (s : Side) : Q :=
  match s with player1 => 80 | player2 => 1120 end.
Definition DEFAULT_UNIT_WIDTH : Q := 60.
Definition UNIT_MIN_DISTANCE : Q := 30.

(** The fields of the class.  [state] is the room's [BattleState]: the
    room and the simulator share the one object, which lives here. *)
Record t : Type := mk {
  state : BattleState.t;
  serverUnits : Js.map ServerUnit.t;
  killCounts : Js.map Z
}.

Definition set_state (v : BattleState.t) (this : t) : t :=
  mk v (serverUnits this) (killCounts this).
Definition set_serverUnits (v : Js.map ServerUnit.t) (this : t) : t :=
  mk (state this) v (killCounts this).
Definition set_killCounts (v : Js.map Z) (this : t) : t :=
  mk (state this) (serverUnits this) v.

Definition create (st : BattleState.t) : t := mk st [] [].

(** A unit object is referred to by the key that holds it in
    [serverUnits]; writing a field is [putUnit] under that key. *)
Definition putUnit (this : t) (instanceId : string) (u : ServerUnit.t) : t :=
  set_serverUnits (Js.set instanceId u (serverUnits this)) this.

Definition putPlayer (this : t) (sessionId : string) (p : PlayerSchema.t) : t :=
  set_state
    (BattleState.set_players
       (Js.set sessionId p (BattleState.players (state this))) (state this))
    this.

Definition getKillCount (this : t) (sessionId : string) : Z :=
  match Js.get sessionId (killCounts this) with
  | Some n => n
  | None => 0%Z
  end.

(** *** Helpers *)

Definition getPlayerSide (this : t) (sessionId : string) : option Side :=
  let playerIds := Js.keys (BattleState.players (state this)) in
  let index := Js.indexOf sessionId playerIds in
  if (index =? 0)%Z then Some player1
  else if (index =? 1)%Z then Some player2
  else None.

Definition getSessionIdBySide (this : t) (side : Side) : option string :=
  let playerIds := Js.keys (BattleState.players (state this)) in
  match side with
  | player1 => Js.index playerIds 0
  | player2 => Js.index playerIds 1
  end.

(** The player object of a side, with the key under which the map holds
    it. *)
Definition getPlayerBySide (this : t) (side : Side)
  : option (string * PlayerSchema.t) :=
  match getSessionIdBySide this side with
  | Some sessionId =>
      if Js.truthy sessionId then
        match Js.get sessionId (BattleState.players (state this)) with
        | Some p => Some (sessionId, p)
        | None => None
        end
      else None
  | None => None
  end.

Definition enemyOf (side : Side) : Side :=
  match side with player1 => player2 | player2 => player1 end.

(** [unit.targetId ? this.serverUnits.get(unit.targetId) : null] *)
Definition targetOf (this : t) (unit : ServerUnit.t) : option (string * ServerUnit.t) :=
  match ServerUnit.targetId unit with
  | Some tid =>
      if Js.truthy tid then
        match Js.get tid (serverUnits this) with
        | Some target => Some (tid, target)
        | None => None
        end
      else None
  | None => None
  end.

(** *** Geometry *)

Definition getEdgeDistance (unitA unitB : ServerUnit.t) : Q :=
  let xA := ServerUnit.x unitA in
  let xB := ServerUnit.x unitB in
  let halfWidthA := ServerUnit.width unitA / 2 in
  let halfWidthB := ServerUnit.width unitB / 2 in
  if Js.ltb xA xB
  then (xB - halfWidthB) - (xA + halfWidthA)
  else (xA - halfWidthA) - (xB + halfWidthB).

Definition isInRange (attacker target : ServerUnit.t) : bool :=
  let edgeDistance := getEdgeDistance attacker target in
  Js.leb edgeDistance (UnitDefinition.attackRange (ServerUnit.definition attacker)).

Definition isInRangeOfEnemyCastle (unit : ServerUnit.t) : bool :=
  let enemyCastleX :=
    match ServerUnit.side unit with
    | player1 => CASTLE_POSITIONS player2
    | player2 => CASTLE_POSITIONS player1
    end in
  let halfWidth := ServerUnit.width unit / 2 in
  let edgeX :=
    match ServerUnit.side unit with
    | player1 => ServerUnit.x unit + halfWidth
    | player2 => ServerUnit.x unit - halfWidth
    end in
  let distance := Js.abs (edgeX - enemyCastleX) in
  Js.leb distance (UnitDefinition.attackRange (ServerUnit.definition unit)).

(** One turn of the loop of [isBlockedByEnemy]: does this [enemy] block? *)
Definition blocks (unit enemy : ServerUnit.t) : bool :=
  let enemySide := enemyOf (ServerUnit.side unit) in
  let isMovingRight := Side_eqb (ServerUnit.side unit) player1 in
  if negb (Side_eqb (ServerUnit.side enemy) enemySide) || isDIE (ServerUnit.state enemy)
  then false
  else
    let isInFront :=
      if isMovingRight then Js.gtb (ServerUnit.x enemy) (ServerUnit.x unit)
      else Js.ltb (ServerUnit.x enemy) (ServerUnit.x unit) in
    if negb isInFront then false
    else
      let distanceToEdge := getEdgeDistance unit enemy in
      let minDistance :=
        (ServerUnit.width unit + ServerUnit.width enemy) / 2 * 0.5 + UNIT_MIN_DISTANCE in
      Js.ltb distanceToEdge minDistance.

Definition isBlockedByEnemy (this : t) (unit : ServerUnit.t) : bool :=
  existsb (blocks unit) (Js.values (serverUnits this)).

(** *** The unit state machine *)

Definition setUnitState (this : t) (unit : string) (st : UnitState) : t :=
  match Js.get unit (serverUnits this) with
  | Some u =>
      putUnit this unit (ServerUnit.set_stateTimer 0 (ServerUnit.set_state st u))
  | None => this
  end.

Definition handleSpawn (this : t) (unit : string) : t :=
  match Js.get unit (serverUnits this) with
  | Some u =>
      if Js.geb (ServerUnit.stateTimer u) 300 then setUnitState this unit WALK
      else this
  | None => this
  end.

Definition handleWalk (this : t) (unit : string) (deltaMs : Q) : t :=
  match Js.get unit (serverUnits this) with
  | None => this
  | Some u =>
      let target := targetOf this u in
      if match target with
         | Some (_, target) => isInRange u target
         | None => false
         end
      then setUnitState this unit ATTACK_WINDUP
      else if isInRangeOfEnemyCastle u
      then setUnitState this unit ATTACK_WINDUP
      else if isBlockedByEnemy this u
      then this
      else
        let speed := UnitDefinition.speed (ServerUnit.definition u) * (deltaMs / 1000) in
        let direction : Q :=
          match ServerUnit.side u with player1 => 1 | player2 => -1 end in
        let u := ServerUnit.set_x (ServerUnit.x u + speed * direction) u in
        let u :=
          match ServerUnit.side u with
          | player1 =>
              ServerUnit.set_x
                (Js.min (ServerUnit.x u) (BattleState.stageLength (state this) - 30)) u
          | player2 => ServerUnit.set_x (Js.max (ServerUnit.x u) 80) u
          end in
        putUnit this unit u
  end.

Definition applyDamage (this : t) (target : string) (damage knockback : Q)
    (attackerSide : option Side) : t :=
  match Js.get target (serverUnits this) with
  | None => this
  | Some u =>
      let u := ServerUnit.set_hp (ServerUnit.hp u - damage) u in
      let u := ServerUnit.set_damageAccumulated (ServerUnit.damageAccumulated u + damage) u in
      if Js.leb (ServerUnit.hp u) 0 then
        let u := ServerUnit.set_hp 0 u in
        let this := setUnitState (putUnit this target u) target DIE in
        match attackerSide with
        | Some attackerSide =>
            match getSessionIdBySide this attackerSide with
            | Some attackerSessionId =>
                if Js.truthy attackerSessionId then
                  let currentKills := getKillCount this attackerSessionId in
                  set_killCounts
                    (Js.set attackerSessionId (currentKills + 1)%Z
                            (killCounts this)) this
                else this
            | None => this
            end
        | None => this
        end
      else
        let kbThreshold := ServerUnit.maxHp u * 0.15 in
        if negb (Js.flag (UnitDefinition.isBoss (ServerUnit.definition u)))
           && Js.geb (ServerUnit.damageAccumulated u) kbThreshold
        then
          let u := ServerUnit.set_damageAccumulated 0 u in
          let knockbackDir : Q :=
            match ServerUnit.side u with player1 => -1 | player2 => 1 end in
          let u := ServerUnit.set_x (ServerUnit.x u + knockback * knockbackDir) u in
          let u :=
            match ServerUnit.side u with
            | player1 => ServerUnit.set_x (Js.max (ServerUnit.x u) 80) u
            | player2 =>
                ServerUnit.set_x
                  (Js.min (ServerUnit.x u) (BattleState.stageLength (state this) - 30)) u
            end in
          let this := putUnit this target u in
          if negb (isDIE (ServerUnit.state u)) then setUnitState this target HITSTUN
          else this
        else putUnit this target u
  end.

(** [target && target.state !== 'DIE'], for the target of [unit]. *)
Definition liveTarget (this : t) (unit : ServerUnit.t) : option (string * ServerUnit.t) :=
  match targetOf this unit with
  | Some (tid, target) =>
      if negb (isDIE (ServerUnit.state target)) then Some (tid, target) else None
  | None => None
  end.

Definition dealDamage (this : t) (attacker : string) : t :=
  match Js.get attacker (serverUnits this) with
  | None => this
  | Some a =>
      match liveTarget this a with
      | Some (tid, _) =>
          applyDamage this tid (UnitDefinition.attackDamage (ServerUnit.definition a))
                      (UnitDefinition.knockback (ServerUnit.definition a))
                      (Some (ServerUnit.side a))
      | None =>
          let enemySide := enemyOf (ServerUnit.side a) in
          match getPlayerBySide this enemySide with
          | Some (sessionId, enemyPlayer) =>
              if isInRangeOfEnemyCastle a then
                let enemyPlayer :=
                  PlayerSchema.set_castleHp
                    (PlayerSchema.castleHp enemyPlayer
                     - UnitDefinition.attackDamage (ServerUnit.definition a)) enemyPlayer in
                let enemyPlayer :=
                  if Js.ltb (PlayerSchema.castleHp enemyPlayer) 0
                  then PlayerSchema.set_castleHp 0 enemyPlayer
                  else enemyPlayer in
                putPlayer this sessionId enemyPlayer
              else this
          | None => this
          end
      end
  end.

Definition handleAttackWindup (this : t) (unit : string) : t :=
  match Js.get unit (serverUnits this) with
  | None => this
  | Some u =>
      if Js.geb (ServerUnit.stateTimer u) (UnitDefinition.attackWindupMs (ServerUnit.definition u))
      then setUnitState (dealDamage this unit) unit ATTACK_COOLDOWN
      else this
  end.

Definition handleAttackCooldown (this : t) (unit : string) : t :=
  match Js.get unit (serverUnits this) with
  | None => this
  | Some u =>
      if Js.geb (ServerUnit.stateTimer u)
                (UnitDefinition.attackCooldownMs (ServerUnit.definition u))
      then
        let target := targetOf this u in
        if match target with
           | Some (_, target) =>
               negb (isDIE (ServerUnit.state target)) && isInRange u target
           | None => false
           end
        then setUnitState this unit ATTACK_WINDUP
        else if isInRangeOfEnemyCastle u
        then setUnitState this unit ATTACK_WINDUP
        else
          setUnitState (putUnit this unit (ServerUnit.set_targetId None u)) unit WALK
      else this
  end.

Definition handleHitstun (this : t) (unit : string) : t :=
  match Js.get unit (serverUnits this) with
  | Some u =>
      if Js.geb (ServerUnit.stateTimer u) 200 then setUnitState this unit WALK
      else this
  | None => this
  end.

Definition updateUnitState (this : t) (unit : string) (deltaMs : Q) : t :=
  match Js.get unit (serverUnits this) with
  | None => this
  | Some u =>
      match ServerUnit.state u with
      | SPAWN => handleSpawn this unit
      | WALK => handleWalk this unit deltaMs
      | ATTACK_WINDUP => handleAttackWindup this unit
      | ATTACK_COOLDOWN => handleAttackCooldown this unit
      | HITSTUN => handleHitstun this unit
      | DIE => this
      end
  end.

(** *** Collisions between units of one side *)

Definition clampUnitPosition (this : t) (unit : string) : t :=
  match Js.get unit (serverUnits this) with
  | None => this
  | Some u =>
      let u :=
        match ServerUnit.side u with
        | player1 =>
            let u := ServerUnit.set_x (Js.max (ServerUnit.x u) (CASTLE_POSITIONS player1 + 30)) u in
            ServerUnit.set_x (Js.min (ServerUnit.x u) (BattleState.stageLength (state this) - 30)) u
        | player2 =>
            let u := ServerUnit.set_x (Js.max (ServerUnit.x u) 80) u in
            ServerUnit.set_x (Js.min (ServerUnit.x u) (CASTLE_POSITIONS player2 - 30)) u
        end in
      putUnit this unit u
  end.

(** The body of the inner loop, for the pair [units[i]], [units[j]]. *)
Definition collidePair (this : t) (unitA unitB : string) : t :=
  match Js.get unitA (serverUnits this), Js.get unitB (serverUnits this) with
  | Some a, Some b =>
      if negb (Side_eqb (ServerUnit.side a) (ServerUnit.side b)) then this
      else
        let distance := Js.abs (ServerUnit.x a - ServerUnit.x b) in
        let minDistance :=
          (ServerUnit.width a + ServerUnit.width b) / 2 * 0.6 + UNIT_MIN_DISTANCE in
        if Js.ltb distance minDistance && Js.gtb distance 0 then
          let overlap := minDistance - distance in
          let pushAmount := overlap * 0.5 in
          let this :=
            if Js.ltb (ServerUnit.x a) (ServerUnit.x b) then
              let this :=
                putUnit this unitA
                        (ServerUnit.set_x (ServerUnit.x a - pushAmount / 2) a) in
              putUnit this unitB (ServerUnit.set_x (ServerUnit.x b + pushAmount / 2) b)
            else
              let this :=
                putUnit this unitA
                        (ServerUnit.set_x (ServerUnit.x a + pushAmount / 2) a) in
              putUnit this unitB (ServerUnit.set_x (ServerUnit.x b - pushAmount / 2) b) in
          clampUnitPosition (clampUnitPosition this unitA) unitB
        else this
  | _, _ => this
  end.

Fixpoint collideWith (this : t) (unitA : string) (rest : list string) : t :=
  match rest with
  | [] => this
  | unitB :: rest' => collideWith (collidePair this unitA unitB) unitA rest'
  end.

Fixpoint collideAll (this : t) (units : list string) : t :=
  match units with
  | [] => this
  | unitA :: rest => collideAll (collideWith this unitA rest) rest
  end.

Definition resolveUnitCollisions (this : t) : t :=
  let units :=
    Js.keys (filter (fun kv => negb (isDIE (ServerUnit.state (snd kv))))
                    (serverUnits this)) in
  collideAll this units.

(** *** Targeting *)

(** The four locals of [findTarget]; [None] as a distance is [Infinity]. *)
Record Closest : Type := mkClosest {
  closestInFront : option ServerUnit.t;
  minDistanceFront : option Q;
  closestAny : option ServerUnit.t;
  minDistanceAny : option Q
}.

Definition belowMin (d : Q) (m : option Q) : bool :=
  match m with Some m => Js.ltb d m | None => true end.

Definition findTargetStep (attacker : ServerUnit.t) (acc : Closest) (unit : ServerUnit.t)
  : Closest :=
  let enemySide := enemyOf (ServerUnit.side attacker) in
  if negb (Side_eqb (ServerUnit.side unit) enemySide) || isDIE (ServerUnit.state unit)
  then acc
  else
    let edgeDistance := getEdgeDistance attacker unit in
    if Js.gtb edgeDistance (UnitDefinition.attackRange (ServerUnit.definition attacker) + 20)
    then acc
    else
      let isInFront :=
        match ServerUnit.side attacker with
        | player1 => Js.gtb (ServerUnit.x unit) (ServerUnit.x attacker)
        | player2 => Js.ltb (ServerUnit.x unit) (ServerUnit.x attacker)
        end in
      let acc :=
        if isInFront && belowMin edgeDistance (minDistanceFront acc)
        then mkClosest (Some unit) (Some edgeDistance)
                       (closestAny acc) (minDistanceAny acc)
        else acc in
      if belowMin edgeDistance (minDistanceAny acc)
      then mkClosest (closestInFront acc) (minDistanceFront acc)
                     (Some unit) (Some edgeDistance)
      else acc.

Definition findTarget (this : t) (attacker : ServerUnit.t) : option string :=
  let acc :=
    fold_left (findTargetStep attacker) (Js.values (serverUnits this))
              (mkClosest None None None None) in
  match closestInFront acc with
  | Some u => Some (ServerUnit.instanceId u)
  | None =>
      match closestAny acc with
      | Some u => Some (ServerUnit.instanceId u)
      | None => None
      end
  end.

Definition assignTarget (this : t) (unit : string) : t :=
  match Js.get unit (serverUnits this) with
  | None => this
  | Some u =>
      if isDIE (ServerUnit.state u) then this
      else
        if match targetOf this u with
           | Some (_, currentTarget) =>
               negb (isDIE (ServerUnit.state currentTarget)) && isInRange u currentTarget
           | None => false
           end
        then this
        else putUnit this unit (ServerUnit.set_targetId (findTarget this u) u)
  end.

Definition assignTargets (this : t) : t :=
  fold_left assignTarget (Js.keys (serverUnits this)) this.

(** *** Clean-up and win check *)

Definition cleanupDeadUnits (this : t) : t :=
  let toRemove :=
    Js.keys (filter (fun kv => isDIE (ServerUnit.state (snd kv))
                               && Js.geb (ServerUnit.stateTimer (snd kv)) 500)
                    (serverUnits this)) in
  fold_left
    (fun this instanceId =>
       let this := set_serverUnits (Js.delete instanceId (serverUnits this)) this in
       set_state
         (BattleState.set_units
            (Js.delete instanceId (BattleState.units (state this)))
            (state this)) this)
    toRemove this.

(** The [forEach] of [checkWinCondition]: the last player of each side. *)
Definition playersBySide (this : t) : option PlayerSchema.t * option PlayerSchema.t :=
  fold_left
    (fun (acc : option PlayerSchema.t * option PlayerSchema.t) (kv : string * PlayerSchema.t) =>
       let side := getPlayerSide this (fst kv) in
       let p1 := match side with Some player1 => Some (snd kv) | _ => fst acc end in
       let p2 := match side with Some player2 => Some (snd kv) | _ => snd acc end in
       (p1, p2))
    (BattleState.players (state this)) (None, None).

Definition checkWinCondition (this : t) : t :=
  if negb (Phase_eqb (BattleState.phase (state this)) playing) then this
  else
    match playersBySide this with
    | (Some p1, Some p2) =>
        if Js.leb (PlayerSchema.castleHp p1) 0 then
          set_state
            (BattleState.set_winReason "castle_destroyed"
               (BattleState.set_winnerId (PlayerSchema.sessionId p2)
                  (BattleState.set_phase finished (state this)))) this
        else if Js.leb (PlayerSchema.castleHp p2) 0 then
          set_state
            (BattleState.set_winReason "castle_destroyed"
               (BattleState.set_winnerId (PlayerSchema.sessionId p1)
                  (BattleState.set_phase finished (state this)))) this
        else this
    | _ => this
    end.

(** *** The tick *)

(** The schema synchronisation at the end of the loop body of [update]. *)
Definition syncSchema (this : t) (instanceId : string) : t :=
  match Js.get instanceId (serverUnits this),
        Js.get instanceId (BattleState.units (state this)) with
  | Some u, Some schema =>
      let schema :=
        UnitSchema.mk (UnitSchema.instanceId schema)
          (UnitSchema.definitionId schema) (UnitSchema.side schema)
          (ServerUnit.x u) (ServerUnit.hp u) (UnitSchema.maxHp schema) (ServerUnit.state u)
          (ServerUnit.stateTimer u)
          (match ServerUnit.targetId u with Some tid => tid | None => "" end)
          (ServerUnit.width u) in
      set_state
        (BattleState.set_units
           (Js.set instanceId schema (BattleState.units (state this)))
           (state this)) this
  | _, _ => this
  end.

Definition updateUnit (deltaMs : Q) (this : t) (instanceId : string) : t :=
  match Js.get instanceId (serverUnits this) with
  | None => this
  | Some u =>
      let u := ServerUnit.set_stateTimer (ServerUnit.stateTimer u + deltaMs) u in
      let this := putUnit this instanceId u in
      let this :=
        if negb (isDIE (ServerUnit.state u))
        then updateUnitState this instanceId deltaMs
        else this in
      syncSchema this instanceId
  end.

Definition update (this : t) (deltaMs : Q) : t :=
  let this := fold_left (updateUnit deltaMs) (Js.keys (serverUnits this)) this in
  let this := resolveUnitCollisions this in
  let this := assignTargets this in
  let this := cleanupDeadUnits this in
  checkWinCondition this.

Definition reset (this : t) : t :=
  mk (BattleState.set_units [] (state this)) [] [].

(** *** Spawning *)

Section Spawn.
Variable allies : list UnitDefinition.t.

(** [stamp] is the text of [Date.now()] and of the random suffix, joined
    by an underscore, that ends the instance id.  The second component
    is the returned instance id, [None] for [null]. *)
Definition spawnUnit (this : t) (player : PlayerSchema.t) (unitId stamp : string)
  : t * option string :=
  match Units.getUnitDefinition allies unitId with
  | None => (this, None)
  | Some definition =>
      match getPlayerSide this (PlayerSchema.sessionId player) with
      | None => (this, None)
      | Some side =>
          let spawnX :=
            match side with
            | player1 => CASTLE_POSITIONS player1 + 50
            | player2 => CASTLE_POSITIONS player2 - 50
            end in
          let instanceId :=
            sideName side ++ "_" ++ unitId ++ "_" ++ stamp in
          let scale := Js.numOr (UnitDefinition.scale definition) 1 in
          let unitWidth := DEFAULT_UNIT_WIDTH * scale in
          let serverUnit :=
            ServerUnit.mk instanceId unitId definition side spawnX
                    (UnitDefinition.maxHp definition) (UnitDefinition.maxHp definition)
                    SPAWN 0 None 0 unitWidth in
          let this := putUnit this instanceId serverUnit in
          let unitSchema :=
            UnitSchema.mk instanceId unitId side spawnX
                          (UnitDefinition.maxHp definition) (UnitDefinition.maxHp definition)
                          SPAWN 0 "" unitWidth in
          let this :=
            set_state
              (BattleState.set_units
                 (Js.set instanceId unitSchema (BattleState.units (state this)))
                 (state this)) this in
          (this, Some instanceId)
      end
  end.
End Spawn.

End ServerCombatSystem.

(* ================================================================== *)
(** ** rooms/BattleRoom.ts                                             *)
(* ================================================================== *)

Module BattleRoom.

Definition DEFAULT_SPAWN_COOLDOWNS : Js.map Q :=
  [("N", 2000); ("R", 4000); ("SR", 6000); ("SSR", 8000); ("UR", 10000)].

Record JoinOptions : Type := mkJoinOptions {
  opt_odeyoId : option string;
  opt_displayName : option string;
  opt_deck : option (list string);
  opt_quickMatch : option bool
}.

Inductive ErrorCode : Type :=
  | GAME_NOT_PLAYING | INVALID_UNIT | UNIT_NOT_IN_DECK | COOLDOWN
  | INSUFFICIENT_COST | SPAWN_FAILED | CANNOT_UPGRADE.

(** The listing metadata of the room. *)
Record Metadata : Type := mkMetadata {
  status : string;
  hostName : string;
  hostDeckPreview : list string;
  createdAt : Z
}.

(** The record handed to [saveRealtimeBattleResult]. *)
Record BattleResult : Type := mkBattleResult {
  player1_id : string;
  player2_id : string;
  player1_name : string;
  player2_name : string;
  player1_deck : list string;
  player2_deck : list string;
  winner_player_num : Z;
  player1_castle_hp : Q;
  player2_castle_hp : Q;
  player1_kills : Z;
  player2_kills : Z;
  battle_duration : Z;
  win_reason : string
}.

(** Messages to clients, by name.  A player payload is the player object
    whose fields the message copies, with the session id it is sent
    under; the free text of an [error] is left out, its [code] is kept. *)
Inductive Message : Type :=
  | player_joined (sessionId : string) (player : PlayerSchema.t)
  | all_players (players : list (string * PlayerSchema.t))
  | speed_update (gameSpeed : Z) (speedVotes : Js.map bool)
  | phase_change (phase : Phase) (countdown : option Z)
                 (winner : option (string * string))
                 (gameSpeed : Z) (speedVotes : Js.map bool)
  | countdown_update (countdown : Z)
  | unit_spawned (unit : UnitSchema.t)
  | units_sync (units : list UnitSchema.t)
  | players_sync (players : list (string * PlayerSchema.t))
  | error (code : ErrorCode).

(** What the room does to the outside, in the order it does it. *)
Inductive Effect : Type :=
  | Broadcast (m : Message)                    (* this.broadcast *)
  | Send (client : string) (m : Message)       (* client.send *)
  | ClientLeave (client : string)              (* client.leave() *)
  | Lock                                       (* this.lock() *)
  | Save (result : BattleResult).              (* saveRealtimeBattleResult *)

(** The fields of the room.  [countdownInterval] is the interval created
    by [startCountdown], [gameLoop] the one created by [startGame]: [true]
    while the interval is running. *)
Record t : Type := mk {
  combatSystem : ServerCombatSystem.t;
  gameLoop : bool;
  countdownInterval : bool;
  lastUpdateTime : Z;
  spawnCooldowns : Js.map (Js.map Q);
  metadata : Metadata;
  effects : list Effect
}.

Definition set_combatSystem (v : ServerCombatSystem.t) (this : t) : t :=
  mk v (gameLoop this) (countdownInterval this) (lastUpdateTime this)
     (spawnCooldowns this) (metadata this) (effects this).
Definition set_gameLoop (v : bool) (this : t) : t :=
  mk (combatSystem this) v (countdownInterval this) (lastUpdateTime this)
     (spawnCooldowns this) (metadata this) (effects this).
Definition set_countdownInterval (v : bool) (this : t) : t :=
  mk (combatSystem this) (gameLoop this) v (lastUpdateTime this)
     (spawnCooldowns this) (metadata this) (effects this).
Definition set_lastUpdateTime (v : Z) (this : t) : t :=
  mk (combatSystem this) (gameLoop this) (countdownInterval this) v
     (spawnCooldowns this) (metadata this) (effects this).
Definition set_spawnCooldowns (v : Js.map (Js.map Q)) (this : t) : t :=
  mk (combatSystem this) (gameLoop this) (countdownInterval this)
     (lastUpdateTime this) v (metadata this) (effects this).
Definition set_metadata (v : Metadata) (this : t) : t :=
  mk (combatSystem this) (gameLoop this) (countdownInterval this)
     (lastUpdateTime this) (spawnCooldowns this) v (effects this).
Definition emit (e : Effect) (this : t) : t :=
  mk (combatSystem this) (gameLoop this) (countdownInterval this)
     (lastUpdateTime this) (spawnCooldowns this) (metadata this)
     (effects this ++ [e]).

(** [this.state] *)
Definition state (this : t) : BattleState.t :=
  ServerCombatSystem.state (combatSystem this).

Definition set_state (v : BattleState.t) (this : t) : t :=
  set_combatSystem (ServerCombatSystem.set_state v (combatSystem this)) this.

(** Game settings. *)
Definition TICK_RATE : Z := 20.
Definition COUNTDOWN_SECONDS : Z := 3.
Definition STAGE_LENGTH : Q := 1200.
Definition CASTLE_HP : Q := 5000.

Definition onCreate (now : Z) : t :=
  let st := BattleState.set_stageLength STAGE_LENGTH BattleState.fresh in
  mk (ServerCombatSystem.create st) false false 0%Z []
     (mkMetadata "waiting" "" [] now) [].

(** *** Helpers *)

Definition sendError (this : t) (client : string) (code : ErrorCode) : t :=
  emit (Send client (error code)) this.

Definition getSpeedVotesObject (this : t) : Js.map bool :=
  fold_left (fun votes kv => Js.set (fst kv) (snd kv) votes)
            (BattleState.speedVotes (state this)) [].

Definition recalculateGameSpeed (this : t) : t :=
  let st := state this in
  let this :=
    if (Js.size (BattleState.players st) <? 2)%Z
    then set_state (BattleState.set_gameSpeed 1%Z st) this
    else
      let allAgreed :=
        forallb (fun kv =>
                   match Js.get (fst kv) (BattleState.speedVotes st) with
                   | Some true => true
                   | _ => false
                   end)
                (BattleState.players st) in
      set_state (BattleState.set_gameSpeed (if allAgreed then 2%Z else 1%Z) st)
                this in
  emit (Broadcast (speed_update (BattleState.gameSpeed (state this))
                                (getSpeedVotesObject this))) this.

Definition stopGameLoop (this : t) : t :=
  if gameLoop this then set_gameLoop false this else this.

Definition strOr (a : option string) (b : string) : string :=
  match a with
  | Some s => if Js.truthy s then s else b
  | None => b
  end.

Definition saveBattleResult (this : t) : t :=
  match BattleState.players (state this) with
  | [(session1, p1); (session2, p2)] =>
      let winnerPlayerNum :=
        if (BattleState.winnerId (state this) =? session2)%string
        then 2%Z else 1%Z in
      let player1Kills :=
        ServerCombatSystem.getKillCount (combatSystem this) session1 in
      let player2Kills :=
        ServerCombatSystem.getKillCount (combatSystem this) session2 in
      emit (Save
              (mkBattleResult
                 (PlayerSchema.odeyoId p1) (PlayerSchema.odeyoId p2)
                 (PlayerSchema.displayName p1) (PlayerSchema.displayName p2)
                 (PlayerSchema.deck p1) (PlayerSchema.deck p2)
                 winnerPlayerNum
                 (PlayerSchema.castleHp p1) (PlayerSchema.castleHp p2)
                 player1Kills player2Kills
                 (Qfloor (BattleState.gameTime (state this) / 1000))
                 (strOr (Some (BattleState.winReason (state this)))
                        "castle_destroyed")))
           this
  | _ => this
  end.

(** *** Game loop *)

Definition tick (this : t) (now : Z) : t :=
  let deltaMs := (now - lastUpdateTime this)%Z in
  let this := set_lastUpdateTime now this in
  let gameSpeed :=
    if (BattleState.gameSpeed (state this) =? 0)%Z then 1%Z
    else BattleState.gameSpeed (state this) in
  let adjustedDelta := inject_Z (deltaMs * gameSpeed) in
  let this :=
    set_state
      (BattleState.set_gameTime
         (BattleState.gameTime (state this) + adjustedDelta) (state this))
      this in
  let this :=
    set_state
      (BattleState.set_players
         (List.map (fun kv => (fst kv, ServerCostSystem.update (snd kv) adjustedDelta))
                   (BattleState.players (state this)))
         (state this)) this in
  let this :=
    set_spawnCooldowns
      (List.map
         (fun kc =>
            (fst kc,
             List.map (fun kr => (fst kr, Js.max 0 (snd kr - adjustedDelta)))
                      (snd kc)))
         (spawnCooldowns this)) this in
  let this :=
    set_combatSystem
      (ServerCombatSystem.update (combatSystem this) adjustedDelta) this in
  let this :=
    emit (Broadcast (units_sync (Js.values (BattleState.units (state this)))))
         this in
  let this :=
    emit (Broadcast (players_sync (BattleState.players (state this)))) this in
  if Phase_eqb (BattleState.phase (state this)) finished then
    let this := stopGameLoop this in
    let this := saveBattleResult this in
    emit (Broadcast
            (phase_change finished None
               (Some (BattleState.winnerId (state this),
                      BattleState.winReason (state this)))
               (BattleState.gameSpeed (state this))
               (getSpeedVotesObject this))) this
  else this.

Definition startGame (this : t) (now : Z) : t :=
  let this := set_state (BattleState.set_phase playing (state this)) this in
  let this := set_state (BattleState.set_gameTime 0 (state this)) this in
  let this := set_lastUpdateTime now this in
  let this :=
    set_metadata
      (mkMetadata "playing" (hostName (metadata this))
                  (hostDeckPreview (metadata this)) (createdAt (metadata this)))
      this in
  let this :=
    emit (Broadcast
            (phase_change playing None None
               (BattleState.gameSpeed (state this))
               (getSpeedVotesObject this))) this in
  set_gameLoop true this.

Definition startCountdown (this : t) : t :=
  let this := set_state (BattleState.set_phase countdown_phase (state this)) this in
  let this :=
    set_state (BattleState.set_countdown COUNTDOWN_SECONDS (state this)) this in
  let this :=
    emit (Broadcast
            (phase_change countdown_phase (Some COUNTDOWN_SECONDS) None
               (BattleState.gameSpeed (state this))
               (getSpeedVotesObject this))) this in
  set_countdownInterval true this.

(** The callback of the interval of [startCountdown]. *)
Definition countdownCallback (this : t) (now : Z) : t :=
  let this :=
    set_state
      (BattleState.set_countdown (BattleState.countdown (state this) - 1)%Z
                                 (state this)) this in
  let this :=
    emit (Broadcast (countdown_update (BattleState.countdown (state this))))
         this in
  if (BattleState.countdown (state this) <=? 0)%Z then
    let this := set_countdownInterval false this in
    startGame this now
  else this.

(** *** The room as a state machine *)

(** What can happen to a room: the hooks and message handlers the
    framework calls, and the firing of the two intervals.  [now] is the
    value of [Date.now()] at the event; [stamp] see [spawnUnit]. *)
Inductive Event : Type :=
  | Join (client : string) (options : JoinOptions) (now : Z)
  | Leave (client : string) (consented : bool)
  | Ready (client : string)
  | Summon (client unitId stamp : string)
  | UpgradeCost (client : string)
  | SpeedVote (client : string) (enabled : option bool)
  | CountdownTimer (now : Z)
  | GameLoopTimer (now : Z).

(** *** Lifecycle *)

Section Catalog.
Variable allies : list UnitDefinition.t.

Definition onJoin (this : t) (client : string) (options : JoinOptions)
    (now : Z) : t :=
  if (Js.size (BattleState.players (state this)) >=? 2)%Z then
    emit (ClientLeave client) this
  else
    let player := PlayerSchema.fresh in
    let player :=
      PlayerSchema.mk (strOr (opt_odeyoId options) client) client
        (strOr (opt_displayName options)
           ("Player "
            ++ NilZero.string_of_int
                 (Z.to_int (Js.size (BattleState.players (state this)) + 1))))
        (PlayerSchema.cost player) (PlayerSchema.maxCost player)
        (PlayerSchema.costLevel player) CASTLE_HP CASTLE_HP (PlayerSchema.ready player)
        (PlayerSchema.deck player) in
    let receivedDeck :=
      match opt_deck options with Some d => d | None => [] end in
    let validDeck :=
      firstn 7 (filter (Units.isValidUnit allies) receivedDeck) in
    let player :=
      PlayerSchema.mk (PlayerSchema.odeyoId player) (PlayerSchema.sessionId player)
        (PlayerSchema.displayName player) (PlayerSchema.cost player)
        (PlayerSchema.maxCost player) (PlayerSchema.costLevel player)
        (PlayerSchema.castleHp player) (PlayerSchema.maxCastleHp player)
        (PlayerSchema.ready player) (PlayerSchema.deck player ++ validDeck) in
    let player := ServerCostSystem.initialize player in
    let this :=
      set_state
        (BattleState.set_players
           (Js.set client player (BattleState.players (state this)))
           (state this)) this in
    let this :=
      set_spawnCooldowns (Js.set client [] (spawnCooldowns this)) this in
    let this :=
      set_state
        (BattleState.set_speedVotes
           (Js.set client false (BattleState.speedVotes (state this)))
           (state this)) this in
    let this := recalculateGameSpeed this in
    let this :=
      if (Js.size (BattleState.players (state this)) =? 1)%Z then
        let visibleCount :=
          Z.to_nat (Qceiling (inject_Z (Z.of_nat (List.length validDeck)) / 2)) in
        let deckPreview := firstn visibleCount validDeck in
        set_metadata
          (mkMetadata "waiting" (PlayerSchema.displayName player) deckPreview now)
          this
      else this in
    let this := emit (Broadcast (player_joined client player)) this in
    let this :=
      emit (Send client (all_players (BattleState.players (state this))))
           this in
    let this :=
      emit (Send client
              (speed_update (BattleState.gameSpeed (state this))
                            (getSpeedVotesObject this))) this in
    if (Js.size (BattleState.players (state this)) =? 2)%Z
    then emit Lock this
    else this.

Definition onLeave (this : t) (client : string) (consented : bool) : t :=
  let this :=
    if Phase_eqb (BattleState.phase (state this)) playing
       || Phase_eqb (BattleState.phase (state this)) countdown_phase
    then
      match Js.get client (BattleState.players (state this)) with
      | Some leavingPlayer =>
          let this :=
            fold_left
              (fun this kv =>
                 if negb (fst kv =? client)%string then
                   let this :=
                     set_state
                       (BattleState.set_winnerId (fst kv) (state this)) this in
                   set_state
                     (BattleState.set_winReason "opponent_disconnected"
                                                (state this)) this
                 else this)
              (BattleState.players (state this)) this in
          let this :=
            set_state (BattleState.set_phase finished (state this)) this in
          stopGameLoop this
      | None => this
      end
    else this in
  let this :=
    set_state
      (BattleState.set_players
         (Js.delete client (BattleState.players (state this)))
         (state this)) this in
  let this :=
    set_spawnCooldowns (Js.delete client (spawnCooldowns this)) this in
  let this :=
    set_state
      (BattleState.set_speedVotes
         (Js.delete client (BattleState.speedVotes (state this)))
         (state this)) this in
  recalculateGameSpeed this.

Definition onDispose (this : t) : t := stopGameLoop this.

(** *** Message handlers *)

Definition handleReady (this : t) (client : string) : t :=
  match Js.get client (BattleState.players (state this)) with
  | None => this
  | Some player =>
      let this :=
        set_state
          (BattleState.set_players
             (Js.set client (PlayerSchema.set_ready true player)
                     (BattleState.players (state this)))
             (state this)) this in
      let allReady :=
        forallb (fun kv => PlayerSchema.ready (snd kv))
                (BattleState.players (state this)) in
      if allReady
         && (Js.size (BattleState.players (state this)) =? 2)%Z
         && Phase_eqb (BattleState.phase (state this)) waiting
      then startCountdown this
      else this
  end.

Definition handleSummon (this : t) (client unitId stamp : string) : t :=
  if negb (Phase_eqb (BattleState.phase (state this)) playing) then
    sendError this client GAME_NOT_PLAYING
  else
    match Js.get client (BattleState.players (state this)) with
    | None => this
    | Some player =>
        match Units.getUnitDefinition allies unitId with
        | None => sendError this client INVALID_UNIT
        | Some definition =>
            if negb (Js.includes unitId (PlayerSchema.deck player)) then
              sendError this client UNIT_NOT_IN_DECK
            else
              let cooldowns := Js.get client (spawnCooldowns this) in
              if match cooldowns with
                 | Some cooldowns =>
                     Js.gtb (Js.numOr (Js.get unitId cooldowns) 0) 0
                 | None => false
                 end
              then sendError this client COOLDOWN
              else if negb (ServerCostSystem.canAfford player (UnitDefinition.cost definition))
              then sendError this client INSUFFICIENT_COST
              else
                let player :=
                  fst (ServerCostSystem.spend player (UnitDefinition.cost definition)) in
                let this :=
                  set_combatSystem
                    (ServerCombatSystem.putPlayer (combatSystem this) client player)
                    this in
                let '(combat, instanceId) :=
                  ServerCombatSystem.spawnUnit allies (combatSystem this)
                                               player unitId stamp in
                let this := set_combatSystem combat this in
                match instanceId with
                | None => sendError this client SPAWN_FAILED
                | Some instanceId =>
                    if negb (Js.truthy instanceId)
                    then sendError this client SPAWN_FAILED
                    else
                      let this :=
                        match cooldowns with
                        | Some cooldowns =>
                            let cooldownMs :=
                              Js.numOr
                                (Js.or (UnitDefinition.spawnCooldownMs definition)
                                       (Js.get (UnitDefinition.rarity definition)
                                               DEFAULT_SPAWN_COOLDOWNS))
                                3000 in
                            set_spawnCooldowns
                              (Js.set client (Js.set unitId cooldownMs cooldowns)
                                      (spawnCooldowns this)) this
                        | None => this
                        end in
                      match Js.get instanceId (BattleState.units (state this)) with
                      | Some unit => emit (Broadcast (unit_spawned unit)) this
                      | None => this
                      end
                end
        end
    end.

Definition handleUpgradeCost (this : t) (client : string) : t :=
  if negb (Phase_eqb (BattleState.phase (state this)) playing) then
    sendError this client GAME_NOT_PLAYING
  else
    match Js.get client (BattleState.players (state this)) with
    | None => this
    | Some player =>
        if negb (ServerCostSystem.canUpgrade player) then
          sendError this client CANNOT_UPGRADE
        else
          set_combatSystem
            (ServerCombatSystem.putPlayer (combatSystem this) client
               (fst (ServerCostSystem.upgradeMax player))) this
    end.

Definition handleSpeedVote (this : t) (client : string)
    (enabled : option bool) : t :=
  let enabled := match enabled with Some true => true | _ => false end in
  if negb (Js.has client (BattleState.players (state this))) then this
  else
    let this :=
      set_state
        (BattleState.set_speedVotes
           (Js.set client enabled (BattleState.speedVotes (state this)))
           (state this)) this in
    recalculateGameSpeed this.

(** An interval that is not running does not fire. *)
Definition step (this : t) (e : Event) : t :=
  match e with
  | Join client options now => onJoin this client options now
  | Leave client consented => onLeave this client consented
  | Ready client => handleReady this client
  | Summon client unitId stamp => handleSummon this client unitId stamp
  | UpgradeCost client => handleUpgradeCost this client
  | SpeedVote client enabled => handleSpeedVote this client enabled
  | CountdownTimer now =>
      if countdownInterval this then countdownCallback this now else this
  | GameLoopTimer now =>
      if gameLoop this then tick this now else this
  end.

Definition run (this : t) (events : list Event) : t :=
  fold_left step events this.

End Catalog.

End BattleRoom.

(* ================================================================== *)
(** ** Vocabulary of the statements                                    *)
(* ================================================================== *)

Module CostFacts.
Import ServerCostSystem.

(** The regeneration rate [update] uses at level [l]. *)
Definition regenRateAt (l : Z) : Q :=
  match Js.index regenRates (l - 1)%Z with
  | Some r => r
  | None => hd 0 regenRates
  end.
End CostFacts.

Module Outcome.
Import ServerCombatSystem.

(** The target after a hit it survives without knockback: [hp] and
    [damageAccumulated] moved by the damage, nothing else. *)
Definition hit (u : ServerUnit.t) (damage : Q) : ServerUnit.t :=
  ServerUnit.set_damageAccumulated (ServerUnit.damageAccumulated u + damage)
    (ServerUnit.set_hp (ServerUnit.hp u - damage) u).

(** The target after a hit that kills it. *)
Definition killed (u : ServerUnit.t) (damage : Q) : ServerUnit.t :=
  ServerUnit.set_stateTimer 0 (ServerUnit.set_state DIE (ServerUnit.set_hp 0 (hit u damage))).

(** The condition under which the knockback branch of [applyDamage] runs
    for a target that survives. *)
Definition knockbackFires (u : ServerUnit.t) (damage : Q) : bool :=
  negb (Js.flag (UnitDefinition.isBoss (ServerUnit.definition u)))
  && Js.geb (ServerUnit.damageAccumulated u + damage) (ServerUnit.maxHp u * 0.15).

(** The position after the knockback displacement and its clamp. *)
Definition knockbackX (stageLength : Q) (u : ServerUnit.t) (knockback : Q) : Q :=
  match ServerUnit.side u with
  | player1 => Js.max (ServerUnit.x u + knockback * -1) 80
  | player2 => Js.min (ServerUnit.x u + knockback * 1) (stageLength - 30)
  end.

(** The target after a hit it survives with knockback. *)
Definition knockedBack (stageLength : Q) (u : ServerUnit.t) (damage knockback : Q)
  : ServerUnit.t :=
  ServerUnit.set_stateTimer 0
    (ServerUnit.set_state HITSTUN
       (ServerUnit.set_x (knockbackX stageLength u knockback)
          (ServerUnit.set_damageAccumulated 0 (hit u damage)))).
End Outcome.

Module Trace.
Import BattleRoom.

(** The broadcasts that mark the way from the countdown to the match. *)
Inductive Milestone : Type :=
  | Counted (countdown : Z)   (* broadcast of countdown_update *)
  | Playing.                  (* broadcast of phase_change to playing *)

Definition milestone (e : Effect) : list Milestone :=
  match e with
  | Broadcast (countdown_update c) => [Counted c]
  | Broadcast (phase_change playing _ _ _ _) => [Playing]
  | _ => []
  end.

Definition milestones (es : list Effect) : list Milestone :=
  flat_map milestone es.

Definition isCountdownTimer (e : Event) : bool :=
  match e with CountdownTimer _ => true | _ => false end.

(** How often the countdown interval is given the chance to fire. *)
Definition timerSlots (trace : list Event) : nat :=
  List.length (filter isCountdownTimer trace).

(** The broadcasts due from a room whose countdown interval is running
    or not ([active]) with [c] seconds left, over the events of [trace]:
    each firing of the running interval counts one second down and
    broadcasts the new value, and at zero stops the interval and starts the
    game. *)
Fixpoint expect (active : bool) (c : Z) (trace : list Event) : list Milestone :=
  match trace with
  | [] => []
  | CountdownTimer _ :: rest =>
      if active then
        Counted (c - 1)
        :: (if (c - 1 <=? 0)%Z then Playing :: expect false (c - 1) rest
            else expect true (c - 1) rest)
      else expect false c rest
  | _ :: rest => expect active c rest
  end.

(** The whole way from the countdown to the match, and as much of it as
    [slots] firings of the interval produce. *)
Definition countdownScript : list Milestone :=
  [Counted 2; Counted 1; Counted 0; Playing].

Definition scriptAfter (slots : nat) : list Milestone :=
  firstn (if (slots <? 3)%nat then slots else 4%nat) countdownScript.

(** [r'] comes from [r] without a milestone: the phase is kept or goes to
    finished, the countdown and its interval are as they were, the game
    loop is as it was or stopped. *)
Definition quiet (r r' : BattleRoom.t) : Prop :=
  (BattleState.phase (state r') = BattleState.phase (state r)
   \/ BattleState.phase (state r') = finished) /\
  BattleState.countdown (state r') = BattleState.countdown (state r) /\
  countdownInterval r' = countdownInterval r /\
  milestones (effects r') = milestones (effects r) /\
  (gameLoop r' = gameLoop r \/ gameLoop r' = false).

(** What the combat system leaves alone: the phase apart, see
    [checkWinCondition], the countdown and the stage length. *)
Definition control (cs : ServerCombatSystem.t) : Phase * Z * Q :=
  (BattleState.phase (ServerCombatSystem.state cs),
   BattleState.countdown (ServerCombatSystem.state cs),
   BattleState.stageLength (ServerCombatSystem.state cs)).
End Trace.

Module Seats.
Import BattleRoom.

Definition playersOf (cs : ServerCombatSystem.t) : Js.map PlayerSchema.t :=
  BattleState.players (ServerCombatSystem.state cs).

(** At most two players, each held under its own session id. *)
Definition seated (cs : ServerCombatSystem.t) : Prop :=
  (Js.size (playersOf cs) <= 2)%Z /\
  Forall (fun kv => PlayerSchema.sessionId (snd kv) = fst kv) (playersOf cs).

(** The rooms that the events build from a new room. *)
Definition reachable (allies : list UnitDefinition.t) (r : BattleRoom.t) : Prop :=
  exists (now : Z) (trace : list Event), r = run allies (onCreate now) trace.
End Seats.

Module Lane.
Import ServerCombatSystem.

(** The lane of invariant 3, and the data a unit needs to stay in it:
    a speed and a knockback that are not negative. *)
Definition inLane (stageLength : Q) (u : ServerUnit.t) : Prop :=
  80 <= ServerUnit.x u /\ ServerUnit.x u <= stageLength - 30.

Definition steady (d : UnitDefinition.t) : Prop :=
  0 <= UnitDefinition.speed d /\ 0 <= UnitDefinition.knockback d.

Definition fit (stageLength : Q) (u : ServerUnit.t) : Prop :=
  inLane stageLength u /\ steady (ServerUnit.definition u).

Definition onLane (cs : t) : Prop :=
  1120 <= BattleState.stageLength (state cs) /\
  Forall (fun kv => fit (BattleState.stageLength (state cs)) (snd kv))
         (serverUnits cs).

(** The unit as [clampUnitPosition] leaves it. *)
Definition clamped (stageLength : Q) (u : ServerUnit.t) : ServerUnit.t :=
  match ServerUnit.side u with
  | player1 =>
      ServerUnit.set_x
        (Js.min (Js.max (ServerUnit.x u) (CASTLE_POSITIONS player1 + 30))
                (stageLength - 30)) u
  | player2 =>
      ServerUnit.set_x
        (Js.min (Js.max (ServerUnit.x u) 80) (CASTLE_POSITIONS player2 - 30)) u
  end.
End Lane.

Unset Implicit Arguments.

(** *** Targets *)

Module Targeting.
Import ServerCombatSystem.

(** The units [findTarget] considers for [attacker]: of the other side,
    alive, and at an edge distance of at most the attack range plus 20. *)
Definition candidate (attacker unit : ServerUnit.t) : bool :=
  Side_eqb (ServerUnit.side unit) (enemyOf (ServerUnit.side attacker))
  && negb (isDIE (ServerUnit.state unit))
  && Js.leb (getEdgeDistance attacker unit)
            (UnitDefinition.attackRange (ServerUnit.definition attacker) + 20).

(** Its test for a unit in front of the attacker, in the attacker's
    direction of march. *)
Definition inFront (attacker unit : ServerUnit.t) : bool :=
  match ServerUnit.side attacker with
  | player1 => Js.gtb (ServerUnit.x unit) (ServerUnit.x attacker)
  | player2 => Js.ltb (ServerUnit.x unit) (ServerUnit.x attacker)
  end.

(** What the four locals of [findTarget] hold once the loop has gone over
    the units [seen]: the closest candidate in front and the closest
    candidate of all, each with its distance, or nothing and [Infinity]
    where there is no such candidate. *)
Definition closestOf (attacker : ServerUnit.t) (seen : list ServerUnit.t)
    (acc : Closest) : Prop :=
  match closestInFront acc with
  | Some u =>
      In u seen /\ candidate attacker u = true /\ inFront attacker u = true /\
      minDistanceFront acc = Some (getEdgeDistance attacker u) /\
      forall v, In v seen -> candidate attacker v = true ->
                inFront attacker v = true ->
                getEdgeDistance attacker u <= getEdgeDistance attacker v
  | None =>
      minDistanceFront acc = None /\
      forall v, In v seen -> candidate attacker v = true ->
                inFront attacker v = false
  end /\
  match closestAny acc with
  | Some u =>
      In u seen /\ candidate attacker u = true /\
      minDistanceAny acc = Some (getEdgeDistance attacker u) /\
      forall v, In v seen -> candidate attacker v = true ->
                getEdgeDistance attacker u <= getEdgeDistance attacker v
  | None =>
      minDistanceAny acc = None /\
      forall v, In v seen -> candidate attacker v = false
  end.
End Targeting.

(** *** The writes of a tick *)

Module Steps.
Import ServerCombatSystem.

(** What is fixed when a unit is spawned. *)
Definition sameIdentity (u u' : ServerUnit.t) : Prop :=
  ServerUnit.instanceId u' = ServerUnit.instanceId u /\
  ServerUnit.definitionId u' = ServerUnit.definitionId u /\
  ServerUnit.definition u' = ServerUnit.definition u /\
  ServerUnit.side u' = ServerUnit.side u /\
  ServerUnit.maxHp u' = ServerUnit.maxHp u /\
  ServerUnit.width u' = ServerUnit.width u.

(** What is fixed in the replica of a unit. *)
Definition sameReplica (s s' : UnitSchema.t) : Prop :=
  UnitSchema.instanceId s' = UnitSchema.instanceId s /\
  UnitSchema.definitionId s' = UnitSchema.definitionId s /\
  UnitSchema.side s' = UnitSchema.side s /\
  UnitSchema.maxHp s' = UnitSchema.maxHp s.

(** A write of the state machine, of the collisions or of the targeting
    to a unit: position, state, timer and target may change; the
    hit points and the accumulated damage do not, and the unit does not die
    of it. *)
Definition moved (u u' : ServerUnit.t) : Prop :=
  sameIdentity u u' /\
  ServerUnit.hp u' = ServerUnit.hp u /\
  ServerUnit.damageAccumulated u' = ServerUnit.damageAccumulated u /\
  (ServerUnit.state u' = DIE -> ServerUnit.state u = DIE).

(** The target as [applyDamage] leaves it. *)
Definition struck (stageLength : Q) (u : ServerUnit.t) (damage knockback : Q)
  : ServerUnit.t :=
  if Js.leb (ServerUnit.hp u - damage) 0 then Outcome.killed u damage
  else if Outcome.knockbackFires u damage
       then Outcome.knockedBack stageLength u damage knockback
       else Outcome.hit u damage.

(** The player whose castle [dealDamage] has hit. *)
Definition besieged (p : PlayerSchema.t) (damage : Q) : PlayerSchema.t :=
  let p := PlayerSchema.set_castleHp (PlayerSchema.castleHp p - damage) p in
  if Js.ltb (PlayerSchema.castleHp p) 0 then PlayerSchema.set_castleHp 0 p else p.

(** The writes that a tick of the simulator is made of. *)
Inductive change (cs : t) : t -> Prop :=
  | change_moved (k : string) (u u' : ServerUnit.t) :
      Js.get k (serverUnits cs) = Some u ->
      moved u u' ->
      change cs (putUnit cs k u')
  | change_struck (k : string) (u a : ServerUnit.t) :
      Js.get k (serverUnits cs) = Some u ->
      ServerUnit.state u <> DIE ->
      In a (Js.values (serverUnits cs)) ->
      change cs
        (putUnit cs k
           (struck (BattleState.stageLength (state cs)) u
                   (UnitDefinition.attackDamage (ServerUnit.definition a))
                   (UnitDefinition.knockback (ServerUnit.definition a))))
  | change_kill (sessionId : string) :
      change cs
        (set_killCounts
           (Js.set sessionId (getKillCount cs sessionId + 1)%Z (killCounts cs)) cs)
  | change_besieged (sessionId : string) (p : PlayerSchema.t) (a : ServerUnit.t) :
      Js.get sessionId (BattleState.players (state cs)) = Some p ->
      In a (Js.values (serverUnits cs)) ->
      change cs
        (putPlayer cs sessionId
           (besieged p (UnitDefinition.attackDamage (ServerUnit.definition a))))
  | change_synced (k : string) (s s' : UnitSchema.t) :
      Js.get k (BattleState.units (state cs)) = Some s ->
      sameReplica s s' ->
      change cs
        (set_state
           (BattleState.set_units (Js.set k s' (BattleState.units (state cs)))
                                  (state cs)) cs)
  | change_removed (k : string) :
      change cs
        (set_state
           (BattleState.set_units (Js.delete k (BattleState.units (state cs)))
                                  (state cs))
           (set_serverUnits (Js.delete k (serverUnits cs)) cs))
  | change_decided (winnerId : string) :
      BattleState.phase (state cs) = playing ->
      change cs
        (set_state
           (BattleState.set_winReason "castle_destroyed"
              (BattleState.set_winnerId winnerId
                 (BattleState.set_phase finished (state cs)))) cs).

(** A run of such writes. *)
Inductive changes (cs : t) : t -> Prop :=
  | changes_refl : changes cs cs
  | changes_step (cs' cs'' : t) :
      changes cs cs' -> change cs' cs'' -> changes cs cs''.

End Steps.


Module Vital.
Import ServerCombatSystem.

(** Hit points within bounds, none left to a dead unit; and an attack
    damage that is not negative. *)
Definition sound (u : ServerUnit.t) : Prop :=
  0 <= ServerUnit.hp u /\ ServerUnit.hp u <= ServerUnit.maxHp u /\
  (ServerUnit.state u = DIE -> ServerUnit.hp u == 0) /\
  0 <= UnitDefinition.attackDamage (ServerUnit.definition u).

Definition allSound (cs : t) : Prop :=
  Forall sound (Js.values (serverUnits cs)).

(** The unit held under the key [k] has hit points left unless it is dead,
    and is not its own target. *)
Definition hale (k : string) (u : ServerUnit.t) : Prop :=
  (ServerUnit.state u <> DIE -> 0 < ServerUnit.hp u) /\
  ServerUnit.targetId u <> Some k.

Definition allHale (cs : t) : Prop :=
  Forall (fun ku => hale (fst ku) (snd ku)) (serverUnits cs).

End Vital.

Module Siege.

(** A player after a tick of the simulator: nothing but the castle has
    changed, and a castle that stood at zero or more has lost hit points,
    never below zero. *)
Definition worn (p p' : PlayerSchema.t) : Prop :=
  PlayerSchema.set_castleHp 0 p' = PlayerSchema.set_castleHp 0 p /\
  (0 <= PlayerSchema.castleHp p ->
   0 <= PlayerSchema.castleHp p' /\ PlayerSchema.castleHp p' <= PlayerSchema.castleHp p).

Definition wornPlayers (players players' : Js.map PlayerSchema.t) : Prop :=
  Forall2 (fun kv kv' => fst kv' = fst kv /\ worn (snd kv) (snd kv'))
          players players'.

End Siege.

(** *** The speed vote and the tick of the room *)

Module Speed.

(** The game speed that [recalculateGameSpeed] settles on: 2 when at
    least two players are seated and every seated player has voted for it,
    1 otherwise. *)
Definition agreed (players : Js.map PlayerSchema.t) (speedVotes : Js.map bool) : Z :=
  if (Js.size players <? 2)%Z then 1%Z
  else if forallb (fun kv : string * PlayerSchema.t =>
                     match Js.get (fst kv) speedVotes with
                     | Some true => true
                     | _ => false
                     end) players
       then 2%Z else 1%Z.

End Speed.

Module Tick.
Import BattleRoom.

(** The time that [tick] lets pass: the time since the last tick, times the
    game speed. *)
Definition adjustedDelta (this : BattleRoom.t) (now : Z) : Q :=
  inject_Z
    ((now - lastUpdateTime this)
     * (if (BattleState.gameSpeed (state this) =? 0)%Z then 1%Z
        else BattleState.gameSpeed (state this))).

(** The simulator as [tick] hands it to [update]: the game time advanced
    and the cost of every player regenerated. *)
Definition beforeUpdate (this : BattleRoom.t) (now : Z) : ServerCombatSystem.t :=
  let adjustedDelta := adjustedDelta this now in
  ServerCombatSystem.set_state
    (BattleState.set_players
       (List.map (fun kv => (fst kv, ServerCostSystem.update (snd kv) adjustedDelta))
                 (BattleState.players (state this)))
       (BattleState.set_gameTime
          (BattleState.gameTime (state this) + adjustedDelta) (state this)))
    (combatSystem this).

(** The spawn cooldowns after the tick. *)
Definition cooledDown (this : BattleRoom.t) (now : Z) : Js.map (Js.map Q) :=
  List.map
    (fun kc =>
       (fst kc,
        List.map (fun kr => (fst kr, Js.max 0 (snd kr - adjustedDelta this now)))
                 (snd kc)))
    (spawnCooldowns this).

End Tick.

(** *** The room and the simulator *)

Module Roster.
Import ServerCombatSystem.

(** The replica shows the unit it stands for. *)
Definition shows (u : ServerUnit.t) (s : UnitSchema.t) : Prop :=
  UnitSchema.instanceId s = ServerUnit.instanceId u /\
  UnitSchema.definitionId s = ServerUnit.definitionId u /\
  UnitSchema.side s = ServerUnit.side u /\
  UnitSchema.maxHp s = ServerUnit.maxHp u.

(** An entry of the simulator's units and the entry of the replicated
    units at the same place: the same key, which is the instance id of the
    unit, and a replica of that unit. *)
Definition entry (ku : string * ServerUnit.t) (ks : string * UnitSchema.t) : Prop :=
  fst ks = fst ku /\ ServerUnit.instanceId (snd ku) = fst ku /\ shows (snd ku) (snd ks).

(** No instance id is held twice, and the replicated units list the
    simulator's units, entry by entry. *)
Definition kept (cs : t) : Prop :=
  NoDup (Js.keys (serverUnits cs)) /\
  Forall2 entry (serverUnits cs) (BattleState.units (state cs)).

End Roster.

Module Catalog.

(** Data of a unit definition that is not negative. *)
Definition sane (d : UnitDefinition.t) : Prop :=
  0 <= UnitDefinition.cost d /\ 0 <= UnitDefinition.maxHp d /\
  0 <= UnitDefinition.attackDamage d /\
  0 <= UnitDefinition.speed d /\ 0 <= UnitDefinition.knockback d.

End Catalog.

Module Castle.

(** The castle of a player stands between zero and its maximum. *)
Definition bounded (p : PlayerSchema.t) : Prop :=
  0 <= PlayerSchema.castleHp p /\ PlayerSchema.castleHp p <= PlayerSchema.maxCastleHp p.

Definition allBounded (cs : ServerCombatSystem.t) : Prop :=
  Forall bounded (Js.values (BattleState.players (ServerCombatSystem.state cs))).

End Castle.

Module Moves.
Import ServerCombatSystem.

Section Catalog.
Variable allies : list UnitDefinition.t.

(** The times that a tick may let pass. *)
Variable lapse : Q -> Prop.

(** What the hooks and handlers of the room do to the simulator.  The
    settings are the fields of the state other than the stage length, the
    players and the units. *)
Inductive move (cs : t) : t -> Prop :=
  | move_settings (st : BattleState.t) :
      BattleState.stageLength st = BattleState.stageLength (state cs) ->
      BattleState.players st = BattleState.players (state cs) ->
      BattleState.units st = BattleState.units (state cs) ->
      move cs (set_state st cs)
  | move_seat (client : string) (player : PlayerSchema.t) :
      (Js.size (BattleState.players (state cs)) < 2)%Z ->
      PlayerSchema.sessionId player = client ->
      PlayerSchema.castleHp player = BattleRoom.CASTLE_HP ->
      PlayerSchema.maxCastleHp player = BattleRoom.CASTLE_HP ->
      move cs (putPlayer cs client (ServerCostSystem.initialize player))
  | move_leave (client : string) :
      move cs
        (set_state
           (BattleState.set_players
              (Js.delete client (BattleState.players (state cs))) (state cs)) cs)
  | move_ready (client : string) (player : PlayerSchema.t) :
      Js.get client (BattleState.players (state cs)) = Some player ->
      move cs (putPlayer cs client (PlayerSchema.set_ready true player))
  | move_spend (client : string) (player : PlayerSchema.t)
               (definition : UnitDefinition.t) :
      Js.get client (BattleState.players (state cs)) = Some player ->
      In definition allies ->
      move cs
        (putPlayer cs client
           (fst (ServerCostSystem.spend player (UnitDefinition.cost definition))))
  | move_upgrade (client : string) (player : PlayerSchema.t) :
      Js.get client (BattleState.players (state cs)) = Some player ->
      move cs (putPlayer cs client (fst (ServerCostSystem.upgradeMax player)))
  | move_spawn (player : PlayerSchema.t) (unitId stamp : string) :
      move cs (fst (spawnUnit allies cs player unitId stamp))
  | move_regen (d : Q) :
      lapse d ->
      move cs
        (set_state
           (BattleState.set_players
              (List.map (fun kv => (fst kv, ServerCostSystem.update (snd kv) d))
                        (BattleState.players (state cs)))
              (state cs)) cs)
  | move_update (d : Q) :
      lapse d ->
      move cs (update cs d).

(** A step that touches the settings only. *)
Definition idle (cs cs' : t) : Prop :=
  serverUnits cs' = serverUnits cs /\
  killCounts cs' = killCounts cs /\
  BattleState.stageLength (state cs') = BattleState.stageLength (state cs) /\
  BattleState.players (state cs') = BattleState.players (state cs) /\
  BattleState.units (state cs') = BattleState.units (state cs).

(** A run of such moves. *)
Inductive moves (cs : t) : t -> Prop :=
  | moves_refl : moves cs cs
  | moves_step (cs' cs'' : t) :
      moves cs cs' -> move cs' cs'' -> moves cs cs''.

End Catalog.

End Moves.

Module Clock.
Import BattleRoom.

(** The time of an event that reads the clock. *)
Definition time (e : Event) : option Z :=
  match e with
  | Join _ _ now => Some now
  | CountdownTimer now => Some now
  | GameLoopTimer now => Some now
  | _ => None
  end.

(** The clock does not run backwards in the trace, from [t] on. *)
Fixpoint clocked (t : Z) (trace : list Event) : Prop :=
  match trace with
  | [] => True
  | e :: trace =>
      match time e with
      | Some now => (t <= now)%Z /\ clocked now trace
      | None => clocked t trace
      end
  end.

(** The room keeps time with a clock that stands at [t]: a running game
    loop was last updated at [t] or before, and the game speed is not
    negative. *)
Definition paced (t : Z) (r : BattleRoom.t) : Prop :=
  (gameLoop r = true -> (lastUpdateTime r <= t)%Z) /\
  (0 <= BattleState.gameSpeed (state r))%Z.

End Clock.

Set Implicit Arguments.

(* ================================================================== *)
(** ** A small catalog and a match, for concrete runs                  *)
(* ================================================================== *)

Module Example.
Import BattleRoom.

Definition sword : UnitDefinition.t :=
  UnitDefinition.mk "sword" "Sword" "N" 100 100 200 30 50 500 100 None 40
         None None None.
Definition giant : UnitDefinition.t :=
  UnitDefinition.mk "giant" "Giant" "UR" 900 1000 50 5000 60 1000 300 (Some 9000) 0
         (Some true) None (Some 1.5).
Definition allies : list UnitDefinition.t := [sword; giant].

Definition options (deck : list string) : JoinOptions :=
  mkJoinOptions None None (Some deck) None.

(** Two players have joined. *)
Definition joined : BattleRoom.t :=
  run allies (onCreate 0)
      [Join "alice" (options ["sword"; "giant"]) 1%Z;
       Join "bob" (options ["sword"]) 2%Z].

(** Both are ready: the countdown runs. *)
Definition counting : BattleRoom.t :=
  run allies joined [Ready "alice"; Ready "bob"].

(** The countdown has run out: the match is on. *)
Definition started : BattleRoom.t :=
  run allies counting
      [CountdownTimer 1000%Z; CountdownTimer 2000%Z; CountdownTimer 3000%Z].

Definition unit (instanceId : string) (definition : UnitDefinition.t) (side : Side)
    (x hp : Q) (st : UnitState) (stateTimer : Q) (targetId : option string)
    (damageAccumulated : Q) : ServerUnit.t :=
  ServerUnit.mk instanceId (UnitDefinition.id definition) definition side x hp
          (UnitDefinition.maxHp definition) st stateTimer targetId damageAccumulated 60.

(** Alice's sword has finished its windup on Bob's sword, edge to edge. *)
Definition duelist : ServerUnit.t :=
  unit "player1_sword_1" sword player1 500 100 ATTACK_WINDUP 100
       (Some "player2_sword_1") 0.

Definition opponent : ServerUnit.t :=
  unit "player2_sword_1" sword player2 560 100 WALK 0
       (Some "player1_sword_1") 0.

Definition duel : ServerCombatSystem.t :=
  ServerCombatSystem.set_serverUnits
    [("player1_sword_1", duelist); ("player2_sword_1", opponent)]
    (combatSystem started).

(** The two players as they stand when the match starts. *)
Definition alice : PlayerSchema.t :=
  PlayerSchema.mk "alice" "alice" "Player 1" 200 1000 1%Z 5000 5000 true
            ["sword"; "giant"].
Definition bob : PlayerSchema.t :=
  PlayerSchema.mk "bob" "bob" "Player 2" 200 1000 1%Z 5000 5000 true ["sword"].
End Example.

Module ExampleWalk.
Import Example.

(** Alice's sword walks with Bob's sword as its target; Bob's sword has
    just been killed (state [DIE], not yet cleaned up) and stands edge to
    edge with it, far from either castle. *)
Definition walker : ServerUnit.t :=
  unit "player1_sword_1" sword player1 500 100 WALK 50
       (Some "player2_sword_1") 0.

Definition corpse : ServerUnit.t :=
  unit "player2_sword_1" sword player2 560 0 DIE 0
       (Some "player1_sword_1") 100.

Definition besideCorpse : ServerCombatSystem.t :=
  ServerCombatSystem.set_serverUnits
    [("player1_sword_1", walker); ("player2_sword_1", corpse)]
    (BattleRoom.combatSystem started).
End ExampleWalk.

Module ExampleTick.
Import Example.

(** One tick before the walker meets the corpse: Alice's giant is 50 ms
    short of finishing its windup on Bob's sword, and Alice's sword, later
    in the unit map, walks with the same sword as its target, in range. *)
Definition striker : ServerUnit.t :=
  unit "player1_giant_1" giant player1 480 1000 ATTACK_WINDUP 250
       (Some "player2_sword_1") 0.

Definition walker : ServerUnit.t :=
  unit "player1_sword_1" sword player1 500 100 WALK 50
       (Some "player2_sword_1") 0.

Definition victim : ServerUnit.t :=
  unit "player2_sword_1" sword player2 560 100 ATTACK_COOLDOWN 0
       (Some "player1_sword_1") 0.

Definition beforeKill : ServerCombatSystem.t :=
  ServerCombatSystem.set_serverUnits
    [("player1_giant_1", striker); ("player1_sword_1", walker);
     ("player2_sword_1", victim)]
    (BattleRoom.combatSystem started).
End ExampleTick.

Module ExampleRoom.
Import Example BattleRoom.

(** The match is on and both castles are down at the win check. *)
Definition bothDown : ServerCombatSystem.t :=
  ServerCombatSystem.set_state
    (BattleState.set_players
       [("alice", PlayerSchema.set_castleHp 0 alice);
        ("bob", PlayerSchema.set_castleHp 0 bob)]
       (state started))
    (combatSystem started).

(** A players map with a third entry, which [onJoin] never builds: the
    only kind of state in which [spawnUnit] fails inside [handleSummon]. *)
Definition carol : PlayerSchema.t :=
  ServerCostSystem.initialize
    (PlayerSchema.mk "carol" "carol" "Player 3" 200 1000 1%Z 5000 5000 true ["sword"]).

Definition crowded : BattleRoom.t :=
  set_spawnCooldowns (Js.set "carol" [] (spawnCooldowns started))
    (set_state
       (BattleState.set_players
          (Js.set "carol" carol (BattleState.players (state started)))
          (state started))
       started).
End ExampleRoom.

(* ================================================================== *)
(** * Theorems                                                         *)
(* ================================================================== *)

Unset Implicit Arguments.

(** ** Numbers *)

Lemma leb_le (a b : Q) : Js.leb a b = true <-> a <= b.
Proof. unfold Js.leb. apply Qle_bool_iff. Qed.

Lemma leb_gt (a b : Q) : Js.leb a b = false <-> b < a.
Proof.
  unfold Js.leb. split; intro H.
  - apply Qnot_le_lt. intro Hle. apply Qle_bool_iff in Hle. congruence.
  - destruct (Qle_bool a b) eqn:E; [|reflexivity].
    apply Qle_bool_iff in E. exfalso. apply (Qlt_not_le _ _ H E).
Qed.

Lemma geb_ge (a b : Q) : Js.geb a b = true <-> b <= a.
Proof. unfold Js.geb. apply Qle_bool_iff. Qed.

Lemma geb_lt (a b : Q) : Js.geb a b = false <-> a < b.
Proof. unfold Js.geb. apply (leb_gt b a). Qed.

Lemma ltb_lt (a b : Q) : Js.ltb a b = true <-> a < b.
Proof.
  unfold Js.ltb. rewrite negb_true_iff. apply (leb_gt b a).
Qed.

Lemma ltb_ge (a b : Q) : Js.ltb a b = false <-> b <= a.
Proof.
  unfold Js.ltb. rewrite negb_false_iff. apply (leb_le b a).
Qed.

Lemma gtb_gt (a b : Q) : Js.gtb a b = true <-> b < a.
Proof.
  unfold Js.gtb. rewrite negb_true_iff. apply (leb_gt a b).
Qed.

Lemma gtb_le (a b : Q) : Js.gtb a b = false <-> a <= b.
Proof.
  unfold Js.gtb. rewrite negb_false_iff. apply (leb_le a b).
Qed.

Lemma min_spec (a b : Q) :
  (a <= b /\ Js.min a b = a) \/ (b < a /\ Js.min a b = b).
Proof.
  unfold Js.min. destruct (Js.leb a b) eqn:E.
  - left. split; [now apply leb_le | reflexivity].
  - right. split; [now apply leb_gt | reflexivity].
Qed.

Lemma max_spec (a b : Q) :
  (a <= b /\ Js.max a b = b) \/ (b < a /\ Js.max a b = a).
Proof.
  unfold Js.max. destruct (Js.leb a b) eqn:E.
  - left. split; [now apply leb_le | reflexivity].
  - right. split; [now apply leb_gt | reflexivity].
Qed.

(** ** The cost system *)

Section CostSystem.
Import ServerCostSystem CostFacts.

Lemma costLevel_cases (l : Z) :
  (1 <= l <= 8)%Z ->
  l = 1%Z \/ l = 2%Z \/ l = 3%Z \/ l = 4%Z \/
  l = 5%Z \/ l = 6%Z \/ l = 7%Z \/ l = 8%Z.
Proof. lia. Qed.

Ltac by_level p H :=
  destruct (costLevel_cases _ H) as [E|[E|[E|[E|[E|[E|[E|E]]]]]]].

Lemma initialize_invariant (p : PlayerSchema.t) : costInvariant (initialize p).
Proof.
  unfold costInvariant, initialize, INITIAL_COST; cbn.
  repeat split; try lra; try lia.
Qed.

Lemma regenRate_nonneg (l : Z) : 0 <= regenRateAt l.
Proof.
  unfold regenRateAt, Js.index.
  destruct (l - 1 <? 0)%Z; [cbn; lra|].
  destruct (nth_error regenRates (Z.to_nat (l - 1))) as [r|] eqn:E; [|cbn; lra].
  apply nth_error_In in E. cbn in E.
  repeat (destruct E as [<-|E]; [lra|]). contradiction.
Qed.

Lemma regen_nonneg (l : Z) (deltaMs : Q) :
  0 <= deltaMs -> 0 <= regenRateAt l * (deltaMs / 1000).
Proof.
  intro Hd. apply Qmult_le_0_compat; [apply regenRate_nonneg|].
  unfold Qdiv. apply Qmult_le_0_compat; [exact Hd|].
  apply Qinv_le_0_compat. lra.
Qed.

Lemma update_invariant (p : PlayerSchema.t) (deltaMs : Q) :
  costInvariant p -> 0 <= deltaMs -> costInvariant (update p deltaMs).
Proof.
  intros (Hc0 & Hc1 & Hl & Hm) Hd.
  pose proof (regen_nonneg (PlayerSchema.costLevel p) _ Hd) as Hr.
  unfold costInvariant, update.
  fold (regenRateAt (PlayerSchema.costLevel p)).
  cbn [PlayerSchema.cost PlayerSchema.maxCost PlayerSchema.costLevel PlayerSchema.set_cost].
  match goal with |- context [Js.min ?a ?b] =>
    destruct (min_spec a b) as [[? ->]|[? ->]] end;
    repeat split; try lia; try lra; assumption.
Qed.

Lemma spend_invariant (p : PlayerSchema.t) (amount : Q) :
  costInvariant p -> 0 <= amount -> costInvariant (fst (spend p amount)).
Proof.
  intros (Hc0 & Hc1 & Hl & Hm) Ha.
  unfold spend. destruct (Js.geb (PlayerSchema.cost p) amount) eqn:E; cbn.
  - apply geb_ge in E. unfold costInvariant; cbn. repeat split; try lia; try lra; assumption.
  - unfold costInvariant. repeat split; try lia; assumption.
Qed.

(** Past the two guards of [upgradeMax] the new level indexes [maxLevels]. *)
Lemma upgradeMax_maxLevels_defined (l : Z) (c : Q) :
  (l - 1 >=? Z.of_nat (List.length maxLevels) - 1)%Z = false ->
  Js.index upgradeCosts (l - 1)%Z = Some c ->
  exists m, Js.index maxLevels (l + 1 - 1)%Z = Some m.
Proof.
  intros Hg Hu. cbn in Hg. rewrite Z.geb_leb in Hg. apply Z.leb_gt in Hg.
  unfold Js.index in Hu. destruct (l - 1 <? 0)%Z eqn:E0; [discriminate|].
  apply Z.ltb_ge in E0.
  assert (Hl : (1 <= l <= 8)%Z) by lia.
  by_level l Hl; subst l; try lia; vm_compute; eauto.
Qed.

Lemma upgradeMax_success (p : PlayerSchema.t) :
  costInvariant p -> snd (upgradeMax p) = true ->
  exists c m,
    Js.index upgradeCosts (PlayerSchema.costLevel p - 1)%Z = Some c /\
    Js.index maxLevels (PlayerSchema.costLevel p + 1 - 1)%Z = Some m /\
    c <= PlayerSchema.cost p /\
    fst (upgradeMax p) =
      PlayerSchema.set_maxCost m
        (PlayerSchema.set_costLevel (PlayerSchema.costLevel p + 1)%Z
           (PlayerSchema.set_cost (PlayerSchema.cost p - c) p)).
Proof.
  intros (Hc0 & Hc1 & Hl & Hm). unfold upgradeMax.
  destruct (_ >=? _)%Z eqn:Eg; [discriminate|].
  destruct (Js.index upgradeCosts _) as [c|] eqn:Eu; [|discriminate].
  destruct (Js.ltb _ c) eqn:El; [discriminate|].
  intros _. apply ltb_ge in El.
  destruct (upgradeMax_maxLevels_defined _ _ Eg Eu) as [m Em].
  exists c, m. cbn [PlayerSchema.costLevel PlayerSchema.set_costLevel PlayerSchema.set_cost fst].
  rewrite Em. auto.
Qed.

Lemma upgradeMax_invariant (p : PlayerSchema.t) :
  costInvariant p -> costInvariant (fst (upgradeMax p)).
Proof.
  intros Hinv. destruct (snd (upgradeMax p)) eqn:Es.
  - destruct (upgradeMax_success _ Hinv Es) as (c & m & Hu & Hm' & Hle & ->).
    destruct Hinv as (Hc0 & Hc1 & Hl & Hm).
    unfold costInvariant; cbn.
    assert (Hl' : (1 <= PlayerSchema.costLevel p <= 7)%Z).
    { unfold Js.index in Hu.
      destruct (Z.eq_dec (PlayerSchema.costLevel p) 8) as [E8|]; [|lia].
      rewrite E8 in Hu. discriminate. }
    assert (Hl7 : (1 <= PlayerSchema.costLevel p <= 8)%Z) by lia.
    repeat split; try lia; try lra; try assumption.
    by_level p Hl7; rewrite E in *; cbn in Hu, Hm', Hm;
      try discriminate;
      injection Hu as <-; injection Hm' as <-; injection Hm as Hm;
      rewrite <- Hm in Hc1; lra.
  - unfold upgradeMax in *.
    destruct (_ >=? _)%Z; [exact Hinv|].
    destruct (Js.index upgradeCosts _); [|exact Hinv].
    destruct (Js.ltb _ _); [exact Hinv|discriminate].
Qed.

End CostSystem.

(** C7: every cost-system operation ([initialize], [update] with a
    non-negative delta, [spend] with a non-negative amount, [upgradeMax])
    keeps the player invariant [0 <= cost <= maxCost], [1 <= costLevel <= 8],
    [maxCost = maxLevels[costLevel - 1]]; a successful [upgradeMax] subtracts
    [upgradeCosts[oldLevel - 1]], adds one to [costLevel] and sets [maxCost]
    to [maxLevels[newLevel - 1]]. *)
Theorem cost_system_preserves_invariant
    (fresh p : PlayerSchema.t) (deltaMs amount : Q) :
  ServerCostSystem.costInvariant p -> 0 <= deltaMs -> 0 <= amount ->
  ServerCostSystem.costInvariant (ServerCostSystem.initialize fresh) /\
  ServerCostSystem.costInvariant (ServerCostSystem.update p deltaMs) /\
  ServerCostSystem.costInvariant (fst (ServerCostSystem.spend p amount)) /\
  ServerCostSystem.costInvariant (fst (ServerCostSystem.upgradeMax p)) /\
  (snd (ServerCostSystem.upgradeMax p) = true ->
   let p' := fst (ServerCostSystem.upgradeMax p) in
   exists c m,
     Js.index ServerCostSystem.upgradeCosts (PlayerSchema.costLevel p - 1)%Z = Some c /\
     Js.index ServerCostSystem.maxLevels (PlayerSchema.costLevel p' - 1)%Z = Some m /\
     PlayerSchema.cost p' = PlayerSchema.cost p - c /\
     PlayerSchema.costLevel p' = (PlayerSchema.costLevel p + 1)%Z /\
     PlayerSchema.maxCost p' = m).
Proof.
  intros Hinv Hd Ha.
  split; [apply initialize_invariant|].
  split; [now apply update_invariant|].
  split; [now apply spend_invariant|].
  split; [now apply upgradeMax_invariant|].
  intros Hs p'.
  destruct (upgradeMax_success _ Hinv Hs) as (c & m & Hu & Hm & _ & E).
  exists c, m. subst p'. rewrite E. cbn. auto.
Qed.

(** ** Maps *)

Lemma get_set_same {V} (k : string) (v : V) (m : Js.map V) :
  Js.get k (Js.set k v m) = Some v.
Proof.
  induction m as [|[k' v'] m IH]; cbn.
  - now rewrite String.eqb_refl.
  - destruct (k' =? k)%string eqn:E; cbn.
    + now rewrite String.eqb_refl.
    + now rewrite E.
Qed.

Lemma get_set_other {V} (k k' : string) (v : V) (m : Js.map V) :
  k' <> k -> Js.get k' (Js.set k v m) = Js.get k' m.
Proof.
  intro Hne. induction m as [|[k0 v0] m IH]; cbn.
  - destruct (k =? k')%string eqn:E; [|reflexivity].
    apply String.eqb_eq in E. congruence.
  - destruct (k0 =? k)%string eqn:E; cbn.
    + apply String.eqb_eq in E. subst k0.
      destruct (k =? k')%string eqn:E'; [|reflexivity].
      apply String.eqb_eq in E'. congruence.
    + destruct (k0 =? k')%string; [reflexivity | exact IH].
Qed.

Lemma keys_set_present {V} (k : string) (v v0 : V) (m : Js.map V) :
  Js.get k m = Some v0 -> Js.keys (Js.set k v m) = Js.keys m.
Proof.
  induction m as [|[k' v'] m IH]; cbn; [discriminate|].
  destruct (k' =? k)%string eqn:E; cbn.
  - apply String.eqb_eq in E. now subst.
  - intro H. unfold Js.keys in IH. now rewrite IH.
Qed.

Lemma get_delete_same_head {V} (k : string) (v : V) (m : Js.map V) :
  Js.delete k ((k, v) :: m) = m.
Proof. cbn. now rewrite String.eqb_refl. Qed.

Lemma set_set_same {V} (k : string) (v v' : V) (m : Js.map V) :
  Js.set k v (Js.set k v' m) = Js.set k v m.
Proof.
  induction m as [|[k0 v0] m IH]; cbn.
  - now rewrite String.eqb_refl.
  - destruct (k0 =? k)%string eqn:E; cbn.
    + now rewrite String.eqb_refl.
    + now rewrite E, IH.
Qed.

(** ** Records *)

(** Projections of setters, and nothing else. *)
Ltac fields :=
  cbn [ServerUnit.instanceId ServerUnit.definitionId ServerUnit.definition ServerUnit.side ServerUnit.x
       ServerUnit.hp ServerUnit.maxHp ServerUnit.state ServerUnit.stateTimer ServerUnit.targetId
       ServerUnit.damageAccumulated ServerUnit.width
       ServerUnit.set_x ServerUnit.set_hp ServerUnit.set_state ServerUnit.set_stateTimer
       ServerUnit.set_targetId ServerUnit.set_damageAccumulated
       PlayerSchema.odeyoId PlayerSchema.sessionId PlayerSchema.displayName PlayerSchema.cost
       PlayerSchema.maxCost PlayerSchema.costLevel PlayerSchema.castleHp PlayerSchema.maxCastleHp
       PlayerSchema.ready PlayerSchema.deck
       PlayerSchema.set_cost PlayerSchema.set_maxCost PlayerSchema.set_costLevel
       PlayerSchema.set_castleHp PlayerSchema.set_ready
       BattleState.phase BattleState.gameTime BattleState.countdown
       BattleState.stageLength BattleState.players BattleState.units
       BattleState.winnerId BattleState.winReason BattleState.gameSpeed
       BattleState.speedVotes
       BattleState.set_phase BattleState.set_gameTime BattleState.set_countdown
       BattleState.set_stageLength BattleState.set_players
       BattleState.set_units BattleState.set_winnerId BattleState.set_winReason
       BattleState.set_gameSpeed BattleState.set_speedVotes
       ServerCombatSystem.state ServerCombatSystem.serverUnits
       ServerCombatSystem.killCounts ServerCombatSystem.set_state
       ServerCombatSystem.set_serverUnits ServerCombatSystem.set_killCounts
       ServerCombatSystem.putUnit ServerCombatSystem.putPlayer
       BattleRoom.combatSystem BattleRoom.gameLoop BattleRoom.countdownInterval
       BattleRoom.lastUpdateTime BattleRoom.spawnCooldowns BattleRoom.metadata
       BattleRoom.effects BattleRoom.set_combatSystem BattleRoom.set_gameLoop
       BattleRoom.set_countdownInterval BattleRoom.set_lastUpdateTime
       BattleRoom.set_spawnCooldowns BattleRoom.set_metadata BattleRoom.emit
       BattleRoom.state BattleRoom.set_state BattleRoom.sendError
       fst snd negb].

Ltac fields_in H :=
  cbn [ServerUnit.instanceId ServerUnit.definitionId ServerUnit.definition ServerUnit.side ServerUnit.x
       ServerUnit.hp ServerUnit.maxHp ServerUnit.state ServerUnit.stateTimer ServerUnit.targetId
       ServerUnit.damageAccumulated ServerUnit.width
       ServerUnit.set_x ServerUnit.set_hp ServerUnit.set_state ServerUnit.set_stateTimer
       ServerUnit.set_targetId ServerUnit.set_damageAccumulated
       PlayerSchema.odeyoId PlayerSchema.sessionId PlayerSchema.displayName PlayerSchema.cost
       PlayerSchema.maxCost PlayerSchema.costLevel PlayerSchema.castleHp PlayerSchema.maxCastleHp
       PlayerSchema.ready PlayerSchema.deck
       PlayerSchema.set_cost PlayerSchema.set_maxCost PlayerSchema.set_costLevel
       PlayerSchema.set_castleHp PlayerSchema.set_ready
       BattleState.phase BattleState.gameTime BattleState.countdown
       BattleState.stageLength BattleState.players BattleState.units
       BattleState.winnerId BattleState.winReason BattleState.gameSpeed
       BattleState.speedVotes
       BattleState.set_phase BattleState.set_gameTime BattleState.set_countdown
       BattleState.set_stageLength BattleState.set_players
       BattleState.set_units BattleState.set_winnerId BattleState.set_winReason
       BattleState.set_gameSpeed BattleState.set_speedVotes
       ServerCombatSystem.state ServerCombatSystem.serverUnits
       ServerCombatSystem.killCounts ServerCombatSystem.set_state
       ServerCombatSystem.set_serverUnits ServerCombatSystem.set_killCounts
       ServerCombatSystem.putUnit ServerCombatSystem.putPlayer
       BattleRoom.combatSystem BattleRoom.gameLoop BattleRoom.countdownInterval
       BattleRoom.lastUpdateTime BattleRoom.spawnCooldowns BattleRoom.metadata
       BattleRoom.effects BattleRoom.set_combatSystem BattleRoom.set_gameLoop
       BattleRoom.set_countdownInterval BattleRoom.set_lastUpdateTime
       BattleRoom.set_spawnCooldowns BattleRoom.set_metadata BattleRoom.emit
       BattleRoom.state BattleRoom.set_state BattleRoom.sendError
       fst snd negb] in H.

(** ** Damage *)

Section Damage.
Import ServerCombatSystem Outcome.

Lemma setUnitState_found (this : t) (k : string) (u : ServerUnit.t) (st : UnitState) :
  Js.get k (serverUnits this) = Some u ->
  setUnitState this k st =
  putUnit this k (ServerUnit.set_stateTimer 0 (ServerUnit.set_state st u)).
Proof. intro H. unfold setUnitState. now rewrite H. Qed.

Lemma get_putUnit_same (this : t) (k : string) (u : ServerUnit.t) :
  Js.get k (serverUnits (putUnit this k u)) = Some u.
Proof. apply get_set_same. Qed.

Lemma putUnit_putUnit (this : t) (k : string) (u u' : ServerUnit.t) :
  putUnit (putUnit this k u') k u = putUnit this k u.
Proof. unfold putUnit, set_serverUnits; cbn. now rewrite set_set_same. Qed.

Lemma applyDamage_dies (this : t) (tid : string) (u : ServerUnit.t)
    (damage knockback : Q) (attackerSide : option Side) :
  Js.get tid (serverUnits this) = Some u ->
  ServerUnit.hp u - damage <= 0 ->
  applyDamage this tid damage knockback attackerSide =
  let this' := putUnit this tid (killed u damage) in
  match attackerSide with
  | Some side =>
      match getSessionIdBySide this side with
      | Some sid =>
          if Js.truthy sid
          then set_killCounts
                 (Js.set sid (getKillCount this sid + 1)%Z (killCounts this)) this'
          else this'
      | None => this'
      end
  | None => this'
  end.
Proof.
  intros Hget Hle. unfold applyDamage. rewrite Hget. fields.
  apply leb_le in Hle. rewrite Hle.
  erewrite setUnitState_found by apply get_set_same.
  rewrite putUnit_putUnit. reflexivity.
Qed.

Lemma applyDamage_survives (this : t) (tid : string) (u : ServerUnit.t)
    (damage knockback : Q) (attackerSide : option Side) :
  Js.get tid (serverUnits this) = Some u ->
  ServerUnit.state u <> DIE ->
  0 < ServerUnit.hp u - damage ->
  applyDamage this tid damage knockback attackerSide =
  putUnit this tid
    (if knockbackFires u damage
     then knockedBack (BattleState.stageLength (state this)) u damage knockback
     else hit u damage).
Proof.
  intros Hget Hst Hgt. unfold applyDamage. rewrite Hget. fields.
  apply leb_gt in Hgt. rewrite Hgt.
  fold (knockbackFires u damage).
  destruct (knockbackFires u damage); [|reflexivity].
  assert (Hnd : isDIE (ServerUnit.state u) = false)
    by (destruct (ServerUnit.state u); try reflexivity; congruence).
  destruct (ServerUnit.side u) eqn:Es; fields; rewrite Hnd; fields;
    (erewrite setUnitState_found by apply get_set_same);
    rewrite putUnit_putUnit; unfold knockedBack, knockbackX, hit; rewrite Es;
    reflexivity.
Qed.

End Damage.

Section DealDamage.
Import ServerCombatSystem Outcome.

Lemma liveTarget_found (this : t) (a target : ServerUnit.t) (tid : string) :
  liveTarget this a = Some (tid, target) ->
  Js.get tid (serverUnits this) = Some target /\ ServerUnit.state target <> DIE.
Proof.
  unfold liveTarget, targetOf.
  destruct (ServerUnit.targetId a) as [tid'|]; [|discriminate].
  destruct (Js.truthy tid'); [|discriminate].
  destruct (Js.get tid' (serverUnits this)) as [u|] eqn:E; [|discriminate].
  destruct (isDIE (ServerUnit.state u)) eqn:Ed; cbn; [discriminate|].
  intro H. injection H as -> ->. split; [exact E|].
  intro Hd. rewrite Hd in Ed. discriminate.
Qed.

Lemma dealDamage_live (this : t) (attacker tid : string) (a target : ServerUnit.t) :
  Js.get attacker (serverUnits this) = Some a ->
  liveTarget this a = Some (tid, target) ->
  dealDamage this attacker =
  applyDamage this tid (UnitDefinition.attackDamage (ServerUnit.definition a))
              (UnitDefinition.knockback (ServerUnit.definition a)) (Some (ServerUnit.side a)).
Proof. intros Ha Hl. unfold dealDamage. now rewrite Ha, Hl. Qed.

Lemma getKillCount_incremented (this this' : t) (sid : string) :
  getKillCount
    (set_killCounts (Js.set sid (getKillCount this sid + 1)%Z (killCounts this)) this')
    sid
  = (getKillCount this sid + 1)%Z.
Proof. unfold getKillCount at 1. cbn. now rewrite get_set_same. Qed.

End DealDamage.

(** ** The helpers of [dealDamage], from the data they read *)

Section DealDamageData.
Import ServerCombatSystem.

Lemma truthy_nonempty (s : string) : Js.truthy s = true <-> s <> "".
Proof.
  unfold Js.truthy. rewrite negb_true_iff. apply String.eqb_neq.
Qed.

(** [liveTarget] finds the unit that [targetId] names, when the id is not
    empty, the unit is in the map and it is not dead. *)
Lemma liveTarget_data (this : t) (a target : ServerUnit.t) (tid : string) :
  liveTarget this a = Some (tid, target) <->
  ServerUnit.targetId a = Some tid /\ tid <> "" /\
  Js.get tid (serverUnits this) = Some target /\ ServerUnit.state target <> DIE.
Proof.
  unfold liveTarget, targetOf. split.
  - destruct (ServerUnit.targetId a) as [tid'|]; [|discriminate].
    destruct (Js.truthy tid') eqn:Et; [|discriminate].
    destruct (Js.get tid' (serverUnits this)) as [u|] eqn:E; [|discriminate].
    destruct (isDIE (ServerUnit.state u)) eqn:Ed; cbn; [discriminate|].
    intro H. injection H as -> ->.
    repeat split; [now apply truthy_nonempty | exact E |].
    intro Hd. rewrite Hd in Ed. discriminate.
  - intros (-> & Hne & -> & Hlive).
    apply truthy_nonempty in Hne. rewrite Hne.
    destruct (ServerUnit.state target); try reflexivity. now contradiction Hlive.
Qed.

Lemma liveTarget_none_data (this : t) (a : ServerUnit.t) :
  liveTarget this a = None <->
  forall tid target,
    ServerUnit.targetId a = Some tid -> tid <> "" ->
    Js.get tid (serverUnits this) = Some target -> ServerUnit.state target = DIE.
Proof.
  split.
  - intros Hnone tid target Ht Hne Hg.
    destruct (ServerUnit.state target) eqn:Es; try reflexivity;
      (assert (Hl : liveTarget this a = Some (tid, target))
         by (apply liveTarget_data; repeat split; try assumption;
             rewrite Es; discriminate));
      rewrite Hnone in Hl; discriminate.
  - intro H. destruct (liveTarget this a) as [[tid target]|] eqn:El; [|reflexivity].
    apply liveTarget_data in El. destruct El as (Ht & Hne & Hg & Hlive).
    now contradiction Hlive; apply (H tid target).
Qed.

(** The session of a side is the key at the place of that side in the
    players map: the first key for player1, the second for player2. *)
Lemma getSessionIdBySide_data (this : t) (side : Side) :
  getSessionIdBySide this side
  = nth_error (Js.keys (BattleState.players (state this)))
              (match side with player1 => 0 | player2 => 1 end).
Proof. unfold getSessionIdBySide. now destruct side. Qed.

Lemma getPlayerBySide_data (this : t) (side : Side) (sid : string) (p : PlayerSchema.t) :
  getPlayerBySide this side = Some (sid, p) <->
  nth_error (Js.keys (BattleState.players (state this)))
            (match side with player1 => 0 | player2 => 1 end) = Some sid /\
  sid <> "" /\
  Js.get sid (BattleState.players (state this)) = Some p.
Proof.
  unfold getPlayerBySide. rewrite getSessionIdBySide_data.
  destruct (nth_error _ _) as [sid'|]; [|split; [discriminate | intros [H _]; discriminate]].
  destruct (Js.truthy sid') eqn:Et.
  - destruct (Js.get sid' _) as [p'|] eqn:Eg; split.
    + intro H. injection H as -> ->.
      repeat split; [now apply truthy_nonempty | exact Eg].
    + intros (H & _ & Hg). injection H as ->. rewrite Eg in Hg. now injection Hg as ->.
    + discriminate.
    + intros (H & _ & Hg). injection H as ->. rewrite Eg in Hg. discriminate.
  - split; [discriminate|]. intros (H & Hne & _). injection H as ->.
    apply truthy_nonempty in Hne. congruence.
Qed.

(** The castle of the enemy is in range when the leading edge of the unit
    is within the attack range of it, on either side of it. *)
Lemma isInRangeOfEnemyCastle_data (u : ServerUnit.t) :
  isInRangeOfEnemyCastle u = true <->
  let edge :=
    match ServerUnit.side u with
    | player1 => ServerUnit.x u + ServerUnit.width u / 2 - 1120
    | player2 => ServerUnit.x u - ServerUnit.width u / 2 - 80
    end in
  - UnitDefinition.attackRange (ServerUnit.definition u) <= edge /\
  edge <= UnitDefinition.attackRange (ServerUnit.definition u).
Proof.
  unfold isInRangeOfEnemyCastle, CASTLE_POSITIONS. cbv zeta.
  rewrite leb_le. unfold Js.abs.
  destruct (ServerUnit.side u);
    match goal with |- context [Js.ltb ?v 0] =>
      destruct (Js.ltb v 0) eqn:E;
      [apply ltb_lt in E | apply ltb_ge in E]
    end; split; intros; try split; try lra.
Qed.

End DealDamageData.

(** C1: when a windup completes, [dealDamage] either hits the live target,
    the unit that [targetId] names when it is in the map and not dead (its
    [hp] loses [attackDamage]; at [hp <= 0] it is clamped to 0, the target
    goes to [DIE] and the kill counter of the attacker's session, the key at
    the place of the attacker's side in the players map, goes up by one; no
    player, hence no [castleHp], changes), or, without a live target, hits
    the castle of the enemy, the player at the other place of the players
    map, when the leading edge of the attacker is within [attackRange] of it
    ([castleHp] loses [attackDamage], clamped at 0; no unit changes), or
    changes nothing.  Never are a unit and a castle both changed. *)
Theorem dealDamage_unit_or_castle
    (this : ServerCombatSystem.t) (attacker : string) (a : ServerUnit.t) :
  Js.get attacker (ServerCombatSystem.serverUnits this) = Some a ->
  let damage := UnitDefinition.attackDamage (ServerUnit.definition a) in
  let range := UnitDefinition.attackRange (ServerUnit.definition a) in
  let this' := ServerCombatSystem.dealDamage this attacker in
  let players s := BattleState.players (ServerCombatSystem.state s) in
  let units s := ServerCombatSystem.serverUnits s in
  let kills s := ServerCombatSystem.killCounts s in
  let count sid := match Js.get sid (kills this) with Some n => n | None => 0%Z end in
  let live tid target :=
    ServerUnit.targetId a = Some tid /\ tid <> "" /\
    Js.get tid (units this) = Some target /\ ServerUnit.state target <> DIE in
  let own :=
    nth_error (Js.keys (players this))
              (match ServerUnit.side a with player1 => 0 | player2 => 1 end) in
  let enemy sid p :=
    nth_error (Js.keys (players this))
              (match ServerUnit.side a with player1 => 1 | player2 => 0 end) = Some sid /\
    sid <> "" /\ Js.get sid (players this) = Some p in
  let edge :=
    match ServerUnit.side a with
    | player1 => ServerUnit.x a + ServerUnit.width a / 2 - 1120
    | player2 => ServerUnit.x a - ServerUnit.width a / 2 - 80
    end in
  let castleInRange := - range <= edge /\ edge <= range in
  (forall tid target,
      live tid target ->
      players this' = players this /\
      (forall other, other <> tid ->
         Js.get other (units this') = Js.get other (units this)) /\
      exists target',
        Js.get tid (units this') = Some target' /\
        (0 < ServerUnit.hp target - damage ->
           ServerUnit.hp target' = ServerUnit.hp target - damage /\
           ServerUnit.state target' <> DIE /\
           kills this' = kills this) /\
        (ServerUnit.hp target - damage <= 0 ->
           ServerUnit.hp target' = 0 /\ ServerUnit.state target' = DIE /\
           (forall sid, own = Some sid -> sid <> "" ->
              kills this' = Js.set sid (count sid + 1)%Z (kills this) /\
              ServerCombatSystem.getKillCount this' sid
              = (ServerCombatSystem.getKillCount this sid + 1)%Z) /\
           (own = None \/ own = Some "" -> kills this' = kills this))) /\
  ((forall tid target, ~ live tid target) ->
     units this' = units this /\
     kills this' = kills this /\
     (forall sid p,
        enemy sid p -> castleInRange ->
        (forall other, other <> sid ->
           Js.get other (players this') = Js.get other (players this)) /\
        Js.get sid (players this')
        = Some (PlayerSchema.set_castleHp
                  (Js.max 0 (PlayerSchema.castleHp p - damage)) p)) /\
     ((forall sid p, ~ enemy sid p) \/ ~ castleInRange -> this' = this)) /\
  (players this' = players this \/ units this' = units this).
Proof.
  intros Ha damage range this' players units kills count live own enemy edge castleInRange.
  assert (Hlive : forall tid target,
    live tid target ->
    this' = ServerCombatSystem.applyDamage this tid damage
              (UnitDefinition.knockback (ServerUnit.definition a)) (Some (ServerUnit.side a)) /\
    Js.get tid (ServerCombatSystem.serverUnits this) = Some target /\
    ServerUnit.state target <> DIE).
  { intros tid target Hl. pose proof Hl as (_ & _ & Hg & Hs).
    apply liveTarget_data in Hl.
    split; [exact (dealDamage_live _ _ _ _ _ Ha Hl) | now split]. }
  assert (Hown : ServerCombatSystem.getSessionIdBySide this (ServerUnit.side a) = own)
    by apply getSessionIdBySide_data.
  assert (Hplayers : forall tid target,
    live tid target -> players this' = players this).
  { intros tid target Hl. destruct (Hlive _ _ Hl) as (-> & Hg & Hs).
    destruct (Qlt_le_dec 0 (ServerUnit.hp target - damage)) as [Hpos|Hneg].
    - rewrite (applyDamage_survives _ _ _ _ _ _ Hg Hs Hpos). reflexivity.
    - rewrite (applyDamage_dies _ _ _ _ _ _ Hg Hneg). cbn zeta.
      destruct (ServerCombatSystem.getSessionIdBySide this (ServerUnit.side a)) as [sid|];
        [destruct (Js.truthy sid)|]; reflexivity. }
  split; [|split].
  - intros tid target Hl. split; [exact (Hplayers _ _ Hl)|].
    destruct (Hlive _ _ Hl) as (E & Hg & Hs).
    split.
    + intros other Hne. rewrite E.
      destruct (Qlt_le_dec 0 (ServerUnit.hp target - damage)) as [Hpos|Hneg].
      * rewrite (applyDamage_survives _ _ _ _ _ _ Hg Hs Hpos).
        now apply get_set_other.
      * rewrite (applyDamage_dies _ _ _ _ _ _ Hg Hneg). cbn zeta.
        destruct (ServerCombatSystem.getSessionIdBySide this (ServerUnit.side a)) as [sid|];
          [destruct (Js.truthy sid)|]; now apply get_set_other.
    + destruct (Qlt_le_dec 0 (ServerUnit.hp target - damage)) as [Hpos|Hneg].
      * eexists. split.
        { rewrite E, (applyDamage_survives _ _ _ _ _ _ Hg Hs Hpos). apply get_set_same. }
        split.
        { intros _. split; [|split].
          - destruct (Outcome.knockbackFires target damage); reflexivity.
          - destruct (Outcome.knockbackFires target damage); cbn; [discriminate|exact Hs].
          - rewrite E, (applyDamage_survives _ _ _ _ _ _ Hg Hs Hpos). reflexivity. }
        { intro Hle. exfalso. apply (Qlt_not_le _ _ Hpos Hle). }
      * exists (Outcome.killed target damage). split.
        { rewrite E, (applyDamage_dies _ _ _ _ _ _ Hg Hneg). cbn zeta.
          destruct (ServerCombatSystem.getSessionIdBySide this (ServerUnit.side a)) as [sid|];
            [destruct (Js.truthy sid)|]; apply get_set_same. }
        split.
        { intro Hpos. exfalso. apply (Qlt_not_le _ _ Hpos Hneg). }
        { intros _. split; [reflexivity|]. split; [reflexivity|]. split.
          - intros sid Hsid Hne. apply truthy_nonempty in Hne.
            rewrite E, (applyDamage_dies _ _ _ _ _ _ Hg Hneg). cbn zeta.
            rewrite Hown, Hsid, Hne. split; [reflexivity|].
            apply getKillCount_incremented.
          - intros Hnone. rewrite E, (applyDamage_dies _ _ _ _ _ _ Hg Hneg). cbn zeta.
            rewrite Hown. destruct Hnone as [-> | ->]; reflexivity. }
  - intro Hnone.
    assert (El : ServerCombatSystem.liveTarget this a = None).
    { apply liveTarget_none_data. intros tid target Ht Hne Hg.
      destruct (ServerUnit.state target) eqn:Es; try reflexivity;
        exfalso; apply (Hnone tid target); repeat split; try assumption;
        rewrite Es; discriminate. }
    subst this'. unfold ServerCombatSystem.dealDamage.
    rewrite Ha, El. cbn zeta.
    destruct (ServerCombatSystem.getPlayerBySide this
                (ServerCombatSystem.enemyOf (ServerUnit.side a))) as [[sid p]|] eqn:Ep.
    + assert (He : enemy sid p).
      { apply getPlayerBySide_data in Ep. unfold enemy, players.
        destruct (ServerUnit.side a); exact Ep. }
      destruct (ServerCombatSystem.isInRangeOfEnemyCastle a) eqn:Er.
      * split; [reflexivity|]. split; [reflexivity|]. split.
        { intros sid' p' He' _.
          destruct He as (H1 & _ & H3). destruct He' as (H1' & _ & H3').
          rewrite H1 in H1'. injection H1' as <-. rewrite H3 in H3'. injection H3' as <-.
          split.
          - intros other Hne. unfold players. cbn. now apply get_set_other.
          - unfold players. cbn. rewrite get_set_same. f_equal.
            fields. unfold Js.max, Js.ltb, Js.leb. subst damage.
            destruct (Qle_bool 0 (PlayerSchema.castleHp p
                                  - UnitDefinition.attackDamage (ServerUnit.definition a)));
              reflexivity. }
        { intros [H'|H'].
          - exfalso. exact (H' sid p He).
          - exfalso. apply H'. now apply isInRangeOfEnemyCastle_data in Er. }
      * split; [reflexivity|]. split; [reflexivity|].
        split; [|reflexivity].
        intros sid' p' _ Hr. apply isInRangeOfEnemyCastle_data in Hr. congruence.
    + split; [reflexivity|]. split; [reflexivity|].
      split; [|reflexivity].
      intros sid' p' He' _. exfalso.
      assert (Hp : ServerCombatSystem.getPlayerBySide this
                     (ServerCombatSystem.enemyOf (ServerUnit.side a)) = Some (sid', p')).
      { apply getPlayerBySide_data. unfold enemy, players in He'.
        destruct (ServerUnit.side a); exact He'. }
      congruence.
  - destruct (ServerCombatSystem.liveTarget this a) as [[tid target]|] eqn:El.
    + left. apply (Hplayers tid target). now apply liveTarget_data.
    + right. subst this'. unfold ServerCombatSystem.dealDamage.
      rewrite Ha, El. cbn zeta.
      destruct (ServerCombatSystem.getPlayerBySide this _) as [[sid p]|];
        [destruct (ServerCombatSystem.isInRangeOfEnemyCastle a)|]; reflexivity.
Qed.

(** C6: a unit that survives a hit is knocked back exactly when it is not a
    boss and its accumulated damage, this hit included, is at least
    [maxHp * 0.15].  Knocked back, its [damageAccumulated] is 0, its [x] is
    moved by the attacker's knockback against its facing (player1 towards
    [-x] and clamped from below at 80, player2 towards [+x] and clamped from
    above at [stageLength - 30]), so that a unit that was inside the lane
    [80 <= x <= stageLength - 30] stays inside it, and its state is
    [HITSTUN]; otherwise the hit leaves position and state as they were. *)
Theorem knockback_fires_iff
    (this : ServerCombatSystem.t) (tid : string) (target : ServerUnit.t)
    (damage knockback : Q) (attackerSide : option Side) :
  Js.get tid (ServerCombatSystem.serverUnits this) = Some target ->
  ServerUnit.state target <> DIE ->
  0 < ServerUnit.hp target - damage ->
  let stageLength := BattleState.stageLength (ServerCombatSystem.state this) in
  let accumulated := ServerUnit.damageAccumulated target + damage in
  let threshold := ServerUnit.maxHp target * 0.15 in
  let notBoss := Js.flag (UnitDefinition.isBoss (ServerUnit.definition target)) = false in
  exists target',
    Js.get tid
      (ServerCombatSystem.serverUnits
         (ServerCombatSystem.applyDamage this tid damage knockback attackerSide))
    = Some target' /\
    ServerUnit.hp target' = ServerUnit.hp target - damage /\
    (notBoss /\ threshold <= accumulated ->
       ServerUnit.damageAccumulated target' = 0 /\
       ServerUnit.state target' = HITSTUN /\
       ServerUnit.stateTimer target' = 0 /\
       (ServerUnit.side target = player1 ->
          ServerUnit.x target' = Js.max (ServerUnit.x target + knockback * -1) 80) /\
       (ServerUnit.side target = player2 ->
          ServerUnit.x target' = Js.min (ServerUnit.x target + knockback * 1) (stageLength - 30)) /\
       (80 <= ServerUnit.x target <= stageLength - 30 -> 0 <= knockback ->
          80 <= ServerUnit.x target' <= stageLength - 30)) /\
    (~ (notBoss /\ threshold <= accumulated) ->
       ServerUnit.damageAccumulated target' = accumulated /\
       ServerUnit.state target' = ServerUnit.state target /\
       ServerUnit.stateTimer target' = ServerUnit.stateTimer target /\
       ServerUnit.x target' = ServerUnit.x target).
Proof.
  intros Hg Hs Hpos stageLength accumulated threshold notBoss.
  rewrite (applyDamage_survives _ _ _ _ _ _ Hg Hs Hpos).
  eexists. split; [apply get_set_same|].
  assert (Hfires : Outcome.knockbackFires target damage = true
                   <-> notBoss /\ threshold <= accumulated).
  { unfold Outcome.knockbackFires, notBoss.
    rewrite andb_true_iff, negb_true_iff, geb_ge. reflexivity. }
  destruct (Outcome.knockbackFires target damage) eqn:Ef.
  - split; [reflexivity|]. split.
    + intros _. split; [reflexivity|]. split; [reflexivity|].
      split; [reflexivity|].
      unfold Outcome.knockedBack, Outcome.knockbackX; fields.
      fold stageLength.
      split; [intros ->; reflexivity|]. split; [intros ->; reflexivity|].
      intros [Hlo Hhi] Hk.
      destruct (ServerUnit.side target).
      * destruct (max_spec (ServerUnit.x target + knockback * -1) 80) as [[? ->]|[? ->]];
          split; lra.
      * destruct (min_spec (ServerUnit.x target + knockback * 1) (stageLength - 30))
          as [[? ->]|[? ->]]; split; lra.
    + intros Hn. exfalso. apply Hn. now apply Hfires.
  - split; [reflexivity|]. split.
    + intros Hy. apply Hfires in Hy. discriminate.
    + intros _. repeat split; reflexivity.
Qed.

(** ** Walking *)

Section Walk.
Import ServerCombatSystem.

(** [handleWalk] follows the cascade target, castle, blocked, advance
    whenever the walker's target is not a dead unit in range. *)
Lemma handleWalk_cascade_live (this : t) (unit : string) (u : ServerUnit.t)
    (deltaMs : Q) :
  Js.get unit (serverUnits this) = Some u ->
  (forall tid target, targetOf this u = Some (tid, target) ->
     ServerUnit.state target = DIE -> isInRange u target = false) ->
  let attacks :=
    exists tid target,
      liveTarget this u = Some (tid, target) /\ isInRange u target = true in
  let advanced :=
    ServerUnit.x u + UnitDefinition.speed (ServerUnit.definition u) * (deltaMs / 1000)
               * match ServerUnit.side u with player1 => 1 | player2 => -1 end in
  (attacks \/ isInRangeOfEnemyCastle u = true ->
     handleWalk this unit deltaMs = setUnitState this unit ATTACK_WINDUP) /\
  (~ attacks -> isInRangeOfEnemyCastle u = false ->
     isBlockedByEnemy this u = true ->
     handleWalk this unit deltaMs = this) /\
  (~ attacks -> isInRangeOfEnemyCastle u = false ->
     isBlockedByEnemy this u = false ->
     handleWalk this unit deltaMs =
     putUnit this unit
       (ServerUnit.set_x
          match ServerUnit.side u with
          | player1 => Js.min advanced (BattleState.stageLength (state this) - 30)
          | player2 => Js.max advanced 80
          end u)).
Proof.
  intros Hu Hdead attacks advanced.
  assert (Hcond :
    match targetOf this u with
    | Some (_, target) => isInRange u target
    | None => false
    end = true <-> attacks).
  { unfold attacks, liveTarget.
    destruct (targetOf this u) as [[tid target]|] eqn:Et.
    - destruct (isDIE (ServerUnit.state target)) eqn:Ed; cbn [negb].
      + assert (ServerUnit.state target = DIE)
          by (destruct (ServerUnit.state target); try discriminate; reflexivity).
        rewrite (Hdead _ _ eq_refl H). split; [discriminate|].
        intros (? & ? & ? & _). discriminate.
      + split.
        * intro Hr. exists tid, target. split; [reflexivity | exact Hr].
        * intros (? & ? & E & Hr). injection E as <- <-. exact Hr.
    - split; [discriminate|]. intros (? & ? & ? & _). discriminate. }
  unfold handleWalk. rewrite Hu.
  destruct (match targetOf this u with
            | Some (_, target) => isInRange u target
            | None => false
            end) eqn:Ec.
  - assert (Hat : attacks) by now apply Hcond.
    split; [reflexivity|]. split; intros Hn; contradiction.
  - assert (Hna : ~ attacks) by (intro Ha; apply Hcond in Ha; discriminate).
    destruct (isInRangeOfEnemyCastle u) eqn:Er.
    + split; [reflexivity|]. split; intros _ Hf; discriminate.
    + destruct (isBlockedByEnemy this u) eqn:Eb.
      * split; [intros [?|?]; [contradiction | discriminate]|].
        split; [reflexivity | intros; discriminate].
      * split; [intros [?|?]; [contradiction | discriminate]|].
        split; [intros; discriminate|]. intros _ _ _.
        fields. destruct (ServerUnit.side u); reflexivity.
Qed.

(** Whereas any target in range, dead or alive, makes the walker wind up. *)
Lemma handleWalk_target_in_range (this : t) (unit tid : string)
    (u target : ServerUnit.t) (deltaMs : Q) :
  Js.get unit (serverUnits this) = Some u ->
  targetOf this u = Some (tid, target) ->
  isInRange u target = true ->
  handleWalk this unit deltaMs = setUnitState this unit ATTACK_WINDUP.
Proof.
  intros Hu Ht Hr. unfold handleWalk. now rewrite Hu, Ht, Hr.
Qed.

End Walk.

(** C2, the defect: a walking unit whose target is dead but still in range
    goes to [ATTACK_WINDUP], although its target is not alive, the enemy
    castle is out of range and nothing blocks it; the specification has it
    advance. *)
Theorem handleWalk_attacks_dead_target :
  let this := ExampleWalk.besideCorpse in
  let u := ExampleWalk.walker in
  Js.get "player1_sword_1" (ServerCombatSystem.serverUnits this) = Some u /\
  ServerUnit.state u = WALK /\
  ServerCombatSystem.targetOf this u = Some ("player2_sword_1", ExampleWalk.corpse) /\
  ServerUnit.state ExampleWalk.corpse = DIE /\
  ServerCombatSystem.liveTarget this u = None /\
  ServerCombatSystem.isInRangeOfEnemyCastle u = false /\
  ServerCombatSystem.isBlockedByEnemy this u = false /\
  Js.get "player1_sword_1"
    (ServerCombatSystem.serverUnits
       (ServerCombatSystem.updateUnitState this "player1_sword_1" 50))
  = Some (ServerUnit.set_stateTimer 0 (ServerUnit.set_state ATTACK_WINDUP u)).
Proof. vm_compute. repeat split; reflexivity. Qed.

(** ** The win check *)

(** C9: when both castles are at 0 or below at the win check of a tick in
    the playing phase, the room finishes with player2 as the winner and
    reason "castle_destroyed": the branch for player1's castle is tried
    first. *)
Theorem tie_goes_to_player2
    (this : ServerCombatSystem.t) (k1 k2 : string) (p1 p2 : PlayerSchema.t) :
  BattleState.phase (ServerCombatSystem.state this) = playing ->
  BattleState.players (ServerCombatSystem.state this) = [(k1, p1); (k2, p2)] ->
  k1 <> k2 ->
  PlayerSchema.castleHp p1 <= 0 ->
  PlayerSchema.castleHp p2 <= 0 ->
  let this' := ServerCombatSystem.checkWinCondition this in
  BattleState.phase (ServerCombatSystem.state this') = finished /\
  BattleState.winnerId (ServerCombatSystem.state this') = PlayerSchema.sessionId p2 /\
  BattleState.winReason (ServerCombatSystem.state this') = "castle_destroyed".
Proof.
  intros Hphase Hplayers Hne H1 H2 this'. subst this'.
  unfold ServerCombatSystem.checkWinCondition.
  rewrite Hphase. cbn [Phase_eqb negb].
  unfold ServerCombatSystem.playersBySide, ServerCombatSystem.getPlayerSide.
  rewrite Hplayers.
  cbn [fold_left Js.keys List.map fst snd Js.indexOf].
  rewrite !String.eqb_refl.
  apply String.eqb_neq in Hne. rewrite Hne.
  cbn [Z.eqb Z.ltb Z.add Z.compare Pos.eqb].
  apply leb_le in H1. rewrite H1.
  repeat split.
Qed.

(** ** Joining and summoning *)

(** C10: a join on a room that already holds two players changes nothing
    in the room (state with players, units and phase; metadata; cooldowns;
    timers) and disconnects the joining client. *)
Theorem join_full_room_rejected
    (allies : list UnitDefinition.t) (this : BattleRoom.t) (client : string)
    (options : BattleRoom.JoinOptions) (now : Z) :
  (2 <= Js.size (BattleState.players (BattleRoom.state this)))%Z ->
  let this' := BattleRoom.onJoin allies this client options now in
  BattleRoom.state this' = BattleRoom.state this /\
  BattleState.players (BattleRoom.state this')
  = BattleState.players (BattleRoom.state this) /\
  BattleState.units (BattleRoom.state this')
  = BattleState.units (BattleRoom.state this) /\
  BattleState.phase (BattleRoom.state this')
  = BattleState.phase (BattleRoom.state this) /\
  BattleRoom.combatSystem this' = BattleRoom.combatSystem this /\
  BattleRoom.metadata this' = BattleRoom.metadata this /\
  BattleRoom.spawnCooldowns this' = BattleRoom.spawnCooldowns this /\
  BattleRoom.gameLoop this' = BattleRoom.gameLoop this /\
  BattleRoom.countdownInterval this' = BattleRoom.countdownInterval this /\
  BattleRoom.effects this'
  = (BattleRoom.effects this ++ [BattleRoom.ClientLeave client])%list.
Proof.
  intros Hfull this'. subst this'. unfold BattleRoom.onJoin.
  apply Z.geb_le in Hfull. rewrite Hfull.
  repeat split.
Qed.

Section Summon.
Import BattleRoom.
Variable allies : list UnitDefinition.t.

Lemma offCooldown_check (this : t) (client unitId : string) :
  (forall cooldowns,
      Js.get client (spawnCooldowns this) = Some cooldowns ->
      Js.numOr (Js.get unitId cooldowns) 0 <= 0) ->
  match Js.get client (spawnCooldowns this) with
  | Some cooldowns => Js.gtb (Js.numOr (Js.get unitId cooldowns) 0) 0
  | None => false
  end = false.
Proof.
  intro H. destruct (Js.get client (spawnCooldowns this)) as [c|]; [|reflexivity].
  apply gtb_le. now apply H.
Qed.

(** [handleSummon] up to the cost check, for a command that passes the
    checks before it. *)
Lemma handleSummon_checked (this : t) (client unitId stamp : string)
    (player : PlayerSchema.t) (definition : UnitDefinition.t) :
  BattleState.phase (state this) = playing ->
  Js.get client (BattleState.players (state this)) = Some player ->
  Units.getUnitDefinition allies unitId = Some definition ->
  Js.includes unitId (PlayerSchema.deck player) = true ->
  (forall cooldowns,
      Js.get client (spawnCooldowns this) = Some cooldowns ->
      Js.numOr (Js.get unitId cooldowns) 0 <= 0) ->
  handleSummon allies this client unitId stamp =
  if negb (ServerCostSystem.canAfford player (UnitDefinition.cost definition))
  then sendError this client INSUFFICIENT_COST
  else
    let player := fst (ServerCostSystem.spend player (UnitDefinition.cost definition)) in
    let this :=
      set_combatSystem
        (ServerCombatSystem.putPlayer (combatSystem this) client player) this in
    let '(combat, instanceId) :=
      ServerCombatSystem.spawnUnit allies (combatSystem this) player unitId stamp in
    let this := set_combatSystem combat this in
    match instanceId with
    | None => sendError this client SPAWN_FAILED
    | Some instanceId =>
        if negb (Js.truthy instanceId)
        then sendError this client SPAWN_FAILED
        else
          let this :=
            match Js.get client (spawnCooldowns this) with
            | Some cooldowns =>
                set_spawnCooldowns
                  (Js.set client
                     (Js.set unitId
                        (Js.numOr
                           (Js.or (UnitDefinition.spawnCooldownMs definition)
                                  (Js.get (UnitDefinition.rarity definition)
                                          DEFAULT_SPAWN_COOLDOWNS))
                           3000) cooldowns)
                     (spawnCooldowns this)) this
            | None => this
            end in
          match Js.get instanceId (BattleState.units (state this)) with
          | Some unit => emit (Broadcast (unit_spawned unit)) this
          | None => this
          end
    end.
Proof.
  intros Hphase Hplayer Hdef Hdeck Hcd. unfold handleSummon.
  rewrite Hphase, Hplayer, Hdef, Hdeck. cbn [Phase_eqb negb].
  rewrite (offCooldown_check _ _ _ Hcd). reflexivity.
Qed.

End Summon.

(** C5: a summon in the playing phase of a unit that is in the catalog, in
    the sender's deck and off cooldown, but costs more than the sender has,
    changes neither the players (so no cost), nor the cooldowns, nor the
    units, and sends exactly one message: an error with code
    INSUFFICIENT_COST, to the sender alone. *)
Theorem summon_insufficient_cost
    (allies : list UnitDefinition.t) (this : BattleRoom.t) (client unitId stamp : string)
    (player : PlayerSchema.t) (definition : UnitDefinition.t) :
  BattleState.phase (BattleRoom.state this) = playing ->
  Js.get client (BattleState.players (BattleRoom.state this)) = Some player ->
  Units.getUnitDefinition allies unitId = Some definition ->
  Js.includes unitId (PlayerSchema.deck player) = true ->
  (forall cooldowns,
      Js.get client (BattleRoom.spawnCooldowns this) = Some cooldowns ->
      Js.numOr (Js.get unitId cooldowns) 0 <= 0) ->
  PlayerSchema.cost player < UnitDefinition.cost definition ->
  let this' := BattleRoom.handleSummon allies this client unitId stamp in
  BattleState.players (BattleRoom.state this')
  = BattleState.players (BattleRoom.state this) /\
  BattleRoom.spawnCooldowns this' = BattleRoom.spawnCooldowns this /\
  BattleState.units (BattleRoom.state this')
  = BattleState.units (BattleRoom.state this) /\
  ServerCombatSystem.serverUnits (BattleRoom.combatSystem this')
  = ServerCombatSystem.serverUnits (BattleRoom.combatSystem this) /\
  BattleRoom.combatSystem this' = BattleRoom.combatSystem this /\
  BattleRoom.effects this'
  = (BattleRoom.effects this
     ++ [BattleRoom.Send client (BattleRoom.error BattleRoom.INSUFFICIENT_COST)])%list.
Proof.
  intros Hphase Hplayer Hdef Hdeck Hcd Hcost this'. subst this'.
  rewrite (handleSummon_checked allies _ _ _ _ _ _ Hphase Hplayer Hdef Hdeck Hcd).
  unfold ServerCostSystem.canAfford.
  apply geb_lt in Hcost. rewrite Hcost. cbn [negb].
  repeat split.
Qed.

(** The branch of [handleSummon] after a spawn that fails, in whatever state
    it is taken: the SPAWN_FAILED error goes to the client with the spend
    still taken, the player's cost being the cost before the command less
    the cost of the unit; no unit is added and no cooldown is set.  No room
    that the events build takes this branch (lemma
    [reachable_spawn_succeeds]). *)
Lemma summon_spawn_failure_keeps_spend
    (allies : list UnitDefinition.t) (this : BattleRoom.t) (client unitId stamp : string)
    (player : PlayerSchema.t) (definition : UnitDefinition.t) :
  BattleState.phase (BattleRoom.state this) = playing ->
  Js.get client (BattleState.players (BattleRoom.state this)) = Some player ->
  Units.getUnitDefinition allies unitId = Some definition ->
  Js.includes unitId (PlayerSchema.deck player) = true ->
  (forall cooldowns,
      Js.get client (BattleRoom.spawnCooldowns this) = Some cooldowns ->
      Js.numOr (Js.get unitId cooldowns) 0 <= 0) ->
  snd (ServerCostSystem.spend player (UnitDefinition.cost definition)) = true ->
  snd (ServerCombatSystem.spawnUnit allies
         (ServerCombatSystem.putPlayer (BattleRoom.combatSystem this) client
            (fst (ServerCostSystem.spend player (UnitDefinition.cost definition))))
         (fst (ServerCostSystem.spend player (UnitDefinition.cost definition)))
         unitId stamp) = None ->
  let this' := BattleRoom.handleSummon allies this client unitId stamp in
  (exists player',
      Js.get client (BattleState.players (BattleRoom.state this')) = Some player' /\
      PlayerSchema.cost player' = PlayerSchema.cost player - UnitDefinition.cost definition) /\
  BattleRoom.effects this'
  = (BattleRoom.effects this
     ++ [BattleRoom.Send client (BattleRoom.error BattleRoom.SPAWN_FAILED)])%list /\
  BattleState.units (BattleRoom.state this')
  = BattleState.units (BattleRoom.state this) /\
  ServerCombatSystem.serverUnits (BattleRoom.combatSystem this')
  = ServerCombatSystem.serverUnits (BattleRoom.combatSystem this) /\
  BattleRoom.spawnCooldowns this' = BattleRoom.spawnCooldowns this.
Proof.
  intros Hphase Hplayer Hdef Hdeck Hcd Hspend Hspawn this'. subst this'.
  rewrite (handleSummon_checked allies _ _ _ _ _ _ Hphase Hplayer Hdef Hdeck Hcd).
  unfold ServerCostSystem.canAfford.
  unfold ServerCostSystem.spend in Hspend, Hspawn |- *.
  destruct (Js.geb (PlayerSchema.cost player) (UnitDefinition.cost definition)) eqn:Ea;
    [|discriminate].
  cbn [negb fst] in Hspawn |- *. cbn zeta.
  fields.
  unfold ServerCombatSystem.spawnUnit in Hspawn |- *.
  rewrite Hdef in Hspawn |- *.
  destruct (ServerCombatSystem.getPlayerSide _ _); [discriminate|].
  fields. split; [|repeat split].
  eexists. split; [apply get_set_same | reflexivity].
Qed.

(** ** The statements at work on the example match *)

Lemma cost_system_preserves_invariant_witness :
  let p := PlayerSchema.set_cost 600 PlayerSchema.fresh in
  ServerCostSystem.costInvariant p /\ 0 <= 50 /\ 0 <= 100 /\
  ServerCostSystem.costInvariant (ServerCostSystem.update p 50) /\
  ServerCostSystem.costInvariant (fst (ServerCostSystem.upgradeMax p)).
Proof.
  assert (Hinv : ServerCostSystem.costInvariant (PlayerSchema.set_cost 600 PlayerSchema.fresh)).
  { unfold ServerCostSystem.costInvariant; cbn. repeat split; try lra; try lia. }
  assert (Hd : 0 <= 50) by lra.
  assert (Ha : 0 <= 100) by lra.
  destruct (cost_system_preserves_invariant PlayerSchema.fresh _ 50 100 Hinv Hd Ha)
    as (_ & Hu & _ & Hm & _).
  cbn zeta. split; [exact Hinv|]. split; [exact Hd|]. split; [exact Ha|].
  split; [exact Hu | exact Hm].
Defined.

Lemma dealDamage_unit_or_castle_witness :
  (let this' := ServerCombatSystem.dealDamage ExampleTick.beforeKill "player1_giant_1" in
   (exists target',
      Js.get "player2_sword_1" (ServerCombatSystem.serverUnits this') = Some target' /\
      ServerUnit.hp target' = 0 /\ ServerUnit.state target' = DIE) /\
   ServerCombatSystem.killCounts this' = [("alice", 1%Z)] /\
   BattleState.players (ServerCombatSystem.state this')
   = BattleState.players (ServerCombatSystem.state ExampleTick.beforeKill)) /\
  (let besieger :=
     Example.unit "player1_sword_1" Example.sword player1 1070 100 ATTACK_WINDUP 100 None 0 in
   let siege :=
     ServerCombatSystem.set_serverUnits [("player1_sword_1", besieger)]
       (BattleRoom.combatSystem Example.started) in
   let this' := ServerCombatSystem.dealDamage siege "player1_sword_1" in
   Js.get "bob" (BattleState.players (ServerCombatSystem.state this'))
   = Some (PlayerSchema.set_castleHp (Js.max 0 (5000 - 30)) Example.bob) /\
   Js.get "alice" (BattleState.players (ServerCombatSystem.state this'))
   = Some Example.alice /\
   ServerCombatSystem.serverUnits this' = [("player1_sword_1", besieger)]).
Proof.
  split.
  - destruct (dealDamage_unit_or_castle ExampleTick.beforeKill "player1_giant_1"
                ExampleTick.striker eq_refl) as (Hlive & _ & _).
    destruct (Hlive "player2_sword_1" ExampleTick.victim) as (Hp & _ & t & Ht & _ & Hdie).
    { split; [reflexivity|]. split; [discriminate|]. split; [reflexivity | discriminate]. }
    destruct Hdie as (Hhp & Hst & Hkill & _); [vm_compute; discriminate|].
    destruct (Hkill "alice") as [Hk _]; [reflexivity | discriminate |].
    split; [exists t; now repeat split|]. split; [exact Hk | exact Hp].
  - cbv zeta.
    match goal with
    | |- context [ServerCombatSystem.dealDamage ?s ?k] =>
        destruct (dealDamage_unit_or_castle s k
                    (Example.unit "player1_sword_1" Example.sword player1 1070 100
                       ATTACK_WINDUP 100 None 0) eq_refl) as (_ & Hnone & _)
    end.
    destruct Hnone as (Hu & _ & Hhit & _).
    { intros tid target (Ht & _). discriminate. }
    destruct (Hhit "bob" Example.bob) as [Hother Hbob].
    { split; [vm_compute; reflexivity|]. split; [discriminate | vm_compute; reflexivity]. }
    { split; vm_compute; discriminate. }
    split; [exact Hbob|]. split; [|exact Hu].
    rewrite Hother by discriminate. vm_compute. reflexivity.
Defined.

Lemma knockback_fires_iff_witness :
  Js.get "player2_sword_1" (ServerCombatSystem.serverUnits Example.duel)
  = Some Example.opponent /\
  ServerUnit.state Example.opponent <> DIE /\
  0 < ServerUnit.hp Example.opponent - 30 /\
  exists target',
    Js.get "player2_sword_1"
      (ServerCombatSystem.serverUnits
         (ServerCombatSystem.applyDamage Example.duel "player2_sword_1" 30 40
                                         (Some player1)))
    = Some target' /\
    ServerUnit.state target' = HITSTUN /\
    ServerUnit.damageAccumulated target' = 0.
Proof.
  assert (Hs : ServerUnit.state Example.opponent <> DIE) by discriminate.
  assert (Hp : 0 < ServerUnit.hp Example.opponent - 30) by (cbn; lra).
  split; [reflexivity|]. split; [exact Hs|]. split; [exact Hp|].
  destruct (knockback_fires_iff Example.duel "player2_sword_1" Example.opponent
              30 40 (Some player1) eq_refl Hs Hp)
    as (target' & Hg & _ & Hf & _).
  exists target'. split; [exact Hg|].
  assert (Hc : Js.flag (UnitDefinition.isBoss (ServerUnit.definition Example.opponent)) = false /\
               ServerUnit.maxHp Example.opponent * 0.15
               <= ServerUnit.damageAccumulated Example.opponent + 30)
    by (split; [reflexivity | cbn; lra]).
  destruct (Hf Hc) as (Hacc & Hst & _). split; assumption.
Defined.

Lemma tie_goes_to_player2_witness :
  BattleState.phase (ServerCombatSystem.state ExampleRoom.bothDown) = playing /\
  PlayerSchema.castleHp (PlayerSchema.set_castleHp 0 Example.alice) <= 0 /\
  PlayerSchema.castleHp (PlayerSchema.set_castleHp 0 Example.bob) <= 0 /\
  BattleState.winnerId
    (ServerCombatSystem.state
       (ServerCombatSystem.checkWinCondition ExampleRoom.bothDown)) = "bob".
Proof.
  assert (Hne : "alice" <> "bob") by discriminate.
  assert (H0 : PlayerSchema.castleHp (PlayerSchema.set_castleHp 0 Example.alice) <= 0)
    by (cbn; lra).
  assert (H1 : PlayerSchema.castleHp (PlayerSchema.set_castleHp 0 Example.bob) <= 0)
    by (cbn; lra).
  split; [reflexivity|]. split; [exact H0|]. split; [exact H1|].
  exact (proj1 (proj2 (tie_goes_to_player2 ExampleRoom.bothDown "alice" "bob"
                         _ _ eq_refl eq_refl Hne H0 H1))).
Defined.

Lemma join_full_room_rejected_witness :
  (2 <= Js.size (BattleState.players (BattleRoom.state Example.joined)))%Z /\
  BattleRoom.effects
    (BattleRoom.onJoin Example.allies Example.joined "carol"
                       (Example.options ["sword"]) 3%Z)
  = (BattleRoom.effects Example.joined ++ [BattleRoom.ClientLeave "carol"])%list.
Proof.
  assert (H : (2 <= Js.size (BattleState.players (BattleRoom.state Example.joined)))%Z)
    by (apply Z.leb_le; reflexivity).
  split; [exact H|].
  apply (join_full_room_rejected Example.allies Example.joined "carol"
           (Example.options ["sword"]) 3%Z H).
Defined.

Lemma summon_insufficient_cost_witness :
  BattleState.phase (BattleRoom.state Example.started) = playing /\
  Js.get "alice" (BattleState.players (BattleRoom.state Example.started))
  = Some Example.alice /\
  Units.getUnitDefinition Example.allies "giant" = Some Example.giant /\
  PlayerSchema.cost Example.alice < UnitDefinition.cost Example.giant /\
  BattleRoom.effects
    (BattleRoom.handleSummon Example.allies Example.started "alice" "giant" "1_x")
  = (BattleRoom.effects Example.started
     ++ [BattleRoom.Send "alice" (BattleRoom.error BattleRoom.INSUFFICIENT_COST)])%list.
Proof.
  assert (Hcost : PlayerSchema.cost Example.alice < UnitDefinition.cost Example.giant)
    by (cbn; lra).
  assert (Hcd : forall cooldowns,
    Js.get "alice" (BattleRoom.spawnCooldowns Example.started) = Some cooldowns ->
    Js.numOr (Js.get "giant" cooldowns) 0 <= 0).
  { intros cooldowns H. vm_compute in H. injection H as <-. cbn. lra. }
  split; [reflexivity|]. split; [reflexivity|]. split; [reflexivity|].
  split; [exact Hcost|].
  apply (summon_insufficient_cost Example.allies Example.started
           "alice" "giant" "1_x" Example.alice Example.giant
           eq_refl eq_refl eq_refl eq_refl Hcd Hcost).
Defined.

Lemma summon_spawn_failure_keeps_spend_witness :
  BattleState.phase (BattleRoom.state ExampleRoom.crowded) = playing /\
  Js.get "carol" (BattleState.players (BattleRoom.state ExampleRoom.crowded))
  = Some ExampleRoom.carol /\
  snd (ServerCostSystem.spend ExampleRoom.carol (UnitDefinition.cost Example.sword)) = true /\
  BattleRoom.effects
    (BattleRoom.handleSummon Example.allies ExampleRoom.crowded "carol" "sword" "1_x")
  = (BattleRoom.effects ExampleRoom.crowded
     ++ [BattleRoom.Send "carol" (BattleRoom.error BattleRoom.SPAWN_FAILED)])%list.
Proof.
  assert (Hcd : forall cooldowns,
    Js.get "carol" (BattleRoom.spawnCooldowns ExampleRoom.crowded) = Some cooldowns ->
    Js.numOr (Js.get "sword" cooldowns) 0 <= 0).
  { intros cooldowns H. vm_compute in H. injection H as <-. cbn. lra. }
  split; [reflexivity|]. split; [reflexivity|]. split; [reflexivity|].
  apply (summon_spawn_failure_keeps_spend Example.allies ExampleRoom.crowded
           "carol" "sword" "1_x" ExampleRoom.carol Example.sword
           eq_refl eq_refl eq_refl eq_refl Hcd eq_refl eq_refl).
Defined.


(** ** Countdown and disconnects, on the example match *)

(** C3 as specified fails: with both players ready the countdown is
    broadcast as 2, 1, 0, not as 3, 2, 1, before the change to playing; the
    3 travels in the phase_change that opens the countdown. *)
Lemma countdown_broadcasts_are_not_3_2_1 :
  BattleState.phase (BattleRoom.state Example.joined) = waiting /\
  BattleState.phase (BattleRoom.state Example.counting) = countdown_phase /\
  BattleState.phase (BattleRoom.state Example.started) = playing /\
  Trace.milestones (BattleRoom.effects Example.started)
  = [Trace.Counted 2; Trace.Counted 1; Trace.Counted 0; Trace.Playing] /\
  Trace.milestones (BattleRoom.effects Example.started)
  <> [Trace.Counted 3; Trace.Counted 2; Trace.Counted 1; Trace.Playing].
Proof.
  split; [vm_compute; reflexivity|]. split; [vm_compute; reflexivity|].
  split; [vm_compute; reflexivity|]. split; [vm_compute; reflexivity|].
  vm_compute. discriminate.
Qed.

(** C8, the defect: Alice leaves during the countdown; the room is finished
    at once with Bob as the winner, but the countdown interval keeps firing
    and, at zero, starts the game: the finished room enters playing with
    its game loop running and a single player. *)
Theorem leave_during_countdown_reenters_playing :
  let left := BattleRoom.run Example.allies Example.counting
                [BattleRoom.Leave "alice" false] in
  let later := BattleRoom.run Example.allies left
                 [BattleRoom.CountdownTimer 1000%Z;
                  BattleRoom.CountdownTimer 2000%Z;
                  BattleRoom.CountdownTimer 3000%Z] in
  BattleState.phase (BattleRoom.state Example.counting) = countdown_phase /\
  Js.keys (BattleState.players (BattleRoom.state Example.counting))
  = ["alice"; "bob"] /\
  BattleState.phase (BattleRoom.state left) = finished /\
  BattleState.winnerId (BattleRoom.state left) = "bob" /\
  BattleState.winReason (BattleRoom.state left) = "opponent_disconnected" /\
  BattleRoom.gameLoop left = false /\
  Js.keys (BattleState.players (BattleRoom.state left)) = ["bob"] /\
  BattleRoom.countdownInterval left = true /\
  BattleState.phase (BattleRoom.state later) = playing /\
  BattleRoom.gameLoop later = true.
Proof. vm_compute. repeat split; reflexivity. Qed.

(** ** What the combat system leaves alone *)

Section Control.
Import ServerCombatSystem Trace.

Ltac split_match :=
  match goal with
  | |- context [match ?x with _ => _ end] => destruct x
  end.

Lemma control_putUnit (cs : t) (k : string) (u : ServerUnit.t) :
  control (putUnit cs k u) = control cs.
Proof. reflexivity. Qed.

Lemma control_putPlayer (cs : t) (k : string) (p : PlayerSchema.t) :
  control (putPlayer cs k p) = control cs.
Proof. reflexivity. Qed.

Lemma control_setUnitState (cs : t) (k : string) (st : UnitState) :
  control (setUnitState cs k st) = control cs.
Proof. unfold setUnitState. now destruct (Js.get k (serverUnits cs)). Qed.

Lemma control_set_killCounts (cs : t) (v : Js.map Z) :
  control (set_killCounts v cs) = control cs.
Proof. reflexivity. Qed.

Lemma control_set_serverUnits (cs : t) (v : Js.map ServerUnit.t) :
  control (set_serverUnits v cs) = control cs.
Proof. reflexivity. Qed.

Lemma control_set_units (cs cs' : t) (v : Js.map UnitSchema.t) :
  control (set_state (BattleState.set_units v (state cs')) cs) = control cs'.
Proof. reflexivity. Qed.

Create Rewrite HintDb control.
Hint Rewrite control_putUnit control_putPlayer control_setUnitState
  control_set_killCounts control_set_serverUnits control_set_units : control.

Ltac control_cases :=
  repeat split_match; autorewrite with control; try reflexivity.

Lemma control_applyDamage (cs : t) (k : string) (d kb : Q) (s : option Side) :
  control (applyDamage cs k d kb s) = control cs.
Proof. unfold applyDamage. control_cases. Qed.

Hint Rewrite control_applyDamage : control.

Lemma control_dealDamage (cs : t) (k : string) :
  control (dealDamage cs k) = control cs.
Proof. unfold dealDamage. control_cases. Qed.

Hint Rewrite control_dealDamage : control.

Lemma control_updateUnitState (cs : t) (k : string) (d : Q) :
  control (updateUnitState cs k d) = control cs.
Proof.
  unfold updateUnitState, handleSpawn, handleWalk, handleAttackWindup,
    handleAttackCooldown, handleHitstun.
  control_cases.
Qed.

Lemma control_syncSchema (cs : t) (k : string) :
  control (syncSchema cs k) = control cs.
Proof. unfold syncSchema. control_cases. Qed.

Hint Rewrite control_updateUnitState control_syncSchema : control.

Lemma control_fold {A} (f : t -> A -> t) (l : list A) :
  (forall cs a, control (f cs a) = control cs) ->
  forall cs, control (fold_left f l cs) = control cs.
Proof.
  intro Hf. induction l as [|a l IH]; intro cs; cbn; [reflexivity|].
  now rewrite IH, Hf.
Qed.

Lemma control_updateUnit (d : Q) (cs : t) (k : string) :
  control (updateUnit d cs k) = control cs.
Proof. unfold updateUnit. control_cases. Qed.

Lemma control_clampUnitPosition (cs : t) (k : string) :
  control (clampUnitPosition cs k) = control cs.
Proof. unfold clampUnitPosition. control_cases. Qed.

Hint Rewrite control_clampUnitPosition : control.

Lemma control_collidePair (cs : t) (a b : string) :
  control (collidePair cs a b) = control cs.
Proof. unfold collidePair. control_cases. Qed.

Lemma control_collideWith (a : string) (rest : list string) :
  forall cs, control (collideWith cs a rest) = control cs.
Proof.
  induction rest as [|b rest IH]; intro cs; cbn; [reflexivity|].
  now rewrite IH, control_collidePair.
Qed.

Lemma control_collideAll (units : list string) :
  forall cs, control (collideAll cs units) = control cs.
Proof.
  induction units as [|a rest IH]; intro cs; cbn; [reflexivity|].
  now rewrite IH, control_collideWith.
Qed.

Lemma control_assignTarget (cs : t) (k : string) :
  control (assignTarget cs k) = control cs.
Proof. unfold assignTarget. control_cases. Qed.

Lemma control_cleanupDeadUnits (cs : t) :
  control (cleanupDeadUnits cs) = control cs.
Proof.
  unfold cleanupDeadUnits. apply control_fold. reflexivity.
Qed.

(** [checkWinCondition] keeps the countdown and either keeps the phase or
    finishes the match. *)
Lemma checkWinCondition_control (cs : t) :
  (BattleState.phase (state (checkWinCondition cs)) = BattleState.phase (state cs)
   \/ BattleState.phase (state (checkWinCondition cs)) = finished) /\
  BattleState.countdown (state (checkWinCondition cs))
  = BattleState.countdown (state cs).
Proof.
  unfold checkWinCondition. repeat split_match; cbn; auto.
Qed.

(** [update] up to its win check. *)
Lemma update_before_win_check (cs : t) (d : Q) :
  control
    (cleanupDeadUnits
       (assignTargets
          (resolveUnitCollisions
             (fold_left (updateUnit d) (Js.keys (serverUnits cs)) cs))))
  = control cs.
Proof.
  rewrite control_cleanupDeadUnits.
  unfold assignTargets. rewrite (control_fold _ _ control_assignTarget).
  unfold resolveUnitCollisions. rewrite control_collideAll.
  apply control_fold. intros. apply control_updateUnit.
Qed.

Lemma update_control (cs : t) (d : Q) :
  (BattleState.phase (state (update cs d)) = BattleState.phase (state cs)
   \/ BattleState.phase (state (update cs d)) = finished) /\
  BattleState.countdown (state (update cs d)) = BattleState.countdown (state cs).
Proof.
  unfold update. cbv zeta.
  pose proof (update_before_win_check cs d) as H.
  unfold control in H. injection H as Hp Hc _.
  match goal with |- context [checkWinCondition ?x] =>
    destruct (checkWinCondition_control x) as [Hp' Hc'] end.
  rewrite Hp in Hp'. rewrite Hc in Hc'. auto.
Qed.

Lemma update_stageLength (cs : t) (d : Q) :
  BattleState.stageLength (state (update cs d))
  = BattleState.stageLength (state cs).
Proof.
  unfold update. cbv zeta.
  pose proof (update_before_win_check cs d) as H.
  unfold control in H. injection H as _ _ Hs. rewrite <- Hs.
  unfold checkWinCondition. repeat split_match; reflexivity.
Qed.

Lemma spawnUnit_control (allies : list UnitDefinition.t) (cs : t) (p : PlayerSchema.t)
    (unitId stamp : string) :
  control (fst (spawnUnit allies cs p unitId stamp)) = control cs.
Proof. unfold spawnUnit. control_cases. Qed.

End Control.

(** ** The room between two milestones *)

Section Quiet.
Import BattleRoom Trace.
Variable allies : list UnitDefinition.t.

Lemma milestones_snoc (es : list Effect) (e : Effect) :
  milestones (es ++ [e]) = (milestones es ++ milestone e)%list.
Proof.
  unfold milestones. rewrite flat_map_app. cbn. now rewrite app_nil_r.
Qed.

Lemma quiet_refl (r : t) : quiet r r.
Proof. unfold quiet. auto 6. Qed.

Lemma quiet_trans (r r' r'' : t) : quiet r r' -> quiet r' r'' -> quiet r r''.
Proof.
  intros (Hp & Hc & Hi & Hm & Hg) (Hp' & Hc' & Hi' & Hm' & Hg'). unfold quiet.
  rewrite Hc', Hi', Hm'. repeat split; try assumption.
  - destruct Hp' as [Hp'|Hp']; [rewrite Hp'; exact Hp | now right].
  - destruct Hg' as [Hg'|Hg']; [rewrite Hg'; exact Hg | now right].
Qed.

Lemma quiet_emit (r : t) (e : Effect) : milestone e = [] -> quiet r (emit e r).
Proof.
  intro He. unfold quiet; cbn.
  rewrite milestones_snoc, He, app_nil_r. auto 6.
Qed.

Lemma quiet_set_state (r : t) (st : BattleState.t) :
  BattleState.phase st = BattleState.phase (state r)
  \/ BattleState.phase st = finished ->
  BattleState.countdown st = BattleState.countdown (state r) ->
  quiet r (set_state st r).
Proof. intros Hp Hc. unfold quiet; cbn. auto 6. Qed.

Lemma quiet_set_combatSystem (r : t) (cs : ServerCombatSystem.t) :
  BattleState.phase (ServerCombatSystem.state cs) = BattleState.phase (state r)
  \/ BattleState.phase (ServerCombatSystem.state cs) = finished ->
  BattleState.countdown (ServerCombatSystem.state cs)
  = BattleState.countdown (state r) ->
  quiet r (set_combatSystem cs r).
Proof. intros Hp Hc. unfold quiet; cbn. auto 6. Qed.

Lemma quiet_same_control (r : t) (cs : ServerCombatSystem.t) :
  control cs = control (combatSystem r) -> quiet r (set_combatSystem cs r).
Proof.
  intro H. unfold control in H. injection H as Hp Hc _.
  apply quiet_set_combatSystem; [left; exact Hp | exact Hc].
Qed.

Lemma quiet_set_spawnCooldowns (r : t) (v : Js.map (Js.map Q)) :
  quiet r (set_spawnCooldowns v r).
Proof. unfold quiet; cbn; auto 6. Qed.

Lemma quiet_set_metadata (r : t) (v : Metadata) : quiet r (set_metadata v r).
Proof. unfold quiet; cbn; auto 6. Qed.

Lemma quiet_set_lastUpdateTime (r : t) (v : Z) : quiet r (set_lastUpdateTime v r).
Proof. unfold quiet; cbn; auto 6. Qed.

Lemma quiet_set_gameLoop (r : t) : quiet r (set_gameLoop false r).
Proof. unfold quiet; cbn; auto 6. Qed.

(** One step of a proof of [quiet r x]: peel the outermost operation off
    [x], or split on the test that decides it. *)
Ltac peel :=
  lazymatch goal with
  | |- quiet ?r ?r => apply quiet_refl
  | |- quiet ?r (emit ?e ?x) =>
      apply (quiet_trans r x); [|apply quiet_emit; reflexivity]
  | |- quiet ?r (sendError ?x ?c ?e) =>
      apply (quiet_trans r x); [|apply quiet_emit; reflexivity]
  | |- quiet ?r (set_state ?st ?x) =>
      apply (quiet_trans r x);
      [|apply quiet_set_state; [first [left; reflexivity | right; reflexivity]
                               | reflexivity]]
  | |- quiet ?r (set_spawnCooldowns ?v ?x) =>
      apply (quiet_trans r x); [|apply quiet_set_spawnCooldowns]
  | |- quiet ?r (set_metadata ?v ?x) =>
      apply (quiet_trans r x); [|apply quiet_set_metadata]
  | |- quiet ?r (set_lastUpdateTime ?v ?x) =>
      apply (quiet_trans r x); [|apply quiet_set_lastUpdateTime]
  | |- quiet ?r (set_gameLoop ?v ?x) =>
      apply (quiet_trans r x); [|apply quiet_set_gameLoop]
  | |- quiet ?r (if ?b then _ else _) => destruct b
  | |- quiet ?r (match ?x with _ => _ end) => destruct x
  end.

Lemma quiet_recalculateGameSpeed (r : t) : quiet r (recalculateGameSpeed r).
Proof. unfold recalculateGameSpeed. cbv zeta. repeat peel. Qed.

Lemma quiet_stopGameLoop (r : t) : quiet r (stopGameLoop r).
Proof. unfold stopGameLoop. repeat peel. Qed.

Lemma quiet_saveBattleResult (r : t) : quiet r (saveBattleResult r).
Proof. unfold saveBattleResult. cbv zeta. repeat peel. Qed.

Lemma quiet_onJoin (r : t) (client : string) (options : JoinOptions) (now : Z) :
  quiet r (onJoin allies r client options now).
Proof.
  unfold onJoin. cbv zeta.
  repeat first
    [ peel
    | lazymatch goal with
      | |- quiet ?r (recalculateGameSpeed ?x) =>
          apply (quiet_trans r x); [|apply quiet_recalculateGameSpeed]
      end ].
Qed.

Lemma quiet_onLeave (r : t) (client : string) (consented : bool) :
  quiet r (onLeave r client consented).
Proof.
  assert (Hfold : forall (l : list (string * PlayerSchema.t)) (x : t),
    quiet r x ->
    quiet r
      (fold_left
         (fun this kv =>
            if negb (fst kv =? client)%string then
              let this :=
                set_state (BattleState.set_winnerId (fst kv) (state this)) this in
              set_state
                (BattleState.set_winReason "opponent_disconnected" (state this))
                this
            else this) l x)).
  { induction l as [|kv l IH]; intros x Hx; cbn [fold_left]; [exact Hx|].
    apply IH. cbv zeta. repeat peel; exact Hx. }
  unfold onLeave. cbv zeta.
  repeat first
    [ peel
    | lazymatch goal with
      | |- quiet ?r (recalculateGameSpeed ?x) =>
          apply (quiet_trans r x); [|apply quiet_recalculateGameSpeed]
      | |- quiet ?r (stopGameLoop ?x) =>
          apply (quiet_trans r x); [|apply quiet_stopGameLoop]
      | |- quiet ?r (fold_left _ _ _) => apply Hfold
      end ].
Qed.

Lemma quiet_handleReady (r : t) (client : string) :
  BattleState.phase (state r) <> waiting -> quiet r (handleReady r client).
Proof.
  intro Hp. unfold handleReady.
  destruct (Js.get client (BattleState.players (state r))) as [player|];
    [|apply quiet_refl].
  cbv zeta.
  assert (Hw : Phase_eqb (BattleState.phase (state r)) waiting = false)
    by (destruct (BattleState.phase (state r)); try reflexivity; congruence).
  match goal with
  | |- context [Phase_eqb ?p waiting] =>
      replace (Phase_eqb p waiting) with false by (symmetry; exact Hw)
  end.
  rewrite andb_false_r.
  repeat peel.
Qed.

Lemma quiet_handleSummon (r : t) (client unitId stamp : string) :
  quiet r (handleSummon allies r client unitId stamp).
Proof.
  unfold handleSummon. cbv zeta.
  repeat first
    [ lazymatch goal with
      | |- quiet ?r (match ServerCombatSystem.spawnUnit ?a ?cs ?p ?u ?s
                     with _ => _ end) =>
          let Hsp := fresh "Hsp" in
          pose proof (spawnUnit_control a cs p u s) as Hsp;
          destruct (ServerCombatSystem.spawnUnit a cs p u s) as [combat iid];
          cbn [fst] in Hsp
      | |- quiet ?r (set_combatSystem ?cs ?x) =>
          apply (quiet_trans r x);
          [|apply quiet_same_control; first [reflexivity | eassumption]]
      end
    | peel ].
Qed.

Lemma quiet_handleUpgradeCost (r : t) (client : string) :
  quiet r (handleUpgradeCost r client).
Proof.
  unfold handleUpgradeCost.
  repeat first
    [ peel
    | lazymatch goal with
      | |- quiet ?r (set_combatSystem ?cs ?x) =>
          apply (quiet_trans r x); [|apply quiet_same_control; reflexivity]
      end ].
Qed.

Lemma quiet_handleSpeedVote (r : t) (client : string) (enabled : option bool) :
  quiet r (handleSpeedVote r client enabled).
Proof.
  unfold handleSpeedVote. cbv zeta.
  repeat first
    [ peel
    | lazymatch goal with
      | |- quiet ?r (recalculateGameSpeed ?x) =>
          apply (quiet_trans r x); [|apply quiet_recalculateGameSpeed]
      end ].
Qed.

Lemma quiet_tick (r : t) (now : Z) : quiet r (tick r now).
Proof.
  unfold tick. cbv zeta.
  repeat first
    [ peel
    | lazymatch goal with
      | |- quiet ?r (saveBattleResult ?x) =>
          apply (quiet_trans r x); [|apply quiet_saveBattleResult]
      | |- quiet ?r (stopGameLoop ?x) =>
          apply (quiet_trans r x); [|apply quiet_stopGameLoop]
      | |- quiet ?r (set_combatSystem (ServerCombatSystem.update ?cs ?d) ?x) =>
          apply (quiet_trans r x);
          [|apply quiet_set_combatSystem; apply update_control]
      end ].
Qed.

(** Every event but a firing of the running countdown interval is quiet,
    once the room has left the waiting phase. *)
Lemma quiet_step (r : t) (e : Event) :
  BattleState.phase (state r) <> waiting ->
  (isCountdownTimer e && countdownInterval r = false)%bool ->
  quiet r (step allies r e).
Proof.
  intros Hp He. destruct e; cbn [step].
  - apply quiet_onJoin.
  - apply quiet_onLeave.
  - now apply quiet_handleReady.
  - apply quiet_handleSummon.
  - apply quiet_handleUpgradeCost.
  - apply quiet_handleSpeedVote.
  - cbn in He. rewrite He. apply quiet_refl.
  - destruct (gameLoop r); [apply quiet_tick | apply quiet_refl].
Qed.

End Quiet.

(** ** The countdown *)

Section Countdown.
Import BattleRoom Trace.
Variable allies : list UnitDefinition.t.

Lemma quiet_not_waiting (r r' : t) :
  quiet r r' ->
  BattleState.phase (state r) <> waiting ->
  BattleState.phase (state r') <> waiting.
Proof.
  intros ([Hp|Hp] & _) Hw; rewrite Hp; [exact Hw | discriminate].
Qed.

(** One firing of the running countdown interval. *)
Lemma countdownCallback_fires (r : t) (now : Z) :
  let c := (BattleState.countdown (state r) - 1)%Z in
  let r' := countdownCallback r now in
  BattleState.countdown (state r') = c /\
  milestones (effects r')
  = (milestones (effects r)
     ++ Counted c :: (if (c <=? 0)%Z then [Playing] else []))%list /\
  countdownInterval r' = (if (c <=? 0)%Z then false else countdownInterval r) /\
  BattleState.phase (state r')
  = (if (c <=? 0)%Z then playing else BattleState.phase (state r)).
Proof.
  intros c r'. subst r'. unfold countdownCallback. cbv zeta. fields.
  fold c. destruct (c <=? 0)%Z.
  - unfold startGame. cbv zeta. fields.
    rewrite !milestones_snoc. cbn [milestone]. rewrite <- app_assoc.
    repeat split.
  - fields. rewrite milestones_snoc. repeat split.
Qed.

(** The milestones of a run, from any room that has left the waiting
    phase. *)
Lemma run_milestones (trace : list Event) :
  forall r : t,
    BattleState.phase (state r) <> waiting ->
    milestones (effects (run allies r trace))
    = (milestones (effects r)
       ++ expect (countdownInterval r) (BattleState.countdown (state r)) trace)%list.
Proof.
  induction trace as [|e trace IH]; intros r Hw.
  - cbn. now rewrite app_nil_r.
  - unfold run in *. cbn [fold_left].
    destruct (isCountdownTimer e && countdownInterval r)%bool eqn:Efire.
    + apply andb_true_iff in Efire. destruct Efire as [Ht Hi].
      destruct e; try discriminate. cbn [step expect]. rewrite Hi.
      destruct (countdownCallback_fires r now) as (Hc & Hm & Hi' & Hp).
      cbv zeta in Hc, Hm, Hi', Hp.
      rewrite IH.
      * rewrite Hm, Hc, Hi', Hi.
        destruct (BattleState.countdown (state r) - 1 <=? 0)%Z;
          rewrite <- app_assoc; reflexivity.
      * rewrite Hp.
        destruct (BattleState.countdown (state r) - 1 <=? 0)%Z;
          [discriminate | exact Hw].
    + pose proof (quiet_step allies r e Hw Efire) as Hq.
      rewrite (IH _ (quiet_not_waiting _ _ Hq Hw)).
      destruct Hq as (_ & Hc & Hi & Hm & _). rewrite Hc, Hi, Hm.
      f_equal. destruct e; try reflexivity.
      cbn in Efire. cbn [expect]. now rewrite Efire.
Qed.

Lemma expect_idle (c : Z) (trace : list Event) : expect false c trace = [].
Proof.
  induction trace as [|e trace IH]; [reflexivity|].
  destruct e; exact IH.
Qed.

Lemma expect_script (trace : list Event) :
  expect true 3 trace = scriptAfter (timerSlots trace).
Proof.
  assert (H1 : forall tr,
    expect true 1 tr
    = if (timerSlots tr =? 0)%nat then [] else [Counted 0; Playing]).
  { induction tr as [|e tr IH]; [reflexivity|].
    destruct e; try exact IH.
    cbn [expect]. now rewrite expect_idle. }
  assert (H2 : forall tr,
    expect true 2 tr
    = match timerSlots tr with
      | O => []
      | S O => [Counted 1]
      | _ => [Counted 1; Counted 0; Playing]
      end).
  { induction tr as [|e tr IH]; [reflexivity|].
    destruct e; try exact IH.
    cbn [expect]. change (2 - 1)%Z with 1%Z. cbn [Z.leb Z.compare].
    rewrite H1. unfold timerSlots. cbn [filter isCountdownTimer List.length].
    now destruct (List.length (filter isCountdownTimer tr)). }
  induction trace as [|e trace IH]; [reflexivity|].
  destruct e; try exact IH.
  cbn [expect]. change (3 - 1)%Z with 2%Z. cbn [Z.leb Z.compare].
  rewrite H2. unfold scriptAfter, timerSlots.
  cbn [filter isCountdownTimer List.length].
  destruct (List.length (filter isCountdownTimer trace)) as [|[|[|n]]];
    reflexivity.
Qed.

(** The [ready] message that completes the pair starts the countdown. *)
Lemma handleReady_starts (r : t) (client : string) (player : PlayerSchema.t) :
  BattleState.phase (state r) = waiting ->
  Js.size (BattleState.players (state r)) = 2%Z ->
  Js.get client (BattleState.players (state r)) = Some player ->
  forallb (fun kv => PlayerSchema.ready (snd kv))
          (Js.set client (PlayerSchema.set_ready true player)
                  (BattleState.players (state r))) = true ->
  let r' := handleReady r client in
  BattleState.phase (state r') = countdown_phase /\
  BattleState.countdown (state r') = 3%Z /\
  countdownInterval r' = true /\
  effects r'
  = (effects r
     ++ [Broadcast (phase_change countdown_phase (Some 3%Z) None
                      (BattleState.gameSpeed (state r))
                      (getSpeedVotesObject r))])%list.
Proof.
  intros Hp Hsize Hget Hall r'. subst r'. unfold handleReady.
  rewrite Hget. cbv zeta.
  assert (Hs : Js.size (Js.set client (PlayerSchema.set_ready true player)
                          (BattleState.players (state r))) = 2%Z).
  { unfold Js.size in *. rewrite <- Hsize. f_equal.
    assert (Hk := keys_set_present client (PlayerSchema.set_ready true player) player _ Hget).
    unfold Js.keys in Hk. apply (f_equal (@List.length string)) in Hk.
    now rewrite !length_map in Hk. }
  assert (Hw : Phase_eqb (BattleState.phase (state r)) waiting = true)
    by now rewrite Hp.
  match goal with
  | |- context [if (?a && ?b && ?c)%bool then _ else _] =>
      replace a with true by (symmetry; exact Hall);
      replace b with true by (symmetry; apply Z.eqb_eq; exact Hs);
      replace c with true by (symmetry; exact Hw)
  end.
  cbn [andb]. unfold startCountdown. cbv zeta. repeat split.
Qed.

End Countdown.
(** C3 as the code has it: once the [ready] that completes the pair arrives
    in the waiting phase, the countdown opens with a phase_change carrying
    3, and, whatever events follow, the broadcasts of countdown_update and
    of the phase_change to playing are, in this order, countdown_update 2,
    1, 0 and then the phase_change: one more of them each time the countdown
    interval comes due, all four at the third time, and none after.  So
    exactly three countdown_update events, with the values 2, 1, 0, go out
    before the phase_change to playing. *)
Theorem countdown_broadcasts_2_1_0
    (allies : list UnitDefinition.t) (this : BattleRoom.t) (client : string)
    (player : PlayerSchema.t) (trace : list BattleRoom.Event) :
  BattleState.phase (BattleRoom.state this) = waiting ->
  Js.size (BattleState.players (BattleRoom.state this)) = 2%Z ->
  Js.get client (BattleState.players (BattleRoom.state this)) = Some player ->
  forallb (fun kv => PlayerSchema.ready (snd kv))
          (Js.set client (PlayerSchema.set_ready true player)
                  (BattleState.players (BattleRoom.state this))) = true ->
  let counting := BattleRoom.handleReady this client in
  let final := BattleRoom.run allies counting trace in
  BattleState.phase (BattleRoom.state counting) = countdown_phase /\
  BattleRoom.effects counting
  = (BattleRoom.effects this
     ++ [BattleRoom.Broadcast
           (BattleRoom.phase_change countdown_phase (Some 3%Z) None
              (BattleState.gameSpeed (BattleRoom.state this))
              (BattleRoom.getSpeedVotesObject this))])%list /\
  Trace.milestones (BattleRoom.effects final)
  = (Trace.milestones (BattleRoom.effects this)
     ++ Trace.scriptAfter (Trace.timerSlots trace))%list /\
  ((3 <= Trace.timerSlots trace)%nat ->
   Trace.milestones (BattleRoom.effects final)
   = (Trace.milestones (BattleRoom.effects this)
      ++ [Trace.Counted 2; Trace.Counted 1; Trace.Counted 0; Trace.Playing])%list).
Proof.
  intros Hp Hsize Hget Hall counting final.
  destruct (handleReady_starts this client player Hp Hsize Hget Hall)
    as (Hphase & Hc & Hi & He).
  fold counting in Hphase, Hc, Hi, He.
  assert (Hm : Trace.milestones (BattleRoom.effects final)
               = (Trace.milestones (BattleRoom.effects this)
                  ++ Trace.scriptAfter (Trace.timerSlots trace))%list).
  { unfold final. rewrite run_milestones by (rewrite Hphase; discriminate).
    rewrite Hc, Hi, expect_script, He, milestones_snoc. cbn [Trace.milestone].
    now rewrite app_nil_r. }
  split; [exact Hphase|]. split; [exact He|]. split; [exact Hm|].
  intro H3. rewrite Hm. unfold Trace.scriptAfter.
  apply Nat.ltb_ge in H3. now rewrite H3.
Qed.

Lemma countdown_broadcasts_2_1_0_witness :
  let this := BattleRoom.run Example.allies Example.joined [BattleRoom.Ready "alice"] in
  let trace :=
    [BattleRoom.CountdownTimer 1000%Z;
     BattleRoom.Summon "alice" "sword" "1_x";
     BattleRoom.CountdownTimer 2000%Z;
     BattleRoom.SpeedVote "bob" (Some true);
     BattleRoom.CountdownTimer 3000%Z;
     BattleRoom.GameLoopTimer 3050%Z;
     BattleRoom.CountdownTimer 4000%Z] in
  BattleState.phase (BattleRoom.state this) = waiting /\
  Js.size (BattleState.players (BattleRoom.state this)) = 2%Z /\
  Js.get "bob" (BattleState.players (BattleRoom.state this))
  = Some (PlayerSchema.set_ready false Example.bob) /\
  Trace.milestones
    (BattleRoom.effects
       (BattleRoom.run Example.allies (BattleRoom.handleReady this "bob") trace))
  = (Trace.milestones (BattleRoom.effects this)
     ++ [Trace.Counted 2; Trace.Counted 1; Trace.Counted 0; Trace.Playing])%list.
Proof.
  cbv zeta.
  split; [vm_compute; reflexivity|]. split; [vm_compute; reflexivity|].
  split; [vm_compute; reflexivity|].
  refine (proj2 (proj2 (proj2
    (countdown_broadcasts_2_1_0 Example.allies
       (BattleRoom.run Example.allies Example.joined [BattleRoom.Ready "alice"])
       "bob" (PlayerSchema.set_ready false Example.bob) _ _ _ _ _))) _).
  - vm_compute; reflexivity.
  - vm_compute; reflexivity.
  - vm_compute; reflexivity.
  - vm_compute; reflexivity.
  - vm_compute. lia.
Defined.

(** The state of C2's defect arises within one tick: the giant kills the
    sword's target, and the sword, updated after it, winds up on the dead
    unit all the same. *)
Lemma update_winds_up_on_fresh_corpse :
  let this := ExampleTick.beforeKill in
  let this' := ServerCombatSystem.update this 50 in
  ServerCombatSystem.liveTarget this ExampleTick.walker
  = Some ("player2_sword_1", ExampleTick.victim) /\
  option_map ServerUnit.state
    (Js.get "player2_sword_1" (ServerCombatSystem.serverUnits this')) = Some DIE /\
  option_map ServerUnit.state
    (Js.get "player1_sword_1" (ServerCombatSystem.serverUnits this'))
  = Some ATTACK_WINDUP /\
  option_map ServerUnit.stateTimer
    (Js.get "player1_sword_1" (ServerCombatSystem.serverUnits this'))
  = Some 0.
Proof. vm_compute. repeat split; reflexivity. Qed.

(** ** Disconnects *)

Section Disconnect.
Import BattleRoom Trace.
Variable allies : list UnitDefinition.t.

(** What [onLeave] does at once when one of two players leaves during the
    countdown or the match. *)
Lemma leave_ends_match (r : t) (client other : string) (p q : PlayerSchema.t)
    (consented : bool) :
  BattleState.phase (state r) = countdown_phase
  \/ BattleState.phase (state r) = playing ->
  BattleState.players (state r) = [(client, p); (other, q)]
  \/ BattleState.players (state r) = [(other, q); (client, p)] ->
  client <> other ->
  let r' := onLeave r client consented in
  BattleState.phase (state r') = finished /\
  BattleState.winnerId (state r') = other /\
  BattleState.winReason (state r') = "opponent_disconnected" /\
  gameLoop r' = false /\
  BattleState.players (state r') = [(other, q)] /\
  countdownInterval r' = countdownInterval r.
Proof.
  intros Hphase Hplayers Hne r'. subst r'. unfold onLeave.
  assert (Ht : (Phase_eqb (BattleState.phase (state r)) playing
                || Phase_eqb (BattleState.phase (state r)) countdown_phase)%bool
               = true) by (destruct Hphase as [-> | ->]; reflexivity).
  rewrite Ht.
  assert (Hoc : (other =? client)%string = false)
    by (apply String.eqb_neq; congruence).
  assert (Hg : forall x : t, gameLoop (stopGameLoop x) = false)
    by (intro x; unfold stopGameLoop; destruct (gameLoop x) eqn:E; [reflexivity | exact E]).
  assert (Hsg : forall x : t, state (stopGameLoop x) = state x)
    by (intro x; unfold stopGameLoop; destruct (gameLoop x); reflexivity).
  assert (Hsi : forall x : t, countdownInterval (stopGameLoop x) = countdownInterval x)
    by (intro x; unfold stopGameLoop; destruct (gameLoop x); reflexivity).
  assert (Hrs : forall x : t,
    BattleState.phase (state (recalculateGameSpeed x)) = BattleState.phase (state x) /\
    BattleState.winnerId (state (recalculateGameSpeed x)) = BattleState.winnerId (state x) /\
    BattleState.winReason (state (recalculateGameSpeed x)) = BattleState.winReason (state x) /\
    gameLoop (recalculateGameSpeed x) = gameLoop x /\
    BattleState.players (state (recalculateGameSpeed x)) = BattleState.players (state x) /\
    countdownInterval (recalculateGameSpeed x) = countdownInterval x).
  { intro x. unfold recalculateGameSpeed. cbv zeta.
    destruct (Js.size (BattleState.players (state x)) <? 2)%Z; cbn; auto 10. }
  cbv zeta.
  match goal with |- context [recalculateGameSpeed ?x] =>
    destruct (Hrs x) as (-> & -> & -> & -> & -> & ->) end.
  destruct Hplayers as [Hpl|Hpl]; rewrite Hpl;
    cbn [Js.get fold_left fst snd]; rewrite ?String.eqb_refl, ?Hoc;
    cbn [negb]; fields; rewrite ?Hsg, ?Hg, ?Hsi; fields;
    rewrite ?Hpl; cbn [Js.delete]; rewrite ?String.eqb_refl, ?Hoc; auto 10.
Qed.

(** A finished room whose two intervals are stopped stays finished. *)
Lemma finished_is_terminal (trace : list Event) :
  forall r : t,
    BattleState.phase (state r) = finished ->
    countdownInterval r = false ->
    gameLoop r = false ->
    BattleState.phase (state (run allies r trace)) = finished.
Proof.
  induction trace as [|e trace IH]; intros r Hp Hi Hg; [exact Hp|].
  unfold run in *. cbn [fold_left].
  assert (Hq : quiet r (step allies r e)).
  { apply quiet_step; [rewrite Hp; discriminate|].
    rewrite Hi. apply andb_false_r. }
  destruct Hq as (Hp' & _ & Hi' & _ & Hg').
  apply IH.
  - destruct Hp' as [Hp'|Hp']; [now rewrite Hp' | exact Hp'].
  - now rewrite Hi'.
  - destruct Hg' as [Hg'|Hg']; [now rewrite Hg' | exact Hg'].
Qed.

(** Hence a disconnect during the match, where the countdown interval has
    stopped, is final: the room never plays again. *)
Lemma leave_while_playing_is_final (r : t) (client other : string)
    (p q : PlayerSchema.t) (consented : bool) (trace : list Event) :
  BattleState.phase (state r) = playing ->
  countdownInterval r = false ->
  BattleState.players (state r) = [(client, p); (other, q)]
  \/ BattleState.players (state r) = [(other, q); (client, p)] ->
  client <> other ->
  BattleState.phase
    (state (run allies (onLeave r client consented) trace)) = finished.
Proof.
  intros Hp Hi Hpl Hne.
  destruct (leave_ends_match r client other p q consented (or_intror Hp) Hpl Hne)
    as (Hf & _ & _ & Hg & _ & Hi').
  apply finished_is_terminal; [exact Hf | now rewrite Hi' | exact Hg].
Qed.

End Disconnect.

(** ** Where the statements above sit in the tick and in the room *)

Section Bridges.
Import ServerCombatSystem.

(** [dealDamage] is what a completed windup runs; the change of state that
    follows it touches the attacker alone. *)
Lemma handleAttackWindup_completes (this : t) (unit : string) (u : ServerUnit.t) :
  Js.get unit (serverUnits this) = Some u ->
  UnitDefinition.attackWindupMs (ServerUnit.definition u) <= ServerUnit.stateTimer u ->
  let hit := dealDamage this unit in
  let this' := handleAttackWindup this unit in
  this' = setUnitState hit unit ATTACK_COOLDOWN /\
  state this' = state hit /\
  killCounts this' = killCounts hit /\
  (forall other, other <> unit ->
     Js.get other (serverUnits this') = Js.get other (serverUnits hit)).
Proof.
  intros Hu Ht hit this'. subst this'. unfold handleAttackWindup.
  rewrite Hu. apply geb_ge in Ht. rewrite Ht. fold hit.
  unfold setUnitState.
  destruct (Js.get unit (serverUnits hit)) as [u'|]; repeat split; try reflexivity.
  intros other Hne. now apply get_set_other.
Qed.

Lemma indexOf_present {V} (k : string) (v : V) (m : Js.map V) :
  Js.get k m = Some v ->
  (0 <= Js.indexOf k (Js.keys m) < Js.size m)%Z.
Proof.
  unfold Js.size. induction m as [|[k' v'] m IH]; cbn [Js.get]; [discriminate|].
  cbn [Js.keys List.map fst Js.indexOf List.length].
  destruct (k' =? k)%string; [lia|].
  intro H. specialize (IH H). unfold Js.keys in IH.
  destruct (Js.indexOf k (List.map fst m) <? 0)%Z eqn:E; [apply Z.ltb_lt in E|]; lia.
Qed.

(** In a room of at most two players, a player of the room has a side: the
    spawn inside [handleSummon], which has already found the definition,
    cannot fail there. *)
Lemma spawn_succeeds_in_room (allies : list UnitDefinition.t) (this : t)
    (client unitId stamp : string) (player player' : PlayerSchema.t)
    (definition : UnitDefinition.t) :
  (Js.size (BattleState.players (state this)) <= 2)%Z ->
  Js.get client (BattleState.players (state this)) = Some player ->
  PlayerSchema.sessionId player' = client ->
  Units.getUnitDefinition allies unitId = Some definition ->
  snd (spawnUnit allies (putPlayer this client player') player' unitId stamp)
  <> None.
Proof.
  intros Hsize Hget Hsid Hdef. unfold spawnUnit. rewrite Hdef, Hsid.
  unfold getPlayerSide. fields.
  rewrite (keys_set_present client player' player _ Hget).
  pose proof (indexOf_present client player _ Hget) as Hi.
  destruct (Js.indexOf client (Js.keys (BattleState.players (state this))) =? 0)%Z eqn:E0;
    [cbn; discriminate|].
  destruct (Js.indexOf client (Js.keys (BattleState.players (state this))) =? 1)%Z eqn:E1;
    [cbn; discriminate|].
  apply Z.eqb_neq in E0, E1. lia.
Qed.

End Bridges.

(** ** Two seats *)

Section SeatsInCombat.
Import ServerCombatSystem Seats.

Ltac split_match :=
  match goal with
  | |- context [match ?x with _ => _ end] => destruct x
  end.

Lemma length_set_present {V} (k : string) (v v0 : V) (m : Js.map V) :
  Js.get k m = Some v0 -> List.length (Js.set k v m) = List.length m.
Proof.
  intro H. pose proof (keys_set_present k v v0 m H) as Hk.
  unfold Js.keys in Hk. apply (f_equal (@List.length string)) in Hk.
  now rewrite !length_map in Hk.
Qed.

Lemma length_set_le {V} (k : string) (v : V) (m : Js.map V) :
  (List.length (Js.set k v m) <= S (List.length m))%nat.
Proof.
  induction m as [|[k' v'] m IH]; cbn; [lia|].
  destruct (k' =? k)%string; cbn; lia.
Qed.

Lemma length_delete_le {V} (k : string) (m : Js.map V) :
  (List.length (Js.delete k m) <= List.length m)%nat.
Proof.
  induction m as [|[k' v'] m IH]; cbn; [lia|].
  destruct (k' =? k)%string; cbn; lia.
Qed.

Lemma Forall_set {V} (P : string * V -> Prop) (k : string) (v : V) (m : Js.map V) :
  P (k, v) -> Forall P m -> Forall P (Js.set k v m).
Proof.
  intros Hv. induction m as [|[k' v'] m IH]; cbn; intro Hm.
  - constructor; [exact Hv | constructor].
  - inversion Hm; subst.
    destruct (k' =? k)%string; constructor; auto.
Qed.

Lemma Forall_delete {V} (P : string * V -> Prop) (k : string) (m : Js.map V) :
  Forall P m -> Forall P (Js.delete k m).
Proof.
  induction m as [|[k' v'] m IH]; cbn; intro Hm; [constructor|].
  inversion Hm; subst. destruct (k' =? k)%string; [assumption|].
  constructor; auto.
Qed.

Lemma Forall_get {V} (P : string * V -> Prop) (k : string) (v : V) (m : Js.map V) :
  Forall P m -> Js.get k m = Some v -> P (k, v).
Proof.
  induction m as [|[k' v'] m IH]; cbn; intros Hm Hg; [discriminate|].
  inversion Hm; subst.
  destruct (k' =? k)%string eqn:E.
  - apply String.eqb_eq in E. injection Hg as <-. now subst.
  - auto.
Qed.

Lemma playersOf_putUnit (cs : t) (k : string) (u : ServerUnit.t) :
  playersOf (putUnit cs k u) = playersOf cs.
Proof. reflexivity. Qed.

Lemma playersOf_setUnitState (cs : t) (k : string) (st : UnitState) :
  playersOf (setUnitState cs k st) = playersOf cs.
Proof. unfold setUnitState. now destruct (Js.get k (serverUnits cs)). Qed.

Lemma playersOf_set_killCounts (cs : t) (v : Js.map Z) :
  playersOf (set_killCounts v cs) = playersOf cs.
Proof. reflexivity. Qed.

Lemma playersOf_set_serverUnits (cs : t) (v : Js.map ServerUnit.t) :
  playersOf (set_serverUnits v cs) = playersOf cs.
Proof. reflexivity. Qed.

Lemma playersOf_set_units (cs cs' : t) (v : Js.map UnitSchema.t) :
  playersOf (set_state (BattleState.set_units v (state cs')) cs) = playersOf cs'.
Proof. reflexivity. Qed.

Create Rewrite HintDb seats.
Hint Rewrite playersOf_putUnit playersOf_setUnitState playersOf_set_killCounts
  playersOf_set_serverUnits playersOf_set_units : seats.

Ltac seats_cases :=
  repeat split_match; autorewrite with seats; try reflexivity.

Lemma playersOf_applyDamage (cs : t) (k : string) (d kb : Q) (s : option Side) :
  playersOf (applyDamage cs k d kb s) = playersOf cs.
Proof. unfold applyDamage. seats_cases. Qed.

Lemma getPlayerBySide_found (cs : t) (side : Side) (sid : string) (p : PlayerSchema.t) :
  getPlayerBySide cs side = Some (sid, p) -> Js.get sid (playersOf cs) = Some p.
Proof.
  unfold getPlayerBySide.
  destruct (getSessionIdBySide cs side) as [sid'|]; [|discriminate].
  destruct (Js.truthy sid'); [|discriminate].
  destruct (Js.get sid' (BattleState.players (state cs))) as [p'|] eqn:E;
    [|discriminate].
  intro H. injection H as <- <-. exact E.
Qed.

Lemma seated_putPlayer (cs : t) (k : string) (p p' : PlayerSchema.t) :
  seated cs ->
  Js.get k (playersOf cs) = Some p ->
  PlayerSchema.sessionId p' = PlayerSchema.sessionId p ->
  seated (putPlayer cs k p').
Proof.
  intros [Hn Hf] Hg Hs. unfold seated, playersOf, putPlayer; cbn.
  fold (playersOf cs). split.
  - unfold Js.size in *. now rewrite (length_set_present k p' p _ Hg).
  - apply Forall_set; [|exact Hf].
    cbn. rewrite Hs. exact (Forall_get _ _ _ _ Hf Hg).
Qed.

Lemma seated_same (cs cs' : t) :
  playersOf cs' = playersOf cs -> seated cs -> seated cs'.
Proof. unfold seated. now intros ->. Qed.

Lemma seated_dealDamage (cs : t) (k : string) :
  seated cs -> seated (dealDamage cs k).
Proof.
  intro Hs. unfold dealDamage.
  destruct (Js.get k (serverUnits cs)) as [a|]; [|exact Hs].
  destruct (liveTarget cs a) as [[tid target]|].
  - apply (seated_same cs); [apply playersOf_applyDamage | exact Hs].
  - destruct (getPlayerBySide cs (enemyOf (ServerUnit.side a))) as [[sid p]|] eqn:E;
      [|exact Hs].
    destruct (isInRangeOfEnemyCastle a); [|exact Hs].
    apply (seated_putPlayer cs sid p); [exact Hs | exact (getPlayerBySide_found _ _ _ _ E)|].
    cbv zeta. destruct (Js.ltb _ 0); reflexivity.
Qed.

Lemma seated_updateUnitState (cs : t) (k : string) (d : Q) :
  seated cs -> seated (updateUnitState cs k d).
Proof.
  intro Hs. unfold updateUnitState.
  destruct (Js.get k (serverUnits cs)) as [u|] eqn:Eu; [|exact Hs].
  destruct (ServerUnit.state u); try exact Hs.
  - apply (seated_same cs); [|exact Hs]. unfold handleSpawn. seats_cases.
  - apply (seated_same cs); [|exact Hs]. unfold handleWalk. seats_cases.
  - unfold handleAttackWindup. rewrite Eu.
    destruct (Js.geb _ _); [|exact Hs].
    apply (seated_same (dealDamage cs k)); [apply playersOf_setUnitState|].
    now apply seated_dealDamage.
  - apply (seated_same cs); [|exact Hs]. unfold handleAttackCooldown. seats_cases.
  - apply (seated_same cs); [|exact Hs]. unfold handleHitstun. seats_cases.
Qed.

Lemma playersOf_syncSchema (cs : t) (k : string) :
  playersOf (syncSchema cs k) = playersOf cs.
Proof. unfold syncSchema. seats_cases. Qed.

Lemma seated_updateUnit (d : Q) (cs : t) (k : string) :
  seated cs -> seated (updateUnit d cs k).
Proof.
  intro Hs. unfold updateUnit.
  destruct (Js.get k (serverUnits cs)) as [u|]; [|exact Hs].
  cbv zeta. apply (seated_same _ _ (playersOf_syncSchema _ _)).
  destruct (negb _); [apply seated_updateUnitState|];
    apply (seated_same cs); try reflexivity; exact Hs.
Qed.

Lemma seated_fold {A} (f : t -> A -> t) (l : list A) :
  (forall cs a, seated cs -> seated (f cs a)) ->
  forall cs, seated cs -> seated (fold_left f l cs).
Proof.
  intro Hf. induction l as [|a l IH]; intros cs Hs; cbn; [exact Hs|].
  apply IH, Hf, Hs.
Qed.

Lemma playersOf_clampUnitPosition (cs : t) (k : string) :
  playersOf (clampUnitPosition cs k) = playersOf cs.
Proof. unfold clampUnitPosition. seats_cases. Qed.

Hint Rewrite playersOf_clampUnitPosition : seats.

Lemma playersOf_collidePair (cs : t) (a b : string) :
  playersOf (collidePair cs a b) = playersOf cs.
Proof. unfold collidePair. seats_cases. Qed.

Lemma playersOf_collideWith (a : string) (rest : list string) :
  forall cs, playersOf (collideWith cs a rest) = playersOf cs.
Proof.
  induction rest as [|b rest IH]; intro cs; cbn; [reflexivity|].
  now rewrite IH, playersOf_collidePair.
Qed.

Lemma playersOf_collideAll (units : list string) :
  forall cs, playersOf (collideAll cs units) = playersOf cs.
Proof.
  induction units as [|a rest IH]; intro cs; cbn; [reflexivity|].
  now rewrite IH, playersOf_collideWith.
Qed.

Lemma playersOf_fold {A} (f : t -> A -> t) (l : list A) :
  (forall cs a, playersOf (f cs a) = playersOf cs) ->
  forall cs, playersOf (fold_left f l cs) = playersOf cs.
Proof.
  intro Hf. induction l as [|a l IH]; intro cs; cbn; [reflexivity|].
  now rewrite IH, Hf.
Qed.

Lemma playersOf_assignTarget (cs : t) (k : string) :
  playersOf (assignTarget cs k) = playersOf cs.
Proof. unfold assignTarget. seats_cases. Qed.

Lemma playersOf_cleanupDeadUnits (cs : t) :
  playersOf (cleanupDeadUnits cs) = playersOf cs.
Proof. unfold cleanupDeadUnits. apply playersOf_fold. reflexivity. Qed.

Lemma playersOf_checkWinCondition (cs : t) :
  playersOf (checkWinCondition cs) = playersOf cs.
Proof. unfold checkWinCondition. repeat split_match; reflexivity. Qed.

Lemma seated_update (cs : t) (d : Q) : seated cs -> seated (update cs d).
Proof.
  intro Hs. unfold update. cbv zeta.
  apply (seated_same _ _ (playersOf_checkWinCondition _)).
  apply (seated_same _ _ (playersOf_cleanupDeadUnits _)).
  apply (seated_same _ _ (playersOf_fold _ _ playersOf_assignTarget _)).
  apply (seated_same _ _ (playersOf_collideAll _ _)).
  apply seated_fold; [|exact Hs]. intros. now apply seated_updateUnit.
Qed.

Lemma playersOf_spawnUnit (allies : list UnitDefinition.t) (cs : t) (p : PlayerSchema.t)
    (unitId stamp : string) :
  playersOf (fst (spawnUnit allies cs p unitId stamp)) = playersOf cs.
Proof. unfold spawnUnit. seats_cases. Qed.

End SeatsInCombat.

Section SeatsInRoom.
Import BattleRoom Seats.
Variable allies : list UnitDefinition.t.

Ltac split_match :=
  match goal with
  | |- context [match ?x with _ => _ end] => destruct x
  end.

Ltac same_players := cbv zeta; repeat split_match; reflexivity.

Lemma players_recalculateGameSpeed (r : t) :
  playersOf (combatSystem (recalculateGameSpeed r)) = playersOf (combatSystem r).
Proof. unfold recalculateGameSpeed. same_players. Qed.

Lemma players_stopGameLoop (r : t) :
  combatSystem (stopGameLoop r) = combatSystem r.
Proof. unfold stopGameLoop. same_players. Qed.

Lemma players_saveBattleResult (r : t) :
  combatSystem (saveBattleResult r) = combatSystem r.
Proof. unfold saveBattleResult. same_players. Qed.

Lemma players_countdownCallback (r : t) (now : Z) :
  playersOf (combatSystem (countdownCallback r now)) = playersOf (combatSystem r).
Proof. unfold countdownCallback, startGame. same_players. Qed.

Lemma players_handleSpeedVote (r : t) (client : string) (enabled : option bool) :
  playersOf (combatSystem (handleSpeedVote r client enabled))
  = playersOf (combatSystem r).
Proof.
  unfold handleSpeedVote. cbv zeta.
  destruct (negb _); [reflexivity|]. now rewrite players_recalculateGameSpeed.
Qed.

Lemma seated_onCreate (now : Z) : seated (combatSystem (onCreate now)).
Proof. split; cbn; [lia | constructor]. Qed.

Lemma seated_onJoin (r : t) (client : string) (options : JoinOptions) (now : Z) :
  seated (combatSystem r) ->
  seated (combatSystem (onJoin allies r client options now)).
Proof.
  intros [Hn Hf]. unfold onJoin.
  destruct (Js.size (BattleState.players (state r)) >=? 2)%Z eqn:Efull;
    [split; assumption|].
  cbv zeta.
  match goal with
  | |- seated (combatSystem (if ?c then emit Lock ?x else ?x)) =>
      assert (Hx : seated (combatSystem x));
      [|destruct c; exact Hx]
  end.
  match goal with
  | |- seated (combatSystem (emit _ (emit _ (emit _ (if ?c then _ else ?x))))) =>
      assert (Hx : seated (combatSystem x)); [|destruct c; exact Hx]
  end.
  apply (seated_same _ _ (players_recalculateGameSpeed _)).
  unfold seated, playersOf. fields. fold (state r). split.
  - rewrite Z.geb_leb in Efull. apply Z.leb_gt in Efull.
    unfold Js.size in *.
    match goal with |- (Z.of_nat (List.length (Js.set ?k ?v ?m)) <= 2)%Z =>
      pose proof (length_set_le k v m) end.
    lia.
  - apply Forall_set; [reflexivity | exact Hf].
Qed.

Lemma seated_onLeave (r : t) (client : string) (consented : bool) :
  seated (combatSystem r) ->
  seated (combatSystem (onLeave r client consented)).
Proof.
  intros [Hn Hf]. unfold onLeave. cbv zeta.
  apply (seated_same _ _ (players_recalculateGameSpeed _)).
  unfold seated, playersOf. fields.
  match goal with
  | |- context [Js.delete client (BattleState.players (state ?x))] =>
      assert (Hx : BattleState.players (state x) = BattleState.players (state r))
  end.
  { destruct (_ || _)%bool; [|reflexivity].
    destruct (Js.get client _); [|reflexivity].
    assert (Hst : forall x : t, state (stopGameLoop x) = state x)
      by (intro x; unfold stopGameLoop; destruct (gameLoop x); reflexivity).
    rewrite Hst.
    match goal with
    | |- BattleState.players (state (set_state (BattleState.set_phase _ _) ?x)) = _ =>
        change (BattleState.players (state x) = BattleState.players (state r))
    end.
    match goal with
    | |- context [fold_left ?f ?l r] =>
        assert (Hfold : forall l' (x : t),
          BattleState.players (state (fold_left f l' x))
          = BattleState.players (state x))
    end.
    { induction l' as [|kv l' IH]; intro x; cbn [fold_left]; [reflexivity|].
      rewrite IH. destruct (negb _); reflexivity. }
    apply Hfold. }
  unfold state in Hx |- *. rewrite Hx. split.
  - unfold Js.size in *.
    pose proof (length_delete_le client
                  (BattleState.players (ServerCombatSystem.state (combatSystem r)))).
    unfold playersOf in Hn. lia.
  - now apply Forall_delete.
Qed.

Lemma seated_handleReady (r : t) (client : string) :
  seated (combatSystem r) -> seated (combatSystem (handleReady r client)).
Proof.
  intro Hs. unfold handleReady.
  destruct (Js.get client (BattleState.players (state r))) as [player|] eqn:Eg;
    [|exact Hs].
  cbv zeta.
  match goal with
  | |- seated (combatSystem (if ?c then startCountdown ?x else ?x)) =>
      assert (Hx : seated (combatSystem x));
      [|destruct c; [unfold startCountdown; cbv zeta|]; exact Hx]
  end.
  exact (seated_putPlayer (combatSystem r) client player
           (PlayerSchema.set_ready true player) Hs Eg eq_refl).
Qed.

Lemma sessionId_spend (p : PlayerSchema.t) (amount : Q) :
  PlayerSchema.sessionId (fst (ServerCostSystem.spend p amount)) = PlayerSchema.sessionId p.
Proof. unfold ServerCostSystem.spend. now destruct (Js.geb _ _). Qed.

Lemma sessionId_upgradeMax (p : PlayerSchema.t) :
  PlayerSchema.sessionId (fst (ServerCostSystem.upgradeMax p)) = PlayerSchema.sessionId p.
Proof. unfold ServerCostSystem.upgradeMax. repeat split_match; reflexivity. Qed.

Lemma seated_handleSummon (r : t) (client unitId stamp : string) :
  seated (combatSystem r) ->
  seated (combatSystem (handleSummon allies r client unitId stamp)).
Proof.
  intro Hs. unfold handleSummon.
  destruct (negb _); [exact Hs|].
  destruct (Js.get client (BattleState.players (state r))) as [player|] eqn:Eg;
    [|exact Hs].
  destruct (Units.getUnitDefinition allies unitId) as [definition|]; [|exact Hs].
  destruct (negb _); [exact Hs|].
  destruct (match Js.get client (spawnCooldowns r) with
            | Some cooldowns => _ | None => false end); [exact Hs|].
  destruct (negb _); [exact Hs|].
  cbv zeta.
  pose proof (seated_putPlayer (combatSystem r) client player
                (fst (ServerCostSystem.spend player (UnitDefinition.cost definition)))
                Hs Eg (sessionId_spend _ _)) as Hp.
  match goal with
  | |- context [ServerCombatSystem.spawnUnit ?a ?cs ?p ?u ?s] =>
      pose proof (playersOf_spawnUnit a cs p u s) as Hsp;
      destruct (ServerCombatSystem.spawnUnit a cs p u s) as [combat iid]
  end.
  cbn [fst] in Hsp.
  assert (Hc : seated combat) by (apply (seated_same _ _ Hsp); exact Hp).
  repeat split_match; exact Hc.
Qed.

Lemma seated_handleUpgradeCost (r : t) (client : string) :
  seated (combatSystem r) -> seated (combatSystem (handleUpgradeCost r client)).
Proof.
  intro Hs. unfold handleUpgradeCost.
  destruct (negb _); [exact Hs|].
  destruct (Js.get client (BattleState.players (state r))) as [player|] eqn:Eg;
    [|exact Hs].
  destruct (negb _); [exact Hs|].
  exact (seated_putPlayer (combatSystem r) client player _ Hs Eg
           (sessionId_upgradeMax _)).
Qed.

Lemma seated_tick (r : t) (now : Z) :
  seated (combatSystem r) -> seated (combatSystem (tick r now)).
Proof.
  intros [Hn Hf]. unfold tick. cbv zeta.
  match goal with
  | |- seated (combatSystem (if ?c then _ else ?x)) =>
      assert (Hx : seated (combatSystem x));
      [|destruct c;
        [cbn [combatSystem emit];
         rewrite players_saveBattleResult, players_stopGameLoop|];
        exact Hx]
  end.
  fields. apply seated_update.
  unfold seated, playersOf. fields. split.
  - unfold Js.size in *. now rewrite length_map.
  - apply Forall_map. cbn [fst snd].
    revert Hf. apply Forall_impl. intros [k p] H. exact H.
Qed.

Lemma seated_step (r : t) (e : Event) :
  seated (combatSystem r) -> seated (combatSystem (step allies r e)).
Proof.
  intro Hs. destruct e; cbn [step].
  - now apply seated_onJoin.
  - now apply seated_onLeave.
  - now apply seated_handleReady.
  - now apply seated_handleSummon.
  - now apply seated_handleUpgradeCost.
  - apply (seated_same _ _ (players_handleSpeedVote _ _ _)). exact Hs.
  - destruct (countdownInterval r); [|exact Hs].
    apply (seated_same _ _ (players_countdownCallback _ _)). exact Hs.
  - destruct (gameLoop r); [now apply seated_tick | exact Hs].
Qed.

(** Invariant 4 of the room: at most two players, each under its own
    session id, in every room the events can build. *)
Lemma reachable_seated (r : t) : reachable allies r -> seated (combatSystem r).
Proof.
  intros (now & trace & ->). unfold run.
  assert (H : forall x, seated (combatSystem x) ->
                        seated (combatSystem (fold_left (step allies) trace x))).
  { induction trace as [|e trace IH]; intros x Hx; cbn [fold_left]; [exact Hx|].
    apply IH, seated_step, Hx. }
  apply H, seated_onCreate.
Qed.

(** So the failure branch of [handleSummon] is dead in the rooms the events
    build: a summon that gets as far as spending never has its spawn fail. *)
Lemma reachable_spawn_succeeds (r : t) (client unitId stamp : string)
    (player : PlayerSchema.t) (definition : UnitDefinition.t) :
  reachable allies r ->
  Js.get client (BattleState.players (state r)) = Some player ->
  Units.getUnitDefinition allies unitId = Some definition ->
  snd (ServerCombatSystem.spawnUnit allies
         (ServerCombatSystem.putPlayer (combatSystem r) client
            (fst (ServerCostSystem.spend player (UnitDefinition.cost definition))))
         (fst (ServerCostSystem.spend player (UnitDefinition.cost definition)))
         unitId stamp) <> None.
Proof.
  intros Hr Hg Hd. destruct (reachable_seated r Hr) as [Hn Hf].
  apply (spawn_succeeds_in_room allies (combatSystem r) client unitId stamp
           player _ definition Hn Hg); [|exact Hd].
  rewrite sessionId_spend. exact (Forall_get _ _ _ _ Hf Hg).
Qed.

End SeatsInRoom.

(** ** Units stay in the lane *)

Section LaneInvariant.
Import ServerCombatSystem Lane.

Ltac split_match :=
  match goal with
  | |- context [match ?x with _ => _ end] => destruct x
  end.

Lemma fit_moved (sl : Q) (u u' : ServerUnit.t) :
  ServerUnit.definition u' = ServerUnit.definition u ->
  80 <= ServerUnit.x u' <= sl - 30 ->
  fit sl u -> fit sl u'.
Proof.
  intros Hd Hx [_ Hs]. split; [exact Hx | now rewrite Hd].
Qed.

Lemma fit_kept (sl : Q) (u u' : ServerUnit.t) :
  ServerUnit.definition u' = ServerUnit.definition u ->
  ServerUnit.x u' = ServerUnit.x u ->
  fit sl u -> fit sl u'.
Proof.
  intros Hd Hx [[Hlo Hhi] Hs]. split; [split|]; now rewrite ?Hx, ?Hd.
Qed.

Lemma onLane_get (cs : t) (k : string) (u : ServerUnit.t) :
  onLane cs -> Js.get k (serverUnits cs) = Some u ->
  fit (BattleState.stageLength (state cs)) u.
Proof.
  intros [_ Hf] Hg.
  exact (Forall_get
           (fun kv => fit (BattleState.stageLength (state cs)) (snd kv))
           k u _ Hf Hg).
Qed.

Lemma onLane_put (cs : t) (k : string) (u : ServerUnit.t) :
  onLane cs -> fit (BattleState.stageLength (state cs)) u ->
  onLane (putUnit cs k u).
Proof.
  intros [Hsl Hf] Hu. split; [exact Hsl|].
  cbn. apply Forall_set; [exact Hu | exact Hf].
Qed.

Lemma onLane_same (cs cs' : t) :
  serverUnits cs' = serverUnits cs ->
  BattleState.stageLength (state cs') = BattleState.stageLength (state cs) ->
  onLane cs -> onLane cs'.
Proof. unfold onLane. now intros -> ->. Qed.

Lemma onLane_setUnitState (cs : t) (k : string) (st : UnitState) :
  onLane cs -> onLane (setUnitState cs k st).
Proof.
  intro H. unfold setUnitState.
  destruct (Js.get k (serverUnits cs)) as [u|] eqn:E; [|exact H].
  apply onLane_put; [exact H|].
  apply (fit_kept _ u); try reflexivity. exact (onLane_get _ _ _ H E).
Qed.

Lemma step_nonneg (speed d : Q) : 0 <= speed -> 0 <= d -> 0 <= speed * (d / 1000).
Proof.
  intros Hs Hd. apply Qmult_le_0_compat; [exact Hs|].
  unfold Qdiv. apply Qmult_le_0_compat; [exact Hd|].
  apply Qinv_le_0_compat. lra.
Qed.

Lemma onLane_handleWalk (cs : t) (k : string) (d : Q) :
  0 <= d -> onLane cs -> onLane (handleWalk cs k d).
Proof.
  intros Hd H. unfold handleWalk.
  destruct (Js.get k (serverUnits cs)) as [u|] eqn:E; [|exact H].
  destruct (match targetOf cs u with
            | Some (_, target) => isInRange u target | None => false end);
    [now apply onLane_setUnitState|].
  destruct (isInRangeOfEnemyCastle u); [now apply onLane_setUnitState|].
  destruct (isBlockedByEnemy cs u); [exact H|].
  cbv zeta. apply onLane_put; [exact H|].
  pose proof (onLane_get _ _ _ H E) as Hu.
  destruct H as [Hsl _]. destruct Hu as [[Hlo Hhi] [Hsp Hkb]].
  pose proof (step_nonneg _ _ Hsp Hd) as Hstep.
  remember (UnitDefinition.speed (ServerUnit.definition u) * (d / 1000)) as s eqn:Es.
  clear Es. fields.
  destruct (ServerUnit.side u); fields;
    (apply (fit_moved _ u);
     [reflexivity | | split; [split|split]; assumption]);
    fields.
  - destruct (min_spec (ServerUnit.x u + s * 1)
                       (BattleState.stageLength (state cs) - 30))
      as [[? ->]|[? ->]]; lra.
  - destruct (max_spec (ServerUnit.x u + s * -1) 80) as [[? ->]|[? ->]]; lra.
Qed.

Lemma onLane_applyDamage (cs : t) (k : string) (damage kb : Q)
    (side : option Side) :
  0 <= kb -> onLane cs -> onLane (applyDamage cs k damage kb side).
Proof.
  intros Hkb H. unfold applyDamage.
  destruct (Js.get k (serverUnits cs)) as [u|] eqn:E; [|exact H].
  pose proof (onLane_get _ _ _ H E) as Hu.
  fields.
  destruct (Js.leb (ServerUnit.hp u - damage) 0).
  - assert (Hk : onLane
             (setUnitState
                (putUnit cs k
                   (ServerUnit.set_hp 0
                      (ServerUnit.set_damageAccumulated
                         (ServerUnit.damageAccumulated u + damage)
                         (ServerUnit.set_hp (ServerUnit.hp u - damage) u)))) k DIE)).
    { apply onLane_setUnitState, onLane_put; [exact H|].
      now apply (fit_kept _ u). }
    repeat split_match; exact Hk.
  - destruct (negb _ && _)%bool.
    + assert (Hp : onLane
               (putUnit cs k
                  match ServerUnit.side u with
                  | player1 =>
                      ServerUnit.set_x (Js.max (ServerUnit.x u + kb * -1) 80)
                        (ServerUnit.set_x (ServerUnit.x u + kb * -1)
                           (ServerUnit.set_damageAccumulated 0
                              (ServerUnit.set_damageAccumulated
                                 (ServerUnit.damageAccumulated u + damage)
                                 (ServerUnit.set_hp (ServerUnit.hp u - damage) u))))
                  | player2 =>
                      ServerUnit.set_x
                        (Js.min (ServerUnit.x u + kb * 1)
                                (BattleState.stageLength (state cs) - 30))
                        (ServerUnit.set_x (ServerUnit.x u + kb * 1)
                           (ServerUnit.set_damageAccumulated 0
                              (ServerUnit.set_damageAccumulated
                                 (ServerUnit.damageAccumulated u + damage)
                                 (ServerUnit.set_hp (ServerUnit.hp u - damage) u))))
                  end)).
      { apply onLane_put; [exact H|].
        destruct H as [Hsl _]. destruct Hu as [[Hlo Hhi] Hs].
        destruct (ServerUnit.side u);
          (apply (fit_moved _ u); [reflexivity | | split; [split|]; assumption]);
          fields.
        - destruct (max_spec (ServerUnit.x u + kb * -1) 80) as [[? ->]|[? ->]]; lra.
        - destruct (min_spec (ServerUnit.x u + kb * 1)
                             (BattleState.stageLength (state cs) - 30))
            as [[? ->]|[? ->]]; lra. }
      destruct (ServerUnit.side u); fields;
        (destruct (negb (isDIE (ServerUnit.state u)));
         [apply onLane_setUnitState|]; exact Hp).
    + apply onLane_put; [exact H|]. now apply (fit_kept _ u).
Qed.

Lemma onLane_dealDamage (cs : t) (k : string) :
  onLane cs -> onLane (dealDamage cs k).
Proof.
  intro H. unfold dealDamage.
  destruct (Js.get k (serverUnits cs)) as [a|] eqn:E; [|exact H].
  destruct (onLane_get _ _ _ H E) as [_ [_ Hkb]].
  destruct (liveTarget cs a) as [[tid target]|].
  - now apply onLane_applyDamage.
  - repeat split_match; exact H.
Qed.

Lemma onLane_updateUnitState (cs : t) (k : string) (d : Q) :
  0 <= d -> onLane cs -> onLane (updateUnitState cs k d).
Proof.
  intros Hd H. unfold updateUnitState.
  destruct (Js.get k (serverUnits cs)) as [u|] eqn:E; [|exact H].
  pose proof (onLane_get _ _ _ H E) as Hu.
  destruct (ServerUnit.state u); try exact H.
  - unfold handleSpawn. rewrite E.
    destruct (Js.geb _ _); [now apply onLane_setUnitState | exact H].
  - now apply onLane_handleWalk.
  - unfold handleAttackWindup. rewrite E.
    destruct (Js.geb _ _); [|exact H].
    now apply onLane_setUnitState, onLane_dealDamage.
  - unfold handleAttackCooldown. rewrite E.
    destruct (Js.geb _ _); [|exact H].
    repeat split_match; try (now apply onLane_setUnitState).
    all: apply onLane_setUnitState, onLane_put; [exact H|];
      now apply (fit_kept _ u).
  - unfold handleHitstun. rewrite E.
    destruct (Js.geb _ _); [now apply onLane_setUnitState | exact H].
Qed.

Lemma onLane_syncSchema (cs : t) (k : string) :
  onLane cs -> onLane (syncSchema cs k).
Proof.
  intro H. unfold syncSchema. repeat split_match; exact H.
Qed.

Lemma onLane_updateUnit (d : Q) (cs : t) (k : string) :
  0 <= d -> onLane cs -> onLane (updateUnit d cs k).
Proof.
  intros Hd H. unfold updateUnit.
  destruct (Js.get k (serverUnits cs)) as [u|] eqn:E; [|exact H].
  cbv zeta. apply onLane_syncSchema.
  assert (Hp : onLane (putUnit cs k (ServerUnit.set_stateTimer (ServerUnit.stateTimer u + d) u))).
  { apply onLane_put; [exact H|].
    apply (fit_kept _ u); try reflexivity. exact (onLane_get _ _ _ H E). }
  destruct (negb _); [now apply onLane_updateUnitState | exact Hp].
Qed.

Lemma onLane_fold {A} (f : t -> A -> t) (l : list A) :
  (forall cs a, onLane cs -> onLane (f cs a)) ->
  forall cs, onLane cs -> onLane (fold_left f l cs).
Proof.
  intro Hf. induction l as [|a l IH]; intros cs H; cbn; [exact H|].
  apply IH, Hf, H.
Qed.

Lemma set_set_comm {V} (a b : string) (x y v w : V) (m : Js.map V) :
  a <> b -> Js.get a m = Some v -> Js.get b m = Some w ->
  Js.set a x (Js.set b y m) = Js.set b y (Js.set a x m).
Proof.
  intros Hne. induction m as [|[k u] m IH]; cbn [Js.get]; [discriminate|].
  cbn [Js.set].
  destruct (k =? a)%string eqn:Ea; destruct (k =? b)%string eqn:Eb.
  - apply String.eqb_eq in Ea, Eb. congruence.
  - intros _ _. cbn [Js.set]. rewrite Ea.
    apply String.eqb_eq in Ea. subst k.
    assert (Hab : (a =? b)%string = false) by now apply String.eqb_neq.
    now rewrite Hab.
  - intros _ _. cbn [Js.set]. rewrite Eb.
    apply String.eqb_eq in Eb. subst k.
    assert (Hba : (b =? a)%string = false)
      by (apply String.eqb_neq; congruence).
    now rewrite Hba.
  - intros Ha Hb. cbn [Js.set]. rewrite Ea, Eb. f_equal. now apply IH.
Qed.

Lemma clampUnitPosition_found (cs : t) (k : string) (u : ServerUnit.t) :
  Js.get k (serverUnits cs) = Some u ->
  clampUnitPosition cs k
  = putUnit cs k (clamped (BattleState.stageLength (state cs)) u).
Proof.
  intro E. unfold clampUnitPosition, clamped. rewrite E.
  destruct (ServerUnit.side u); reflexivity.
Qed.

Lemma fit_clamped (sl : Q) (u : ServerUnit.t) :
  1120 <= sl -> steady (ServerUnit.definition u) -> fit sl (clamped sl u).
Proof.
  intros Hsl Hs. unfold clamped, CASTLE_POSITIONS.
  destruct (ServerUnit.side u); (split; [|exact Hs]); unfold inLane; fields.
  - destruct (max_spec (ServerUnit.x u) (80 + 30)) as [[? ->]|[? ->]];
      match goal with |- context [Js.min ?a ?b] =>
        destruct (min_spec a b) as [[? ->]|[? ->]] end; lra.
  - destruct (max_spec (ServerUnit.x u) 80) as [[? ->]|[? ->]];
      match goal with |- context [Js.min ?a ?b] =>
        destruct (min_spec a b) as [[? ->]|[? ->]] end; lra.
Qed.

Lemma abs_self_not_positive (x : Q) : Js.gtb (Js.abs (x - x)) 0 = false.
Proof.
  apply gtb_le. unfold Js.abs.
  destruct (Js.ltb (x - x) 0); lra.
Qed.

Lemma onLane_collidePair (cs : t) (a b : string) :
  onLane cs -> onLane (collidePair cs a b).
Proof.
  intro H. unfold collidePair.
  destruct (Js.get a (serverUnits cs)) as [ua|] eqn:Ea; [|exact H].
  destruct (Js.get b (serverUnits cs)) as [ub|] eqn:Eb; [|exact H].
  destruct (negb _); [exact H|]. cbv zeta.
  destruct (Js.ltb _ _ && Js.gtb _ 0)%bool eqn:Epush; [|exact H].
  assert (Hab : a <> b).
  { intros ->. rewrite Ea in Eb. injection Eb as <-.
    rewrite abs_self_not_positive, andb_false_r in Epush. discriminate. }
  destruct (onLane_get _ _ _ H Ea) as [_ Hsa].
  destruct (onLane_get _ _ _ H Eb) as [_ Hsb].
  assert (Hfinal : forall xa xb : Q,
    onLane
      (clampUnitPosition
         (clampUnitPosition
            (putUnit (putUnit cs a (ServerUnit.set_x xa ua)) b (ServerUnit.set_x xb ub)) a)
         b)).
  { intros xa xb.
    assert (Hba : b <> a) by congruence.
    rewrite (clampUnitPosition_found _ a (ServerUnit.set_x xa ua))
      by (cbn; rewrite get_set_other by exact Hab; apply get_set_same).
    rewrite (clampUnitPosition_found _ b (ServerUnit.set_x xb ub))
      by (cbn; rewrite get_set_other by exact Hba; apply get_set_same).
    destruct H as [Hsl Hf]. split; [exact Hsl|]. cbn.
    rewrite (set_set_comm a b _ _ (ServerUnit.set_x xa ua) ub)
      by (try exact Hab; try apply get_set_same;
          rewrite get_set_other by exact Hba; exact Eb).
    rewrite !set_set_same.
    apply Forall_set; [now apply fit_clamped|].
    apply Forall_set; [now apply fit_clamped | exact Hf]. }
  destruct (Js.ltb (ServerUnit.x ua) (ServerUnit.x ub)); apply Hfinal.
Qed.

Lemma onLane_collideWith (a : string) (rest : list string) :
  forall cs, onLane cs -> onLane (collideWith cs a rest).
Proof.
  induction rest as [|b rest IH]; intros cs H; cbn; [exact H|].
  now apply IH, onLane_collidePair.
Qed.

Lemma onLane_collideAll (units : list string) :
  forall cs, onLane cs -> onLane (collideAll cs units).
Proof.
  induction units as [|a rest IH]; intros cs H; cbn; [exact H|].
  now apply IH, onLane_collideWith.
Qed.

Lemma onLane_assignTarget (cs : t) (k : string) :
  onLane cs -> onLane (assignTarget cs k).
Proof.
  intro H. unfold assignTarget.
  destruct (Js.get k (serverUnits cs)) as [u|] eqn:E; [|exact H].
  repeat split_match; try exact H.
  all: apply onLane_put; [exact H|];
    apply (fit_kept _ u); try reflexivity; exact (onLane_get _ _ _ H E).
Qed.

Lemma onLane_cleanupDeadUnits (cs : t) :
  onLane cs -> onLane (cleanupDeadUnits cs).
Proof.
  unfold cleanupDeadUnits. apply onLane_fold.
  intros cs' k [Hsl Hf]. split; [exact Hsl|]. cbn.
  now apply Forall_delete.
Qed.

Lemma onLane_checkWinCondition (cs : t) :
  onLane cs -> onLane (checkWinCondition cs).
Proof.
  intro H. unfold checkWinCondition. repeat split_match; exact H.
Qed.

(** Invariant 3, for the position: a tick with a delta that is not
    negative keeps every unit inside the lane [80 <= x <= stageLength - 30],
    provided the stage is at least 1120 long and no unit on it has a
    negative speed or knockback. *)
Lemma update_keeps_units_on_lane (cs : t) (d : Q) :
  0 <= d -> onLane cs -> onLane (update cs d).
Proof.
  intros Hd H. unfold update. cbv zeta.
  apply onLane_checkWinCondition, onLane_cleanupDeadUnits.
  unfold assignTargets. apply onLane_fold; [apply onLane_assignTarget|].
  unfold resolveUnitCollisions. apply onLane_collideAll.
  apply onLane_fold; [|exact H]. intros. now apply onLane_updateUnit.
Qed.

Lemma unitsMap_In (allies : list UnitDefinition.t) (unitId : string) (d : UnitDefinition.t) :
  Units.getUnitDefinition allies unitId = Some d -> In d allies.
Proof.
  unfold Units.getUnitDefinition, Units.unitsMap.
  assert (H : forall (l : list UnitDefinition.t) (m : Js.map UnitDefinition.t),
    Js.get unitId (fold_left (fun m unit => Js.set (UnitDefinition.id unit) unit m) l m)
    = Some d ->
    In d l \/ Js.get unitId m = Some d).
  { induction l as [|u l IH]; intros m Hg; cbn in *; [now right|].
    destruct (IH _ Hg) as [Hin|Hm]; [now left; right|].
    destruct (String.eqb_spec (UnitDefinition.id u) unitId) as [Hid|Hne].
    - rewrite Hid, get_set_same in Hm. injection Hm as ->. now left; left.
    - rewrite get_set_other in Hm by congruence. now right. }
  intro Hg. destruct (H _ _ Hg) as [Hin|Hm]; [exact Hin | discriminate].
Qed.

(** A spawn puts the unit inside the lane. *)
Lemma spawnUnit_keeps_units_on_lane (allies : list UnitDefinition.t) (cs : t)
    (p : PlayerSchema.t) (unitId stamp : string) :
  Forall steady allies ->
  onLane cs -> onLane (fst (spawnUnit allies cs p unitId stamp)).
Proof.
  intros Hall H. unfold spawnUnit.
  destruct (Units.getUnitDefinition allies unitId) as [d|] eqn:Ed; [|exact H].
  destruct (getPlayerSide cs (PlayerSchema.sessionId p)) as [side|]; [|exact H].
  cbv zeta. cbn [fst].
  assert (Hs : steady d).
  { rewrite Forall_forall in Hall. apply Hall. exact (unitsMap_In _ _ _ Ed). }
  destruct H as [Hsl Hf]. split; [exact Hsl|]. cbn.
  apply Forall_set; [|exact Hf].
  split; [|exact Hs]. unfold inLane, CASTLE_POSITIONS. cbn [snd ServerUnit.x].
  destruct side; lra.
Qed.

End LaneInvariant.

(** ** The upgrade table and the regeneration *)

Section UpgradeTable.
Import ServerCostSystem CostFacts.

Lemma index_negative {A} (arr : list A) (i : Z) :
  (i < 0)%Z -> Js.index arr i = None.
Proof. intro H. unfold Js.index. apply Z.ltb_lt in H. now rewrite H. Qed.

Lemma level_cases (l : Z) :
  (l < 1)%Z \/ (8 <= l)%Z \/
  l = 1%Z \/ l = 2%Z \/ l = 3%Z \/ l = 4%Z \/ l = 5%Z \/ l = 6%Z \/ l = 7%Z.
Proof. lia. Qed.

Lemma update_regenRateAt (p : PlayerSchema.t) (d : Q) :
  update p d =
  PlayerSchema.set_cost
    (Js.min (PlayerSchema.cost p + regenRateAt (PlayerSchema.costLevel p) * (d / 1000))
            (PlayerSchema.maxCost p)) p.
Proof. reflexivity. Qed.

End UpgradeTable.

(** X1: [upgradeMax] succeeds exactly when [canUpgrade] answers yes, and a
    refused upgrade leaves the player as it was. *)
Theorem upgradeMax_agrees_with_canUpgrade (p : PlayerSchema.t) :
  snd (ServerCostSystem.upgradeMax p) = ServerCostSystem.canUpgrade p /\
  (ServerCostSystem.canUpgrade p = false ->
   fst (ServerCostSystem.upgradeMax p) = p).
Proof.
  unfold ServerCostSystem.upgradeMax, ServerCostSystem.canUpgrade.
  destruct (_ >=? _)%Z; [split; reflexivity|].
  destruct (Js.index ServerCostSystem.upgradeCosts _) as [c|]; [|split; reflexivity].
  unfold Js.ltb, Js.geb.
  destruct (Qle_bool c (PlayerSchema.cost p)); cbn [negb]; split;
    try reflexivity; discriminate.
Qed.

(** X2: [getUpgradeCost] answers [null] exactly outside the levels 1 to 7,
    and [canUpgrade] holds exactly when it answers a cost that the player
    can pay. *)
Theorem getUpgradeCost_and_canUpgrade (p : PlayerSchema.t) :
  (ServerCostSystem.getUpgradeCost p = None <->
   (PlayerSchema.costLevel p < 1 \/ 8 <= PlayerSchema.costLevel p)%Z) /\
  (ServerCostSystem.canUpgrade p = true <->
   exists c, ServerCostSystem.getUpgradeCost p = Some c /\ c <= PlayerSchema.cost p).
Proof.
  unfold ServerCostSystem.getUpgradeCost, ServerCostSystem.canUpgrade.
  destruct (level_cases (PlayerSchema.costLevel p))
    as [Hlo|[Hhi|Hmid]].
  - assert (Hg1 : (PlayerSchema.costLevel p - 1 >=?
                   Z.of_nat (List.length ServerCostSystem.upgradeCosts))%Z = false)
      by (cbn; rewrite Z.geb_leb; apply Z.leb_gt; lia).
    assert (Hg2 : (PlayerSchema.costLevel p - 1 >=?
                   Z.of_nat (List.length ServerCostSystem.maxLevels) - 1)%Z = false)
      by (cbn; rewrite Z.geb_leb; apply Z.leb_gt; lia).
    rewrite Hg1, Hg2, index_negative by lia. split.
    + split; [intros _; now left | reflexivity].
    + split; [discriminate | intros (c & Hc & _); discriminate].
  - assert (Hg1 : (PlayerSchema.costLevel p - 1 >=?
                   Z.of_nat (List.length ServerCostSystem.upgradeCosts))%Z = true)
      by (cbn; rewrite Z.geb_leb; apply Z.leb_le; lia).
    assert (Hg2 : (PlayerSchema.costLevel p - 1 >=?
                   Z.of_nat (List.length ServerCostSystem.maxLevels) - 1)%Z = true)
      by (cbn; rewrite Z.geb_leb; apply Z.leb_le; lia).
    rewrite Hg1, Hg2. split.
    + split; [intros _; now right | reflexivity].
    + split; [discriminate | intros (c & Hc & _); discriminate].
  - assert (Hin : (1 <= PlayerSchema.costLevel p <= 7)%Z) by lia.
    destruct Hmid as [E|[E|[E|[E|[E|[E|E]]]]]]; rewrite E in *;
      repeat match goal with
             | |- context [Js.index ?a ?i] =>
                 let v := eval vm_compute in (Js.index a i) in
                 change (Js.index a i) with v
             end;
      cbn -[Js.geb Qle];
      (split;
       [split; [discriminate | intros [?|?]; lia]
       |rewrite geb_ge; split;
        [intro H; eexists; split; [reflexivity | exact H]
        |intros (c & Hc & Hle); injection Hc as <-; exact Hle]]).
Qed.

(** X3: [update] touches nothing but the cost.  With a delta that is not
    negative it never lowers a cost that is within the cap and never leaves
    more than the cap; a cost at the cap stays there, a delta of zero leaves
    a cost within the cap as it is, and a longer delta never leaves less
    cost than a shorter one. *)
Theorem update_regenerates_monotonically (p : PlayerSchema.t) (d1 d2 : Q) :
  0 <= d1 -> d1 <= d2 ->
  let p1 := ServerCostSystem.update p d1 in
  let p2 := ServerCostSystem.update p d2 in
  PlayerSchema.set_cost 0 p1 = PlayerSchema.set_cost 0 p /\
  PlayerSchema.cost p1 <= PlayerSchema.cost p2 /\
  PlayerSchema.cost p2 <= PlayerSchema.maxCost p /\
  (PlayerSchema.cost p <= PlayerSchema.maxCost p ->
   PlayerSchema.cost p <= PlayerSchema.cost p1) /\
  (PlayerSchema.cost p == PlayerSchema.maxCost p ->
   PlayerSchema.cost p2 == PlayerSchema.maxCost p) /\
  (d1 == 0 -> PlayerSchema.cost p <= PlayerSchema.maxCost p ->
   PlayerSchema.cost p1 == PlayerSchema.cost p).
Proof.
  intros Hd1 Hd12 p1 p2. subst p1 p2.
  rewrite !update_regenRateAt. fields.
  pose proof (regenRate_nonneg (PlayerSchema.costLevel p)) as Hrate.
  pose proof (regen_nonneg (PlayerSchema.costLevel p) d1 Hd1) as Hr1.
  assert (Hr12 : CostFacts.regenRateAt (PlayerSchema.costLevel p) * (d1 / 1000)
                 <= CostFacts.regenRateAt (PlayerSchema.costLevel p) * (d2 / 1000)).
  { rewrite !(Qmult_comm (CostFacts.regenRateAt (PlayerSchema.costLevel p))).
    apply Qmult_le_compat_r; [|exact Hrate].
    unfold Qdiv. apply Qmult_le_compat_r; [exact Hd12|].
    apply Qinv_le_0_compat. lra. }
  assert (Hzero : d1 == 0 ->
                  CostFacts.regenRateAt (PlayerSchema.costLevel p) * (d1 / 1000) == 0).
  { intro H0. rewrite H0. field. }
  remember (CostFacts.regenRateAt (PlayerSchema.costLevel p) * (d1 / 1000)) as a eqn:Ea.
  remember (CostFacts.regenRateAt (PlayerSchema.costLevel p) * (d2 / 1000)) as b eqn:Eb.
  clear Ea Eb.
  destruct (min_spec (PlayerSchema.cost p + a) (PlayerSchema.maxCost p)) as [[H1 ->]|[H1 ->]];
    destruct (min_spec (PlayerSchema.cost p + b) (PlayerSchema.maxCost p)) as [[H2 ->]|[H2 ->]];
    (split; [reflexivity|]); (split; [lra|]); (split; [lra|]);
    (split; [intro; lra|]);
    (split; [intro; lra | intros H0 Hc; specialize (Hzero H0); lra]).
Qed.

Lemma update_regenerates_monotonically_witness :
  PlayerSchema.cost (ServerCostSystem.update Example.alice 50)
  <= PlayerSchema.cost (ServerCostSystem.update Example.alice 16000) /\
  PlayerSchema.cost (ServerCostSystem.update Example.alice 16000) <= 1000 /\
  200 <= PlayerSchema.cost (ServerCostSystem.update Example.alice 50).
Proof.
  destruct (update_regenerates_monotonically Example.alice 50 16000)
    as (_ & Hmono & Hcap & Hup & _); [discriminate | discriminate |].
  split; [exact Hmono|]. split; [exact Hcap|]. apply Hup. discriminate.
Defined.

(** X4: a successful upgrade of a player that satisfies the cost invariant
    strictly raises both the cap and the regeneration rate. *)
Theorem upgradeMax_raises_cap_and_rate (p : PlayerSchema.t) :
  ServerCostSystem.costInvariant p ->
  snd (ServerCostSystem.upgradeMax p) = true ->
  let p' := fst (ServerCostSystem.upgradeMax p) in
  PlayerSchema.maxCost p < PlayerSchema.maxCost p' /\
  CostFacts.regenRateAt (PlayerSchema.costLevel p)
  < CostFacts.regenRateAt (PlayerSchema.costLevel p').
Proof.
  intros Hinv Hs p'. subst p'.
  destruct (upgradeMax_success _ Hinv Hs) as (c & m & Hu & Hm & _ & ->).
  destruct Hinv as (_ & _ & Hl & Hmax).
  fields.
  destruct (costLevel_cases _ Hl) as [E|[E|[E|[E|[E|[E|[E|E]]]]]]];
    rewrite E in *; cbn in Hu, Hm, Hmax; try discriminate;
    injection Hm as <-; injection Hmax as <-;
    split; vm_compute; reflexivity.
Qed.

Lemma upgradeMax_raises_cap_and_rate_witness :
  let p := PlayerSchema.set_cost 600 PlayerSchema.fresh in
  PlayerSchema.maxCost p < PlayerSchema.maxCost (fst (ServerCostSystem.upgradeMax p)).
Proof.
  refine (proj1 (upgradeMax_raises_cap_and_rate
                   (PlayerSchema.set_cost 600 PlayerSchema.fresh) _ _)).
  - unfold ServerCostSystem.costInvariant; cbn. repeat split; try lra; try lia.
  - reflexivity.
Defined.

(** ** The catalog *)

Section CatalogLookup.
Variable allies : list UnitDefinition.t.

Lemma find_app {A} (f : A -> bool) (l1 l2 : list A) :
  find f (l1 ++ l2) = match find f l1 with Some x => Some x | None => find f l2 end.
Proof.
  induction l1 as [|a l1 IH]; cbn; [reflexivity|].
  destruct (f a); [reflexivity | exact IH].
Qed.

Lemma get_set {V} (k k' : string) (v : V) (m : Js.map V) :
  Js.get k (Js.set k' v m) = if (k' =? k)%string then Some v else Js.get k m.
Proof.
  destruct (String.eqb_spec k' k) as [->|Hne].
  - apply get_set_same.
  - apply get_set_other. congruence.
Qed.

(** The lookup in the map that the module builds from the catalog finds
    the last entry of the catalog with the id. *)
Lemma unitsMap_get (unitId : string) :
  Units.getUnitDefinition allies unitId
  = find (fun d => (UnitDefinition.id d =? unitId)%string) (rev allies).
Proof.
  unfold Units.getUnitDefinition, Units.unitsMap.
  assert (H : forall (l : list UnitDefinition.t) (m : Js.map UnitDefinition.t),
    Js.get unitId (fold_left (fun m unit => Js.set (UnitDefinition.id unit) unit m) l m)
    = match find (fun d => (UnitDefinition.id d =? unitId)%string) (rev l) with
      | Some d => Some d
      | None => Js.get unitId m
      end).
  { induction l as [|u l IH]; intro m; cbn [fold_left rev find]; [reflexivity|].
    rewrite IH, find_app. cbn [find].
    destruct (find _ (rev l)); [reflexivity|].
    rewrite get_set. now destruct (UnitDefinition.id u =? unitId)%string. }
  rewrite H. now destruct (find _ (rev allies)).
Qed.

End CatalogLookup.

(** X5: [getUnitDefinition] answers with an entry of the catalog that
    carries the id asked for, and with the last such entry when the catalog
    repeats an id; [isValidUnit] holds exactly for the ids that some entry
    of the catalog carries, which are the ids [getUnitDefinition] finds. *)
Theorem getUnitDefinition_finds_catalog_entry
    (allies : list UnitDefinition.t) (unitId : string) :
  (forall d, Units.getUnitDefinition allies unitId = Some d ->
     In d allies /\ UnitDefinition.id d = unitId) /\
  (forall before d after,
     allies = (before ++ d :: after)%list ->
     UnitDefinition.id d = unitId ->
     (forall d', In d' after -> UnitDefinition.id d' <> unitId) ->
     Units.getUnitDefinition allies unitId = Some d) /\
  (Units.isValidUnit allies unitId = true <->
   exists d, In d allies /\ UnitDefinition.id d = unitId) /\
  (Units.isValidUnit allies unitId = true <->
   exists d, Units.getUnitDefinition allies unitId = Some d).
Proof.
  assert (Hfound : forall d, Units.getUnitDefinition allies unitId = Some d ->
            In d allies /\ UnitDefinition.id d = unitId).
  { intros d Hd. rewrite unitsMap_get in Hd. apply find_some in Hd.
    destruct Hd as [Hin Hid]. split; [now apply in_rev | now apply String.eqb_eq]. }
  assert (Hvalid : Units.isValidUnit allies unitId = true <->
            exists d, Units.getUnitDefinition allies unitId = Some d).
  { unfold Units.isValidUnit, Js.has.
    change (Js.get unitId (Units.unitsMap allies))
      with (Units.getUnitDefinition allies unitId).
    destruct (Units.getUnitDefinition allies unitId) as [d|].
    - split; [intros _; now exists d | reflexivity].
    - split; [discriminate | intros [d Hd]; discriminate]. }
  split; [exact Hfound|]. split; [|split; [|exact Hvalid]].
  - intros before d after -> Hid Hafter. rewrite unitsMap_get.
    rewrite rev_app_distr. cbn [rev]. rewrite !find_app. cbn [find].
    destruct (find _ (rev after)) as [d'|] eqn:Ef.
    + apply find_some in Ef. destruct Ef as [Hin Hid'].
      apply in_rev in Hin. apply String.eqb_eq in Hid'.
      now destruct (Hafter d' Hin).
    + apply String.eqb_eq in Hid. now rewrite Hid.
  - rewrite Hvalid. split.
    + intros [d Hd]. exists d. now apply Hfound.
    + intros [d [Hin Hid]].
      destruct (Units.getUnitDefinition allies unitId) as [d'|] eqn:Eg;
        [now exists d'|].
      rewrite unitsMap_get in Eg.
      apply in_rev in Hin. apply (find_none _ _ Eg d) in Hin.
      apply String.eqb_eq in Hid. congruence.
Qed.

(** ** Distances and targets *)

(** X6: for two units at different positions the edge distance does not
    depend on the order of the two units: either order evaluates the same
    expression, the left edge of the unit on the right less the right edge
    of the unit on the left. *)
Theorem getEdgeDistance_symmetric (unitA unitB : ServerUnit.t) :
  ServerUnit.x unitA < ServerUnit.x unitB ->
  let gap :=
    (ServerUnit.x unitB - ServerUnit.width unitB / 2)
    - (ServerUnit.x unitA + ServerUnit.width unitA / 2) in
  ServerCombatSystem.getEdgeDistance unitA unitB = gap /\
  ServerCombatSystem.getEdgeDistance unitB unitA = gap.
Proof.
  intros Hlt gap. subst gap. unfold ServerCombatSystem.getEdgeDistance. cbv zeta.
  assert (E1 : Js.ltb (ServerUnit.x unitA) (ServerUnit.x unitB) = true)
    by now apply ltb_lt.
  assert (E2 : Js.ltb (ServerUnit.x unitB) (ServerUnit.x unitA) = false)
    by (apply ltb_ge; lra).
  rewrite E1, E2. split; reflexivity.
Qed.

Lemma getEdgeDistance_symmetric_witness :
  ServerCombatSystem.getEdgeDistance ExampleTick.striker ExampleTick.victim
  = ServerCombatSystem.getEdgeDistance ExampleTick.victim ExampleTick.striker.
Proof.
  destruct (getEdgeDistance_symmetric ExampleTick.striker ExampleTick.victim)
    as [H1 H2]; [reflexivity|].
  now rewrite H1, H2.
Defined.

Section FindTarget.
Import ServerCombatSystem Targeting.

Lemma findTargetStep_skip (a : ServerUnit.t) (acc : Closest) (u : ServerUnit.t) :
  candidate a u = false -> findTargetStep a acc u = acc.
Proof.
  unfold candidate, findTargetStep, Js.gtb, Js.leb.
  destruct (Side_eqb _ _); cbn [negb andb orb]; [|reflexivity].
  destruct (isDIE _); cbn [negb andb orb]; [reflexivity|].
  now intros ->.
Qed.

Lemma findTargetStep_take (a : ServerUnit.t) (acc : Closest) (u : ServerUnit.t) :
  candidate a u = true ->
  findTargetStep a acc u =
  let d := getEdgeDistance a u in
  let acc :=
    if inFront a u && belowMin d (minDistanceFront acc)
    then mkClosest (Some u) (Some d) (closestAny acc) (minDistanceAny acc)
    else acc in
  if belowMin d (minDistanceAny acc)
  then mkClosest (closestInFront acc) (minDistanceFront acc) (Some u) (Some d)
  else acc.
Proof.
  unfold candidate, findTargetStep, inFront, Js.gtb, Js.leb.
  destruct (Side_eqb _ _); cbn [negb andb orb]; [|discriminate].
  destruct (isDIE _); cbn [negb andb orb]; [discriminate|].
  intros ->. cbn [negb]. reflexivity.
Qed.

Lemma closestOf_step (a : ServerUnit.t) (seen : list ServerUnit.t) (acc : Closest)
    (u : ServerUnit.t) :
  closestOf a seen acc -> closestOf a (seen ++ [u]) (findTargetStep a acc u).
Proof.
  intros [Hf Ha].
  assert (Hin : forall v, In v (seen ++ [u]) -> In v seen \/ v = u).
  { intros v Hv. apply in_app_or in Hv. destruct Hv as [Hv|[Hv|[]]]; auto. }
  assert (Hold : forall v, In v seen -> In v (seen ++ [u]))
    by (intros; apply in_or_app; now left).
  assert (Hnew : In u (seen ++ [u])) by (apply in_or_app; right; now left).
  destruct (candidate a u) eqn:Ec.
  2:{ rewrite (findTargetStep_skip _ _ _ Ec). split.
      - destruct (closestInFront acc) as [w|].
        + destruct Hf as (H1 & H2 & H3 & H4 & H5). repeat split; auto.
          intros v Hv Hcv Hfv. destruct (Hin v Hv) as [Hs| ->]; [auto | congruence].
        + destruct Hf as (H1 & H2). split; [exact H1|].
          intros v Hv Hcv. destruct (Hin v Hv) as [Hs| ->]; [auto | congruence].
      - destruct (closestAny acc) as [w|].
        + destruct Ha as (H1 & H2 & H3 & H4). repeat split; auto.
          intros v Hv Hcv. destruct (Hin v Hv) as [Hs| ->]; [auto | congruence].
        + destruct Ha as (H1 & H2). split; [exact H1|].
          intros v Hv. destruct (Hin v Hv) as [Hs| ->]; [auto | exact Ec]. }
  rewrite (findTargetStep_take _ _ _ Ec). cbv zeta.
  assert (Hf' :
    let acc1 :=
      if inFront a u && belowMin (getEdgeDistance a u) (minDistanceFront acc)
      then mkClosest (Some u) (Some (getEdgeDistance a u))
                     (closestAny acc) (minDistanceAny acc)
      else acc in
    match closestInFront acc1 with
    | Some w =>
        In w (seen ++ [u]) /\ candidate a w = true /\ inFront a w = true /\
        minDistanceFront acc1 = Some (getEdgeDistance a w) /\
        forall v, In v (seen ++ [u]) -> candidate a v = true ->
                  inFront a v = true ->
                  getEdgeDistance a w <= getEdgeDistance a v
    | None =>
        minDistanceFront acc1 = None /\
        forall v, In v (seen ++ [u]) -> candidate a v = true ->
                  inFront a v = false
    end /\
    closestAny acc1 = closestAny acc /\ minDistanceAny acc1 = minDistanceAny acc).
  { cbv zeta. destruct (inFront a u) eqn:Efr; cbn [andb].
    - destruct (closestInFront acc) as [w|] eqn:Ew.
      + destruct Hf as (H1 & H2 & H3 & H4 & H5). rewrite H4. cbn [belowMin].
        destruct (Js.ltb (getEdgeDistance a u) (getEdgeDistance a w)) eqn:El.
        * apply ltb_lt in El. cbn. repeat split; auto.
          intros v Hv Hcv Hfv. destruct (Hin v Hv) as [Hs| ->]; [|lra].
          specialize (H5 v Hs Hcv Hfv). lra.
        * apply ltb_ge in El. rewrite Ew. repeat split; auto.
          intros v Hv Hcv Hfv. destruct (Hin v Hv) as [Hs| ->]; [auto | exact El].
      + destruct Hf as (H1 & H2). rewrite H1. cbn. repeat split; auto.
        intros v Hv Hcv Hfv. destruct (Hin v Hv) as [Hs| ->]; [|lra].
        rewrite (H2 v Hs Hcv) in Hfv. discriminate.
    - destruct (closestInFront acc) as [w|] eqn:Ew.
      + destruct Hf as (H1 & H2 & H3 & H4 & H5). repeat split; auto.
        intros v Hv Hcv Hfv. destruct (Hin v Hv) as [Hs| ->]; [auto | congruence].
      + destruct Hf as (H1 & H2). repeat split; auto.
        intros v Hv Hcv. destruct (Hin v Hv) as [Hs| ->]; [auto | exact Efr]. }
  cbv zeta in Hf'.
  remember (if inFront a u && belowMin (getEdgeDistance a u) (minDistanceFront acc)
            then mkClosest (Some u) (Some (getEdgeDistance a u))
                           (closestAny acc) (minDistanceAny acc)
            else acc) as acc1 eqn:E1.
  clear E1. destruct Hf' as (Hf1 & Hca & Hma).
  rewrite Hma.
  destruct (closestAny acc) as [w|] eqn:Ew.
  - destruct Ha as (H1 & H2 & H3 & H4). rewrite H3. cbn [belowMin].
    destruct (Js.ltb (getEdgeDistance a u) (getEdgeDistance a w)) eqn:El.
    + apply ltb_lt in El. split; [exact Hf1|]. cbn. repeat split; auto.
      intros v Hv Hcv. destruct (Hin v Hv) as [Hs| ->]; [|lra].
      specialize (H4 v Hs Hcv). lra.
    + apply ltb_ge in El. split; [exact Hf1|]. rewrite Hca. repeat split; auto.
      * congruence.
      * intros v Hv Hcv. destruct (Hin v Hv) as [Hs| ->]; [auto | exact El].
  - destruct Ha as (H1 & H2). rewrite H1. cbn [belowMin].
    split; [exact Hf1|]. cbn. repeat split; auto.
    intros v Hv Hcv. destruct (Hin v Hv) as [Hs| ->]; [|lra].
    rewrite (H2 v Hs) in Hcv. discriminate.
Qed.

Lemma closestOf_fold (a : ServerUnit.t) (l : list ServerUnit.t) :
  forall (seen : list ServerUnit.t) (acc : Closest),
    closestOf a seen acc ->
    closestOf a (seen ++ l) (fold_left (findTargetStep a) l acc).
Proof.
  induction l as [|u l IH]; intros seen acc H; cbn [fold_left].
  - now rewrite app_nil_r.
  - replace (seen ++ u :: l)%list with ((seen ++ [u]) ++ l)%list
      by (rewrite <- app_assoc; reflexivity).
    apply IH, closestOf_step, H.
Qed.

Lemma closestOf_findTarget (this : t) (a : ServerUnit.t) :
  closestOf a (Js.values (serverUnits this))
    (fold_left (findTargetStep a) (Js.values (serverUnits this))
       (mkClosest None None None None)).
Proof.
  apply (closestOf_fold a _ []). split; cbn; split; auto; intros v [].
Qed.

Lemma findTarget_some (this : t) (a : ServerUnit.t) (instanceId : string) :
  findTarget this a = Some instanceId ->
  exists u, In u (Js.values (serverUnits this)) /\
            ServerUnit.instanceId u = instanceId /\
            candidate a u = true.
Proof.
  pose proof (closestOf_findTarget this a) as [Hf Ha].
  unfold findTarget. cbv zeta.
  destruct (closestInFront _) as [w|].
  - destruct Hf as (H1 & H2 & _). intro Hi. injection Hi as <-. now exists w.
  - destruct (closestAny _) as [w|]; [|discriminate].
    destruct Ha as (H1 & H2 & _). intro Hi. injection Hi as <-. now exists w.
Qed.

End FindTarget.

(** X7: [findTarget] answers [null] exactly when no unit of the map is a
    candidate (an enemy that is alive and within the attack range plus 20),
    and otherwise answers with the instance id of a candidate. *)
Theorem findTarget_finds_a_candidate
    (this : ServerCombatSystem.t) (attacker : ServerUnit.t) :
  (ServerCombatSystem.findTarget this attacker = None <->
   forall v, In v (Js.values (ServerCombatSystem.serverUnits this)) ->
             Targeting.candidate attacker v = false) /\
  (forall instanceId,
     ServerCombatSystem.findTarget this attacker = Some instanceId ->
     exists u, In u (Js.values (ServerCombatSystem.serverUnits this)) /\
               ServerUnit.instanceId u = instanceId /\
               Targeting.candidate attacker u = true).
Proof.
  pose proof (closestOf_findTarget this attacker) as [Hf Ha].
  unfold ServerCombatSystem.findTarget. cbv zeta.
  destruct (ServerCombatSystem.closestInFront _) as [w|].
  - destruct Hf as (H1 & H2 & _). split.
    + split; [discriminate|]. intro Hn. rewrite (Hn w H1) in H2. discriminate.
    + intros i Hi. injection Hi as <-. now exists w.
  - destruct (ServerCombatSystem.closestAny _) as [w|].
    + destruct Ha as (H1 & H2 & _). split.
      * split; [discriminate|]. intro Hn. rewrite (Hn w H1) in H2. discriminate.
      * intros i Hi. injection Hi as <-. now exists w.
    + destruct Ha as (_ & H2). split.
      * split; [intros _; exact H2 | reflexivity].
      * intros i Hi. discriminate.
Qed.

(** X8: the unit [findTarget] picks is the closest candidate among those
    in front of the attacker, when there is a candidate in front; when
    there is none, it is the closest candidate of all. *)
Theorem findTarget_prefers_front_then_closest
    (this : ServerCombatSystem.t) (attacker : ServerUnit.t) (instanceId : string) :
  ServerCombatSystem.findTarget this attacker = Some instanceId ->
  exists u,
    In u (Js.values (ServerCombatSystem.serverUnits this)) /\
    ServerUnit.instanceId u = instanceId /\
    Targeting.candidate attacker u = true /\
    (forall v, In v (Js.values (ServerCombatSystem.serverUnits this)) ->
       Targeting.candidate attacker v = true ->
       Targeting.inFront attacker v = true ->
       Targeting.inFront attacker u = true /\
       ServerCombatSystem.getEdgeDistance attacker u
       <= ServerCombatSystem.getEdgeDistance attacker v) /\
    (Targeting.inFront attacker u = false ->
     forall v, In v (Js.values (ServerCombatSystem.serverUnits this)) ->
       Targeting.candidate attacker v = true ->
       ServerCombatSystem.getEdgeDistance attacker u
       <= ServerCombatSystem.getEdgeDistance attacker v).
Proof.
  pose proof (closestOf_findTarget this attacker) as [Hf Ha].
  unfold ServerCombatSystem.findTarget. cbv zeta.
  destruct (ServerCombatSystem.closestInFront _) as [w|].
  - destruct Hf as (H1 & H2 & H3 & _ & H5).
    intro Hi. injection Hi as <-. exists w. repeat split; auto.
    intro Hn. congruence.
  - destruct Hf as (_ & Hnone).
    destruct (ServerCombatSystem.closestAny _) as [w|]; [|discriminate].
    destruct Ha as (H1 & H2 & _ & H4).
    intro Hi. injection Hi as <-. exists w. repeat split; auto.
    rewrite (Hnone v H H0) in H3. discriminate.
Qed.

Lemma findTarget_prefers_front_then_closest_witness :
  exists u,
    In u (Js.values (ServerCombatSystem.serverUnits ExampleTick.beforeKill)) /\
    ServerUnit.instanceId u = "player2_sword_1" /\
    Targeting.candidate ExampleTick.walker u = true.
Proof.
  destruct (findTarget_prefers_front_then_closest ExampleTick.beforeKill
              ExampleTick.walker "player2_sword_1" ltac:(vm_compute; reflexivity))
    as (u & H1 & H2 & H3 & _).
  exists u. auto.
Defined.

(** ** A tick as a run of writes *)

Section TickWrites.
Import ServerCombatSystem Steps.

Lemma changes_trans (cs cs' cs'' : t) :
  changes cs cs' -> changes cs' cs'' -> changes cs cs''.
Proof.
  intros H1 H2. induction H2 as [|x y _ IH Hc]; [exact H1|].
  exact (changes_step _ _ _ IH Hc).
Qed.

Lemma changes_one (cs cs' : t) : change cs cs' -> changes cs cs'.
Proof. intro H. exact (changes_step _ _ _ (changes_refl cs) H). Qed.

Lemma sameIdentity_refl (u : ServerUnit.t) : sameIdentity u u.
Proof. unfold sameIdentity. auto 7. Qed.

Lemma get_In_values {V} (k : string) (v : V) (m : Js.map V) :
  Js.get k m = Some v -> In v (Js.values m).
Proof.
  induction m as [|[k' v'] m IH]; cbn; [discriminate|].
  destruct (k' =? k)%string; [intro H; injection H as ->; now left | auto].
Qed.

(** A write that keeps identity, hit points and accumulated damage, and
    sets no unit to [DIE]. *)
Ltac moved_now :=
  unfold moved, sameIdentity; fields;
  repeat split; try reflexivity; try discriminate; try (intro; assumption).

Lemma changes_setUnitState (cs : t) (k : string) (st : UnitState) :
  st <> DIE -> changes cs (setUnitState cs k st).
Proof.
  intro Hst. unfold setUnitState.
  destruct (Js.get k (serverUnits cs)) as [u|] eqn:E; [|apply changes_refl].
  apply changes_one, (change_moved cs k u); [exact E|].
  moved_now. intro H. contradiction.
Qed.

Lemma applyDamage_struck (cs : t) (k : string) (u : ServerUnit.t)
    (damage knockback : Q) (side : Side) :
  Js.get k (serverUnits cs) = Some u ->
  ServerUnit.state u <> DIE ->
  let cs' :=
    putUnit cs k (struck (BattleState.stageLength (state cs)) u damage knockback) in
  applyDamage cs k damage knockback (Some side) = cs' \/
  exists sessionId,
    applyDamage cs k damage knockback (Some side)
    = set_killCounts
        (Js.set sessionId (getKillCount cs' sessionId + 1)%Z (killCounts cs')) cs'.
Proof.
  intros Hu Hlive cs'. subst cs'. unfold struck.
  destruct (Js.leb (ServerUnit.hp u - damage) 0) eqn:El.
  - apply leb_le in El. rewrite (applyDamage_dies _ _ _ _ _ _ Hu El). cbv zeta.
    destruct (getSessionIdBySide cs side) as [sid|]; [|now left].
    destruct (Js.truthy sid); [|now left].
    right. exists sid. reflexivity.
  - apply leb_gt in El. left. exact (applyDamage_survives _ _ _ _ _ _ Hu Hlive El).
Qed.

Lemma changes_applyDamage (cs : t) (k : string) (u a : ServerUnit.t) :
  Js.get k (serverUnits cs) = Some u ->
  ServerUnit.state u <> DIE ->
  In a (Js.values (serverUnits cs)) ->
  changes cs
    (applyDamage cs k (UnitDefinition.attackDamage (ServerUnit.definition a))
                 (UnitDefinition.knockback (ServerUnit.definition a))
                 (Some (ServerUnit.side a))).
Proof.
  intros Hu Hlive Ha.
  pose proof (change_struck cs k u a Hu Hlive Ha) as Hs.
  destruct (applyDamage_struck cs k u
              (UnitDefinition.attackDamage (ServerUnit.definition a))
              (UnitDefinition.knockback (ServerUnit.definition a))
              (ServerUnit.side a) Hu Hlive) as [-> | [sid ->]].
  - now apply changes_one.
  - eapply changes_step; [apply changes_one, Hs | apply change_kill].
Qed.

Lemma changes_dealDamage (cs : t) (k : string) : changes cs (dealDamage cs k).
Proof.
  unfold dealDamage.
  destruct (Js.get k (serverUnits cs)) as [a|] eqn:Ea; [|apply changes_refl].
  pose proof (get_In_values _ _ _ Ea) as Hin.
  destruct (liveTarget cs a) as [[tid target]|] eqn:El.
  - destruct (liveTarget_found _ _ _ _ El) as [Ht Hlive].
    now apply (changes_applyDamage cs tid target a).
  - destruct (getPlayerBySide cs (enemyOf (ServerUnit.side a))) as [[sid p]|] eqn:Ep;
      [|apply changes_refl].
    destruct (isInRangeOfEnemyCastle a); [|apply changes_refl].
    apply changes_one.
    exact (change_besieged cs sid p a (getPlayerBySide_found _ _ _ _ Ep) Hin).
Qed.

Lemma changes_handleWalk (cs : t) (k : string) (d : Q) :
  changes cs (handleWalk cs k d).
Proof.
  unfold handleWalk.
  destruct (Js.get k (serverUnits cs)) as [u|] eqn:E; [|apply changes_refl].
  destruct (match targetOf cs u with
            | Some (_, target) => isInRange u target | None => false end);
    [apply changes_setUnitState; discriminate|].
  destruct (isInRangeOfEnemyCastle u); [apply changes_setUnitState; discriminate|].
  destruct (isBlockedByEnemy cs u); [apply changes_refl|].
  cbv zeta. apply changes_one, (change_moved cs k u); [exact E|].
  destruct (ServerUnit.side u) eqn:Es; fields; rewrite ?Es; moved_now.
Qed.

Lemma changes_handleAttackCooldown (cs : t) (k : string) :
  changes cs (handleAttackCooldown cs k).
Proof.
  unfold handleAttackCooldown.
  destruct (Js.get k (serverUnits cs)) as [u|] eqn:E; [|apply changes_refl].
  destruct (Js.geb _ _); [|apply changes_refl]. cbv zeta.
  destruct (match targetOf cs u with
            | Some (_, target) => _ | None => false end);
    [apply changes_setUnitState; discriminate|].
  destruct (isInRangeOfEnemyCastle u); [apply changes_setUnitState; discriminate|].
  apply (changes_trans cs (putUnit cs k (ServerUnit.set_targetId None u)));
    [|apply changes_setUnitState; discriminate].
  apply changes_one, (change_moved cs k u); [exact E|]. moved_now.
Qed.

Lemma changes_updateUnitState (cs : t) (k : string) (d : Q) :
  changes cs (updateUnitState cs k d).
Proof.
  unfold updateUnitState.
  destruct (Js.get k (serverUnits cs)) as [u|] eqn:E; [|apply changes_refl].
  destruct (ServerUnit.state u).
  - unfold handleSpawn. rewrite E.
    destruct (Js.geb _ _); [apply changes_setUnitState; discriminate | apply changes_refl].
  - apply changes_handleWalk.
  - unfold handleAttackWindup. rewrite E.
    destruct (Js.geb _ _); [|apply changes_refl].
    eapply changes_trans; [apply changes_dealDamage|].
    apply changes_setUnitState. discriminate.
  - apply changes_handleAttackCooldown.
  - unfold handleHitstun. rewrite E.
    destruct (Js.geb _ _); [apply changes_setUnitState; discriminate | apply changes_refl].
  - apply changes_refl.
Qed.

Lemma changes_syncSchema (cs : t) (k : string) : changes cs (syncSchema cs k).
Proof.
  unfold syncSchema.
  destruct (Js.get k (serverUnits cs)) as [u|]; [|apply changes_refl].
  destruct (Js.get k (BattleState.units (state cs))) as [s|] eqn:Es;
    [|apply changes_refl].
  cbv zeta. apply changes_one, (change_synced cs k s); [exact Es|].
  repeat split.
Qed.

Lemma changes_updateUnit (d : Q) (cs : t) (k : string) :
  changes cs (updateUnit d cs k).
Proof.
  unfold updateUnit.
  destruct (Js.get k (serverUnits cs)) as [u|] eqn:E; [|apply changes_refl].
  cbv zeta.
  eapply changes_trans; [|apply changes_syncSchema].
  apply (changes_trans cs
           (putUnit cs k (ServerUnit.set_stateTimer (ServerUnit.stateTimer u + d) u))).
  - apply changes_one, (change_moved cs k u); [exact E|]. moved_now.
  - destruct (negb _); [apply changes_updateUnitState | apply changes_refl].
Qed.

Lemma changes_fold {A} (f : t -> A -> t) (l : list A) :
  (forall cs a, changes cs (f cs a)) ->
  forall cs, changes cs (fold_left f l cs).
Proof.
  intro Hf. induction l as [|a l IH]; intro cs; cbn [fold_left]; [apply changes_refl|].
  eapply changes_trans; [apply Hf | apply IH].
Qed.

Lemma changes_clampUnitPosition (cs : t) (k : string) :
  changes cs (clampUnitPosition cs k).
Proof.
  unfold clampUnitPosition.
  destruct (Js.get k (serverUnits cs)) as [u|] eqn:E; [|apply changes_refl].
  cbv zeta. apply changes_one, (change_moved cs k u); [exact E|].
  destruct (ServerUnit.side u) eqn:Es; fields; rewrite ?Es; moved_now.
Qed.

Lemma changes_collidePair (cs : t) (a b : string) :
  changes cs (collidePair cs a b).
Proof.
  unfold collidePair.
  destruct (Js.get a (serverUnits cs)) as [ua|] eqn:Ea; [|apply changes_refl].
  destruct (Js.get b (serverUnits cs)) as [ub|] eqn:Eb; [|apply changes_refl].
  destruct (negb _); [apply changes_refl|]. cbv zeta.
  destruct (Js.ltb _ _ && Js.gtb _ 0)%bool eqn:Epush; [|apply changes_refl].
  assert (Hab : a <> b).
  { intros ->. rewrite Ea in Eb. injection Eb as <-.
    rewrite abs_self_not_positive, andb_false_r in Epush. discriminate. }
  assert (Hpush : forall xa xb : Q,
    changes cs
      (putUnit (putUnit cs a (ServerUnit.set_x xa ua)) b (ServerUnit.set_x xb ub))).
  { intros xa xb.
    apply (changes_step cs (putUnit cs a (ServerUnit.set_x xa ua))).
    - apply changes_one, (change_moved cs a ua); [exact Ea|]. moved_now.
    - apply (change_moved _ b ub); [|moved_now].
      cbn. rewrite get_set_other by congruence. exact Eb. }
  eapply changes_trans; [|apply changes_clampUnitPosition].
  eapply changes_trans; [|apply changes_clampUnitPosition].
  destruct (Js.ltb (ServerUnit.x ua) (ServerUnit.x ub)); apply Hpush.
Qed.

Lemma changes_collideWith (a : string) (rest : list string) :
  forall cs, changes cs (collideWith cs a rest).
Proof.
  induction rest as [|b rest IH]; intro cs; cbn; [apply changes_refl|].
  eapply changes_trans; [apply changes_collidePair | apply IH].
Qed.

Lemma changes_collideAll (units : list string) :
  forall cs, changes cs (collideAll cs units).
Proof.
  induction units as [|a rest IH]; intro cs; cbn; [apply changes_refl|].
  eapply changes_trans; [apply changes_collideWith | apply IH].
Qed.

Lemma changes_assignTarget (cs : t) (k : string) : changes cs (assignTarget cs k).
Proof.
  unfold assignTarget.
  destruct (Js.get k (serverUnits cs)) as [u|] eqn:E; [|apply changes_refl].
  destruct (isDIE _); [apply changes_refl|].
  destruct (match targetOf cs u with
            | Some (_, currentTarget) => _ | None => false end);
    [apply changes_refl|].
  apply changes_one, (change_moved cs k u); [exact E|]. moved_now.
Qed.

Lemma changes_cleanupDeadUnits (cs : t) : changes cs (cleanupDeadUnits cs).
Proof.
  unfold cleanupDeadUnits. apply changes_fold.
  intros cs' k. apply changes_one. exact (change_removed cs' k).
Qed.

Lemma changes_checkWinCondition (cs : t) : changes cs (checkWinCondition cs).
Proof.
  unfold checkWinCondition.
  destruct (Phase_eqb (BattleState.phase (state cs)) playing) eqn:Ep;
    cbn [negb]; [|apply changes_refl].
  assert (Hp : BattleState.phase (state cs) = playing)
    by (destruct (BattleState.phase (state cs)); try discriminate; reflexivity).
  destruct (playersBySide cs) as [[p1|] [p2|]]; try apply changes_refl.
  destruct (Js.leb (PlayerSchema.castleHp p1) 0);
    [apply changes_one, (change_decided cs _ Hp)|].
  destruct (Js.leb (PlayerSchema.castleHp p2) 0);
    [apply changes_one, (change_decided cs _ Hp) | apply changes_refl].
Qed.

(** A tick of the simulator is a run of writes. *)
Lemma changes_update (cs : t) (d : Q) : changes cs (update cs d).
Proof.
  unfold update. cbv zeta.
  eapply changes_trans; [|apply changes_checkWinCondition].
  eapply changes_trans; [|apply changes_cleanupDeadUnits].
  eapply changes_trans; [|apply changes_fold, changes_assignTarget].
  eapply changes_trans; [|apply changes_collideAll].
  apply changes_fold. intros. apply changes_updateUnit.
Qed.

End TickWrites.

(** ** What every write keeps *)

Section WriteInvariants.
Import ServerCombatSystem Steps.

Lemma changes_keep (I : t -> Prop) :
  (forall cs cs', I cs -> change cs cs' -> I cs') ->
  forall cs cs', changes cs cs' -> I cs -> I cs'.
Proof.
  intros Hstep cs cs' H. induction H as [|x y _ IH Hc]; [auto|].
  intro Hi. exact (Hstep _ _ (IH Hi) Hc).
Qed.

Lemma changes_relate (I : t -> Prop) (R : t -> t -> Prop) :
  (forall cs, R cs cs) ->
  (forall a b c, R a b -> R b c -> R a c) ->
  (forall cs cs', I cs -> change cs cs' -> I cs' /\ R cs cs') ->
  forall cs cs', changes cs cs' -> I cs -> I cs' /\ R cs cs'.
Proof.
  intros Hrefl Htrans Hstep cs cs' H. induction H as [|x y _ IH Hc]; [auto|].
  intro Hi. destruct (IH Hi) as [Hx Hr].
  destruct (Hstep _ _ Hx Hc) as [Hy Hr']. split; [exact Hy|].
  exact (Htrans _ _ _ Hr Hr').
Qed.

(** *** Entries of a map *)

Lemma get_In {V} (k : string) (v : V) (m : Js.map V) :
  Js.get k m = Some v -> In (k, v) m.
Proof.
  induction m as [|[k' v'] m IH]; cbn; [discriminate|].
  destruct (String.eqb_spec k' k) as [->|];
    [intro H; injection H as ->; now left | auto].
Qed.

Lemma In_set {V} (k : string) (v : V) (m : Js.map V) (e : string * V) :
  In e (Js.set k v m) -> e = (k, v) \/ In e m.
Proof.
  induction m as [|[k' v'] m IH]; cbn.
  - intros [<-|[]]. now left.
  - destruct (k' =? k)%string; cbn.
    + intros [<-|H]; [now left | now right; right].
    + intros [<-|H]; [now right; left|].
      destruct (IH H); [now left | now right; right].
Qed.

Lemma In_delete {V} (k : string) (m : Js.map V) (e : string * V) :
  In e (Js.delete k m) -> In e m.
Proof.
  induction m as [|[k' v'] m IH]; cbn; [auto|].
  destruct (k' =? k)%string; cbn; [now right|].
  intros [<-|H]; [now left | right; auto].
Qed.

Lemma Forall_values {V} (P : V -> Prop) (m : Js.map V) :
  Forall P (Js.values m) <-> Forall (fun kv => P (snd kv)) m.
Proof. unfold Js.values. apply Forall_map. Qed.

Lemma Forall_values_set {V} (P : V -> Prop) (k : string) (v : V) (m : Js.map V) :
  P v -> Forall P (Js.values m) -> Forall P (Js.values (Js.set k v m)).
Proof.
  intros Hv Hm. apply Forall_values. apply Forall_values in Hm.
  now apply Forall_set.
Qed.

Lemma Forall_values_delete {V} (P : V -> Prop) (k : string) (m : Js.map V) :
  Forall P (Js.values m) -> Forall P (Js.values (Js.delete k m)).
Proof.
  intros Hm. apply Forall_values. apply Forall_values in Hm.
  now apply Forall_delete.
Qed.

Lemma Forall_values_get {V} (P : V -> Prop) (k : string) (v : V) (m : Js.map V) :
  Forall P (Js.values m) -> Js.get k m = Some v -> P v.
Proof.
  intros Hm Hg. apply get_In_values in Hg.
  rewrite Forall_forall in Hm. now apply Hm.
Qed.

(** *** Hit points *)

Lemma sound_moved (u u' : ServerUnit.t) :
  moved u u' -> Vital.sound u -> Vital.sound u'.
Proof.
  intros ((_ & _ & Hd & _ & Hm & _) & Hh & _ & Hs) (H0 & H1 & H2 & H3).
  unfold Vital.sound. rewrite Hh, Hm, Hd. repeat split; auto.
Qed.

Lemma sound_struck (sl : Q) (u : ServerUnit.t) (damage knockback : Q) :
  0 <= damage -> Vital.sound u -> Vital.sound (struck sl u damage knockback).
Proof.
  intros Hd (H0 & H1 & H2 & H3). unfold struck, Vital.sound.
  destruct (Js.leb (ServerUnit.hp u - damage) 0) eqn:El.
  - unfold Outcome.killed, Outcome.hit. fields.
    repeat split; try lra; try assumption.
  - apply leb_gt in El.
    destruct (Outcome.knockbackFires u damage);
      unfold Outcome.knockedBack, Outcome.hit; fields;
      repeat split; try lra; try assumption; try discriminate.
    intro Hdie. specialize (H2 Hdie). lra.
Qed.

Lemma change_allSound (cs cs' : t) :
  Vital.allSound cs -> change cs cs' -> Vital.allSound cs'.
Proof.
  unfold Vital.allSound. intros Hall Hc.
  destruct Hc as [k u u' Hu Hm|k u a Hu _ Ha|sid|sid p a _ _|k s s' Hs|k|w _]; fields;
    try exact Hall.
  - apply Forall_values_set; [|exact Hall].
    exact (sound_moved _ _ Hm (Forall_values_get _ _ _ _ Hall Hu)).
  - apply Forall_values_set; [|exact Hall].
    apply sound_struck; [|exact (Forall_values_get _ _ _ _ Hall Hu)].
    rewrite Forall_forall in Hall. now destruct (Hall a Ha) as (_ & _ & _ & ?).
  - now apply Forall_values_delete.
Qed.

Lemma update_allSound (cs : t) (d : Q) :
  Vital.allSound cs -> Vital.allSound (update cs d).
Proof.
  apply (changes_keep Vital.allSound change_allSound), changes_update.
Qed.

(** *** Kill counts *)

Lemma getKillCount_set (cs x : t) (sid sid' : string) (n : Z) :
  getKillCount (set_killCounts (Js.set sid n (killCounts cs)) x) sid'
  = if (sid =? sid')%string then n else getKillCount cs sid'.
Proof. unfold getKillCount. cbn. rewrite get_set. now destruct (sid =? sid')%string. Qed.

Lemma change_killCounts (cs cs' : t) (sid : string) :
  change cs cs' -> (getKillCount cs sid <= getKillCount cs' sid)%Z.
Proof.
  intro Hc.
  destruct Hc as [k u u' Hu Hm|k u a Hu _ Ha|sid'|sid' p a _ _|k s s' Hs|k|w _];
    try (unfold getKillCount; cbn; lia).
  rewrite getKillCount_set.
  destruct (String.eqb_spec sid' sid) as [->|]; lia.
Qed.

Lemma update_killCounts (cs : t) (d : Q) (sid : string) :
  (getKillCount cs sid <= getKillCount (update cs d) sid)%Z.
Proof.
  pose proof (changes_update cs d) as H.
  induction H as [|x y _ IH Hc]; [lia|].
  pose proof (change_killCounts _ _ sid Hc). lia.
Qed.

(** *** Players *)

Lemma worn_refl (p : PlayerSchema.t) : Siege.worn p p.
Proof. unfold Siege.worn. split; [reflexivity|]. intro H. split; [exact H | lra]. Qed.

Lemma worn_trans (p p' p'' : PlayerSchema.t) :
  Siege.worn p p' -> Siege.worn p' p'' -> Siege.worn p p''.
Proof.
  intros (H1 & H2) (H1' & H2'). unfold Siege.worn.
  split; [congruence|]. intro H0. destruct (H2 H0) as [Ha Hb].
  destruct (H2' Ha) as [Ha' Hb']. split; [exact Ha' | lra].
Qed.

Lemma wornPlayers_refl (m : Js.map PlayerSchema.t) : Siege.wornPlayers m m.
Proof.
  unfold Siege.wornPlayers. induction m as [|kv m IH]; constructor; auto.
  split; [reflexivity | apply worn_refl].
Qed.

Lemma wornPlayers_trans (m m' m'' : Js.map PlayerSchema.t) :
  Siege.wornPlayers m m' -> Siege.wornPlayers m' m'' -> Siege.wornPlayers m m''.
Proof.
  unfold Siege.wornPlayers. intro H. revert m''.
  induction H as [|kv kv' m m' [Hk Hw] _ IH]; intros m'' H'; inversion H'; subst;
    constructor.
  - match goal with H : _ /\ _ |- _ => destruct H as [Hk' Hw'] end.
    split; [congruence | exact (worn_trans _ _ _ Hw Hw')].
  - now apply IH.
Qed.

Lemma wornPlayers_set (k : string) (p p' : PlayerSchema.t) (m : Js.map PlayerSchema.t) :
  Js.get k m = Some p -> Siege.worn p p' -> Siege.wornPlayers m (Js.set k p' m).
Proof.
  unfold Siege.wornPlayers. intros Hg Hw.
  induction m as [|[k0 p0] m IH]; cbn in *; [discriminate|].
  destruct (String.eqb_spec k0 k) as [->|Hne].
  - injection Hg as ->. constructor; [split; [reflexivity | exact Hw]|].
    apply wornPlayers_refl.
  - constructor; [split; [reflexivity | apply worn_refl] | auto].
Qed.

Lemma worn_besieged (p : PlayerSchema.t) (damage : Q) :
  0 <= damage -> Siege.worn p (besieged p damage).
Proof.
  intro Hd. unfold besieged, Siege.worn. cbv zeta. fields.
  destruct (Js.ltb (PlayerSchema.castleHp p - damage) 0) eqn:El; fields.
  - apply ltb_lt in El. split; [reflexivity|]. intro H0. split; lra.
  - apply ltb_ge in El. split; [reflexivity|]. intro H0. split; [exact El | lra].
Qed.

Lemma change_wornPlayers (cs cs' : t) :
  Vital.allSound cs -> change cs cs' ->
  Vital.allSound cs' /\
  Siege.wornPlayers (BattleState.players (state cs)) (BattleState.players (state cs')).
Proof.
  intros Hall Hc. split; [exact (change_allSound _ _ Hall Hc)|].
  destruct Hc as [k u u' Hu Hm|k u a Hu _ Ha|sid|sid p a Hp Ha|k s s' Hs|k|w _]; fields;
    try apply wornPlayers_refl.
  apply (wornPlayers_set sid p); [exact Hp|]. apply worn_besieged.
  unfold Vital.allSound in Hall. rewrite Forall_forall in Hall.
  now destruct (Hall a Ha) as (_ & _ & _ & ?).
Qed.

Lemma update_wornPlayers (cs : t) (d : Q) :
  Vital.allSound cs ->
  Siege.wornPlayers (BattleState.players (state cs))
                    (BattleState.players (state (update cs d))).
Proof.
  intro Hall.
  apply (changes_relate Vital.allSound
           (fun a b => Siege.wornPlayers (BattleState.players (state a))
                                         (BattleState.players (state b)))
           (fun a => wornPlayers_refl _)
           (fun a b c => wornPlayers_trans _ _ _)
           change_wornPlayers cs (update cs d) (changes_update cs d) Hall).
Qed.

(** *** Identity *)

Lemma change_identity (cs cs' : t) (k : string) (u' : ServerUnit.t) :
  change cs cs' -> In (k, u') (serverUnits cs') ->
  exists u, In (k, u) (serverUnits cs) /\ sameIdentity u u'.
Proof.
  intros Hc Hin.
  assert (Hsame : In (k, u') (serverUnits cs) ->
                  exists u, In (k, u) (serverUnits cs) /\ sameIdentity u u')
    by (intro H; exists u'; split; [exact H | apply sameIdentity_refl]).
  destruct Hc as [k0 u0 u0' Hu Hm|k0 u0 a Hu _ Ha|sid|sid p a Hp Ha|k0 s s' Hs|k0|w _];
    fields_in Hin; auto.
  - apply In_set in Hin. destruct Hin as [Heq|Hin]; [|auto].
    injection Heq as -> ->. exists u0. split; [now apply get_In | apply Hm].
  - apply In_set in Hin. destruct Hin as [Heq|Hin]; [|auto].
    injection Heq as -> ->. exists u0. split; [now apply get_In|].
    unfold struck, Outcome.killed, Outcome.knockedBack, Outcome.hit, sameIdentity.
    destruct (Js.leb _ 0); [|destruct (Outcome.knockbackFires _ _)];
      fields; auto 7.
  - apply In_delete in Hin. auto.
Qed.

Lemma sameIdentity_trans (u u' u'' : ServerUnit.t) :
  sameIdentity u u' -> sameIdentity u' u'' -> sameIdentity u u''.
Proof.
  unfold sameIdentity.
  intros (H1 & H2 & H3 & H4 & H5 & H6) (H1' & H2' & H3' & H4' & H5' & H6').
  repeat split; congruence.
Qed.

Lemma update_identity (cs : t) (d : Q) (k : string) (u' : ServerUnit.t) :
  In (k, u') (serverUnits (update cs d)) ->
  exists u, In (k, u) (serverUnits cs) /\ sameIdentity u u'.
Proof.
  pose proof (changes_update cs d) as H. revert k u'.
  induction H as [|x y _ IH Hc]; intros k u' Hin.
  - exists u'. split; [exact Hin | apply sameIdentity_refl].
  - destruct (change_identity _ _ _ _ Hc Hin) as (u1 & Hin1 & Hs1).
    destruct (IH _ _ Hin1) as (u0 & Hin0 & Hs0).
    exists u0. split; [exact Hin0 | exact (sameIdentity_trans _ _ _ Hs0 Hs1)].
Qed.

End WriteInvariants.

(** ** The state machine of a unit *)

(** X9: a unit whose cooldown has run out attacks again only a target that
    is alive and in range, else the enemy castle when in range, and else
    drops its target and walks; until then nothing changes. *)
Theorem handleAttackCooldown_cascade
    (this : ServerCombatSystem.t) (unit : string) (u : ServerUnit.t) :
  Js.get unit (ServerCombatSystem.serverUnits this) = Some u ->
  let reattacks :=
    exists tid target,
      ServerCombatSystem.liveTarget this u = Some (tid, target) /\
      ServerCombatSystem.isInRange u target = true in
  let this' := ServerCombatSystem.handleAttackCooldown this unit in
  (ServerUnit.stateTimer u < UnitDefinition.attackCooldownMs (ServerUnit.definition u) ->
   this' = this) /\
  (UnitDefinition.attackCooldownMs (ServerUnit.definition u) <= ServerUnit.stateTimer u ->
   (reattacks \/ ServerCombatSystem.isInRangeOfEnemyCastle u = true ->
    this' = ServerCombatSystem.putUnit this unit
              (ServerUnit.set_stateTimer 0 (ServerUnit.set_state ATTACK_WINDUP u))) /\
   (~ reattacks -> ServerCombatSystem.isInRangeOfEnemyCastle u = false ->
    this' = ServerCombatSystem.putUnit this unit
              (ServerUnit.set_stateTimer 0
                 (ServerUnit.set_state WALK (ServerUnit.set_targetId None u))))).
Proof.
  intros Hu reattacks this'. subst this'.
  unfold ServerCombatSystem.handleAttackCooldown. rewrite Hu.
  split.
  - intro Hlt. apply geb_lt in Hlt. now rewrite Hlt.
  - intro Hge. apply geb_ge in Hge. rewrite Hge. cbv zeta.
    assert (Hcond :
      match ServerCombatSystem.targetOf this u with
      | Some (_, target) =>
          negb (isDIE (ServerUnit.state target)) && ServerCombatSystem.isInRange u target
      | None => false
      end = true <-> reattacks).
    { unfold reattacks, ServerCombatSystem.liveTarget.
      destruct (ServerCombatSystem.targetOf this u) as [[tid target]|].
      - destruct (isDIE (ServerUnit.state target)); cbn [negb andb].
        + split; [discriminate | intros (? & ? & ? & _); discriminate].
        + split.
          * intro Hr. exists tid, target. split; [reflexivity | exact Hr].
          * intros (? & ? & E & Hr). injection E as <- <-. exact Hr.
      - split; [discriminate | intros (? & ? & ? & _); discriminate]. }
    destruct (match ServerCombatSystem.targetOf this u with
              | Some (_, target) => _ | None => false end) eqn:Ec.
    + split; [|intro Hn; exfalso; apply Hn; now apply Hcond].
      intros _. exact (setUnitState_found _ _ _ _ Hu).
    + assert (Hn : ~ reattacks) by (intro Hr; apply Hcond in Hr; discriminate).
      destruct (ServerCombatSystem.isInRangeOfEnemyCastle u) eqn:Er.
      * split; [|intros _ Hf; discriminate].
        intros _. exact (setUnitState_found _ _ _ _ Hu).
      * split; [intros [Hr|Hf]; [contradiction | discriminate]|].
        intros _ _.
        rewrite (setUnitState_found _ unit (ServerUnit.set_targetId None u))
          by apply get_putUnit_same.
        apply putUnit_putUnit.
Qed.

Lemma handleAttackCooldown_cascade_witness :
  ServerCombatSystem.handleAttackCooldown ExampleTick.beforeKill "player2_sword_1"
  = ExampleTick.beforeKill.
Proof.
  refine (proj1 (handleAttackCooldown_cascade ExampleTick.beforeKill
                   "player2_sword_1" ExampleTick.victim _) _).
  - reflexivity.
  - vm_compute. reflexivity.
Defined.

(** X10: in its turn of the tick a unit first ages by the delta; a
    spawning unit then walks once it is 300 ms old and a stunned unit once
    it is 200 ms old, with the timer back at zero, and waits otherwise; a
    dead unit only ages.  Nothing else changes in the simulator but the
    replicated copy of the unit. *)
Theorem updateUnit_waits
    (d : Q) (this : ServerCombatSystem.t) (k : string) (u : ServerUnit.t) :
  Js.get k (ServerCombatSystem.serverUnits this) = Some u ->
  let waited := ServerUnit.stateTimer u + d in
  let rested (limit : Q) :=
    if Js.geb waited limit
    then ServerUnit.set_stateTimer 0 (ServerUnit.set_state WALK u)
    else ServerUnit.set_stateTimer waited u in
  let this' := ServerCombatSystem.updateUnit d this k in
  let units' u' :=
    ServerCombatSystem.serverUnits this'
    = Js.set k u' (ServerCombatSystem.serverUnits this) /\
    BattleState.players (ServerCombatSystem.state this')
    = BattleState.players (ServerCombatSystem.state this) /\
    ServerCombatSystem.killCounts this' = ServerCombatSystem.killCounts this in
  (ServerUnit.state u = SPAWN -> units' (rested 300)) /\
  (ServerUnit.state u = HITSTUN -> units' (rested 200)) /\
  (ServerUnit.state u = DIE -> units' (ServerUnit.set_stateTimer waited u)).
Proof.
  intros Hu waited rested this' units'. subst this' units'.
  unfold ServerCombatSystem.updateUnit. rewrite Hu. cbv zeta.
  assert (Hsync : forall cs : ServerCombatSystem.t,
    ServerCombatSystem.serverUnits (ServerCombatSystem.syncSchema cs k)
    = ServerCombatSystem.serverUnits cs /\
    BattleState.players (ServerCombatSystem.state (ServerCombatSystem.syncSchema cs k))
    = BattleState.players (ServerCombatSystem.state cs) /\
    ServerCombatSystem.killCounts (ServerCombatSystem.syncSchema cs k)
    = ServerCombatSystem.killCounts cs).
  { intro cs. unfold ServerCombatSystem.syncSchema.
    destruct (Js.get k (ServerCombatSystem.serverUnits cs));
      [destruct (Js.get k (BattleState.units (ServerCombatSystem.state cs)))|];
      repeat split. }
  fields.
  split; [|split]; intro Hst; rewrite Hst; cbn [isDIE negb];
    match goal with |- context [ServerCombatSystem.syncSchema ?cs k] =>
      destruct (Hsync cs) as (-> & -> & ->) end.
  - unfold ServerCombatSystem.updateUnitState. rewrite get_putUnit_same.
    fields. rewrite Hst.
    unfold ServerCombatSystem.handleSpawn. rewrite get_putUnit_same. fields.
    unfold rested. fold waited.
    destruct (Js.geb waited 300).
    + erewrite setUnitState_found by apply get_putUnit_same.
      rewrite putUnit_putUnit. repeat split.
    + repeat split.
  - unfold ServerCombatSystem.updateUnitState. rewrite get_putUnit_same.
    fields. rewrite Hst.
    unfold ServerCombatSystem.handleHitstun. rewrite get_putUnit_same. fields.
    unfold rested. fold waited.
    destruct (Js.geb waited 200).
    + erewrite setUnitState_found by apply get_putUnit_same.
      rewrite putUnit_putUnit. repeat split.
    + repeat split.
  - repeat split.
Qed.

Lemma updateUnit_waits_witness :
  ServerCombatSystem.serverUnits
    (ServerCombatSystem.updateUnit 50 ExampleWalk.besideCorpse "player2_sword_1")
  = Js.set "player2_sword_1"
      (ServerUnit.set_stateTimer (ServerUnit.stateTimer ExampleWalk.corpse + 50)
                                 ExampleWalk.corpse)
      (ServerCombatSystem.serverUnits ExampleWalk.besideCorpse).
Proof.
  refine (proj1 (proj2 (proj2 (updateUnit_waits 50 ExampleWalk.besideCorpse
                                 "player2_sword_1" ExampleWalk.corpse _)) _)).
  - reflexivity.
  - reflexivity.
Defined.

(** ** Sides *)

Section Sides.
Import ServerCombatSystem.

Lemma indexOf_range (k : string) (arr : list string) :
  (Js.indexOf k arr = -1 \/ 0 <= Js.indexOf k arr)%Z.
Proof.
  induction arr as [|k' arr IH]; cbn; [now left|].
  destruct (k' =? k)%string; [right; lia|].
  destruct (Js.indexOf k arr <? 0)%Z eqn:E; [now left|].
  apply Z.ltb_ge in E. right. lia.
Qed.

Lemma getPlayerSide_cases (this : t) (s : string) :
  getPlayerSide this s =
  match Js.keys (BattleState.players (state this)) with
  | [] => None
  | a :: rest =>
      if (a =? s)%string then Some player1
      else match rest with
           | [] => None
           | b :: _ => if (b =? s)%string then Some player2 else None
           end
  end.
Proof.
  unfold getPlayerSide.
  destruct (Js.keys (BattleState.players (state this))) as [|a [|b rest]];
    cbn [Js.indexOf]; [reflexivity| |].
  - destruct (a =? s)%string; reflexivity.
  - destruct (a =? s)%string; [reflexivity|].
    destruct (b =? s)%string; [reflexivity|].
    destruct (indexOf_range s rest) as [E|E].
    + rewrite E. reflexivity.
    + destruct (Js.indexOf s rest <? 0)%Z eqn:El; [reflexivity|].
      cbn [Z.ltb].
      destruct (Js.indexOf s rest + 1 <? 0)%Z eqn:El'; [reflexivity|].
      destruct (Js.indexOf s rest + 1 + 1 =? 0)%Z eqn:E0;
        [apply Z.eqb_eq in E0; lia|].
      destruct (Js.indexOf s rest + 1 + 1 =? 1)%Z eqn:E1;
        [apply Z.eqb_eq in E1; lia|].
      reflexivity.
Qed.

End Sides.

(** X11: the sides go by the order of the players map: the first session
    id is player1, the second is player2, any other has no side.  So the
    session id that [getSessionIdBySide] gives for the side of a session is
    that session, and, two players never sharing a session id, the side of
    the session of a side is that side. *)
Theorem sides_follow_the_players_map (this : ServerCombatSystem.t) :
  let ids := Js.keys (BattleState.players (ServerCombatSystem.state this)) in
  (forall s side,
     ServerCombatSystem.getPlayerSide this s = Some side ->
     ServerCombatSystem.getSessionIdBySide this side = Some s) /\
  (forall s side,
     NoDup (firstn 2 ids) ->
     ServerCombatSystem.getSessionIdBySide this side = Some s ->
     ServerCombatSystem.getPlayerSide this s = Some side) /\
  (forall s,
     ServerCombatSystem.getPlayerSide this s = None <-> ~ In s (firstn 2 ids)).
Proof.
  intro ids.
  assert (Hside : forall s, ServerCombatSystem.getPlayerSide this s =
    match ids with
    | [] => None
    | a :: rest =>
        if (a =? s)%string then Some player1
        else match rest with
             | [] => None
             | b :: _ => if (b =? s)%string then Some player2 else None
             end
    end) by (intro s; apply getPlayerSide_cases).
  unfold ServerCombatSystem.getSessionIdBySide. fold ids.
  split; [|split].
  - intros s side. rewrite Hside.
    destruct ids as [|a [|b rest]]; [discriminate| |].
    + destruct (String.eqb_spec a s) as [->|]; [|discriminate].
      intro H. injection H as <-. reflexivity.
    + destruct (String.eqb_spec a s) as [->|].
      * intro H. injection H as <-. reflexivity.
      * destruct (String.eqb_spec b s) as [->|]; [|discriminate].
        intro H. injection H as <-. reflexivity.
  - intros s side Hnd. rewrite Hside.
    destruct ids as [|a [|b rest]]; destruct side; cbn; try discriminate.
    + intro H. injection H as ->. now rewrite String.eqb_refl.
    + intro H. injection H as ->. now rewrite String.eqb_refl.
    + intro H. injection H as ->.
      cbn in Hnd. inversion Hnd as [|? ? Hnotin _]; subst.
      destruct (String.eqb_spec a s) as [->|]; [exfalso; apply Hnotin; now left|].
      now rewrite String.eqb_refl.
  - intro s. rewrite Hside.
    destruct ids as [|a [|b rest]]; cbn.
    + split; [intros _ [] | reflexivity].
    + destruct (String.eqb_spec a s) as [->|Hne].
      * split; [discriminate | intro H; exfalso; apply H; now left].
      * split; [intros _ [?|[]]; contradiction | reflexivity].
    + destruct (String.eqb_spec a s) as [->|Hne].
      * split; [discriminate | intro H; exfalso; apply H; now left].
      * destruct (String.eqb_spec b s) as [->|Hne'].
        -- split; [discriminate | intro H; exfalso; apply H; right; now left].
        -- split; [intros _ [?|[?|[]]]; contradiction | reflexivity].
Qed.

(** ** The win check *)

(** X12: with two players seated in the playing phase, the win check
    leaves everything as it is while both castles stand, gives the match to
    player1 when only player2's castle is down, and gives it to player2
    whenever player1's castle is down. *)
Theorem checkWinCondition_decides
    (this : ServerCombatSystem.t) (k1 k2 : string) (p1 p2 : PlayerSchema.t) :
  BattleState.phase (ServerCombatSystem.state this) = playing ->
  BattleState.players (ServerCombatSystem.state this) = [(k1, p1); (k2, p2)] ->
  k1 <> k2 ->
  let this' := ServerCombatSystem.checkWinCondition this in
  let won (p : PlayerSchema.t) :=
    this' =
    ServerCombatSystem.set_state
      (BattleState.set_winReason "castle_destroyed"
         (BattleState.set_winnerId (PlayerSchema.sessionId p)
            (BattleState.set_phase finished (ServerCombatSystem.state this))))
      this in
  (0 < PlayerSchema.castleHp p1 -> 0 < PlayerSchema.castleHp p2 -> this' = this) /\
  (0 < PlayerSchema.castleHp p1 -> PlayerSchema.castleHp p2 <= 0 -> won p1) /\
  (PlayerSchema.castleHp p1 <= 0 -> won p2).
Proof.
  intros Hphase Hplayers Hne this' won. subst this' won.
  unfold ServerCombatSystem.checkWinCondition.
  rewrite Hphase. cbn [Phase_eqb negb].
  unfold ServerCombatSystem.playersBySide, ServerCombatSystem.getPlayerSide.
  rewrite Hplayers.
  cbn [fold_left Js.keys List.map fst snd Js.indexOf].
  rewrite !String.eqb_refl.
  apply String.eqb_neq in Hne. rewrite Hne.
  cbn [Z.eqb Z.ltb Z.add Z.compare Pos.eqb].
  split; [|split].
  - intros H1 H2. apply leb_gt in H1, H2. now rewrite H1, H2.
  - intros H1 H2. apply leb_gt in H1. apply leb_le in H2. now rewrite H1, H2.
  - intros H1. apply leb_le in H1. now rewrite H1.
Qed.

Lemma checkWinCondition_decides_witness :
  ServerCombatSystem.checkWinCondition (BattleRoom.combatSystem Example.started)
  = BattleRoom.combatSystem Example.started.
Proof.
  refine (proj1 (checkWinCondition_decides (BattleRoom.combatSystem Example.started)
                   "alice" "bob" Example.alice Example.bob _ _ _) _ _).
  - reflexivity.
  - vm_compute. reflexivity.
  - discriminate.
  - vm_compute. reflexivity.
  - vm_compute. reflexivity.
Defined.

(** X13: the win check does nothing outside the playing phase, nothing
    while fewer than two players are seated, and nothing the second time:
    once it has decided the match it leaves the winner alone. *)
Theorem checkWinCondition_idle (this : ServerCombatSystem.t) :
  (BattleState.phase (ServerCombatSystem.state this) <> playing ->
   ServerCombatSystem.checkWinCondition this = this) /\
  ((Js.size (BattleState.players (ServerCombatSystem.state this)) < 2)%Z ->
   ServerCombatSystem.checkWinCondition this = this) /\
  ServerCombatSystem.checkWinCondition (ServerCombatSystem.checkWinCondition this)
  = ServerCombatSystem.checkWinCondition this.
Proof.
  split; [|split].
  - intro Hp. unfold ServerCombatSystem.checkWinCondition.
    destruct (BattleState.phase (ServerCombatSystem.state this));
      try reflexivity. contradiction.
  - intro Hn. unfold ServerCombatSystem.checkWinCondition.
    destruct (negb _); [reflexivity|].
    unfold ServerCombatSystem.playersBySide, ServerCombatSystem.getPlayerSide.
    unfold Js.size in Hn.
    destruct (BattleState.players (ServerCombatSystem.state this))
      as [|[k1 p1] [|[k2 p2] rest]]; cbn [fold_left].
    + reflexivity.
    + cbn [Js.keys List.map fst snd Js.indexOf]. rewrite String.eqb_refl.
      reflexivity.
    + cbn [List.length] in Hn. lia.
  - unfold ServerCombatSystem.checkWinCondition at 2 3.
    destruct (Phase_eqb (BattleState.phase (ServerCombatSystem.state this)) playing)
      eqn:Ep; cbn [negb].
    2:{ unfold ServerCombatSystem.checkWinCondition. now rewrite Ep. }
    destruct (ServerCombatSystem.playersBySide this) as [[p1|] [p2|]] eqn:Es;
      try (unfold ServerCombatSystem.checkWinCondition; rewrite Ep, Es; reflexivity).
    destruct (Js.leb (PlayerSchema.castleHp p1) 0) eqn:E1;
      [reflexivity|].
    destruct (Js.leb (PlayerSchema.castleHp p2) 0) eqn:E2;
      [reflexivity|].
    unfold ServerCombatSystem.checkWinCondition. now rewrite Ep, Es, E1, E2.
Qed.

(** ** Maps without repeated keys *)

Section UniqueKeys.

Lemma In_keys_set {V} (k k' : string) (v : V) (m : Js.map V) :
  In k' (Js.keys (Js.set k v m)) -> k' = k \/ In k' (Js.keys m).
Proof.
  induction m as [|[k0 v0] m IH]; cbn.
  - intros [<-|[]]. now left.
  - destruct (String.eqb_spec k0 k) as [->|Hne]; cbn.
    + intros [<-|H]; [now left | now right; right].
    + intros [<-|H]; [now right; left|].
      destruct (IH H); [now left | now right; right].
Qed.

Lemma NoDup_keys_set {V} (k : string) (v : V) (m : Js.map V) :
  NoDup (Js.keys m) -> NoDup (Js.keys (Js.set k v m)).
Proof.
  induction m as [|[k0 v0] m IH]; cbn; intro H.
  - constructor; [intros [] | constructor].
  - inversion H as [|? ? Hnotin Hnd]; subst.
    destruct (String.eqb_spec k0 k) as [->|Hne]; cbn.
    + now constructor.
    + constructor; [|now apply IH].
      intro Hin. apply In_keys_set in Hin. destruct Hin as [->|Hin]; auto.
Qed.

Lemma In_keys_delete {V} (k k' : string) (m : Js.map V) :
  In k' (Js.keys (Js.delete k m)) -> In k' (Js.keys m).
Proof.
  induction m as [|[k0 v0] m IH]; cbn; [auto|].
  destruct (k0 =? k)%string; cbn; [now right|].
  intros [<-|H]; [now left | right; auto].
Qed.

Lemma NoDup_keys_delete {V} (k : string) (m : Js.map V) :
  NoDup (Js.keys m) -> NoDup (Js.keys (Js.delete k m)).
Proof.
  induction m as [|[k0 v0] m IH]; cbn; intro H; [constructor|].
  inversion H as [|? ? Hnotin Hnd]; subst.
  destruct (k0 =? k)%string; cbn; [exact Hnd|].
  constructor; [|now apply IH].
  intro Hin. apply In_keys_delete in Hin. contradiction.
Qed.

Lemma In_keys {V} (kv : string * V) (m : Js.map V) : In kv m -> In (fst kv) (Js.keys m).
Proof. intro H. unfold Js.keys. now apply in_map. Qed.

Lemma filter_all {A} (f : A -> bool) (l : list A) :
  (forall a, In a l -> f a = true) -> filter f l = l.
Proof.
  induction l as [|a l IH]; cbn; intro H; [reflexivity|].
  rewrite (H a) by now left. f_equal. apply IH. intros; apply H; now right.
Qed.

Lemma filter_and {A} (f g : A -> bool) (l : list A) :
  filter g (filter f l) = filter (fun a => f a && g a) l.
Proof.
  induction l as [|a l IH]; cbn; [reflexivity|].
  destruct (f a); cbn; [|exact IH].
  destruct (g a); [f_equal|]; exact IH.
Qed.

Lemma In_keys_filter {V} (f : string * V -> bool) (k : string) (m : Js.map V) :
  In k (Js.keys (filter f m)) -> In k (Js.keys m).
Proof.
  unfold Js.keys. rewrite !in_map_iff.
  intros (kv & Hk & Hin). apply filter_In in Hin. exists kv. tauto.
Qed.

Lemma NoDup_keys_filter {V} (f : string * V -> bool) (m : Js.map V) :
  NoDup (Js.keys m) -> NoDup (Js.keys (filter f m)).
Proof.
  induction m as [|[k0 v0] m IH]; cbn; intro H; [constructor|].
  inversion H as [|? ? Hnotin Hnd]; subst.
  destruct (f (k0, v0)); cbn; [|now apply IH].
  constructor; [|now apply IH].
  intro Hin. apply In_keys_filter in Hin. contradiction.
Qed.

(** Without repeated keys a [delete] is a filter. *)
Lemma delete_filter {V} (k : string) (m : Js.map V) :
  NoDup (Js.keys m) ->
  Js.delete k m = filter (fun kv => negb (fst kv =? k)%string) m.
Proof.
  induction m as [|[k0 v0] m IH]; cbn; intro H; [reflexivity|].
  inversion H as [|? ? Hnotin Hnd]; subst.
  destruct (String.eqb_spec k0 k) as [->|Hne]; cbn.
  - symmetry. apply filter_all. intros kv Hin.
    destruct (String.eqb_spec (fst kv) k) as [<-|]; [|reflexivity].
    exfalso. apply Hnotin. now apply In_keys.
  - f_equal. now apply IH.
Qed.

Lemma fold_delete_filter {V} (ks : list string) :
  forall m : Js.map V,
    NoDup (Js.keys m) ->
    fold_left (fun m k => Js.delete k m) ks m
    = filter (fun kv => negb (Js.includes (fst kv) ks)) m.
Proof.
  induction ks as [|k ks IH]; intros m H; cbn [fold_left].
  - symmetry. apply filter_all. reflexivity.
  - rewrite IH by now apply NoDup_keys_delete.
    rewrite (delete_filter k m H), filter_and.
    apply filter_ext. intros kv. unfold Js.includes. cbn [existsb].
    rewrite negb_orb, (String.eqb_sym k (fst kv)). reflexivity.
Qed.

(** Without repeated keys the entry of a key is the one [get] finds. *)
Lemma NoDup_In_get {V} (k : string) (v : V) (m : Js.map V) :
  NoDup (Js.keys m) -> In (k, v) m -> Js.get k m = Some v.
Proof.
  induction m as [|[k0 v0] m IH]; cbn; intros H Hin; [contradiction|].
  inversion H as [|? ? Hnotin Hnd]; subst.
  destruct Hin as [Heq|Hin].
  - injection Heq as -> ->. now rewrite String.eqb_refl.
  - destruct (String.eqb_spec k0 k) as [->|Hne]; [|auto].
    exfalso. apply Hnotin. exact (In_keys (k, v) m Hin).
Qed.

End UniqueKeys.

(** ** Clearing the dead *)

Section Cleanup.
Import ServerCombatSystem.

Lemma cleanup_fold (ks : list string) :
  forall cs : t,
    let cs' :=
      fold_left
        (fun this instanceId =>
           let this := set_serverUnits (Js.delete instanceId (serverUnits this)) this in
           set_state
             (BattleState.set_units
                (Js.delete instanceId (BattleState.units (state this)))
                (state this)) this)
        ks cs in
    serverUnits cs' = fold_left (fun m k => Js.delete k m) ks (serverUnits cs) /\
    BattleState.units (state cs')
    = fold_left (fun m k => Js.delete k m) ks (BattleState.units (state cs)) /\
    BattleState.set_units [] (state cs') = BattleState.set_units [] (state cs) /\
    killCounts cs' = killCounts cs.
Proof.
  induction ks as [|k ks IH]; intro cs; cbn [fold_left]; [auto|].
  cbv zeta in IH |- *.
  match goal with |- context [fold_left ?f ks ?x] =>
    destruct (IH x) as (-> & -> & -> & ->) end.
  repeat split.
Qed.

End Cleanup.

(** X14: where no instance id is repeated, [cleanupDeadUnits] removes
    exactly the units that are dead with a timer of 500 ms or more, from
    the simulator and from the replicated state alike, and leaves all
    others, in their order, and everything else as it was. *)
Theorem cleanupDeadUnits_removes_the_expired (this : ServerCombatSystem.t) :
  NoDup (Js.keys (ServerCombatSystem.serverUnits this)) ->
  NoDup (Js.keys (BattleState.units (ServerCombatSystem.state this))) ->
  let expired (u : ServerUnit.t) :=
    isDIE (ServerUnit.state u) && Js.geb (ServerUnit.stateTimer u) 500 in
  let gone :=
    Js.keys (filter (fun kv => expired (snd kv))
                    (ServerCombatSystem.serverUnits this)) in
  let this' := ServerCombatSystem.cleanupDeadUnits this in
  ServerCombatSystem.serverUnits this'
  = filter (fun kv => negb (expired (snd kv))) (ServerCombatSystem.serverUnits this) /\
  BattleState.units (ServerCombatSystem.state this')
  = filter (fun kv => negb (Js.includes (fst kv) gone))
           (BattleState.units (ServerCombatSystem.state this)) /\
  BattleState.set_units [] (ServerCombatSystem.state this')
  = BattleState.set_units [] (ServerCombatSystem.state this) /\
  ServerCombatSystem.killCounts this' = ServerCombatSystem.killCounts this.
Proof.
  intros Hnd Hnd' expired gone this'. subst this'.
  unfold ServerCombatSystem.cleanupDeadUnits.
  pose proof (cleanup_fold gone this) as Hfold.
  subst gone expired. cbv beta zeta in Hfold |- *.
  destruct Hfold as (-> & -> & -> & ->).
  rewrite !fold_delete_filter by assumption.
  split; [|repeat split].
  apply filter_ext_in. intros [k u] Hin. cbn [fst snd]. f_equal.
  unfold Js.includes.
  destruct (isDIE (ServerUnit.state u) && Js.geb (ServerUnit.stateTimer u) 500)
    eqn:Ee.
  - apply existsb_exists. exists k. split; [|apply String.eqb_refl].
    unfold Js.keys. apply in_map_iff. exists (k, u). split; [reflexivity|].
    apply filter_In. split; [exact Hin | exact Ee].
  - destruct (existsb _ _) eqn:Ex; [|reflexivity].
    apply existsb_exists in Ex. destruct Ex as (k' & Hk' & Heq).
    apply String.eqb_eq in Heq. subst k'.
    unfold Js.keys in Hk'. apply in_map_iff in Hk'.
    destruct Hk' as ([k' u'] & Hfst & Hin'). cbn in Hfst. subst k'.
    apply filter_In in Hin'. destruct Hin' as [Hin' He']. cbn in He'.
    pose proof (NoDup_In_get _ _ _ Hnd Hin) as G1.
    pose proof (NoDup_In_get _ _ _ Hnd Hin') as G2.
    rewrite G1 in G2. injection G2 as ->. congruence.
Qed.

Lemma cleanupDeadUnits_removes_the_expired_witness :
  ServerCombatSystem.serverUnits
    (ServerCombatSystem.cleanupDeadUnits
       (ServerCombatSystem.updateUnit 500 ExampleWalk.besideCorpse "player2_sword_1"))
  = [("player1_sword_1", ExampleWalk.walker)].
Proof.
  refine (eq_trans
            (proj1 (cleanupDeadUnits_removes_the_expired
                      (ServerCombatSystem.updateUnit 500 ExampleWalk.besideCorpse
                         "player2_sword_1") _ _)) _).
  - vm_compute. repeat constructor; cbn; intuition discriminate.
  - vm_compute. constructor.
  - vm_compute. reflexivity.
Defined.

(** ** The speed vote *)

Section SpeedVote.
Import BattleRoom.

Lemma recalculateGameSpeed_agreed (r : t) :
  recalculateGameSpeed r =
  let g := Speed.agreed (BattleState.players (state r))
                        (BattleState.speedVotes (state r)) in
  emit (Broadcast (speed_update g (getSpeedVotesObject r)))
       (set_state (BattleState.set_gameSpeed g (state r)) r).
Proof.
  unfold recalculateGameSpeed, Speed.agreed. cbv zeta.
  destruct (Js.size (BattleState.players (state r)) <? 2)%Z; [reflexivity|].
  destruct (forallb _ _); reflexivity.
Qed.

Lemma agreed_1_or_2 (players : Js.map PlayerSchema.t) (votes : Js.map bool) :
  Speed.agreed players votes = 1%Z \/ Speed.agreed players votes = 2%Z.
Proof.
  unfold Speed.agreed. destruct (_ <? 2)%Z; [now left|].
  destruct (forallb _ _); [now right | now left].
Qed.

Lemma agreed_2 (players : Js.map PlayerSchema.t) (votes : Js.map bool) :
  Speed.agreed players votes = 2%Z <->
  (2 <= Js.size players)%Z /\
  forall sid, In sid (Js.keys players) -> Js.get sid votes = Some true.
Proof.
  unfold Speed.agreed.
  destruct (Js.size players <? 2)%Z eqn:Es.
  - apply Z.ltb_lt in Es. split; [discriminate | intros [? _]; lia].
  - apply Z.ltb_ge in Es.
    destruct (forallb _ players) eqn:Ef.
    + split; [|reflexivity]. intros _. split; [exact Es|].
      intros sid Hin. unfold Js.keys in Hin. apply in_map_iff in Hin.
      destruct Hin as (kv & <- & Hin).
      rewrite forallb_forall in Ef. specialize (Ef kv Hin). cbv beta in Ef.
      destruct (Js.get (fst kv) votes) as [[|]|]; try discriminate. reflexivity.
    + split; [discriminate|]. intros [_ Hall]. exfalso.
      assert (Ht : forallb
                (fun kv : string * PlayerSchema.t =>
                   match Js.get (fst kv) votes with
                   | Some true => true
                   | _ => false
                   end) players = true).
      { apply forallb_forall. intros kv Hin.
        rewrite (Hall (fst kv)); [reflexivity|].
        unfold Js.keys. now apply in_map. }
      congruence.
Qed.

End SpeedVote.

(** X15: a speed vote of a client that is not a player is ignored.  The
    vote of a player is recorded and the speed settled anew: it is 2
    exactly when at least two players are seated and each of them has voted
    for it, and 1 otherwise; the new speed and the votes are broadcast, and
    nothing else changes. *)
Theorem handleSpeedVote_settles_the_speed
    (this : BattleRoom.t) (client : string) (enabled : option bool) :
  let this' := BattleRoom.handleSpeedVote this client enabled in
  let players := BattleState.players (BattleRoom.state this) in
  let vote := match enabled with Some true => true | _ => false end in
  let votes' := Js.set client vote (BattleState.speedVotes (BattleRoom.state this)) in
  (Js.get client players = None -> this' = this) /\
  (Js.get client players <> None ->
   exists speed : Z,
     (speed = 1%Z \/ speed = 2%Z) /\
     (speed = 2%Z <->
      (2 <= Js.size players)%Z /\
      forall sid, In sid (Js.keys players) -> Js.get sid votes' = Some true) /\
     this' =
     BattleRoom.emit
       (BattleRoom.Broadcast
          (BattleRoom.speed_update speed (BattleRoom.getSpeedVotesObject this')))
       (BattleRoom.set_state
          (BattleState.set_gameSpeed speed
             (BattleState.set_speedVotes votes' (BattleRoom.state this)))
          this)).
Proof.
  intros this' players vote votes'. subst this'.
  unfold BattleRoom.handleSpeedVote, Js.has. fold players.
  destruct (Js.get client players) as [p|] eqn:Eg; cbn [negb].
  - split; [discriminate|]. intros _. cbv zeta.
    rewrite recalculateGameSpeed_agreed. cbv zeta. fields.
    fold players. fold vote. fold votes'.
    exists (Speed.agreed players votes').
    split; [apply agreed_1_or_2|]. split; [apply agreed_2|]. reflexivity.
  - split; [reflexivity|]. intro H. now destruct H.
Qed.

(** ** Joining *)

Section Join.
Import BattleRoom.

Lemma agreed_after_join (client : string) (p : PlayerSchema.t)
    (players : Js.map PlayerSchema.t) (votes : Js.map bool) :
  Speed.agreed (Js.set client p players) (Js.set client false votes) = 1%Z.
Proof.
  destruct (agreed_1_or_2 (Js.set client p players) (Js.set client false votes))
    as [H|H]; [exact H|].
  apply agreed_2 in H. destruct H as [_ H].
  specialize (H client). rewrite get_set_same in H.
  assert (Hin : In client (Js.keys (Js.set client p players))).
  { pose proof (get_In client p _ (get_set_same client p players)) as Hi.
    exact (In_keys (client, p) _ Hi). }
  specialize (H Hin). discriminate.
Qed.

Lemma firstn_filter_valid {A} (f : A -> bool) (n : nat) (l : list A) :
  Forall (fun a => f a = true) (firstn n (filter f l)) /\
  (List.length (firstn n (filter f l)) <= n)%nat /\
  (forall a, In a (firstn n (filter f l)) -> In a l).
Proof.
  split; [|split].
  - apply Forall_forall. intros a Hin.
    assert (Hin' : In a (filter f l)).
    { rewrite <- (firstn_skipn n (filter f l)). apply in_or_app. now left. }
    now apply filter_In in Hin'.
  - apply firstn_le_length.
  - intros a Hin.
    assert (Hin' : In a (filter f l)).
    { rewrite <- (firstn_skipn n (filter f l)). apply in_or_app. now left. }
    now apply filter_In in Hin'.
Qed.

End Join.

(** X16: a client that joins a room with a free seat is seated under its
    session id with the starting cost (200 of 1000, level 1), a castle of
    5000 and a deck made of the first seven ids of the received deck that
    the catalog knows, in their order; its vote is set to no and the speed
    to 1, its cooldowns are empty; the units and the phase are left alone.
    The join is broadcast, the list of players and the speed are sent to
    the client, and the room is locked when the join fills it. *)
Theorem onJoin_seats_the_player
    (allies : list UnitDefinition.t) (this : BattleRoom.t) (client : string)
    (options : BattleRoom.JoinOptions) (now : Z) :
  (Js.size (BattleState.players (BattleRoom.state this)) < 2)%Z ->
  let this' := BattleRoom.onJoin allies this client options now in
  let received :=
    match BattleRoom.opt_deck options with Some d => d | None => [] end in
  let deck := firstn 7 (filter (Units.isValidUnit allies) received) in
  let player :=
    PlayerSchema.mk
      (BattleRoom.strOr (BattleRoom.opt_odeyoId options) client) client
      (BattleRoom.strOr (BattleRoom.opt_displayName options)
         ("Player "
          ++ NilZero.string_of_int
               (Z.to_int (Js.size (BattleState.players (BattleRoom.state this)) + 1))))
      200 1000 1%Z 5000 5000 false deck in
  let players' := Js.set client player (BattleState.players (BattleRoom.state this)) in
  let votes' := Js.set client false (BattleState.speedVotes (BattleRoom.state this)) in
  BattleRoom.state this'
  = BattleState.set_gameSpeed 1%Z
      (BattleState.set_speedVotes votes'
         (BattleState.set_players players' (BattleRoom.state this))) /\
  Forall (fun id => Units.isValidUnit allies id = true) deck /\
  (List.length deck <= 7)%nat /\
  (forall id, In id deck -> In id received) /\
  ServerCombatSystem.serverUnits (BattleRoom.combatSystem this')
  = ServerCombatSystem.serverUnits (BattleRoom.combatSystem this) /\
  ServerCombatSystem.killCounts (BattleRoom.combatSystem this')
  = ServerCombatSystem.killCounts (BattleRoom.combatSystem this) /\
  BattleRoom.spawnCooldowns this'
  = Js.set client [] (BattleRoom.spawnCooldowns this) /\
  BattleRoom.gameLoop this' = BattleRoom.gameLoop this /\
  BattleRoom.countdownInterval this' = BattleRoom.countdownInterval this /\
  BattleRoom.effects this'
  = (BattleRoom.effects this
     ++ [BattleRoom.Broadcast
           (BattleRoom.speed_update 1%Z (BattleRoom.getSpeedVotesObject this'));
         BattleRoom.Broadcast (BattleRoom.player_joined client player);
         BattleRoom.Send client (BattleRoom.all_players players');
         BattleRoom.Send client
           (BattleRoom.speed_update 1%Z (BattleRoom.getSpeedVotesObject this'))]
     ++ (if (Js.size players' =? 2)%Z then [BattleRoom.Lock] else []))%list.
Proof.
  intros Hfree this' received deck player players' votes'. subst this'.
  unfold BattleRoom.onJoin.
  assert (Hge : (Js.size (BattleState.players (BattleRoom.state this)) >=? 2)%Z = false)
    by (rewrite Z.geb_leb; apply Z.leb_gt; exact Hfree).
  rewrite Hge. cbv zeta.
  repeat match goal with
         | |- context [ServerCostSystem.initialize ?x] =>
             change (ServerCostSystem.initialize x) with player
         end.
  rewrite recalculateGameSpeed_agreed. cbv zeta. fields.
  fold players'. fold votes'.
  destruct (firstn_filter_valid (Units.isValidUnit allies) 7 received)
    as (Hvalid & Hlen & Hsub).
  fold deck in Hvalid, Hlen, Hsub.
  pose proof (agreed_after_join client player
                (BattleState.players (BattleRoom.state this))
                (BattleState.speedVotes (BattleRoom.state this))) as Hspeed.
  fold players' in Hspeed. fold votes' in Hspeed.
  destruct (Js.size players' =? 1)%Z; fields; fold players'; fold votes';
    rewrite ?Hspeed;
    (destruct (Js.size players' =? 2)%Z;
     fields; fold players'; fold votes'; rewrite ?Hspeed;
     rewrite <- ?app_assoc; cbn [app]; repeat split; try assumption).
Qed.

Lemma onJoin_seats_the_player_witness :
  BattleState.phase
    (BattleRoom.state
       (BattleRoom.onJoin Example.allies (BattleRoom.onCreate 0) "alice"
          (Example.options ["sword"; "dragon"; "giant"]) 1%Z)) = waiting /\
  (List.length ["sword"; "giant"] <= 7)%nat.
Proof.
  destruct (onJoin_seats_the_player Example.allies (BattleRoom.onCreate 0) "alice"
              (Example.options ["sword"; "dragon"; "giant"]) 1%Z
              ltac:(vm_compute; reflexivity))
    as (Hstate & _ & Hlen & _).
  split; [now rewrite Hstate | exact Hlen].
Defined.

(** ** The lobby *)

Lemma ceil_half (n : nat) :
  Z.to_nat (Qceiling (inject_Z (Z.of_nat n) / 2)) = ((n + 1) / 2)%nat.
Proof.
  unfold Qceiling, Qfloor, Qopp, Qdiv, Qmult, Qinv, inject_Z.
  cbn -[Nat.div Z.div Z.of_nat Z.mul].
  apply Nat2Z.inj. rewrite Nat2Z.inj_div.
  rewrite Z2Nat.id by (Z.div_mod_to_equations; lia).
  rewrite Nat2Z.inj_add. change (Z.of_nat 1) with 1%Z. change (Z.of_nat 2) with 2%Z.
  Z.div_mod_to_equations. lia.
Qed.

(** X17: the join that makes the room hold one player sets the listing of
    the room: status waiting, the name of that player as host, and as
    preview the first half of its deck, rounded up; any other join leaves
    the listing as it was. *)
Theorem onJoin_lobby_preview
    (allies : list UnitDefinition.t) (this : BattleRoom.t) (client : string)
    (options : BattleRoom.JoinOptions) (now : Z) :
  (Js.size (BattleState.players (BattleRoom.state this)) < 2)%Z ->
  let this' := BattleRoom.onJoin allies this client options now in
  let received :=
    match BattleRoom.opt_deck options with Some d => d | None => [] end in
  let deck := firstn 7 (filter (Units.isValidUnit allies) received) in
  let hostName :=
    BattleRoom.strOr (BattleRoom.opt_displayName options)
      ("Player "
       ++ NilZero.string_of_int
            (Z.to_int (Js.size (BattleState.players (BattleRoom.state this)) + 1))) in
  let seated := Js.size (BattleState.players (BattleRoom.state this')) in
  (seated = 1%Z ->
   BattleRoom.metadata this'
   = BattleRoom.mkMetadata "waiting" hostName
       (firstn ((List.length deck + 1) / 2) deck) now /\
   (List.length (BattleRoom.hostDeckPreview (BattleRoom.metadata this')) <= 4)%nat) /\
  (seated <> 1%Z -> BattleRoom.metadata this' = BattleRoom.metadata this).
Proof.
  intros Hfree this' received deck hostName seated.
  destruct (onJoin_seats_the_player allies this client options now Hfree)
    as (Hstate & _ & Hlen & _).
  cbv zeta in Hstate, Hlen. fold received in Hstate, Hlen. fold deck in Hstate, Hlen.
  fold hostName in Hstate.
  assert (Hseated : seated
    = Js.size (Js.set client
                 (PlayerSchema.mk
                    (BattleRoom.strOr (BattleRoom.opt_odeyoId options) client) client
                    hostName 200 1000 1%Z 5000 5000 false deck)
                 (BattleState.players (BattleRoom.state this))))
    by (unfold seated, this'; now rewrite Hstate).
  clearbody seated. subst this'. unfold BattleRoom.onJoin.
  assert (Hge : (Js.size (BattleState.players (BattleRoom.state this)) >=? 2)%Z = false)
    by (rewrite Z.geb_leb; apply Z.leb_gt; exact Hfree).
  rewrite Hge. cbv zeta.
  repeat match goal with
         | |- context [ServerCostSystem.initialize ?x] =>
             change (ServerCostSystem.initialize x)
               with (PlayerSchema.mk
                       (BattleRoom.strOr (BattleRoom.opt_odeyoId options) client)
                       client hostName 200 1000 1%Z 5000 5000 false deck)
         end.
  rewrite recalculateGameSpeed_agreed. cbv zeta. fields.
  rewrite <- Hseated. fold received. fold deck. rewrite ceil_half.
  assert (Hhalf : ((List.length deck + 1) / 2 <= 4)%nat)
    by (apply Nat.Div0.div_le_upper_bound; lia).
  destruct (Z.eqb_spec seated 1) as [E1|E1]; fields;
    (destruct (_ =? 2)%Z; fields; split); try tauto; try reflexivity;
    try (intro; contradiction).
  all: intros _; split; [reflexivity|];
    cbn [BattleRoom.hostDeckPreview]; rewrite length_firstn; lia.
Qed.

Lemma onJoin_lobby_preview_witness :
  BattleRoom.metadata
    (BattleRoom.onJoin Example.allies (BattleRoom.onCreate 0) "alice"
       (Example.options ["sword"; "giant"; "sword"]) 1%Z)
  = BattleRoom.mkMetadata "waiting" "Player 1" ["sword"; "giant"] 1%Z.
Proof.
  refine (proj1 (proj1 (onJoin_lobby_preview Example.allies (BattleRoom.onCreate 0)
                          "alice" (Example.options ["sword"; "giant"; "sword"])
                          1%Z _) _)).
  - vm_compute. reflexivity.
  - vm_compute. reflexivity.
Defined.

(** ** Ready *)

Lemma handleReady_marked (r : BattleRoom.t) (client : string)
    (player : PlayerSchema.t) :
  Js.get client (BattleState.players (BattleRoom.state r)) = Some player ->
  BattleRoom.handleReady r client =
  let players' :=
    Js.set client (PlayerSchema.set_ready true player)
           (BattleState.players (BattleRoom.state r)) in
  let marked :=
    BattleRoom.set_state (BattleState.set_players players' (BattleRoom.state r)) r in
  if forallb (fun kv => PlayerSchema.ready (snd kv)) players'
     && (Js.size players' =? 2)%Z
     && Phase_eqb (BattleState.phase (BattleRoom.state r)) waiting
  then BattleRoom.startCountdown marked
  else marked.
Proof. intro H. unfold BattleRoom.handleReady. now rewrite H. Qed.

(** X18: [ready] from a client that is not a player is ignored; from a
    player it sets the flag of that player and nothing else, unless it
    starts the countdown, which it does only in the waiting phase of a room
    of two players who are then both ready.  A second [ready] from the same
    client changes nothing: it cannot start the countdown anew. *)
Theorem handleReady_starts_only_when_both_ready
    (this : BattleRoom.t) (client : string) :
  let this' := BattleRoom.handleReady this client in
  let players := BattleState.players (BattleRoom.state this) in
  (Js.get client players = None -> this' = this) /\
  (forall player, Js.get client players = Some player ->
     let players' := Js.set client (PlayerSchema.set_ready true player) players in
     let marked :=
       BattleRoom.set_state
         (BattleState.set_players players' (BattleRoom.state this)) this in
     (this' = marked \/ this' = BattleRoom.startCountdown marked) /\
     (this' <> marked ->
      BattleState.phase (BattleRoom.state this) = waiting /\
      Js.size players = 2%Z /\
      Forall (fun kv => PlayerSchema.ready (snd kv) = true) players')) /\
  BattleRoom.handleReady this' client = this'.
Proof.
  intros this' players.
  destruct (Js.get client players) as [player|] eqn:Eg.
  2:{ assert (Hsame : this' = this)
        by (unfold this', BattleRoom.handleReady; fold players; now rewrite Eg).
      split; [intros _; exact Hsame|]. split; [discriminate|].
      rewrite Hsame. unfold BattleRoom.handleReady. fold players. now rewrite Eg. }
  pose proof (handleReady_marked this client player Eg) as Hthis.
  cbv zeta in Hthis. fold this' in Hthis. fold players in Hthis.
  set (players' := Js.set client (PlayerSchema.set_ready true player) players) in *.
  set (marked := BattleRoom.set_state
                   (BattleState.set_players players' (BattleRoom.state this)) this) in *.
  assert (Hsize : Js.size players' = Js.size players)
    by (unfold Js.size, players'; now rewrite (length_set_present _ _ _ _ Eg)).
  split; [discriminate|]. split.
  - intros p Hp. injection Hp as <-. cbv zeta. fold players'. fold marked.
    destruct (forallb _ players' && _ && _)%bool eqn:Ec.
    + split; [now right|]. intros _.
      apply andb_true_iff in Ec. destruct Ec as [Ec Hw].
      apply andb_true_iff in Ec. destruct Ec as [Hall Hs].
      split; [|split].
      * destruct (BattleState.phase (BattleRoom.state this));
          try discriminate; reflexivity.
      * rewrite <- Hsize. now apply Z.eqb_eq.
      * apply Forall_forall. intros kv Hin.
        rewrite forallb_forall in Hall. now apply Hall.
    + split; [now left|]. intro H. now destruct H.
  - assert (Hget : Js.get client (BattleState.players (BattleRoom.state this'))
                   = Some (PlayerSchema.set_ready true player)).
    { rewrite Hthis. destruct (forallb _ players' && _ && _)%bool;
        cbn; apply get_set_same. }
    rewrite (handleReady_marked this' client _ Hget). cbv zeta.
    assert (Hpl : Js.set client
                    (PlayerSchema.set_ready true (PlayerSchema.set_ready true player))
                    (BattleState.players (BattleRoom.state this')) = players').
    { rewrite Hthis. destruct (forallb _ players' && _ && _)%bool;
        cbn [BattleRoom.state BattleRoom.startCountdown BattleRoom.set_state
             BattleRoom.combatSystem BattleRoom.set_combatSystem BattleRoom.emit
             BattleRoom.set_countdownInterval ServerCombatSystem.state
             ServerCombatSystem.set_state BattleState.players BattleState.set_players
             BattleState.set_phase BattleState.set_countdown marked];
        unfold players'; apply set_set_same. }
    rewrite Hpl. clearbody this'. subst this'.
    destruct (forallb _ players' && _ && _)%bool eqn:Ec.
    + cbn [BattleRoom.state BattleRoom.startCountdown BattleRoom.set_state
           BattleRoom.combatSystem BattleRoom.set_combatSystem BattleRoom.emit
           BattleRoom.set_countdownInterval ServerCombatSystem.state
           ServerCombatSystem.set_state BattleState.phase BattleState.set_players
           BattleState.set_phase BattleState.set_countdown Phase_eqb].
      rewrite andb_false_r. reflexivity.
    + cbn [BattleRoom.state BattleRoom.set_state marked
           BattleRoom.combatSystem BattleRoom.set_combatSystem
           ServerCombatSystem.state
           ServerCombatSystem.set_state BattleState.phase BattleState.set_players].
      fold (BattleRoom.state this). rewrite Ec. reflexivity.
Qed.

(** ** Summons *)

(** X19: a summon is refused, with one error to the sender and no other
    change to the room, in this order of checks: outside the playing phase
    (whoever sends it), for a unit that the catalog does not know, for a
    unit that is not in the sender's deck, and for a unit whose spawn
    cooldown has time left.  In the playing phase a summon from a client
    that is not a player is dropped without an answer. *)
Theorem handleSummon_refusals
    (allies : list UnitDefinition.t) (this : BattleRoom.t)
    (client unitId stamp : string) :
  let this' := BattleRoom.handleSummon allies this client unitId stamp in
  let refused code := this' = BattleRoom.sendError this client code in
  let players := BattleState.players (BattleRoom.state this) in
  (BattleState.phase (BattleRoom.state this) <> playing ->
   refused BattleRoom.GAME_NOT_PLAYING) /\
  (BattleState.phase (BattleRoom.state this) = playing ->
   (Js.get client players = None -> this' = this) /\
   (forall player, Js.get client players = Some player ->
      (Units.getUnitDefinition allies unitId = None ->
       refused BattleRoom.INVALID_UNIT) /\
      (forall definition, Units.getUnitDefinition allies unitId = Some definition ->
         (Js.includes unitId (PlayerSchema.deck player) = false ->
          refused BattleRoom.UNIT_NOT_IN_DECK) /\
         (forall cooldowns remaining,
            Js.includes unitId (PlayerSchema.deck player) = true ->
            Js.get client (BattleRoom.spawnCooldowns this) = Some cooldowns ->
            Js.get unitId cooldowns = Some remaining ->
            0 < remaining ->
            refused BattleRoom.COOLDOWN)))).
Proof.
  intros this' refused players. subst this' refused.
  unfold BattleRoom.handleSummon. fold players. split.
  - intro Hp. destruct (BattleState.phase (BattleRoom.state this));
      try reflexivity. contradiction.
  - intros ->. cbn [Phase_eqb negb]. split.
    + now intros ->.
    + intros player ->. split.
      * now intros ->.
      * intros definition ->. split.
        -- now intros ->.
        -- intros cooldowns remaining -> -> -> Hpos. cbn [negb].
           assert (Hc : Js.gtb (Js.numOr (Some remaining) 0) 0 = true).
           { unfold Js.numOr, Js.or, Js.truthyNum.
             destruct (Qeq_bool remaining 0) eqn:Ez; cbn [negb].
             - apply Qeq_bool_iff in Ez. lra.
             - now apply gtb_gt. }
           now rewrite Hc.
Qed.

Section SummonSpawns.
Import BattleRoom.
Variable allies : list UnitDefinition.t.

Lemma sideName_truthy (side : Side) (rest : string) :
  Js.truthy (sideName side ++ rest) = true.
Proof. destruct side; reflexivity. Qed.

Lemma getPlayerSide_putPlayer (cs : ServerCombatSystem.t) (k s : string)
    (p p' : PlayerSchema.t) :
  Js.get k (BattleState.players (ServerCombatSystem.state cs)) = Some p ->
  ServerCombatSystem.getPlayerSide (ServerCombatSystem.putPlayer cs k p') s
  = ServerCombatSystem.getPlayerSide cs s.
Proof.
  intro H. unfold ServerCombatSystem.getPlayerSide. fields.
  now rewrite (keys_set_present _ _ _ _ H).
Qed.

Lemma numOr_positive (v : Q) : 0 < v -> Js.numOr (Some v) 0 = v.
Proof.
  intro H. unfold Js.numOr, Js.or, Js.truthyNum.
  destruct (Qeq_bool v 0) eqn:Ez; cbn [negb]; [|reflexivity].
  apply Qeq_bool_iff in Ez. lra.
Qed.

End SummonSpawns.

(** X20: a summon that passes every check takes the cost of the unit from
    the sender, puts the unit on the sender's side of the lane, 50 from the
    castle, with full hit points and in state SPAWN, replicates it, starts
    the spawn cooldown of the unit (its own, else that of its rarity, else
    3000 ms) and broadcasts the unit; and while that cooldown is positive a
    further summon of the same unit by the sender is refused with
    COOLDOWN. *)
Theorem handleSummon_spawns
    (allies : list UnitDefinition.t) (this : BattleRoom.t)
    (client unitId stamp : string) (player : PlayerSchema.t)
    (definition : UnitDefinition.t) (side : Side) (cooldowns : Js.map Q) :
  BattleState.phase (BattleRoom.state this) = playing ->
  Js.get client (BattleState.players (BattleRoom.state this)) = Some player ->
  PlayerSchema.sessionId player = client ->
  ServerCombatSystem.getPlayerSide (BattleRoom.combatSystem this) client = Some side ->
  Units.getUnitDefinition allies unitId = Some definition ->
  Js.includes unitId (PlayerSchema.deck player) = true ->
  Js.get client (BattleRoom.spawnCooldowns this) = Some cooldowns ->
  Js.numOr (Js.get unitId cooldowns) 0 <= 0 ->
  UnitDefinition.cost definition <= PlayerSchema.cost player ->
  let this' := BattleRoom.handleSummon allies this client unitId stamp in
  let instanceId := sideName side ++ "_" ++ unitId ++ "_" ++ stamp in
  let spawnX : Q := match side with player1 => 80 + 50 | player2 => 1120 - 50 end in
  let width := 60 * Js.numOr (UnitDefinition.scale definition) 1 in
  let cooldownMs :=
    Js.numOr
      (Js.or (UnitDefinition.spawnCooldownMs definition)
             (Js.get (UnitDefinition.rarity definition)
                     BattleRoom.DEFAULT_SPAWN_COOLDOWNS)) 3000 in
  let schema :=
    UnitSchema.mk instanceId unitId side spawnX (UnitDefinition.maxHp definition)
      (UnitDefinition.maxHp definition) SPAWN 0 "" width in
  BattleState.players (BattleRoom.state this')
  = Js.set client
      (PlayerSchema.set_cost (PlayerSchema.cost player - UnitDefinition.cost definition)
                             player)
      (BattleState.players (BattleRoom.state this)) /\
  ServerCombatSystem.serverUnits (BattleRoom.combatSystem this')
  = Js.set instanceId
      (ServerUnit.mk instanceId unitId definition side spawnX
         (UnitDefinition.maxHp definition) (UnitDefinition.maxHp definition)
         SPAWN 0 None 0 width)
      (ServerCombatSystem.serverUnits (BattleRoom.combatSystem this)) /\
  BattleState.units (BattleRoom.state this')
  = Js.set instanceId schema (BattleState.units (BattleRoom.state this)) /\
  BattleRoom.spawnCooldowns this'
  = Js.set client (Js.set unitId cooldownMs cooldowns) (BattleRoom.spawnCooldowns this) /\
  BattleRoom.effects this'
  = (BattleRoom.effects this
     ++ [BattleRoom.Broadcast (BattleRoom.unit_spawned schema)])%list /\
  BattleState.phase (BattleRoom.state this') = playing /\
  (0 < cooldownMs ->
   forall stamp',
     BattleRoom.handleSummon allies this' client unitId stamp'
     = BattleRoom.sendError this' client BattleRoom.COOLDOWN).
Proof.
  intros Hphase Hplayer Hsid Hside Hdef Hdeck Hcd Hoff Hcost
         this' instanceId spawnX width cooldownMs schema.
  assert (Hchecked : forall cds,
            Js.get client (BattleRoom.spawnCooldowns this) = Some cds ->
            Js.numOr (Js.get unitId cds) 0 <= 0)
    by (intros cds Hc; rewrite Hcd in Hc; now injection Hc as <-).
  assert (Hthis' : this' =
    BattleRoom.emit (BattleRoom.Broadcast (BattleRoom.unit_spawned schema))
      (BattleRoom.set_spawnCooldowns
         (Js.set client (Js.set unitId cooldownMs cooldowns)
                 (BattleRoom.spawnCooldowns this))
         (BattleRoom.set_combatSystem
            (ServerCombatSystem.set_state
               (BattleState.set_units
                  (Js.set instanceId schema (BattleState.units (BattleRoom.state this)))
                  (BattleState.set_players
                     (Js.set client
                        (PlayerSchema.set_cost
                           (PlayerSchema.cost player - UnitDefinition.cost definition)
                           player)
                        (BattleState.players (BattleRoom.state this)))
                     (BattleRoom.state this)))
               (ServerCombatSystem.set_serverUnits
                  (Js.set instanceId
                     (ServerUnit.mk instanceId unitId definition side spawnX
                        (UnitDefinition.maxHp definition)
                        (UnitDefinition.maxHp definition) SPAWN 0 None 0 width)
                     (ServerCombatSystem.serverUnits (BattleRoom.combatSystem this)))
                  (BattleRoom.combatSystem this)))
            this))).
  { unfold this'.
    rewrite (handleSummon_checked allies _ _ _ _ _ _ Hphase Hplayer Hdef Hdeck Hchecked).
    unfold ServerCostSystem.canAfford, ServerCostSystem.spend.
    apply geb_ge in Hcost. rewrite Hcost. cbn [negb fst]. cbv zeta.
    cbn [BattleRoom.combatSystem BattleRoom.set_combatSystem].
    unfold ServerCombatSystem.spawnUnit. rewrite Hdef.
    change (PlayerSchema.sessionId
              (PlayerSchema.set_cost
                 (PlayerSchema.cost player - UnitDefinition.cost definition) player))
      with (PlayerSchema.sessionId player).
    rewrite Hsid, (getPlayerSide_putPlayer _ _ _ _ _ Hplayer), Hside.
    cbv zeta. fields.
    fold instanceId.
    unfold instanceId at 1. rewrite sideName_truthy. cbn [negb].
    rewrite Hcd. fields. rewrite get_set_same.
    unfold ServerCombatSystem.CASTLE_POSITIONS, ServerCombatSystem.DEFAULT_UNIT_WIDTH.
    fold width. fold cooldownMs.
    destruct side; reflexivity. }
  rewrite Hthis'. fields.
  repeat split; try reflexivity; try exact Hphase.
  intros Hpos stamp'. unfold BattleRoom.handleSummon. fields.
  rewrite Hphase. cbn [Phase_eqb negb].
  rewrite get_set_same, Hdef. fields. rewrite Hdeck. cbn [negb].
  rewrite !get_set_same. rewrite (numOr_positive _ Hpos).
  apply gtb_gt in Hpos. now rewrite Hpos.
Qed.

Lemma handleSummon_spawns_witness :
  BattleState.phase
    (BattleRoom.state
       (BattleRoom.handleSummon Example.allies Example.started "alice" "sword" "1_x"))
  = playing.
Proof.
  refine (proj1 (proj2 (proj2 (proj2 (proj2 (proj2
    (handleSummon_spawns Example.allies Example.started "alice" "sword" "1_x"
       Example.alice Example.sword player1 [] _ _ _ _ _ _ _ _ _))))))).
  all: vm_compute; try reflexivity; discriminate.
Defined.

(** ** A summon that is paid for is a summon that spawns *)



(** ** Upgrades *)

(** X21: an upgrade is refused outside the playing phase and when the
    player cannot upgrade, each time with one error to the sender and no
    other change; from a client that is not a player it is dropped; and
    when the player can upgrade, the upgrade is done on that player alone
    and without any message. *)
Theorem handleUpgradeCost_upgrades_silently (this : BattleRoom.t) (client : string) :
  let this' := BattleRoom.handleUpgradeCost this client in
  let players := BattleState.players (BattleRoom.state this) in
  (BattleState.phase (BattleRoom.state this) <> playing ->
   this' = BattleRoom.sendError this client BattleRoom.GAME_NOT_PLAYING) /\
  (BattleState.phase (BattleRoom.state this) = playing ->
   (Js.get client players = None -> this' = this) /\
   (forall player, Js.get client players = Some player ->
      (ServerCostSystem.canUpgrade player = false ->
       this' = BattleRoom.sendError this client BattleRoom.CANNOT_UPGRADE) /\
      (ServerCostSystem.canUpgrade player = true ->
       snd (ServerCostSystem.upgradeMax player) = true /\
       this' =
       BattleRoom.set_state
         (BattleState.set_players
            (Js.set client (fst (ServerCostSystem.upgradeMax player)) players)
            (BattleRoom.state this))
         this))).
Proof.
  intros this' players. subst this'. unfold BattleRoom.handleUpgradeCost.
  fold players. split.
  - intro Hp. destruct (BattleState.phase (BattleRoom.state this));
      try reflexivity. contradiction.
  - intros ->. cbn [Phase_eqb negb]. split; [now intros ->|].
    intros player ->. split; [now intros ->|].
    intros Hc. rewrite Hc. cbn [negb].
    split; [|reflexivity].
    now rewrite (proj1 (upgradeMax_agrees_with_canUpgrade player)).
Qed.

(** ** Leaving *)

Lemma BattleState_ext (s s' : BattleState.t) :
  BattleState.phase s = BattleState.phase s' ->
  BattleState.gameTime s = BattleState.gameTime s' ->
  BattleState.countdown s = BattleState.countdown s' ->
  BattleState.stageLength s = BattleState.stageLength s' ->
  BattleState.players s = BattleState.players s' ->
  BattleState.units s = BattleState.units s' ->
  BattleState.winnerId s = BattleState.winnerId s' ->
  BattleState.winReason s = BattleState.winReason s' ->
  BattleState.gameSpeed s = BattleState.gameSpeed s' ->
  BattleState.speedVotes s = BattleState.speedVotes s' ->
  s = s'.
Proof. destruct s, s'; cbn; intros; subst; reflexivity. Qed.

Section Leave.
Import BattleRoom.

Lemma size_delete_present {V} (k : string) (v : V) (m : Js.map V) :
  Js.get k m = Some v -> Js.size (Js.delete k m) = (Js.size m - 1)%Z.
Proof.
  unfold Js.size. induction m as [|[k' v'] m IH]; cbn [Js.get]; [discriminate|].
  cbn [Js.delete]. destruct (k' =? k)%string.
  - intros _. cbn [List.length]. lia.
  - intro H. specialize (IH H). cbn [List.length]. lia.
Qed.

(** The part of [onLeave] that ends the match touches the phase, the
    winner, the reason and the game loop, and nothing else. *)
Lemma onLeave_verdict (r : t) (client : string) :
  let ended :=
    if Phase_eqb (BattleState.phase (state r)) playing
       || Phase_eqb (BattleState.phase (state r)) countdown_phase
    then
      match Js.get client (BattleState.players (state r)) with
      | Some leavingPlayer =>
          let this :=
            fold_left
              (fun this kv =>
                 if negb (fst kv =? client)%string then
                   let this :=
                     set_state
                       (BattleState.set_winnerId (fst kv) (state this)) this in
                   set_state
                     (BattleState.set_winReason "opponent_disconnected"
                                                (state this)) this
                 else this)
              (BattleState.players (state r)) r in
          let this :=
            set_state (BattleState.set_phase finished (state this)) this in
          stopGameLoop this
      | None => r
      end
    else r in
  BattleState.set_phase waiting
    (BattleState.set_winnerId "" (BattleState.set_winReason "" (state ended)))
  = BattleState.set_phase waiting
      (BattleState.set_winnerId "" (BattleState.set_winReason "" (state r))) /\
  ServerCombatSystem.serverUnits (combatSystem ended)
  = ServerCombatSystem.serverUnits (combatSystem r) /\
  ServerCombatSystem.killCounts (combatSystem ended)
  = ServerCombatSystem.killCounts (combatSystem r) /\
  spawnCooldowns ended = spawnCooldowns r /\
  effects ended = effects r /\
  metadata ended = metadata r /\
  countdownInterval ended = countdownInterval r /\
  lastUpdateTime ended = lastUpdateTime r /\
  (BattleState.phase (state r) = waiting \/ BattleState.phase (state r) = finished
   \/ Js.get client (BattleState.players (state r)) = None ->
   ended = r).
Proof.
  cbv zeta.
  assert (Hfold : forall (l : list (string * PlayerSchema.t)) (x : t),
    let y :=
      fold_left
        (fun this kv =>
           if negb (fst kv =? client)%string then
             let this :=
               set_state (BattleState.set_winnerId (fst kv) (state this)) this in
             set_state
               (BattleState.set_winReason "opponent_disconnected" (state this)) this
           else this) l x in
    BattleState.set_phase waiting
      (BattleState.set_winnerId "" (BattleState.set_winReason "" (state y)))
    = BattleState.set_phase waiting
        (BattleState.set_winnerId "" (BattleState.set_winReason "" (state x))) /\
    ServerCombatSystem.serverUnits (combatSystem y)
    = ServerCombatSystem.serverUnits (combatSystem x) /\
    ServerCombatSystem.killCounts (combatSystem y)
    = ServerCombatSystem.killCounts (combatSystem x) /\
    spawnCooldowns y = spawnCooldowns x /\
    effects y = effects x /\
    metadata y = metadata x /\
    countdownInterval y = countdownInterval x /\
    lastUpdateTime y = lastUpdateTime x /\
    gameLoop y = gameLoop x).
  { induction l as [|kv l IH]; intro x; cbn [fold_left]; [repeat split|].
    cbv zeta in IH |- *.
    match goal with |- context [fold_left ?f l ?z] =>
      destruct (IH z) as (-> & -> & -> & -> & -> & -> & -> & -> & ->) end.
    destruct (negb _); repeat split. }
  destruct (Phase_eqb (BattleState.phase (state r)) playing
            || Phase_eqb (BattleState.phase (state r)) countdown_phase)%bool eqn:Ep.
  2:{ repeat split. }
  destruct (Js.get client (BattleState.players (state r))) as [p|] eqn:Eg.
  2:{ repeat split. }
  match goal with |- context [fold_left ?f ?l r] =>
    destruct (Hfold l r) as (H1 & H2 & H3 & H4 & H5 & H6 & H7 & H8 & H9);
    cbv zeta in H1, H2, H3, H4, H5, H6, H7, H8, H9;
    set (y := fold_left f l r) in *
  end.
  unfold stopGameLoop. fields.
  destruct (gameLoop y); fields;
    (split; [exact H1|]); repeat split; try assumption.
  all: intros [Hw|[Hw|Hw]]; try discriminate;
    rewrite Hw in Ep; discriminate.
Qed.

End Leave.

(** X22: a leave removes the client from the players, the votes and the
    cooldowns, settles the speed anew and broadcasts it; when a player
    leaves a room of at most two, the speed is back at 1.  Outside the
    countdown and the match, and for a client that is not a player, the
    phase, the winner and the game loop are left alone; the units, the
    kill counts, the clock and the listing always are. *)
Theorem onLeave_frees_the_seat (this : BattleRoom.t) (client : string)
    (consented : bool) :
  let this' := BattleRoom.onLeave this client consented in
  let st := BattleRoom.state this in
  let st' := BattleRoom.state this' in
  let bare (s : BattleState.t) :=
    BattleState.set_phase waiting
      (BattleState.set_winnerId ""
         (BattleState.set_winReason ""
            (BattleState.set_players []
               (BattleState.set_speedVotes [] (BattleState.set_gameSpeed 0 s))))) in
  BattleState.players st' = Js.delete client (BattleState.players st) /\
  BattleState.speedVotes st' = Js.delete client (BattleState.speedVotes st) /\
  BattleRoom.spawnCooldowns this' = Js.delete client (BattleRoom.spawnCooldowns this) /\
  BattleState.gameSpeed st'
  = Speed.agreed (BattleState.players st') (BattleState.speedVotes st') /\
  ((Js.size (BattleState.players st) <= 2)%Z ->
   Js.get client (BattleState.players st) <> None ->
   BattleState.gameSpeed st' = 1%Z) /\
  bare st' = bare st /\
  ServerCombatSystem.serverUnits (BattleRoom.combatSystem this')
  = ServerCombatSystem.serverUnits (BattleRoom.combatSystem this) /\
  ServerCombatSystem.killCounts (BattleRoom.combatSystem this')
  = ServerCombatSystem.killCounts (BattleRoom.combatSystem this) /\
  BattleRoom.metadata this' = BattleRoom.metadata this /\
  BattleRoom.countdownInterval this' = BattleRoom.countdownInterval this /\
  BattleRoom.lastUpdateTime this' = BattleRoom.lastUpdateTime this /\
  BattleRoom.effects this'
  = (BattleRoom.effects this
     ++ [BattleRoom.Broadcast
           (BattleRoom.speed_update (BattleState.gameSpeed st')
              (BattleRoom.getSpeedVotesObject this'))])%list /\
  (BattleState.phase st = waiting \/ BattleState.phase st = finished
   \/ Js.get client (BattleState.players st) = None ->
   BattleState.phase st' = BattleState.phase st /\
   BattleState.winnerId st' = BattleState.winnerId st /\
   BattleState.winReason st' = BattleState.winReason st /\
   BattleRoom.gameLoop this' = BattleRoom.gameLoop this).
Proof.
  intros this' st st' bare. subst this' st st' bare.
  unfold BattleRoom.onLeave.
  pose proof (onLeave_verdict this client) as Hv. cbv zeta in Hv |- *.
  match type of Hv with context [BattleRoom.state ?e] =>
    match e with
    | this => fail 1
    | _ => set (ended := e) in *
    end
  end.
  destruct Hv as (H1 & H2 & H3 & H4 & H5 & H6 & H7 & H8 & Hout).
  clearbody ended.
  rewrite recalculateGameSpeed_agreed. cbv zeta. fields.
  assert (Hplayers : BattleState.players (BattleRoom.state ended)
                     = BattleState.players (BattleRoom.state this))
    by (apply (f_equal BattleState.players) in H1; exact H1).
  assert (Hvotes : BattleState.speedVotes (BattleRoom.state ended)
                   = BattleState.speedVotes (BattleRoom.state this))
    by (apply (f_equal BattleState.speedVotes) in H1; exact H1).
  rewrite Hplayers, Hvotes, H2, H3, H4, H5, H6, H7, H8.
  split; [reflexivity|]. split; [reflexivity|]. split; [reflexivity|].
  split; [reflexivity|]. split.
  { intros Hsize Hin.
    destruct (Js.get client (BattleState.players (BattleRoom.state this)))
      as [p|] eqn:Eg; [|now destruct Hin].
    unfold Speed.agreed. rewrite (size_delete_present _ _ _ Eg).
    destruct (_ <? 2)%Z eqn:El; [reflexivity|]. apply Z.ltb_ge in El. lia. }
  split.
  { assert (Hgt : BattleState.gameTime (BattleRoom.state ended)
                  = BattleState.gameTime (BattleRoom.state this))
      by (apply (f_equal BattleState.gameTime) in H1; exact H1).
    assert (Hcd : BattleState.countdown (BattleRoom.state ended)
                  = BattleState.countdown (BattleRoom.state this))
      by (apply (f_equal BattleState.countdown) in H1; exact H1).
    assert (Hsl : BattleState.stageLength (BattleRoom.state ended)
                  = BattleState.stageLength (BattleRoom.state this))
      by (apply (f_equal BattleState.stageLength) in H1; exact H1).
    assert (Hun : BattleState.units (BattleRoom.state ended)
                  = BattleState.units (BattleRoom.state this))
      by (apply (f_equal BattleState.units) in H1; exact H1).
    apply BattleState_ext; fields; unfold BattleRoom.state in *; congruence. }
  repeat (split; [reflexivity|]).
  intro Hcase. rewrite (Hout Hcase). repeat split.
Qed.

(** ** The tick of the room *)

Section RoomTick.
Import BattleRoom.

Lemma tick_unfold (this : t) (now : Z) :
  tick this now =
  let cs := ServerCombatSystem.update (Tick.beforeUpdate this now)
                                      (Tick.adjustedDelta this now) in
  let synced :=
    emit (Broadcast (players_sync (BattleState.players (ServerCombatSystem.state cs))))
      (emit (Broadcast
               (units_sync (Js.values (BattleState.units (ServerCombatSystem.state cs)))))
         (set_combatSystem cs
            (set_spawnCooldowns (Tick.cooledDown this now)
               (set_lastUpdateTime now this)))) in
  if Phase_eqb (BattleState.phase (ServerCombatSystem.state cs)) finished then
    let stopped := saveBattleResult (stopGameLoop synced) in
    emit (Broadcast
            (phase_change finished None
               (Some (BattleState.winnerId (ServerCombatSystem.state cs),
                      BattleState.winReason (ServerCombatSystem.state cs)))
               (BattleState.gameSpeed (ServerCombatSystem.state cs))
               (getSpeedVotesObject stopped))) stopped
  else synced.
Proof.
  unfold tick, Tick.beforeUpdate, Tick.adjustedDelta, Tick.cooledDown. cbv zeta.
  fields.
  destruct (Phase_eqb _ finished); [|reflexivity].
  unfold stopGameLoop, saveBattleResult. fields.
  destruct (gameLoop this); fields;
    destruct (BattleState.players _) as [|[? ?] [|[? ?] [|? ?]]]; reflexivity.
Qed.

Lemma stopGameLoop_fields (x : t) :
  gameLoop (stopGameLoop x) = false /\
  combatSystem (stopGameLoop x) = combatSystem x /\
  effects (stopGameLoop x) = effects x /\
  spawnCooldowns (stopGameLoop x) = spawnCooldowns x /\
  lastUpdateTime (stopGameLoop x) = lastUpdateTime x /\
  metadata (stopGameLoop x) = metadata x /\
  countdownInterval (stopGameLoop x) = countdownInterval x.
Proof.
  unfold stopGameLoop. destruct (gameLoop x) eqn:E; repeat split; exact E.
Qed.

Lemma saveBattleResult_two (x : t) (k1 k2 : string) (p1 p2 : PlayerSchema.t) :
  BattleState.players (state x) = [(k1, p1); (k2, p2)] ->
  saveBattleResult x =
  emit (Save
          (mkBattleResult
             (PlayerSchema.odeyoId p1) (PlayerSchema.odeyoId p2)
             (PlayerSchema.displayName p1) (PlayerSchema.displayName p2)
             (PlayerSchema.deck p1) (PlayerSchema.deck p2)
             (if (BattleState.winnerId (state x) =? k2)%string then 2%Z else 1%Z)
             (PlayerSchema.castleHp p1) (PlayerSchema.castleHp p2)
             (ServerCombatSystem.getKillCount (combatSystem x) k1)
             (ServerCombatSystem.getKillCount (combatSystem x) k2)
             (Qfloor (BattleState.gameTime (state x) / 1000))
             (strOr (Some (BattleState.winReason (state x))) "castle_destroyed")))
       x.
Proof. intro H. unfold saveBattleResult. now rewrite H. Qed.

End RoomTick.

(** X23: a tick of a match hands the simulator to [update], broadcasts
    the units and the players, and goes on while both castles stand.  When
    a castle has fallen it stops the game loop, saves the result once and
    broadcasts the end of the match: the winner is player2 whenever the
    castle of player1 is down, player1 otherwise, and the result that is
    saved names that winner by number and carries the castles, the kill
    counts and the whole seconds of game time. *)
Theorem tick_saves_the_castle_win
    (this : BattleRoom.t) (now : Z) (k1 k2 : string) (p1 p2 : PlayerSchema.t) :
  BattleState.phase (BattleRoom.state this) = playing ->
  let cs := ServerCombatSystem.update (Tick.beforeUpdate this now)
                                      (Tick.adjustedDelta this now) in
  BattleState.players (ServerCombatSystem.state cs) = [(k1, p1); (k2, p2)] ->
  k1 <> k2 ->
  PlayerSchema.sessionId p1 = k1 ->
  PlayerSchema.sessionId p2 = k2 ->
  let this' := BattleRoom.tick this now in
  let synced :=
    [BattleRoom.Broadcast
       (BattleRoom.units_sync
          (Js.values (BattleState.units (ServerCombatSystem.state cs))));
     BattleRoom.Broadcast (BattleRoom.players_sync [(k1, p1); (k2, p2)])] in
  BattleRoom.combatSystem this' = cs /\
  BattleRoom.lastUpdateTime this' = now /\
  BattleRoom.spawnCooldowns this' = Tick.cooledDown this now /\
  (0 < PlayerSchema.castleHp p1 -> 0 < PlayerSchema.castleHp p2 ->
   BattleState.phase (ServerCombatSystem.state cs) = playing /\
   BattleRoom.gameLoop this' = BattleRoom.gameLoop this /\
   BattleRoom.effects this' = (BattleRoom.effects this ++ synced)%list) /\
  (PlayerSchema.castleHp p1 <= 0 \/ PlayerSchema.castleHp p2 <= 0 ->
   let player2Wins := Js.leb (PlayerSchema.castleHp p1) 0 in
   let winner := if player2Wins then k2 else k1 in
   BattleState.phase (ServerCombatSystem.state cs) = finished /\
   BattleState.winnerId (ServerCombatSystem.state cs) = winner /\
   BattleState.winReason (ServerCombatSystem.state cs) = "castle_destroyed" /\
   BattleRoom.gameLoop this' = false /\
   BattleRoom.effects this'
   = (BattleRoom.effects this ++ synced
      ++ [BattleRoom.Save
            (BattleRoom.mkBattleResult
               (PlayerSchema.odeyoId p1) (PlayerSchema.odeyoId p2)
               (PlayerSchema.displayName p1) (PlayerSchema.displayName p2)
               (PlayerSchema.deck p1) (PlayerSchema.deck p2)
               (if player2Wins then 2%Z else 1%Z)
               (PlayerSchema.castleHp p1) (PlayerSchema.castleHp p2)
               (ServerCombatSystem.getKillCount cs k1)
               (ServerCombatSystem.getKillCount cs k2)
               (Qfloor (BattleState.gameTime (ServerCombatSystem.state cs) / 1000))
               "castle_destroyed");
          BattleRoom.Broadcast
            (BattleRoom.phase_change finished None
               (Some (winner, "castle_destroyed"))
               (BattleState.gameSpeed (ServerCombatSystem.state cs))
               (BattleRoom.getSpeedVotesObject this'))])%list).
Proof.
  intros Hphase cs Hplayers Hne Hs1 Hs2 this' synced.
  (* the win check at the end of [update] *)
  assert (Hwin : exists pre,
    cs = ServerCombatSystem.checkWinCondition pre /\
    BattleState.phase (ServerCombatSystem.state pre) = playing /\
    BattleState.players (ServerCombatSystem.state pre) = [(k1, p1); (k2, p2)]).
  { pose proof (update_before_win_check (Tick.beforeUpdate this now)
                  (Tick.adjustedDelta this now)) as Hc.
    match type of Hc with Trace.control ?x = _ => set (pre := x) in * end.
    exists pre.
    assert (Hcs : cs = ServerCombatSystem.checkWinCondition pre) by reflexivity.
    split; [exact Hcs|].
    unfold Trace.control in Hc. injection Hc as Hp _ _.
    split.
    - rewrite Hp. exact Hphase.
    - rewrite <- Hplayers, Hcs. symmetry. apply playersOf_checkWinCondition. }
  destruct Hwin as (pre & Hcs & Hpre & Hprepl).
  destruct (checkWinCondition_decides pre k1 k2 p1 p2 Hpre Hprepl Hne)
    as (Hstand & Hp1wins & Hp2wins).
  cbv zeta in Hstand, Hp1wins, Hp2wins. rewrite <- Hcs in Hstand, Hp1wins, Hp2wins.
  assert (Hthis : this' = BattleRoom.tick this now) by reflexivity.
  rewrite tick_unfold in Hthis. cbv zeta in Hthis. fold cs in Hthis.
  clearbody this' cs.
  assert (Hfacts :
    (0 < PlayerSchema.castleHp p1 -> 0 < PlayerSchema.castleHp p2 ->
     BattleState.phase (ServerCombatSystem.state cs) = playing) /\
    (PlayerSchema.castleHp p1 <= 0 \/ PlayerSchema.castleHp p2 <= 0 ->
     BattleState.phase (ServerCombatSystem.state cs) = finished /\
     BattleState.winnerId (ServerCombatSystem.state cs)
     = (if Js.leb (PlayerSchema.castleHp p1) 0 then k2 else k1) /\
     BattleState.winReason (ServerCombatSystem.state cs) = "castle_destroyed")).
  { split.
    - intros H1 H2. rewrite (Hstand H1 H2). exact Hpre.
    - intros Hdown. destruct (Js.leb (PlayerSchema.castleHp p1) 0) eqn:E1.
      + apply leb_le in E1. rewrite (Hp2wins E1). rewrite <- Hs2. repeat split.
      + apply leb_gt in E1. destruct Hdown as [Hd|Hd]; [lra|].
        rewrite (Hp1wins E1 Hd). rewrite <- Hs1. repeat split. }
  destruct Hfacts as [Hplay Hfin].
  assert (Hdec : (0 < PlayerSchema.castleHp p1 /\ 0 < PlayerSchema.castleHp p2)
                 \/ (PlayerSchema.castleHp p1 <= 0 \/ PlayerSchema.castleHp p2 <= 0)).
  { destruct (Qlt_le_dec 0 (PlayerSchema.castleHp p1));
      destruct (Qlt_le_dec 0 (PlayerSchema.castleHp p2)); auto. }
  destruct Hdec as [[H1 H2]|Hdown].
  - specialize (Hplay H1 H2). rewrite Hplay in Hthis. cbn [Phase_eqb] in Hthis.
    rewrite Hthis, Hplayers. fields.
    split; [reflexivity|]. split; [reflexivity|]. split; [reflexivity|]. split.
    + intros _ _. rewrite <- app_assoc. cbn [app].
      repeat split; try assumption; reflexivity.
    + intros [Hd|Hd]; lra.
  - destruct (Hfin Hdown) as (Hph & Hw & Hr).
    rewrite Hph in Hthis. cbn [Phase_eqb] in Hthis.
    assert (Heq : ((if Js.leb (PlayerSchema.castleHp p1) 0 then k2 else k1) =? k2)%string
                  = Js.leb (PlayerSchema.castleHp p1) 0).
    { destruct (Js.leb (PlayerSchema.castleHp p1) 0);
        [apply String.eqb_refl | now apply String.eqb_neq]. }
    match type of Hthis with context [BattleRoom.stopGameLoop ?y] =>
      destruct (stopGameLoop_fields y) as (Hg & Hc & He & Hsc & Hl & _ & _);
      set (stopped := BattleRoom.stopGameLoop y) in *
    end.
    fields_in Hc. fields_in He. fields_in Hsc. fields_in Hl.
    assert (Hpl : BattleState.players (BattleRoom.state stopped) = [(k1, p1); (k2, p2)])
      by (unfold BattleRoom.state; rewrite Hc; exact Hplayers).
    rewrite (saveBattleResult_two stopped k1 k2 p1 p2 Hpl) in Hthis.
    clearbody stopped.
    unfold BattleRoom.state in Hthis. rewrite Hc, Hw, Hr, Heq in Hthis.
    unfold BattleRoom.strOr in Hthis.
    cbn [Js.truthy String.eqb negb] in Hthis.
    rewrite Hthis. fields. rewrite Hc, Hg, He, Hsc, Hl, Hplayers.
    split; [reflexivity|]. split; [reflexivity|]. split; [reflexivity|]. split.
    + intros H1 H2. destruct Hdown; lra.
    + intros _. cbv zeta. split; [exact Hph|]. split; [exact Hw|].
      split; [exact Hr|]. split; [reflexivity|].
      rewrite <- !app_assoc. cbn [app]. reflexivity.
Qed.

Lemma tick_saves_the_castle_win_witness :
  BattleRoom.lastUpdateTime (BattleRoom.tick Example.started 3050) = 3050%Z /\
  BattleRoom.gameLoop (BattleRoom.tick Example.started 3050)
  = BattleRoom.gameLoop Example.started.
Proof.
  edestruct (tick_saves_the_castle_win Example.started 3050%Z "alice" "bob")
    as (_ & Hl & _ & Hon & _).
  - reflexivity.
  - vm_compute. reflexivity.
  - discriminate.
  - reflexivity.
  - reflexivity.
  - split; [exact Hl|]. apply Hon; vm_compute; reflexivity.
Defined.

(** ** What the room does to the simulator *)

Section RoomMoves.
Import BattleRoom ServerCombatSystem Moves.
Variable allies : list UnitDefinition.t.

Ltac split_match :=
  match goal with
  | |- context [match ?x with _ => _ end] => destruct x
  end.

Lemma moves_trans (lapse : Q -> Prop) (cs cs' cs'' : ServerCombatSystem.t) :
  moves allies lapse cs cs' -> moves allies lapse cs' cs'' -> moves allies lapse cs cs''.
Proof.
  intros H1 H2. induction H2 as [|x y _ IH Hm]; [exact H1|].
  exact (moves_step allies lapse cs x y IH Hm).
Qed.

Lemma moves_one (lapse : Q -> Prop) (cs cs' : ServerCombatSystem.t) :
  move allies lapse cs cs' -> moves allies lapse cs cs'.
Proof. intro H. exact (moves_step allies lapse cs cs cs' (moves_refl allies lapse cs) H). Qed.

Lemma moves_lapse (lapse lapse' : Q -> Prop) (cs cs' : ServerCombatSystem.t) :
  (forall d, lapse d -> lapse' d) ->
  moves allies lapse cs cs' -> moves allies lapse' cs cs'.
Proof.
  intros Hl H. induction H as [|x y _ IH Hm]; [apply moves_refl|].
  apply (moves_step allies lapse' cs x y IH).
  destruct Hm; try (constructor; auto; fail).
Qed.

Lemma move_idle (lapse : Q -> Prop) (cs cs' : ServerCombatSystem.t) :
  idle cs cs' -> move allies lapse cs cs'.
Proof.
  destruct cs as [st su kc], cs' as [st' su' kc']. unfold idle. cbn.
  intros (-> & -> & H1 & H2 & H3).
  exact (move_settings allies lapse (mk st su kc) st' H1 H2 H3).
Qed.

Lemma idle_refl (cs : ServerCombatSystem.t) : idle cs cs.
Proof. repeat split. Qed.

Lemma idle_trans (cs cs' cs'' : ServerCombatSystem.t) :
  idle cs cs' -> idle cs' cs'' -> idle cs cs''.
Proof.
  unfold idle. intros (H1 & H2 & H3 & H4 & H5) (H1' & H2' & H3' & H4' & H5').
  repeat split; congruence.
Qed.

Ltac idly := unfold idle; cbv zeta; repeat split_match; repeat split.

Lemma idle_recalculateGameSpeed (r : BattleRoom.t) :
  idle (combatSystem r) (combatSystem (recalculateGameSpeed r)).
Proof. unfold recalculateGameSpeed. idly. Qed.

Lemma idle_startCountdown (r : BattleRoom.t) :
  idle (combatSystem r) (combatSystem (startCountdown r)).
Proof. unfold startCountdown. idly. Qed.

Lemma idle_countdownCallback (r : BattleRoom.t) (now : Z) :
  idle (combatSystem r) (combatSystem (countdownCallback r now)).
Proof. unfold countdownCallback, startGame. idly. Qed.

Lemma idle_handleSpeedVote (r : BattleRoom.t) (client : string) (enabled : option bool) :
  idle (combatSystem r) (combatSystem (handleSpeedVote r client enabled)).
Proof.
  unfold handleSpeedVote. cbv zeta. destruct (negb _); [apply idle_refl|].
  eapply idle_trans; [|apply idle_recalculateGameSpeed]. repeat split.
Qed.

Lemma moves_idle_after (lapse : Q -> Prop) (cs cs' cs'' : ServerCombatSystem.t) :
  move allies lapse cs cs' -> idle cs' cs'' -> moves allies lapse cs cs''.
Proof.
  intros H Hq.
  apply (moves_step allies lapse cs cs' cs''); [now apply moves_one | now apply move_idle].
Qed.

Lemma moves_onJoin (lapse : Q -> Prop) (r : BattleRoom.t) (client : string)
    (options : JoinOptions) (now : Z) :
  moves allies lapse (combatSystem r) (combatSystem (onJoin allies r client options now)).
Proof.
  unfold onJoin.
  destruct (Js.size (BattleState.players (BattleRoom.state r)) >=? 2)%Z eqn:Efull;
    [apply moves_refl|].
  cbv zeta.
  match goal with
  | |- context [ServerCostSystem.initialize ?p] =>
      assert (Hseat : move allies lapse (combatSystem r)
                        (putPlayer (combatSystem r) client (ServerCostSystem.initialize p)));
      [|set (player := ServerCostSystem.initialize p) in *]
  end.
  { apply move_seat; try reflexivity.
    rewrite Z.geb_leb in Efull. apply Z.leb_gt in Efull. exact Efull. }
  clearbody player.
  apply (moves_idle_after lapse _ _ _ Hseat).
  match goal with
  | |- idle ?a (combatSystem (if ?c then emit Lock ?x else ?x)) =>
      assert (Hx : idle a (combatSystem x)); [|destruct c; exact Hx]
  end.
  match goal with
  | |- idle ?a (combatSystem (emit _ (emit _ (emit _ (if ?c then _ else ?x))))) =>
      assert (Hx : idle a (combatSystem x)); [|destruct c; exact Hx]
  end.
  eapply idle_trans; [|apply idle_recalculateGameSpeed]. repeat split.
Qed.

Lemma idle_stopGameLoop (r : BattleRoom.t) :
  idle (combatSystem r) (combatSystem (stopGameLoop r)).
Proof. unfold stopGameLoop. idly. Qed.

Lemma moves_onLeave (lapse : Q -> Prop) (r : BattleRoom.t) (client : string)
    (consented : bool) :
  moves allies lapse (combatSystem r) (combatSystem (onLeave r client consented)).
Proof.
  unfold onLeave. cbv zeta.
  match goal with
  | |- context [Js.delete client (BattleState.players (BattleRoom.state ?x))] =>
      assert (Hx : idle (combatSystem r) (combatSystem x));
      [|set (verdict := x) in *; clearbody verdict]
  end.
  { destruct (_ || _)%bool; [|apply idle_refl].
    destruct (Js.get client _); [|apply idle_refl].
    eapply idle_trans; [|apply idle_stopGameLoop].
    match goal with
    | |- idle _ (combatSystem (BattleRoom.set_state (BattleState.set_phase _ _) ?x)) =>
        apply (idle_trans _ (combatSystem x)); [|repeat split]
    end.
    match goal with
    | |- context [fold_left ?f ?l r] =>
        assert (Hfold : forall l' (x : BattleRoom.t),
                  idle (combatSystem x) (combatSystem (fold_left f l' x)))
    end.
    { induction l' as [|kv l' IH]; intro x; cbn [fold_left]; [apply idle_refl|].
      eapply idle_trans; [|apply IH]. destruct (negb _); repeat split. }
    apply Hfold. }
  apply (moves_trans lapse _ (combatSystem verdict));
    [apply moves_one, move_idle, Hx|].
  eapply moves_idle_after; [apply (move_leave allies lapse _ client)|].
  eapply idle_trans; [|apply idle_recalculateGameSpeed]. repeat split.
Qed.

Lemma moves_handleReady (lapse : Q -> Prop) (r : BattleRoom.t) (client : string) :
  moves allies lapse (combatSystem r) (combatSystem (handleReady r client)).
Proof.
  unfold handleReady.
  destruct (Js.get client (BattleState.players (BattleRoom.state r))) as [player|] eqn:Eg;
    [|apply moves_refl].
  cbv zeta.
  eapply moves_idle_after; [exact (move_ready allies lapse _ client player Eg)|].
  destruct (_ && _)%bool; [|apply idle_refl].
  eapply idle_trans; [|apply idle_startCountdown]. apply idle_refl.
Qed.

Lemma moves_handleUpgradeCost (lapse : Q -> Prop) (r : BattleRoom.t) (client : string) :
  moves allies lapse (combatSystem r) (combatSystem (handleUpgradeCost r client)).
Proof.
  unfold handleUpgradeCost.
  destruct (negb _); [apply moves_refl|].
  destruct (Js.get client (BattleState.players (BattleRoom.state r))) as [player|] eqn:Eg;
    [|apply moves_refl].
  destruct (negb _); [apply moves_refl|].
  apply moves_one. exact (move_upgrade allies lapse _ client player Eg).
Qed.

Lemma moves_handleSummon (lapse : Q -> Prop) (r : BattleRoom.t)
    (client unitId stamp : string) :
  moves allies lapse (combatSystem r)
        (combatSystem (handleSummon allies r client unitId stamp)).
Proof.
  unfold handleSummon.
  destruct (negb _); [apply moves_refl|].
  destruct (Js.get client (BattleState.players (BattleRoom.state r))) as [player|] eqn:Eg;
    [|apply moves_refl].
  destruct (Units.getUnitDefinition allies unitId) as [definition|] eqn:Ed;
    [|apply moves_refl].
  destruct (negb _); [apply moves_refl|].
  destruct (match Js.get client (spawnCooldowns r) with
            | Some cooldowns => _ | None => false end); [apply moves_refl|].
  destruct (negb _); [apply moves_refl|].
  cbv zeta.
  pose proof (move_spend allies lapse (combatSystem r) client player definition Eg
                (unitsMap_In _ _ _ Ed)) as Hspend.
  match goal with
  | |- context [spawnUnit ?a ?cs ?p ?u ?s] =>
      pose proof (move_spawn allies lapse cs p u s) as Hspawn;
      destruct (spawnUnit a cs p u s) as [combat iid]
  end.
  cbn [fst] in Hspawn. fields_in Hspawn.
  apply (moves_trans lapse _ combat).
  - eapply moves_step; [apply moves_one, Hspend | exact Hspawn].
  - repeat split_match; apply moves_refl.
Qed.

Lemma combatSystem_tick (r : BattleRoom.t) (now : Z) :
  combatSystem (tick r now)
  = update (Tick.beforeUpdate r now) (Tick.adjustedDelta r now).
Proof.
  rewrite tick_unfold. cbv zeta.
  destruct (Phase_eqb _ finished); [|reflexivity].
  fields. now rewrite players_saveBattleResult, players_stopGameLoop.
Qed.

Lemma moves_tick (lapse : Q -> Prop) (r : BattleRoom.t) (now : Z) :
  lapse (Tick.adjustedDelta r now) ->
  moves allies lapse (combatSystem r) (combatSystem (tick r now)).
Proof.
  intro Hl. rewrite combatSystem_tick.
  eapply moves_step; [|exact (move_update allies lapse _ _ Hl)].
  unfold Tick.beforeUpdate. cbv zeta.
  apply (moves_step allies lapse _
           (set_state
              (BattleState.set_gameTime
                 (BattleState.gameTime (BattleRoom.state r) + Tick.adjustedDelta r now)
                 (BattleRoom.state r)) (combatSystem r))).
  - apply moves_one, move_idle. repeat split.
  - exact (move_regen allies lapse _ _ Hl).
Qed.

(** Every event of the room is a run of moves of the simulator; time
    passes in the tick of the game loop only. *)
Lemma moves_step_event (r : BattleRoom.t) (e : Event) :
  moves allies
        (fun d => exists now, e = GameLoopTimer now /\ gameLoop r = true /\
                              d = Tick.adjustedDelta r now)
        (combatSystem r) (combatSystem (step allies r e)).
Proof.
  destruct e; cbn [step].
  - apply moves_onJoin.
  - apply moves_onLeave.
  - apply moves_handleReady.
  - apply moves_handleSummon.
  - apply moves_handleUpgradeCost.
  - apply moves_one, move_idle, idle_handleSpeedVote.
  - destruct (countdownInterval r); [|apply moves_refl].
    apply moves_one, move_idle, idle_countdownCallback.
  - destruct (gameLoop r) eqn:Eg; [|apply moves_refl].
    apply moves_tick. exists now. auto.
Qed.

End RoomMoves.

(** ** What every event of the room keeps *)

Section RoomInvariants.
Import BattleRoom ServerCombatSystem Moves Steps.
Variable allies : list UnitDefinition.t.

Lemma moves_keep (lapse : Q -> Prop) (I : ServerCombatSystem.t -> Prop) :
  (forall cs cs', I cs -> move allies lapse cs cs' -> I cs') ->
  forall cs cs', moves allies lapse cs cs' -> I cs -> I cs'.
Proof.
  intros Hstep cs cs' H. induction H as [|x y _ IH Hm]; [auto|].
  intro Hi. exact (Hstep _ _ (IH Hi) Hm).
Qed.

Lemma run_keeps (I : BattleRoom.t -> Prop) :
  (forall r e, I r -> I (step allies r e)) ->
  forall trace r, I r -> I (run allies r trace).
Proof.
  intro Hstep. unfold run.
  induction trace as [|e trace IH]; intros r Hr; cbn [fold_left]; [exact Hr|].
  apply IH, Hstep, Hr.
Qed.

Lemma reachable_keeps (I : ServerCombatSystem.t -> Prop) :
  (forall now, I (combatSystem (onCreate now))) ->
  (forall cs cs', I cs -> move allies (fun _ => True) cs cs' -> I cs') ->
  forall r, Seats.reachable allies r -> I (combatSystem r).
Proof.
  intros Hinit Hmove r (now & trace & ->).
  apply (run_keeps (fun r => I (combatSystem r))); [|apply Hinit].
  intros x e Hx.
  apply (moves_keep (fun _ => True) I Hmove (combatSystem x)); [|exact Hx].
  eapply moves_lapse; [|apply moves_step_event]. auto.
Qed.

(** *** The roster *)

Lemma Forall2_set_left {A B} (R : string * A -> string * B -> Prop)
    (k : string) (v v0 : A) (m : Js.map A) (n : Js.map B) :
  (forall e, R (k, v0) e -> R (k, v) e) ->
  Js.get k m = Some v0 -> Forall2 R m n -> Forall2 R (Js.set k v m) n.
Proof.
  intros HR Hg H. induction H as [|[k0 a0] e m n Hr Ht IH]; cbn in *; [discriminate|].
  destruct (String.eqb_spec k0 k) as [->|Hne].
  - injection Hg as ->. constructor; [now apply HR | assumption].
  - constructor; [exact Hr | now apply IH].
Qed.

Lemma Forall2_set_right {A B} (R : string * A -> string * B -> Prop)
    (k : string) (w w0 : B) (m : Js.map A) (n : Js.map B) :
  (forall e, R e (k, w0) -> R e (k, w)) ->
  Js.get k n = Some w0 -> Forall2 R m n -> Forall2 R m (Js.set k w n).
Proof.
  intros HR Hg H. induction H as [|e [k0 b0] m n Hr Ht IH]; cbn in *; [discriminate|].
  destruct (String.eqb_spec k0 k) as [->|Hne].
  - injection Hg as ->. constructor; [now apply HR | assumption].
  - constructor; [exact Hr | now apply IH].
Qed.

Lemma Forall2_set_both {A B} (R : string * A -> string * B -> Prop)
    (k : string) (v : A) (w : B) (m : Js.map A) (n : Js.map B) :
  (forall a b, R a b -> fst b = fst a) ->
  R (k, v) (k, w) -> Forall2 R m n -> Forall2 R (Js.set k v m) (Js.set k w n).
Proof.
  intros Hkey Hr H. induction H as [|[k0 a0] [k1 b1] m n Hr0 Ht IH]; cbn.
  - constructor; [exact Hr | constructor].
  - pose proof (Hkey _ _ Hr0) as E. cbn in E. subst k1.
    destruct (k0 =? k)%string; constructor; auto.
Qed.

Lemma Forall2_delete_both {A B} (R : string * A -> string * B -> Prop)
    (k : string) (m : Js.map A) (n : Js.map B) :
  (forall a b, R a b -> fst b = fst a) ->
  Forall2 R m n -> Forall2 R (Js.delete k m) (Js.delete k n).
Proof.
  intros Hkey H. induction H as [|[k0 a0] [k1 b1] m n Hr0 Ht IH]; cbn.
  - constructor.
  - pose proof (Hkey _ _ Hr0) as E. cbn in E. subst k1.
    destruct (k0 =? k)%string; [assumption | constructor; auto].
Qed.

Lemma entry_key (a : string * ServerUnit.t) (b : string * UnitSchema.t) :
  Roster.entry a b -> fst b = fst a.
Proof. now intros [H _]. Qed.

Lemma entry_sameIdentity (k : string) (u u' : ServerUnit.t) (e : string * UnitSchema.t) :
  sameIdentity u u' -> Roster.entry (k, u) e -> Roster.entry (k, u') e.
Proof.
  unfold sameIdentity, Roster.entry, Roster.shows. cbn [fst snd].
  intros (H1 & H2 & H3 & H4 & H5 & H6) (Hk & Hi & S1 & S2 & S3 & S4).
  repeat split; congruence.
Qed.

Lemma entry_sameReplica (k : string) (s s' : UnitSchema.t) (e : string * ServerUnit.t) :
  sameReplica s s' -> Roster.entry e (k, s) -> Roster.entry e (k, s').
Proof.
  unfold sameReplica, Roster.entry, Roster.shows. cbn [fst snd].
  intros (H1 & H2 & H3 & H4) (Hk & Hi & S1 & S2 & S3 & S4).
  repeat split; congruence.
Qed.

Lemma struck_sameIdentity (stageLength : Q) (u : ServerUnit.t) (damage knockback : Q) :
  sameIdentity u (struck stageLength u damage knockback).
Proof.
  unfold struck, Outcome.killed, Outcome.knockedBack, Outcome.hit, sameIdentity.
  destruct (Js.leb _ 0); [|destruct (Outcome.knockbackFires _ _)]; fields; auto 7.
Qed.

Lemma change_kept (cs cs' : ServerCombatSystem.t) :
  Roster.kept cs -> change cs cs' -> Roster.kept cs'.
Proof.
  unfold Roster.kept. intros [Hnd Hf] Hc.
  destruct Hc as [k u u' Hu Hm|k u a Hu _ _|sid|sid p a _ _|k s s' Hs Hr|k|w _]; fields;
    try (split; assumption).
  - split; [now rewrite (keys_set_present _ _ _ _ Hu)|].
    apply (Forall2_set_left _ k u' u); [|exact Hu | exact Hf].
    intro e. apply entry_sameIdentity, Hm.
  - split; [now rewrite (keys_set_present _ _ _ _ Hu)|].
    apply (Forall2_set_left _ k _ u); [|exact Hu | exact Hf].
    intro e. apply entry_sameIdentity, struck_sameIdentity.
  - split; [exact Hnd|].
    apply (Forall2_set_right _ k s' s); [|exact Hs | exact Hf].
    intro e. now apply entry_sameReplica.
  - split; [now apply NoDup_keys_delete|].
    apply Forall2_delete_both; [exact entry_key | exact Hf].
Qed.

Lemma update_kept (cs : ServerCombatSystem.t) (d : Q) :
  Roster.kept cs -> Roster.kept (update cs d).
Proof. apply (changes_keep Roster.kept change_kept), changes_update. Qed.

Lemma spawnUnit_kept (cs : ServerCombatSystem.t) (p : PlayerSchema.t)
    (unitId stamp : string) :
  Roster.kept cs -> Roster.kept (fst (spawnUnit allies cs p unitId stamp)).
Proof.
  unfold Roster.kept, spawnUnit. intros [Hnd Hf].
  destruct (Units.getUnitDefinition allies unitId) as [definition|]; [|split; assumption].
  destruct (getPlayerSide cs (PlayerSchema.sessionId p)) as [side|]; [|split; assumption].
  cbv zeta. fields. split; [now apply NoDup_keys_set|].
  apply Forall2_set_both; [exact entry_key | | exact Hf].
  repeat split.
Qed.

Lemma move_kept (lapse : Q -> Prop) (cs cs' : ServerCombatSystem.t) :
  Roster.kept cs -> move allies lapse cs cs' -> Roster.kept cs'.
Proof.
  intros Hk Hm.
  destruct Hm as [st _ _ Hu|client player _ _ _ _|client|client player _
                 |client player definition _ _|client player _|player unitId stamp
                 |d _|d _];
    try exact Hk.
  - destruct Hk as [Hnd Hf]. split; fields; [exact Hnd | now rewrite Hu].
  - now apply spawnUnit_kept.
  - now apply update_kept.
Qed.

(** *** Hit points and castles *)

Lemma sane_In (definition : UnitDefinition.t) :
  Forall Catalog.sane allies -> In definition allies -> Catalog.sane definition.
Proof. intros H Hin. rewrite Forall_forall in H. now apply H. Qed.

Lemma spawnUnit_allSound (cs : ServerCombatSystem.t) (p : PlayerSchema.t)
    (unitId stamp : string) :
  Forall Catalog.sane allies ->
  Vital.allSound cs -> Vital.allSound (fst (spawnUnit allies cs p unitId stamp)).
Proof.
  unfold Vital.allSound, spawnUnit. intros Hall Hs.
  destruct (Units.getUnitDefinition allies unitId) as [definition|] eqn:Ed; [|exact Hs].
  destruct (getPlayerSide cs (PlayerSchema.sessionId p)) as [side|]; [|exact Hs].
  cbv zeta. fields.
  destruct (sane_In definition Hall (unitsMap_In _ _ _ Ed)) as (_ & Hhp & Hdmg & _).
  apply Forall_values_set; [|exact Hs].
  unfold Vital.sound. fields.
  split; [exact Hhp|]. split; [lra|]. split; [discriminate | exact Hdmg].
Qed.

Lemma bounded_worn (p p' : PlayerSchema.t) :
  Siege.worn p p' -> Castle.bounded p -> Castle.bounded p'.
Proof.
  unfold Siege.worn, Castle.bounded. intros [He Hw] [H0 Hmax].
  apply (f_equal PlayerSchema.maxCastleHp) in He. fields_in He.
  destruct (Hw H0) as [H0' Hle]. rewrite He. split; [exact H0' | lra].
Qed.

Lemma bounded_wornPlayers (m m' : Js.map PlayerSchema.t) :
  Siege.wornPlayers m m' ->
  Forall Castle.bounded (Js.values m) -> Forall Castle.bounded (Js.values m').
Proof.
  unfold Siege.wornPlayers, Js.values. intro H.
  induction H as [|kv kv' m m' [_ Hw] Ht IH]; cbn [List.map]; intro Hb; [constructor|].
  inversion Hb; subst. constructor; [now apply (bounded_worn (snd kv)) | auto].
Qed.

Lemma castle_spend (p : PlayerSchema.t) (amount : Q) :
  Castle.bounded p -> Castle.bounded (fst (ServerCostSystem.spend p amount)).
Proof. unfold ServerCostSystem.spend. now destruct (Js.geb _ _). Qed.

Lemma castle_upgradeMax (p : PlayerSchema.t) :
  Castle.bounded p -> Castle.bounded (fst (ServerCostSystem.upgradeMax p)).
Proof.
  unfold ServerCostSystem.upgradeMax. cbv zeta.
  repeat match goal with
         | |- context [match ?x with _ => _ end] => destruct x
         end; auto.
Qed.

Lemma move_vitals (lapse : Q -> Prop) (cs cs' : ServerCombatSystem.t) :
  Forall Catalog.sane allies ->
  Vital.allSound cs /\ Castle.allBounded cs ->
  move allies lapse cs cs' ->
  Vital.allSound cs' /\ Castle.allBounded cs'.
Proof.
  unfold Castle.allBounded. intros Hall [Hs Hb] Hm.
  destruct Hm as [st _ Hp _|client player _ _ Hc Hmax|client|client player Hg
                 |client player definition Hg _|client player Hg|player unitId stamp
                 |d _|d _];
    fields.
  - split; [exact Hs | now rewrite Hp].
  - split; [exact Hs|]. apply Forall_values_set; [|exact Hb].
    unfold Castle.bounded, ServerCostSystem.initialize. fields.
    rewrite Hc, Hmax. unfold CASTLE_HP. split; lra.
  - split; [exact Hs | now apply Forall_values_delete].
  - split; [exact Hs|]. apply Forall_values_set; [|exact Hb].
    exact (Forall_values_get _ _ _ _ Hb Hg).
  - split; [exact Hs|]. apply Forall_values_set; [|exact Hb].
    apply castle_spend. exact (Forall_values_get _ _ _ _ Hb Hg).
  - split; [exact Hs|]. apply Forall_values_set; [|exact Hb].
    apply castle_upgradeMax. exact (Forall_values_get _ _ _ _ Hb Hg).
  - split; [now apply spawnUnit_allSound|].
    pose proof (playersOf_spawnUnit allies cs player unitId stamp) as Hp.
    unfold Seats.playersOf in Hp. now rewrite Hp.
  - split; [exact Hs|]. unfold Js.values in *. rewrite map_map. cbn [snd].
    rewrite Forall_map in Hb |- *. revert Hb. apply Forall_impl. intros [k p] H. exact H.
  - split; [now apply update_allSound|].
    exact (bounded_wornPlayers _ _ (update_wornPlayers cs d Hs) Hb).
Qed.

(** *** Kill counts *)

Lemma move_killCounts (lapse : Q -> Prop) (cs cs' : ServerCombatSystem.t) (sid : string) :
  move allies lapse cs cs' -> (getKillCount cs sid <= getKillCount cs' sid)%Z.
Proof.
  intro Hm.
  destruct Hm as [st _ _ _|client player _ _ _ _|client|client player _
                 |client player definition _ _|client player _|player unitId stamp
                 |d _|d _];
    try (unfold getKillCount; cbn; lia).
  - unfold spawnUnit, getKillCount.
    destruct (Units.getUnitDefinition allies unitId); [|cbn; lia].
    destruct (getPlayerSide cs (PlayerSchema.sessionId player)); cbn; lia.
  - apply update_killCounts.
Qed.

Lemma moves_killCounts (lapse : Q -> Prop) (cs cs' : ServerCombatSystem.t) (sid : string) :
  moves allies lapse cs cs' -> (getKillCount cs sid <= getKillCount cs' sid)%Z.
Proof.
  intro H. induction H as [|x y _ IH Hm]; [lia|].
  pose proof (move_killCounts lapse _ _ sid Hm). lia.
Qed.

End RoomInvariants.

(** ** Keeping time *)

Section RoomClock.
Import BattleRoom ServerCombatSystem Moves Steps Clock.
Variable allies : list UnitDefinition.t.

Ltac split_match :=
  match goal with
  | |- context [match ?x with _ => _ end] => destruct x
  end.

Lemma paced_same (t : Z) (r r' : BattleRoom.t) :
  gameLoop r' = gameLoop r ->
  lastUpdateTime r' = lastUpdateTime r ->
  BattleState.gameSpeed (BattleRoom.state r') = BattleState.gameSpeed (BattleRoom.state r) ->
  paced t r -> paced t r'.
Proof. unfold paced. intros -> -> ->. auto. Qed.

Lemma paced_later (t t' : Z) (r : BattleRoom.t) :
  (t <= t')%Z -> paced t r -> paced t' r.
Proof. unfold paced. intros Ht [H1 H2]. split; [|exact H2]. intro Hg. specialize (H1 Hg). lia. Qed.

Lemma paced_recalculateGameSpeed (t : Z) (r : BattleRoom.t) :
  paced t r -> paced t (recalculateGameSpeed r).
Proof.
  unfold paced, recalculateGameSpeed. cbv zeta. intros [H1 H2].
  repeat split_match; fields; (split; [exact H1 | lia]).
Qed.

Lemma paced_stopGameLoop (t : Z) (r : BattleRoom.t) :
  paced t r -> paced t (stopGameLoop r).
Proof.
  unfold paced, stopGameLoop. intros [H1 H2].
  destruct (gameLoop r) eqn:E; fields; [|rewrite E; auto].
  split; [discriminate | exact H2].
Qed.

Lemma paced_onJoin (t : Z) (r : BattleRoom.t) (client : string)
    (options : JoinOptions) (now : Z) :
  paced t r -> paced t (onJoin allies r client options now).
Proof.
  intro Hp. unfold onJoin.
  destruct (Js.size (BattleState.players (BattleRoom.state r)) >=? 2)%Z;
    [exact Hp|].
  cbv zeta.
  match goal with
  | |- paced t (if ?c then emit Lock ?x else ?x) =>
      assert (Hx : paced t x); [|destruct c; [revert Hx; apply paced_same; reflexivity | exact Hx]]
  end.
  match goal with
  | |- paced t (emit _ (emit _ (emit _ (if ?c then set_metadata ?m ?x else ?x)))) =>
      assert (Hx : paced t x);
      [|destruct c; revert Hx; apply paced_same; reflexivity]
  end.
  apply paced_recalculateGameSpeed. revert Hp. apply paced_same; reflexivity.
Qed.

Lemma paced_onLeave (t : Z) (r : BattleRoom.t) (client : string) (consented : bool) :
  paced t r -> paced t (onLeave r client consented).
Proof.
  intro Hp. unfold onLeave. cbv zeta.
  apply paced_recalculateGameSpeed.
  match goal with
  | |- context [Js.delete client (BattleState.players (BattleRoom.state ?x))] =>
      assert (Hx : paced t x);
      [|set (verdict := x) in *; clearbody verdict;
        revert Hx; apply paced_same; reflexivity]
  end.
  destruct (_ || _)%bool; [|exact Hp].
  destruct (Js.get client _); [|exact Hp].
  apply paced_stopGameLoop.
  match goal with
  | |- paced t (BattleRoom.set_state (BattleState.set_phase _ _) ?x) =>
      assert (Hx : paced t x); [|revert Hx; apply paced_same; reflexivity]
  end.
  match goal with
  | |- context [fold_left ?f ?l r] =>
      assert (Hfold : forall l' (x : BattleRoom.t), paced t x -> paced t (fold_left f l' x))
  end.
  { induction l' as [|kv l' IH]; intros x Hx; cbn [fold_left]; [exact Hx|].
    apply IH. destruct (negb _); [|exact Hx].
    revert Hx. apply paced_same; reflexivity. }
  apply Hfold, Hp.
Qed.

Lemma paced_handleReady (t : Z) (r : BattleRoom.t) (client : string) :
  paced t r -> paced t (handleReady r client).
Proof.
  intro Hp. unfold handleReady.
  destruct (Js.get client _); [|exact Hp]. cbv zeta.
  destruct (_ && _)%bool; revert Hp; apply paced_same; reflexivity.
Qed.

Lemma gameSpeed_spawnUnit (cs : ServerCombatSystem.t) (p : PlayerSchema.t)
    (unitId stamp : string) :
  BattleState.gameSpeed (state (fst (spawnUnit allies cs p unitId stamp)))
  = BattleState.gameSpeed (state cs).
Proof. unfold spawnUnit. cbv zeta. repeat split_match; reflexivity. Qed.

Lemma paced_handleSummon (t : Z) (r : BattleRoom.t) (client unitId stamp : string) :
  paced t r -> paced t (handleSummon allies r client unitId stamp).
Proof.
  intro Hp. unfold handleSummon.
  destruct (negb _); [exact Hp|].
  destruct (Js.get client (BattleState.players (BattleRoom.state r))) as [player|];
    [|exact Hp].
  destruct (Units.getUnitDefinition allies unitId) as [definition|]; [|exact Hp].
  destruct (negb _); [exact Hp|].
  destruct (match Js.get client (spawnCooldowns r) with
            | Some cooldowns => _ | None => false end); [exact Hp|].
  destruct (negb _); [exact Hp|].
  cbv zeta.
  match goal with
  | |- context [spawnUnit ?a ?cs ?p ?u ?s] =>
      pose proof (gameSpeed_spawnUnit cs p u s) as Hsp;
      destruct (spawnUnit a cs p u s) as [combat iid]
  end.
  cbn [fst] in Hsp. fields_in Hsp.
  assert (Hc : paced t (set_combatSystem combat r)).
  { revert Hp. apply paced_same; try reflexivity. unfold BattleRoom.state. fields.
    exact Hsp. }
  repeat split_match; revert Hc; apply paced_same; reflexivity.
Qed.

Lemma paced_handleUpgradeCost (t : Z) (r : BattleRoom.t) (client : string) :
  paced t r -> paced t (handleUpgradeCost r client).
Proof.
  intro Hp. unfold handleUpgradeCost.
  repeat split_match; exact Hp.
Qed.

Lemma paced_handleSpeedVote (t : Z) (r : BattleRoom.t) (client : string)
    (enabled : option bool) :
  paced t r -> paced t (handleSpeedVote r client enabled).
Proof.
  intro Hp. unfold handleSpeedVote. cbv zeta.
  destruct (negb _); [exact Hp|].
  apply paced_recalculateGameSpeed. revert Hp. apply paced_same; reflexivity.
Qed.

Lemma paced_countdownCallback (t now : Z) (r : BattleRoom.t) :
  (t <= now)%Z -> paced t r -> paced now (countdownCallback r now).
Proof.
  intros Ht Hp. unfold countdownCallback, startGame. cbv zeta.
  destruct (_ <=? 0)%Z.
  - destruct Hp as [_ H2]. split; fields; [lia | exact H2].
  - apply (paced_later t now _ Ht). revert Hp. apply paced_same; reflexivity.
Qed.

Lemma change_gameSpeed (cs cs' : ServerCombatSystem.t) :
  change cs cs' ->
  BattleState.gameSpeed (state cs') = BattleState.gameSpeed (state cs).
Proof. intro Hc. destruct Hc; reflexivity. Qed.

Lemma update_gameSpeed (cs : ServerCombatSystem.t) (d : Q) :
  BattleState.gameSpeed (state (update cs d)) = BattleState.gameSpeed (state cs).
Proof.
  pose proof (changes_update cs d) as H.
  induction H as [|x y _ IH Hc]; [reflexivity|].
  now rewrite (change_gameSpeed _ _ Hc).
Qed.

Lemma paced_tick (t now : Z) (r : BattleRoom.t) :
  paced t r -> paced now (tick r now).
Proof.
  intros [_ H2]. split.
  - intros _. rewrite tick_unfold. cbv zeta.
    destruct (Phase_eqb _ finished); [|fields; lia].
    fields.
    match goal with
    | |- (lastUpdateTime (saveBattleResult (stopGameLoop ?x)) <= now)%Z =>
        destruct (stopGameLoop_fields x) as (_ & _ & _ & _ & Hl & _);
        set (stopped := stopGameLoop x) in *; clearbody stopped
    end.
    fields_in Hl. unfold saveBattleResult. repeat split_match; fields; lia.
  - unfold BattleRoom.state. rewrite combatSystem_tick, update_gameSpeed.
    exact H2.
Qed.

Lemma paced_step (t t' : Z) (r : BattleRoom.t) (e : Event) :
  (t <= t')%Z -> (forall now, time e = Some now -> now = t') ->
  paced t r -> paced t' (step allies r e).
Proof.
  intros Ht He Hp. destruct e; cbn [step].
  - apply (paced_later t t' _ Ht). now apply paced_onJoin.
  - apply (paced_later t t' _ Ht). now apply paced_onLeave.
  - apply (paced_later t t' _ Ht). now apply paced_handleReady.
  - apply (paced_later t t' _ Ht). now apply paced_handleSummon.
  - apply (paced_later t t' _ Ht). now apply paced_handleUpgradeCost.
  - apply (paced_later t t' _ Ht). now apply paced_handleSpeedVote.
  - rewrite <- (He now eq_refl) in *.
    destruct (countdownInterval r); [now apply (paced_countdownCallback t) |].
    now apply (paced_later t now).
  - rewrite <- (He now eq_refl) in *.
    destruct (gameLoop r); [now apply (paced_tick t) | now apply (paced_later t now)].
Qed.

Lemma adjustedDelta_nonneg (t now : Z) (r : BattleRoom.t) :
  paced t r -> gameLoop r = true -> (t <= now)%Z -> 0 <= Tick.adjustedDelta r now.
Proof.
  intros [H1 H2] Hg Ht. specialize (H1 Hg). unfold Tick.adjustedDelta.
  change 0 with (inject_Z 0). rewrite <- Zle_Qle.
  destruct (_ =? 0)%Z; nia.
Qed.

(** A trace with a clock that does not run backwards is a run of moves in
    which no negative time passes. *)
Lemma clocked_run (I : ServerCombatSystem.t -> Prop) :
  (forall cs cs', I cs -> move allies (fun d => 0 <= d) cs cs' -> I cs') ->
  forall trace t r,
    clocked t trace -> paced t r -> I (combatSystem r) ->
    I (combatSystem (run allies r trace)).
Proof.
  intro Hmove. unfold run.
  induction trace as [|e trace IH]; intros t r Hc Hp Hi; cbn [fold_left]; [exact Hi|].
  assert (Hi' : forall now, (t <= now)%Z -> (time e = Some now \/ time e = None) ->
                            I (combatSystem (step allies r e))).
  { intros now Ht Htime.
    apply (moves_keep allies (fun d => 0 <= d) I Hmove (combatSystem r)); [|exact Hi].
    eapply moves_lapse; [|apply moves_step_event].
    intros d (now' & -> & Hg & ->). cbn [time] in Htime.
    destruct Htime as [Hn|Hn]; [|discriminate]. injection Hn as ->.
    now apply (adjustedDelta_nonneg t). }
  cbn [clocked] in Hc. destruct (time e) as [now|] eqn:Et.
  - destruct Hc as [Ht Hc]. apply (IH now); [exact Hc | |].
    + apply (paced_step t now); [exact Ht | | exact Hp].
      intros n Hn. congruence.
    + apply (Hi' now Ht). now left.
  - apply (IH t); [exact Hc | |].
    + apply (paced_step t t); [lia | | exact Hp]. intros n Hn. congruence.
    + apply (Hi' t); [lia | now right].
Qed.

End RoomClock.

(** ** Costs and the lane *)

Section RoomBudget.
Import BattleRoom ServerCombatSystem Moves Steps.
Variable allies : list UnitDefinition.t.
Hypothesis sane_allies : Forall Catalog.sane allies.

Lemma costInvariant_worn (p p' : PlayerSchema.t) :
  Siege.worn p p' ->
  ServerCostSystem.costInvariant p -> ServerCostSystem.costInvariant p'.
Proof.
  unfold Siege.worn, ServerCostSystem.costInvariant. intros [He _].
  pose proof (f_equal PlayerSchema.cost He) as H1.
  pose proof (f_equal PlayerSchema.maxCost He) as H2.
  pose proof (f_equal PlayerSchema.costLevel He) as H3.
  fields_in H1. fields_in H2. fields_in H3. now rewrite H1, H2, H3.
Qed.

Lemma costInvariant_wornPlayers (m m' : Js.map PlayerSchema.t) :
  Siege.wornPlayers m m' ->
  Forall ServerCostSystem.costInvariant (Js.values m) ->
  Forall ServerCostSystem.costInvariant (Js.values m').
Proof.
  unfold Siege.wornPlayers, Js.values. intro H.
  induction H as [|kv kv' m m' [_ Hw] Ht IH]; cbn [List.map]; intro Hb; [constructor|].
  inversion Hb; subst. constructor; [now apply (costInvariant_worn (snd kv)) | auto].
Qed.

Lemma move_costs (cs cs' : ServerCombatSystem.t) :
  Vital.allSound cs /\
  Forall ServerCostSystem.costInvariant (Js.values (BattleState.players (state cs))) ->
  move allies (fun d => 0 <= d) cs cs' ->
  Vital.allSound cs' /\
  Forall ServerCostSystem.costInvariant (Js.values (BattleState.players (state cs'))).
Proof.
  intros [Hs Hb] Hm.
  assert (Hs' : Vital.allSound cs').
  { destruct Hm; try exact Hs;
      [now apply spawnUnit_allSound | now apply update_allSound]. }
  split; [exact Hs'|]. clear Hs'.
  destruct Hm as [st _ Hp _|client player _ _ _ _|client|client player Hg
                 |client player definition Hg Hin|client player Hg|player unitId stamp
                 |d Hd|d Hd];
    fields.
  - now rewrite Hp.
  - apply Forall_values_set; [|exact Hb]. apply initialize_invariant.
  - now apply Forall_values_delete.
  - apply Forall_values_set; [|exact Hb]. exact (Forall_values_get _ _ _ _ Hb Hg).
  - apply Forall_values_set; [|exact Hb].
    apply spend_invariant; [exact (Forall_values_get _ _ _ _ Hb Hg)|].
    now destruct (sane_In allies definition sane_allies Hin) as [H _].
  - apply Forall_values_set; [|exact Hb].
    apply upgradeMax_invariant. exact (Forall_values_get _ _ _ _ Hb Hg).
  - pose proof (playersOf_spawnUnit allies cs player unitId stamp) as Hp.
    unfold Seats.playersOf in Hp. now rewrite Hp.
  - unfold Js.values in *. rewrite map_map. cbn [snd].
    rewrite Forall_map in Hb |- *. revert Hb. apply Forall_impl. intros [k p] H.
    now apply update_invariant.
  - exact (costInvariant_wornPlayers _ _ (update_wornPlayers cs d Hs) Hb).
Qed.

Lemma steady_allies : Forall Lane.steady allies.
Proof.
  revert sane_allies. apply Forall_impl. intros d (_ & _ & _ & H1 & H2). now split.
Qed.

Lemma move_lane (cs cs' : ServerCombatSystem.t) :
  Lane.onLane cs -> move allies (fun d => 0 <= d) cs cs' -> Lane.onLane cs'.
Proof.
  intros Hl Hm.
  destruct Hm as [st Hsl _ _|client player _ _ _ _|client|client player Hg
                 |client player definition Hg Hin|client player Hg|player unitId stamp
                 |d Hd|d Hd];
    try exact Hl.
  - unfold Lane.onLane in *. fields. now rewrite Hsl.
  - apply spawnUnit_keeps_units_on_lane; [apply steady_allies | exact Hl].
  - now apply update_keeps_units_on_lane.
Qed.

End RoomBudget.

(** X24: in every room that the events build from a new room, the replicated
    units list the simulator's units entry by entry: the same instance ids in
    the same order, each the instance id of the unit it holds, none held
    twice, and each replica with the definition, the side and the maximal hit
    points of its unit. *)
Theorem rooms_keep_the_roster (allies : list UnitDefinition.t) (r : BattleRoom.t) :
  Seats.reachable allies r -> Roster.kept (BattleRoom.combatSystem r).
Proof.
  apply (reachable_keeps allies Roster.kept).
  - intro now. split; cbn; constructor.
  - intros cs cs'. apply move_kept.
Qed.

Lemma rooms_keep_the_roster_witness :
  Roster.kept
    (BattleRoom.combatSystem
       (BattleRoom.run Example.allies Example.started
          [BattleRoom.Summon "alice" "sword" "7_a"; BattleRoom.GameLoopTimer 3050%Z;
           BattleRoom.Summon "bob" "sword" "8_b"; BattleRoom.GameLoopTimer 3100%Z])).
Proof.
  apply (rooms_keep_the_roster Example.allies).
  exists 0%Z.
  exists ([BattleRoom.Join "alice" (Example.options ["sword"; "giant"]) 1%Z;
           BattleRoom.Join "bob" (Example.options ["sword"]) 2%Z]
          ++ [BattleRoom.Ready "alice"; BattleRoom.Ready "bob"]
          ++ [BattleRoom.CountdownTimer 1000%Z; BattleRoom.CountdownTimer 2000%Z;
              BattleRoom.CountdownTimer 3000%Z]
          ++ [BattleRoom.Summon "alice" "sword" "7_a"; BattleRoom.GameLoopTimer 3050%Z;
              BattleRoom.Summon "bob" "sword" "8_b"; BattleRoom.GameLoopTimer 3100%Z])%list.
  unfold BattleRoom.run at 2. rewrite !fold_left_app. reflexivity.
Defined.

(** X25: with a catalog that holds no negative number, in every room that
    the events build from a new room the hit points of every unit lie between
    zero and its maximum, a unit in state DIE has none left, no unit has a
    negative attack damage, and the castle of every player stands between zero
    and its maximum. *)
Theorem rooms_keep_hit_points_in_bounds (allies : list UnitDefinition.t)
    (r : BattleRoom.t) :
  Forall Catalog.sane allies ->
  Seats.reachable allies r ->
  Vital.allSound (BattleRoom.combatSystem r) /\
  Castle.allBounded (BattleRoom.combatSystem r).
Proof.
  intro Hall.
  apply (reachable_keeps allies (fun cs => Vital.allSound cs /\ Castle.allBounded cs)).
  - intro now. split; constructor.
  - intros cs cs' H Hm. exact (move_vitals allies _ cs cs' Hall H Hm).
Qed.

Lemma rooms_keep_hit_points_in_bounds_witness :
  Vital.allSound (BattleRoom.combatSystem Example.started) /\
  Castle.allBounded (BattleRoom.combatSystem Example.started).
Proof.
  apply (rooms_keep_hit_points_in_bounds Example.allies).
  - unfold Example.allies, Catalog.sane.
    repeat constructor; cbn; discriminate.
  - exists 0%Z.
    exists ([BattleRoom.Join "alice" (Example.options ["sword"; "giant"]) 1%Z;
             BattleRoom.Join "bob" (Example.options ["sword"]) 2%Z]
            ++ [BattleRoom.Ready "alice"; BattleRoom.Ready "bob"]
            ++ [BattleRoom.CountdownTimer 1000%Z; BattleRoom.CountdownTimer 2000%Z;
                BattleRoom.CountdownTimer 3000%Z])%list.
    unfold BattleRoom.run. rewrite !fold_left_app. reflexivity.
Defined.

(** X26: no event of the room lowers a kill count: along every trace, from
    every room, the kill count of every session is at least what it was. *)
Theorem kill_counts_never_fall (allies : list UnitDefinition.t) (r : BattleRoom.t)
    (trace : list BattleRoom.Event) (sessionId : string) :
  (ServerCombatSystem.getKillCount (BattleRoom.combatSystem r) sessionId
   <= ServerCombatSystem.getKillCount
        (BattleRoom.combatSystem (BattleRoom.run allies r trace)) sessionId)%Z.
Proof.
  revert r. unfold BattleRoom.run.
  induction trace as [|e trace IH]; intro r; cbn [fold_left]; [lia|].
  specialize (IH (BattleRoom.step allies r e)).
  pose proof (moves_killCounts allies _ _ _ sessionId (moves_step_event allies r e)).
  lia.
Qed.

(** X27: with a catalog that holds no negative number and a clock that does
    not run backwards, every room that the events build from a new room keeps
    the cost invariant for every player and every unit inside the lane. *)
Theorem clocked_rooms_keep_costs_and_lane (allies : list UnitDefinition.t)
    (now t : Z) (trace : list BattleRoom.Event) :
  Forall Catalog.sane allies ->
  Clock.clocked t trace ->
  Forall ServerCostSystem.costInvariant
         (Js.values
            (BattleState.players
               (BattleRoom.state (BattleRoom.run allies (BattleRoom.onCreate now) trace)))) /\
  Lane.onLane (BattleRoom.combatSystem (BattleRoom.run allies (BattleRoom.onCreate now) trace)).
Proof.
  intros Hall Hc.
  assert (Hp : Clock.paced t (BattleRoom.onCreate now)) by (split; [discriminate | cbn; lia]).
  split.
  - apply (clocked_run allies
             (fun cs => Vital.allSound cs /\
                        Forall ServerCostSystem.costInvariant
                               (Js.values (BattleState.players (ServerCombatSystem.state cs))))
             (move_costs allies Hall) trace t _ Hc Hp).
    split; constructor.
  - apply (clocked_run allies Lane.onLane
             (fun cs cs' => move_lane allies Hall cs cs') trace t _ Hc Hp).
    split; [cbn; discriminate | constructor].
Qed.

Lemma clocked_rooms_keep_costs_and_lane_witness :
  Forall ServerCostSystem.costInvariant
         (Js.values
            (BattleState.players
               (BattleRoom.state
                  (BattleRoom.run Example.allies (BattleRoom.onCreate 0)
                     [BattleRoom.Join "alice" (Example.options ["sword"; "giant"]) 1%Z;
                      BattleRoom.Join "bob" (Example.options ["sword"]) 2%Z;
                      BattleRoom.Ready "alice"; BattleRoom.Ready "bob";
                      BattleRoom.CountdownTimer 1000%Z; BattleRoom.CountdownTimer 2000%Z;
                      BattleRoom.CountdownTimer 3000%Z;
                      BattleRoom.Summon "alice" "sword" "7_a";
                      BattleRoom.GameLoopTimer 3050%Z])))) /\
  Lane.onLane
    (BattleRoom.combatSystem
       (BattleRoom.run Example.allies (BattleRoom.onCreate 0)
          [BattleRoom.Join "alice" (Example.options ["sword"; "giant"]) 1%Z;
           BattleRoom.Join "bob" (Example.options ["sword"]) 2%Z;
           BattleRoom.Ready "alice"; BattleRoom.Ready "bob";
           BattleRoom.CountdownTimer 1000%Z; BattleRoom.CountdownTimer 2000%Z;
           BattleRoom.CountdownTimer 3000%Z;
           BattleRoom.Summon "alice" "sword" "7_a";
           BattleRoom.GameLoopTimer 3050%Z])).
Proof.
  apply (clocked_rooms_keep_costs_and_lane Example.allies 0%Z 0%Z).
  - unfold Example.allies, Catalog.sane.
    repeat constructor; cbn; discriminate.
  - cbn. lia.
Defined.

(** X28: [update] leaves the players as they are but for their castles, and
    where no unit has hit points out of bounds or a negative attack damage, a
    castle that stood at zero or more only loses hit points, never below
    zero. *)
Theorem update_only_wears_castles (cs : ServerCombatSystem.t) (deltaMs : Q) :
  Vital.allSound cs ->
  Siege.wornPlayers
    (BattleState.players (ServerCombatSystem.state cs))
    (BattleState.players (ServerCombatSystem.state (ServerCombatSystem.update cs deltaMs))).
Proof. apply update_wornPlayers. Qed.

Lemma update_only_wears_castles_witness :
  Siege.wornPlayers
    (BattleState.players (ServerCombatSystem.state ExampleTick.beforeKill))
    (BattleState.players
       (ServerCombatSystem.state (ServerCombatSystem.update ExampleTick.beforeKill 50))).
Proof.
  apply (update_only_wears_castles ExampleTick.beforeKill 50).
  unfold Vital.allSound, Vital.sound.
  repeat constructor; cbn; discriminate.
Defined.

(** X29: [update] creates no unit and changes the identity of none: every
    unit it leaves in the simulator was there before under the same key, with
    the same instance id, definition, side, maximal hit points and width. *)
Theorem update_creates_no_unit (cs : ServerCombatSystem.t) (deltaMs : Q) :
  Forall (fun ku' =>
            exists u, In (fst ku', u) (ServerCombatSystem.serverUnits cs) /\
                      Steps.sameIdentity u (snd ku'))
         (ServerCombatSystem.serverUnits (ServerCombatSystem.update cs deltaMs)).
Proof.
  apply Forall_forall. intros [k u'] Hin. cbn [fst snd].
  exact (update_identity cs deltaMs k u' Hin).
Qed.

(** ** The quick and the dead *)

Section Hale.
Import ServerCombatSystem Steps Vital.
Variable allies : list UnitDefinition.t.

Ltac split_match :=
  match goal with
  | |- context [match ?x with _ => _ end] => destruct x
  end.

Lemma hale_get (cs : t) (k : string) (u : ServerUnit.t) :
  allHale cs -> Js.get k (serverUnits cs) = Some u -> hale k u.
Proof.
  intros H Hg.
  exact (Forall_get (fun ku => hale (fst ku) (snd ku)) k u _ H Hg).
Qed.

Lemma hale_put (cs : t) (k : string) (u : ServerUnit.t) :
  allHale cs -> hale k u -> allHale (putUnit cs k u).
Proof.
  intros H Hu. unfold allHale. cbn. apply Forall_set; [exact Hu | exact H].
Qed.

(** A write that keeps the hit points and the target, and does not raise
    the dead. *)
Lemma hale_as (k : string) (u u' : ServerUnit.t) :
  ServerUnit.hp u' = ServerUnit.hp u ->
  ServerUnit.targetId u' = ServerUnit.targetId u ->
  (ServerUnit.state u = DIE -> ServerUnit.state u' = DIE) ->
  hale k u -> hale k u'.
Proof.
  unfold hale. intros Hhp Ht Hd [Hq Hs]. rewrite Hhp, Ht. split; [|exact Hs].
  intro Hlive. apply Hq. intro Hdead. exact (Hlive (Hd Hdead)).
Qed.

Lemma hale_setUnitState (cs : t) (k : string) (st : UnitState) :
  (forall u, Js.get k (serverUnits cs) = Some u ->
             ServerUnit.state u = DIE -> st = DIE) ->
  allHale cs -> allHale (setUnitState cs k st).
Proof.
  intros Hst H. unfold setUnitState.
  destruct (Js.get k (serverUnits cs)) as [u|] eqn:E; [|exact H].
  apply hale_put; [exact H|].
  apply (hale_as k u); try reflexivity; [|exact (hale_get _ _ _ H E)].
  fields. exact (Hst u eq_refl).
Qed.

Lemma hale_struck (k : string) (sl : Q) (u : ServerUnit.t) (damage knockback : Q) :
  hale k u -> hale k (struck sl u damage knockback).
Proof.
  unfold hale, struck. intros [_ Hs].
  destruct (Js.leb (ServerUnit.hp u - damage) 0) eqn:El.
  - unfold Outcome.killed, Outcome.hit. fields. split; [|exact Hs].
    intro H. now contradiction H.
  - apply leb_gt in El.
    destruct (Outcome.knockbackFires u damage);
      unfold Outcome.knockedBack, Outcome.hit; fields; (split; [|exact Hs]);
      intros _; exact El.
Qed.

Lemma hale_applyDamage (cs : t) (k : string) (u : ServerUnit.t)
    (damage knockback : Q) (side : Side) :
  Js.get k (serverUnits cs) = Some u -> ServerUnit.state u <> DIE ->
  allHale cs -> allHale (applyDamage cs k damage knockback (Some side)).
Proof.
  intros Hu Hlive H.
  pose proof (hale_put cs k _ H
                (hale_struck k (BattleState.stageLength (state cs)) u damage knockback
                   (hale_get _ _ _ H Hu))) as Hp.
  destruct (applyDamage_struck cs k u damage knockback side Hu Hlive) as [-> | [sid ->]];
    exact Hp.
Qed.

Lemma liveTarget_targetId (cs : t) (a target : ServerUnit.t) (tid : string) :
  liveTarget cs a = Some (tid, target) -> ServerUnit.targetId a = Some tid.
Proof.
  unfold liveTarget, targetOf.
  destruct (ServerUnit.targetId a) as [tid'|]; [|discriminate].
  destruct (Js.truthy tid'); [|discriminate].
  destruct (Js.get tid' (serverUnits cs)) as [u|]; [|discriminate].
  destruct (negb _); [|discriminate]. intro H. now injection H as -> _.
Qed.

Lemma hale_dealDamage (cs : t) (k : string) :
  allHale cs -> allHale (dealDamage cs k).
Proof.
  intro H. unfold dealDamage.
  destruct (Js.get k (serverUnits cs)) as [a|] eqn:Ea; [|exact H].
  destruct (liveTarget cs a) as [[tid target]|] eqn:El.
  - destruct (liveTarget_found _ _ _ _ El) as [Ht Hlive].
    now apply (hale_applyDamage cs tid target).
  - cbv zeta. repeat split_match; exact H.
Qed.

(** The attacker is not its own target: it comes out of its attack as it
    went in. *)
Lemma dealDamage_attacker (cs : t) (k : string) (a : ServerUnit.t) :
  Js.get k (serverUnits cs) = Some a -> ServerUnit.targetId a <> Some k ->
  Js.get k (serverUnits (dealDamage cs k)) = Some a.
Proof.
  intros Ea Hself. unfold dealDamage. rewrite Ea.
  destruct (liveTarget cs a) as [[tid target]|] eqn:El.
  - destruct (liveTarget_found _ _ _ _ El) as [Ht Hlive].
    assert (Hne : k <> tid).
    { intros ->. apply Hself. exact (liveTarget_targetId _ _ _ _ El). }
    destruct (applyDamage_struck cs tid target
                (UnitDefinition.attackDamage (ServerUnit.definition a))
                (UnitDefinition.knockback (ServerUnit.definition a))
                (ServerUnit.side a) Ht Hlive) as [-> | [sid ->]];
      cbn; now rewrite get_set_other.
  - cbv zeta. repeat split_match; exact Ea.
Qed.

Lemma hale_updateUnitState (cs : t) (k : string) (d : Q) :
  allHale cs -> allHale (updateUnitState cs k d).
Proof.
  intro H. unfold updateUnitState.
  destruct (Js.get k (serverUnits cs)) as [u|] eqn:E; [|exact H].
  assert (Hset : forall st, ServerUnit.state u <> DIE -> allHale (setUnitState cs k st)).
  { intros st Hlive. apply hale_setUnitState; [|exact H].
    intros u' Eu' Hd. rewrite E in Eu'. injection Eu' as <-. contradiction. }
  destruct (ServerUnit.state u) eqn:Es; try exact H.
  - unfold handleSpawn. rewrite E.
    destruct (Js.geb _ _); [apply Hset; discriminate | exact H].
  - unfold handleWalk. rewrite E.
    destruct (match targetOf cs u with
              | Some (_, target) => isInRange u target | None => false end);
      [apply Hset; discriminate|].
    destruct (isInRangeOfEnemyCastle u); [apply Hset; discriminate|].
    destruct (isBlockedByEnemy cs u); [exact H|].
    cbv zeta. apply hale_put; [exact H|].
    apply (hale_as k u); [| | |exact (hale_get _ _ _ H E)];
      destruct (ServerUnit.side u) eqn:Eside; fields; rewrite ?Eside; fields;
      try reflexivity; rewrite Es; discriminate.
  - unfold handleAttackWindup. rewrite E.
    destruct (Js.geb _ _); [|exact H].
    destruct (hale_get _ _ _ H E) as [_ Hself].
    apply hale_setUnitState; [|now apply hale_dealDamage].
    intros u' Eu' Hd. rewrite (dealDamage_attacker cs k u E Hself) in Eu'.
    injection Eu' as <-. rewrite Es in Hd. discriminate.
  - unfold handleAttackCooldown. rewrite E.
    destruct (Js.geb _ _); [|exact H]. cbv zeta.
    destruct (match targetOf cs u with
              | Some (_, target) => _ | None => false end);
      [apply Hset; discriminate|].
    destruct (isInRangeOfEnemyCastle u); [apply Hset; discriminate|].
    apply hale_setUnitState.
    + intros u' Eu' Hd. cbn in Eu'. rewrite get_set_same in Eu'.
      injection Eu' as <-. fields_in Hd. rewrite Es in Hd. discriminate.
    + apply hale_put; [exact H|].
      destruct (hale_get _ _ _ H E) as [Hq _]. split; fields; [exact Hq | discriminate].
  - unfold handleHitstun. rewrite E.
    destruct (Js.geb _ _); [apply Hset; discriminate | exact H].
Qed.

Lemma hale_updateUnit (d : Q) (cs : t) (k : string) :
  allHale cs -> allHale (updateUnit d cs k).
Proof.
  intro H. unfold updateUnit.
  destruct (Js.get k (serverUnits cs)) as [u|] eqn:E; [|exact H].
  cbv zeta.
  assert (Hp : allHale (putUnit cs k (ServerUnit.set_stateTimer (ServerUnit.stateTimer u + d) u))).
  { apply hale_put; [exact H|].
    apply (hale_as k u); try reflexivity; [auto | exact (hale_get _ _ _ H E)]. }
  assert (Hs : forall x, allHale x -> allHale (syncSchema x k)).
  { intros x Hx. unfold syncSchema. repeat split_match; exact Hx. }
  apply Hs. destruct (negb _); [now apply hale_updateUnitState | exact Hp].
Qed.

Lemma hale_clampUnitPosition (cs : t) (k : string) :
  allHale cs -> allHale (clampUnitPosition cs k).
Proof.
  intro H. unfold clampUnitPosition.
  destruct (Js.get k (serverUnits cs)) as [u|] eqn:E; [|exact H].
  cbv zeta. apply hale_put; [exact H|].
  apply (hale_as k u); [| | |exact (hale_get _ _ _ H E)];
    destruct (ServerUnit.side u); fields; auto.
Qed.

Lemma hale_collidePair (cs : t) (a b : string) :
  allHale cs -> allHale (collidePair cs a b).
Proof.
  intro H. unfold collidePair.
  destruct (Js.get a (serverUnits cs)) as [ua|] eqn:Ea; [|exact H].
  destruct (Js.get b (serverUnits cs)) as [ub|] eqn:Eb; [|exact H].
  destruct (negb _); [exact H|]. cbv zeta.
  destruct (Js.ltb _ _ && Js.gtb _ 0)%bool; [|exact H].
  assert (Hfinal : forall xa xb : Q,
    allHale
      (clampUnitPosition
         (clampUnitPosition
            (putUnit (putUnit cs a (ServerUnit.set_x xa ua)) b (ServerUnit.set_x xb ub)) a)
         b)).
  { intros xa xb. apply hale_clampUnitPosition, hale_clampUnitPosition.
    apply hale_put; [apply hale_put; [exact H|]|].
    - apply (hale_as a ua); try reflexivity; [auto | exact (hale_get _ _ _ H Ea)].
    - apply (hale_as b ub); try reflexivity; [auto | exact (hale_get _ _ _ H Eb)]. }
  destruct (Js.ltb (ServerUnit.x ua) (ServerUnit.x ub)); apply Hfinal.
Qed.

Lemma hale_collideWith (a : string) (rest : list string) :
  forall cs, allHale cs -> allHale (collideWith cs a rest).
Proof.
  induction rest as [|b rest IH]; intros cs H; cbn; [exact H|].
  now apply IH, hale_collidePair.
Qed.

Lemma hale_collideAll (units : list string) :
  forall cs, allHale cs -> allHale (collideAll cs units).
Proof.
  induction units as [|a rest IH]; intros cs H; cbn; [exact H|].
  now apply IH, hale_collideWith.
Qed.

(** Where the units are held under their instance ids, none twice, the
    target that [findTarget] picks for a unit is another unit. *)
Lemma findTarget_other (cs : t) (k : string) (u : ServerUnit.t) :
  Roster.kept cs -> Js.get k (serverUnits cs) = Some u -> findTarget cs u <> Some k.
Proof.
  intros [Hnd Hf] Eu Hfind.
  destruct (findTarget_some cs u k Hfind) as (c & Hin & Hid & Hc).
  assert (Hnamed : forall k' u', In (k', u') (serverUnits cs) ->
                                 ServerUnit.instanceId u' = k').
  { clear - Hf. induction Hf as [|ku ks m n [_ [Hi _]] _ IH]; intros k' u' Hin;
      [contradiction|].
    destruct Hin as [->|Hin]; [exact Hi | now apply IH]. }
  unfold Js.values in Hin. apply in_map_iff in Hin. destruct Hin as ([kc c'] & Hc' & Hin).
  cbn in Hc'. subst c'.
  pose proof (Hnamed _ _ Hin) as Hkc. rewrite Hid in Hkc. subst kc.
  pose proof (NoDup_In_get _ _ _ Hnd Hin) as Eg. rewrite Eu in Eg. injection Eg as <-.
  unfold Targeting.candidate in Hc.
  destruct (ServerUnit.side u); cbn in Hc; discriminate.
Qed.

Lemma hale_assignTarget (cs : t) (k : string) :
  Roster.kept cs -> allHale cs -> allHale (assignTarget cs k).
Proof.
  intros Hk H. unfold assignTarget.
  destruct (Js.get k (serverUnits cs)) as [u|] eqn:E; [|exact H].
  destruct (isDIE (ServerUnit.state u)); [exact H|].
  destruct (match targetOf cs u with
            | Some (_, currentTarget) => _ | None => false end); [exact H|].
  apply hale_put; [exact H|].
  destruct (hale_get _ _ _ H E) as [Hq _]. split; fields; [exact Hq|].
  now apply findTarget_other.
Qed.

Lemma hale_assignTargets (l : list string) :
  forall cs, Roster.kept cs -> allHale cs ->
             allHale (fold_left assignTarget l cs).
Proof.
  induction l as [|k l IH]; intros cs Hk H; cbn [fold_left]; [exact H|].
  apply IH; [|now apply hale_assignTarget].
  exact (changes_keep Roster.kept change_kept _ _ (changes_assignTarget cs k) Hk).
Qed.

Lemma hale_fold {A} (f : t -> A -> t) (l : list A) :
  (forall cs a, allHale cs -> allHale (f cs a)) ->
  forall cs, allHale cs -> allHale (fold_left f l cs).
Proof.
  intro Hf. induction l as [|a l IH]; intros cs H; cbn; [exact H|].
  apply IH, Hf, H.
Qed.

Lemma update_hale (cs : t) (d : Q) :
  Roster.kept cs -> allHale cs -> allHale (update cs d).
Proof.
  intros Hk H. unfold update. cbv zeta.
  assert (Hwin : forall x, allHale x -> allHale (checkWinCondition x)).
  { intros x Hx. unfold checkWinCondition. repeat split_match; exact Hx. }
  apply Hwin. unfold cleanupDeadUnits. apply hale_fold.
  { intros x k Hx. unfold allHale. cbn. now apply Forall_delete. }
  unfold assignTargets, resolveUnitCollisions. apply hale_assignTargets.
  - apply (changes_keep Roster.kept change_kept cs); [|exact Hk].
    eapply changes_trans; [|apply changes_collideAll].
    apply changes_fold. intros. apply changes_updateUnit.
  - apply hale_collideAll, hale_fold; [|exact H].
    intros. now apply hale_updateUnit.
Qed.

Lemma spawnUnit_hale (cs : t) (p : PlayerSchema.t) (unitId stamp : string) :
  Forall (fun definition => 0 < UnitDefinition.maxHp definition) allies ->
  allHale cs -> allHale (fst (spawnUnit allies cs p unitId stamp)).
Proof.
  intros Hall H. unfold spawnUnit.
  destruct (Units.getUnitDefinition allies unitId) as [definition|] eqn:Ed; [|exact H].
  destruct (getPlayerSide cs (PlayerSchema.sessionId p)) as [side|]; [|exact H].
  cbv zeta. unfold allHale. cbn.
  apply Forall_set; [|exact H]. split; cbn; [|discriminate].
  intros _. rewrite Forall_forall in Hall. apply Hall. exact (unitsMap_In _ _ _ Ed).
Qed.

Lemma move_hale (lapse : Q -> Prop) (cs cs' : t) :
  Forall (fun definition => 0 < UnitDefinition.maxHp definition) allies ->
  Roster.kept cs /\ allHale cs ->
  Moves.move allies lapse cs cs' ->
  Roster.kept cs' /\ allHale cs'.
Proof.
  intros Hall [Hk H] Hm. split; [exact (move_kept allies lapse cs cs' Hk Hm)|].
  destruct Hm; try exact H; [now apply spawnUnit_hale | now apply update_hale].
Qed.

End Hale.

(** X30: with a catalog in which every unit has hit points, in every room
    that the events build from a new room a unit that is not dead has hit
    points left and no unit is its own target; with a catalog that moreover
    holds no negative number, a unit is in state DIE exactly when its hit
    points are zero. *)
Theorem rooms_tell_the_dead_by_their_hit_points
    (allies : list UnitDefinition.t) (r : BattleRoom.t) :
  Forall (fun definition => 0 < UnitDefinition.maxHp definition) allies ->
  Seats.reachable allies r ->
  Vital.allHale (BattleRoom.combatSystem r) /\
  (Forall Catalog.sane allies ->
   Forall (fun u => ServerUnit.state u = DIE <-> ServerUnit.hp u == 0)
          (Js.values (ServerCombatSystem.serverUnits (BattleRoom.combatSystem r)))).
Proof.
  intros Hall Hr.
  assert (Hh : Vital.allHale (BattleRoom.combatSystem r)).
  { refine (proj2 (reachable_keeps allies
                     (fun cs => Roster.kept cs /\ Vital.allHale cs) _ _ r Hr)).
    - intro now. repeat split; constructor.
    - intros cs cs' H Hm. exact (move_hale allies _ cs cs' Hall H Hm). }
  split; [exact Hh|]. intro Hsane.
  assert (Hs : Vital.allSound (BattleRoom.combatSystem r)).
  { refine (proj1 (reachable_keeps allies
                     (fun cs => Vital.allSound cs /\ Castle.allBounded cs) _ _ r Hr)).
    - intro now. split; constructor.
    - intros cs cs' H Hm. exact (move_vitals allies _ cs cs' Hsane H Hm). }
  unfold Vital.allHale, Vital.allSound, Js.values in *.
  rewrite Forall_map in Hs |- *. rewrite Forall_forall in *.
  intros ku Hin. destruct (Hh ku Hin) as [Hq _]. destruct (Hs ku Hin) as (_ & _ & Hd & _).
  split; [exact Hd|]. intro H0.
  destruct (ServerUnit.state (snd ku)) eqn:Es; try reflexivity;
    (assert (Hlt : 0 < ServerUnit.hp (snd ku)) by (apply Hq; discriminate));
    rewrite H0 in Hlt; exfalso; exact (Qlt_irrefl 0 Hlt).
Qed.

Lemma rooms_tell_the_dead_by_their_hit_points_witness :
  Vital.allHale
    (BattleRoom.combatSystem
       (BattleRoom.run Example.allies (BattleRoom.onCreate 0)
          [BattleRoom.Join "alice" (Example.options ["sword"; "giant"]) 1%Z;
           BattleRoom.Join "bob" (Example.options ["sword"]) 2%Z;
           BattleRoom.Ready "alice"; BattleRoom.Ready "bob";
           BattleRoom.CountdownTimer 1000%Z; BattleRoom.CountdownTimer 2000%Z;
           BattleRoom.CountdownTimer 3000%Z;
           BattleRoom.Summon "alice" "sword" "7_a";
           BattleRoom.GameLoopTimer 3050%Z])).
Proof.
  refine (proj1 (rooms_tell_the_dead_by_their_hit_points Example.allies _ _ _)).
  - unfold Example.allies. repeat constructor.
  - eexists. eexists. reflexivity.
Defined.
